(* ===== verification/_CoqProject ===== *)
-Q . S2P
Prelude.v
Utf8.v
Text.v
Rtp.v
Rtcp.v
Trackers.v
Srtp.v
RecvStream.v
RtpSession.v
SigProtocol.v
SigState.v
SigServer.v
SigLoop.v
H264.v
G711.v
Congestion.v
AppSession.v
Handshake.v
Sdp.v
SdpCodec.v
Net.v
Config.v
UserStore.v
Ice.v
IceTheory.v
StunTheory.v
ConnManager.v
ConnCodec.v
ConnTheory.v
ConnSafety.v
DescText.v
Dtls.v
MediaTransport.v
Sctp.v
SctpTheory.v
SctpDebug.v
FileTransfer.v
SigTransport.v
LinkTheory.v
ServerProcess.v
Startup.v
Logger.v
Engine.v
MediaTheory.v
FileTheory.v
EngineTheory.v
Video.v
Audio.v
MediaAgent.v
AgentTheory.v
Camera.v
AppState.v
App.v
View.v
AppTheory.v
CallTheory.v
AppInv.v
