(* ===== verification/Prelude.v ===== *)
(** * RustyRTC: a verification development

    RustyRTC is a video call application written in Rust: a client with a graphical interface and a
    signaling server. This library models the program (the files under src/src) and proves the
    properties that make it correct.

    ** The program

    A user logs in to the signaling server over a framed message protocol and calls another one. The
    offer and the answer carry session descriptions, from which the ICE agents of the two clients
    learn each other's candidates; when a pair is nominated, a DTLS handshake pinned to the signaled
    fingerprint gives the SRTP keys, and a handshake of the application opens the session. A picture
    of the camera is encoded, cut into payloads, made RTP packets, encrypted and sent; the peer checks
    replay and authenticity, decrypts, puts packets in order, rebuilds the access unit, decodes and
    shows it. Voice takes the same way with a u-law codec, files go over an SCTP data channel, and RTCP
    reports travel back and drive the congestion controller.

    ** The library

    Foundations:
    - [Prelude]: outcomes of Rust code (value, error, panic), machine integers, big-endian octets,
      slicing; the tactics and lemmas shared by all files.
    - [Utf8], [Text], [Net]: Rust strings, the string functions and the text of addresses and numbers.
    - [Config]: src/config.rs, the configuration reader.

    RTP and SRTP:
    - [Rtp], [Rtcp]: src/rtp and src/rtcp, packets and their codecs; the type class [RtcpPacketType]
      stands for the trait of the same name.
    - [Trackers], [RecvStream], [RtpSession]: src/rtp_session, statistics, jitter buffer and receive
      streams, send streams, the session with its inbound loop and reports.
    - [Srtp]: src/srtp, replay window, key derivation and contexts. AES-CTR and HMAC-SHA1 are
      parameters ([keystream], [hmac_sha1]).
    - [H264], [G711]: the H.264 packetizer and depacketizer, the u-law codec.
    - [Congestion]: src/congestion_controller.

    Signaling:
    - [SigProtocol]: src/signaling/protocol, messages, codec and framing.
    - [SigState]: authentication (the backend trait as the class [AuthBackend] with its laws
      [AuthLaws]), presence, sessions; [UserStore]: accounts in a file, the third backend.
    - [SigServer], [SigLoop]: server_engine.rs (parametric in the backend), router.rs, runtime.rs.
    - [SigTransport], [LinkTheory]: the connection threads of the server, the client of
      src/signaling_client, certificates; and what the two ends of a connection exchange.
    - [ServerProcess], [Startup]: signaling_server.rs and src/bin, the whole server process with its
      threads in any interleaving, and how server and client start.

    Connections:
    - [Sdp], [SdpCodec]: src/sdp, and printing against parsing.
    - [Ice], [IceTheory], [StunTheory]: src/ice, candidates, pairs, checks, nomination and STUN.
    - [ConnManager], [ConnCodec], [ConnTheory], [ConnSafety], [DescText]: src/connection_manager, the
      offer/answer exchange between two managers, and what a hostile description can do.
    - [Dtls]: src/dtls. OpenSSL is a record of its answers.
    - [AppSession], [Handshake]: src/core/protocol.rs and session.rs, and two sessions over a network
      that loses, duplicates and reorders.

    Media, files and the application:
    - [Video], [Audio], [Camera], [MediaAgent], [AgentTheory]: src/media_agent, src/camera_manager and
      the textures of src/app: frames, capture, playback, the agent with its encoder and decoder
      threads. OpenH264 is the class [OpenH264]; OpenCV and the sound device are arguments.
    - [MediaTransport], [MediaTheory]: src/media_transport, and the way of a frame between two peers.
    - [Sctp], [SctpTheory], [SctpDebug], [FileTransfer], [FileTheory]: src/sctp and src/file_handler;
      the SCTP library is the class [SctpLib]; what a transfer relies on is [SctpReliable]: messages that
      the association takes arrive whole and in order, and its events are polled oldest first.
    - [Engine], [EngineTheory]: src/core/engine.rs.
    - [AppState], [App], [AppTheory], [CallTheory], [AppInv], [View]: src/app/rtc_app.rs, the client
      above the engine, a call between two clients and the server, and what is shown.
    - [Logger]: src/log.

    ** Conventions

    An octet or a w-bit integer is a [Z]; wrapping operations are written with [wrap8] to [wrap64], and
    predicates [u8] to [u64] give the range of a type. Text is the list of its UTF-8 octets; floating
    point is [SpecFloat]. [Result] is [outcome]: [Panic] stands for a failed index, [expect] or overflow
    check. A [HashMap] is a [gmap], a [HashSet] a [gset]; a loop over one takes the order of the model
    where the order cannot be observed, and an explicit order argument where it can. Methods with
    [&mut self] return the new state, those that also send return the messages. Clock readings, random
    draws, the results of sockets, files and libraries, and cryptographic primitives are arguments.
    Threads are functions of one turn, and their interleavings step relations ([RtpSession.step],
    [ServerEngine.step], [Process.exec], [Handshake], [AgentTheory.pstep], [AppInv.step]). Logging to
    the log file is left out, except in the application, whose own log lines are outputs.

    ** What the theorems show

    - End to end. A video frame, a voice frame and a file handed to one client come out at the other
      ([picture_delivered], [voice_delivered], [file_transfer_delivers]); a call connects two
      applications through the server, whose connection managers then agree, and ends cleanly
      ([call_lifecycle], [offer_answer_agreement]);
      messages cross a signaling connection however the stream is cut ([signaling_link_delivers]);
      the threads of the server in any interleaving do what the models of the loop and of the
      connections do ([server_process_refines]).
    - Security. A session starts only on the nominated pair and after a DTLS handshake that gave its
      keys, with the signaled certificate where a fingerprint was signaled ([session_needs_dtls],
      [dtls_pins_certificate]), and with the same contexts at both ends; the replay window answers exactly
      "seen or too old", and a replay is rejected; the server forwards messages under the
      authenticated name, and clients that are not logged in have no effect.
    - Codecs. RTP, RTCP, signaling, SCTP messages, descriptions and candidates survive encoding and
      decoding; no input makes a decoder panic; an H.264 access unit survives packetization; u-law
      companding stays within its error; a decoded picture reaches the textures octet by octet.
    - State. Invariants of every reachable state: the server's presence and sessions, the handshake of
      two sessions, the nominated pair, the streams of a session, the screens of the application, the
      accounts across a restart of the server ([server_restart_keeps_accounts]). A call that ends leaves
      nothing behind, no picture either; a rejected description leaves no trace but credentials and
      candidates.
    - Pipelines. The jitter buffer reorders and terminates; the engine's poll handles events in order
      and within its budget; the camera's pictures leave in order whatever the interleaving; the player is
      a cursor that moves forward over the samples received, and skips only when too many wait; the
      congestion controller raises the bitrate at most once a second.
    - Behaviour worth knowing, as lemmas about the code as it is: for example [stalled_frame_forges],
      [answer_from_anyone], [bye_from_anyone], [crossed_calls_refused], [mute_forgotten],
      [block_loses_audio], [output_size_kept], [packing], [late_duplicate_moves_back],
      [relogin_locks_first_name], [lost_ack_strands_peer], [ack_establishes_unknowing],
      [injected_line_takes_over], [tmp_database_lost], [absolute_name_escapes], [failed_recv_deafens].

    ** Fuel

    Loops that are not structural take fuel, always enough: decoding a compound takes one unit per
    octet, and every packet consumes at least four; draining the jitter buffer takes two units per
    buffered packet and two more ([receive_terminates] proves that it never runs out); the walk for a
    free session code takes one more than there are codes ([walk_total]); start code search and
    fragmentation take the length of the data; cutting audio frames takes the length of the buffer, and
    a frame is 160 samples; decimal numbers have at most 20 digits and hexadecimal ones 16; an address
    has 8 groups, 7 after a gap; a STUN response is at most 512 octets, an attribute at least four; the
    extensions of a candidate are at most as many as its words; polling the SCTP library takes more
    turns than it has events; the summary of an SCTP packet takes one turn per octet, and each advances
    by at least four ([summary_total]); the exponent of u-law is at most 7. Packing a picture recurses on the
    matrix it converts, and [grey_never_packs] shows that it need not end.

    ** What is not modelled

    What other libraries do: sockets, rustls, OpenSSL, the SCTP association, OpenH264, OpenCV, CPAL,
    wgpu and egui; of the graphical interface the state behind it, the buttons, the textures and the
    panels with what they say are modelled, not the drawing. The creation and joining of threads, socket
    options, the macros of the log and the texts that only go to the log file. *)

From stdpp Require Import prelude.
From Stdlib Require Import ZArith Lia ZifyNat.
Local Open Scope Z_scope.

(** ** Outcomes of Rust code

    A Rust function returning [Result<A, E>] yields [Ok], [Err], or it panics
    (slice index out of range, failed [expect], arithmetic overflow check). *)

Inductive outcome (E A : Type) : Type :=
| Ok (a : A)
| Err (e : E)
| Panic.
Arguments Ok {E A} a.
Arguments Err {E A} e.
Arguments Panic {E A}.

#[export] Instance outcome_ret {E} : MRet (outcome E) := fun _ a => Ok a.
#[export] Instance outcome_bind {E} : MBind (outcome E) := fun _ _ k m =>
  match m with Ok a => k a | Err e => Err e | Panic => Panic end.

#[export] Instance outcome_eq_dec {E A} `{!EqDecision E, !EqDecision A} :
  EqDecision (outcome E A).
Proof. solve_decision. Defined.

(** [x.map_err(f)] *)
Definition map_err {E F A} (f : E -> F) (m : outcome E A) : outcome F A :=
  match m with Ok a => Ok a | Err e => Err (f e) | Panic => Panic end.

(** [opt.ok_or(e)] *)
Definition ok_or {E A} (o : option A) (e : E) : outcome E A :=
  match o with Some a => Ok a | None => Err e end.

(** [opt.expect(..)] and a checked index: [None] is a panic. *)
Definition expect {E A} (o : option A) : outcome E A :=
  match o with Some a => Ok a | None => Panic end.

Definition no_panic {E A} (m : outcome E A) : Prop := m <> Panic.

Lemma bind_Ok_inv {E A B} (m : outcome E A) (k : A -> outcome E B) b :
  (m ≫= k) = Ok b -> exists a, m = Ok a /\ k a = Ok b.
Proof. destruct m; simpl; intros H; [eauto | discriminate H | discriminate H]. Qed.

Lemma bind_no_panic {E A B} (m : outcome E A) (k : A -> outcome E B) :
  no_panic m -> (forall a, m = Ok a -> no_panic (k a)) -> no_panic (m ≫= k).
Proof. unfold no_panic. destruct m; simpl; intros ? Hk; eauto. Qed.

Lemma Ok_no_panic {E A} (a : A) : no_panic (Ok (E:=E) a).
Proof. discriminate. Qed.

Lemma Err_no_panic {E A} (e : E) : no_panic (Err (A:=A) e).
Proof. discriminate. Qed.

(** ** Machine integers *)

Definition u8 (v : Z) : Prop := 0 <= v < 256.
Definition u16 (v : Z) : Prop := 0 <= v < 65536.
Definition u32 (v : Z) : Prop := 0 <= v < 4294967296.
Definition u64 (v : Z) : Prop := 0 <= v < 18446744073709551616.

#[export] Instance u8_dec v : Decision (u8 v).
Proof. unfold u8; apply _. Defined.
#[export] Instance u16_dec v : Decision (u16 v).
Proof. unfold u16; apply _. Defined.
#[export] Instance u32_dec v : Decision (u32 v).
Proof. unfold u32; apply _. Defined.
#[export] Instance u64_dec v : Decision (u64 v).
Proof. unfold u64; apply _. Defined.

(** [wrapping_*] operations and truncating [as] casts *)
Definition wrap8 (v : Z) : Z := v mod 256.
Definition wrap16 (v : Z) : Z := v mod 65536.
Definition wrap32 (v : Z) : Z := v mod 4294967296.
Definition wrap64 (v : Z) : Z := v mod 18446744073709551616.

(** [as i32] *)
Definition as_i32 (v : Z) : Z :=
  let m := v mod 4294967296 in if m <? 2147483648 then m else m - 4294967296.

(** [u8::from(bool)] *)
Definition bool_u8 (b : bool) : Z := if b then 1 else 0.

Ltac ulia := unfold u8, u16, u32, u64, wrap8, wrap16, wrap32, wrap64 in *; lia.

(** Linear arithmetic with division and remainder by constants. *)
Ltac elia := zify; Z.to_euclidean_division_equations; lia.

(** Case analysis on the boolean test the code branches on, outermost test first. *)
Ltac case_bool c :=
  match c with
  | Nat.ltb ?a ?b => destruct (Nat.ltb_spec a b)
  | Nat.leb ?a ?b => destruct (Nat.leb_spec a b)
  | Nat.eqb ?a ?b => destruct (Nat.eqb_spec a b)
  | Z.ltb ?a ?b => destruct (Z.ltb_spec a b)
  | Z.leb ?a ?b => destruct (Z.leb_spec a b)
  | Z.eqb ?a ?b => destruct (Z.eqb_spec a b)
  | negb ?d => case_bool d
  | _ => let E := fresh "E" in destruct c eqn:E
  end; cbn [negb] in *.

Ltac case_test :=
  match goal with
  | |- (if ?c then _ else _) = _ => case_bool c
  | |- context [if ?c then _ else _] => case_bool c
  end.

Ltac case_test_in H :=
  match type of H with
  | (if ?c then _ else _) = _ => case_bool c
  | context [if ?c then _ else _] => case_bool c
  end.

(** Peel one monadic bind off a successful outcome. *)
Ltac bind_inv H :=
  let a := fresh "v" in let Ha := fresh "Hv" in
  apply bind_Ok_inv in H; destruct H as (a & Ha & H).

Lemma wrap8_range v : u8 (wrap8 v).
Proof. unfold u8, wrap8. apply Z.mod_pos_bound. lia. Qed.
Lemma wrap16_range v : u16 (wrap16 v).
Proof. unfold u16, wrap16. apply Z.mod_pos_bound. lia. Qed.
Lemma wrap32_range v : u32 (wrap32 v).
Proof. unfold u32, wrap32. apply Z.mod_pos_bound. lia. Qed.

Lemma wrap16_small v : u16 v -> wrap16 v = v.
Proof. intros. apply Z.mod_small. assumption. Qed.
Lemma wrap32_small v : u32 v -> wrap32 v = v.
Proof. intros. apply Z.mod_small. assumption. Qed.

(** A decidable property of a small range of integers (the octets, say) is proved by
    evaluating it on each of them. *)
Lemma range_forall (n : nat) (P : Z -> Prop) {Dec : forall z, Decision (P z)} :
  forallb (fun z => bool_decide (P z)) (Z.of_nat <$> seq 0 n) = true ->
  forall z, 0 <= z < Z.of_nat n -> P z.
Proof.
  intros H z Hz. rewrite forallb_forall in H. apply (bool_decide_eq_true_1 (P z)), H.
  apply list_elem_of_In, list_elem_of_fmap. exists (Z.to_nat z).
  rewrite elem_of_seq. lia.
Qed.

Ltac by_range n z :=
  pattern z;
  match goal with |- ?P z => refine (@range_forall n P _ _ z _) end;
  [vm_compute; reflexivity | try ulia].

Definition is_some {A} (o : option A) : bool :=
  match o with Some _ => true | None => false end.

(** ** Byte strings and big-endian integers *)

Abbreviation bytes := (list Z).

Definition bytes_ok (l : bytes) : Prop := Forall u8 l.

#[export] Instance bytes_ok_dec l : Decision (bytes_ok l).
Proof. unfold bytes_ok; apply _. Defined.

(** [v.to_be_bytes()] for an [n]-byte integer *)
Fixpoint to_be (n : nat) (v : Z) : bytes :=
  match n with
  | O => []
  | S n' => (v / 256 ^ Z.of_nat n') mod 256 :: to_be n' v
  end.

(** [uN::from_be_bytes(l)] *)
Fixpoint from_be (l : bytes) : Z :=
  match l with
  | [] => 0
  | b :: l' => b * 256 ^ Z.of_nat (length l') + from_be l'
  end.

Lemma length_to_be n v : length (to_be n v) = n.
Proof. induction n; simpl; congruence. Qed.

Lemma to_be_ok n v : bytes_ok (to_be n v).
Proof.
  induction n; simpl; constructor; [| assumption].
  unfold u8. apply Z.mod_pos_bound. lia.
Qed.

Lemma from_be_range l : bytes_ok l -> 0 <= from_be l < 256 ^ Z.of_nat (length l).
Proof.
  induction 1 as [| b l Hb Hl IH]; [simpl; lia |].
  cbn [from_be length]. unfold u8 in Hb.
  rewrite Nat2Z.inj_succ, Z.pow_succ_r by lia. nia.
Qed.

Lemma from_be_to_be n v : from_be (to_be n v) = v mod 256 ^ Z.of_nat n.
Proof.
  induction n as [| n IH]; [simpl; rewrite Z.mod_1_r; reflexivity |].
  cbn [to_be from_be]. rewrite length_to_be, IH, Nat2Z.inj_succ, Z.pow_succ_r by lia.
  rewrite (Z.mul_comm 256), Z.rem_mul_r by lia. lia.
Qed.

Lemma from_be_to_be_small n v :
  0 <= v < 256 ^ Z.of_nat n -> from_be (to_be n v) = v.
Proof. intros. rewrite from_be_to_be. apply Z.mod_small. assumption. Qed.

Lemma to_be_mod n v k : (n <= k)%nat -> to_be n (v mod 256 ^ Z.of_nat k) = to_be n v.
Proof.
  revert k. induction n as [| n IH]; intros k Hk; [reflexivity |].
  cbn [to_be]. rewrite IH by lia. f_equal.
  replace (Z.of_nat k) with (Z.of_nat n + Z.of_nat (k - n)) by lia.
  rewrite Z.pow_add_r, Z.rem_mul_r by lia.
  rewrite Z.mul_comm, Z.div_add by lia.
  rewrite Z.div_small by (apply Z.mod_pos_bound; lia).
  replace (Z.of_nat (k - n)) with (1 + Z.of_nat (k - n - 1)) by lia.
  rewrite Z.pow_add_r, Z.pow_1_r by lia.
  rewrite Z.rem_mul_r, Z.add_0_l, Z.mul_comm by lia.
  rewrite Z.mod_add by lia. apply Z.mod_mod. lia.
Qed.

Lemma to_be_from_be l : bytes_ok l -> to_be (length l) (from_be l) = l.
Proof.
  induction 1 as [| b l Hb Hl IH]; [reflexivity |].
  pose proof (from_be_range l Hl) as Hr. unfold u8 in Hb.
  cbn [length to_be from_be]. f_equal.
  - rewrite Z.add_comm, Z.div_add by lia.
    rewrite Z.div_small by assumption. apply Z.mod_small. lia.
  - rewrite <- (to_be_mod _ _ (length l)) by lia.
    rewrite Z.add_comm, Z.mod_add, Z.mod_small by lia. assumption.
Qed.

Lemma be16 v : u16 v -> from_be (to_be 2 v) = v.
Proof. apply (from_be_to_be_small 2). Qed.
Lemma be32 v : u32 v -> from_be (to_be 4 v) = v.
Proof. apply (from_be_to_be_small 4). Qed.
Lemma be64 v : u64 v -> from_be (to_be 8 v) = v.
Proof. apply (from_be_to_be_small 8). Qed.

Lemma to_be_2 v : 0 <= v ->
  to_be 2 v = [Z.land (Z.shiftr v 8) 255; Z.land v 255].
Proof.
  intros Hv. cbn [to_be]. rewrite Z.shiftr_div_pow2 by lia.
  rewrite !(Z.land_ones _ 8) by lia. change (2 ^ 8) with 256.
  change (256 ^ Z.of_nat 1) with 256. change (256 ^ Z.of_nat 0) with 1.
  rewrite Z.div_1_r. reflexivity.
Qed.

Lemma to_be_S n v : to_be (S n) v = (v / 256 ^ Z.of_nat n) mod 256 :: to_be n v.
Proof. reflexivity. Qed.

Lemma to_be_inj n v w : 0 <= v < 256 ^ Z.of_nat n -> 0 <= w < 256 ^ Z.of_nat n ->
  to_be n v = to_be n w -> v = w.
Proof.
  intros Hv Hw H. rewrite <- (from_be_to_be_small n v Hv), H. apply from_be_to_be_small, Hw.
Qed.

Lemma bits_small b k n : 0 <= b < 2 ^ k -> 0 <= k <= n -> Z.testbit b n = false.
Proof.
  intros Hb Hn. rewrite <- (Z.mod_small b (2 ^ k)) by assumption.
  apply Z.mod_pow2_bits_high. lia.
Qed.

(** Disjoint bit fields: [(a << k) | b] with [b < 2^k]. *)
Lemma lor_shiftl_add a b k : 0 <= k -> 0 <= b < 2 ^ k ->
  Z.lor (Z.shiftl a k) b = a * 2 ^ k + b.
Proof.
  intros Hk Hb. rewrite <- Z.shiftl_mul_pow2 by assumption.
  assert (Hl : Z.land (Z.shiftl a k) b = 0).
  { apply Z.bits_inj'. intros n Hn. rewrite Z.land_spec, Z.bits_0.
    destruct (Z.ltb_spec n k).
    - rewrite Z.shiftl_spec_low by lia. reflexivity.
    - rewrite (bits_small b k n) by lia. apply andb_false_r. }
  rewrite <- Z.lxor_lor by exact Hl. symmetry. apply Z.add_nocarry_lxor, Hl.
Qed.

#[global] Opaque to_be from_be.
#[global] Arguments Nat.div : simpl never.
#[global] Arguments Nat.modulo : simpl never.

(** ** Slices *)

Section slices.
Context {E : Type}.

(** [buf[i]] *)
Definition get_idx (buf : bytes) (i : nat) : outcome E Z := expect (buf !! i).

(** [&buf[i..j]] *)
Definition slice (buf : bytes) (i j : nat) : outcome E bytes :=
  if (i <=? j)%nat && (j <=? length buf)%nat then Ok (take (j - i) (drop i buf)) else Panic.

(** [&buf[i..]] *)
Definition slice_from (buf : bytes) (i : nat) : outcome E bytes :=
  if (i <=? length buf)%nat then Ok (drop i buf) else Panic.

(** [uN::from_be_bytes(buf[i..i + n].try_into()?)]; the conversion to an array of
    the slice's own length cannot fail, so the [map_err] of the source is dead. *)
Definition read_be (n : nat) (buf : bytes) (i : nat) : outcome E Z :=
  s ← slice buf i (i + n); Ok (from_be s).

Lemma slice_Ok buf i j : (i <= j <= length buf)%nat ->
  slice buf i j = Ok (take (j - i) (drop i buf)).
Proof.
  intros. unfold slice.
  destruct (Nat.leb_spec i j); [| lia].
  destruct (Nat.leb_spec j (length buf)); [reflexivity | lia].
Qed.

Lemma slice_Ok_inv buf i j s : slice buf i j = Ok s ->
  (i <= j <= length buf)%nat /\ s = take (j - i) (drop i buf).
Proof.
  unfold slice. destruct (Nat.leb_spec i j); [| discriminate].
  destruct (Nat.leb_spec j (length buf)); [| discriminate].
  simpl. intros [= <-]. auto.
Qed.

Lemma slice_app pre mid post i j : i = length pre -> j = (length pre + length mid)%nat ->
  slice (pre ++ mid ++ post) i j = Ok mid.
Proof.
  intros -> ->. rewrite slice_Ok by (rewrite !length_app; lia).
  f_equal. rewrite drop_app_length.
  replace (length pre + length mid - length pre)%nat with (length mid) by lia.
  apply take_app_length.
Qed.

Lemma read_be_app n pre v post i : i = length pre -> 0 <= v < 256 ^ Z.of_nat n ->
  read_be n (pre ++ to_be n v ++ post) i = Ok v.
Proof.
  intros -> Hv. unfold read_be.
  rewrite slice_app by (rewrite ?length_to_be; lia).
  simpl. f_equal. apply from_be_to_be_small, Hv.
Qed.

Lemma read_u16_app pre v post i : i = length pre -> u16 v ->
  read_be 2 (pre ++ to_be 2 v ++ post) i = Ok v.
Proof. apply (read_be_app 2). Qed.

Lemma read_u32_app pre v post i : i = length pre -> u32 v ->
  read_be 4 (pre ++ to_be 4 v ++ post) i = Ok v.
Proof. apply (read_be_app 4). Qed.

(** Positional access to a concatenation: skip what lies before the position. *)
Lemma slice_skip l1 l2 i j : (length l1 <= i)%nat -> (i <= j)%nat ->
  slice (l1 ++ l2) i j = slice l2 (i - length l1) (j - length l1).
Proof.
  intros Hi Hj. unfold slice. rewrite length_app, drop_app_ge by lia.
  destruct (Nat.leb_spec i j), (Nat.leb_spec (i - length l1) (j - length l1)); try lia.
  destruct (Nat.leb_spec j (length l1 + length l2)),
    (Nat.leb_spec (j - length l1) (length l2)); try lia; [| reflexivity].
  simpl. do 2 f_equal. lia.
Qed.

Lemma slice_here l1 l2 j : j = length l1 -> slice (l1 ++ l2) 0 j = Ok l1.
Proof. intros ->. apply (slice_app [] l1 l2); reflexivity. Qed.

Lemma slice_from_skip l1 l2 i : (length l1 <= i)%nat ->
  slice_from (l1 ++ l2) i = slice_from l2 (i - length l1).
Proof.
  intros Hi. unfold slice_from. rewrite length_app, drop_app_ge by lia.
  destruct (Nat.leb_spec i (length l1 + length l2)),
    (Nat.leb_spec (i - length l1) (length l2)); try lia; reflexivity.
Qed.

Lemma slice_from_0 l : slice_from l 0 = Ok l.
Proof. reflexivity. Qed.

Lemma slice_from_app l1 l2 i : i = length l1 -> slice_from (l1 ++ l2) i = Ok l2.
Proof. intros ->. rewrite slice_from_skip, Nat.sub_diag by lia. apply slice_from_0. Qed.

Lemma slice_from_no_panic l i : (i <= length l)%nat -> no_panic (slice_from l i).
Proof. intros. unfold slice_from. destruct (Nat.leb_spec i (length l)); [discriminate | lia]. Qed.

Lemma slice_from_inv l i s : slice_from l i = Ok s -> (i <= length l)%nat /\ s = drop i l.
Proof.
  unfold slice_from. destruct (Nat.leb_spec i (length l)); [| discriminate].
  intros [= <-]. auto.
Qed.

Lemma slice_no_panic l i j : (i <= j <= length l)%nat -> no_panic (slice l i j).
Proof. intros. rewrite slice_Ok by lia. discriminate. Qed.

Lemma get_idx_skip l1 l2 i : (length l1 <= i)%nat ->
  get_idx (l1 ++ l2) i = get_idx l2 (i - length l1).
Proof. intros. unfold get_idx. rewrite lookup_app_r by lia. reflexivity. Qed.

Lemma get_idx_in l1 l2 i : (i < length l1)%nat ->
  get_idx (l1 ++ l2) i = get_idx l1 i.
Proof. intros. unfold get_idx. rewrite lookup_app_l by lia. reflexivity. Qed.

Lemma get_idx_cons_0 b l : get_idx (b :: l) 0 = Ok b.
Proof. reflexivity. Qed.

Lemma get_idx_cons_S b l i : get_idx (b :: l) (S i) = get_idx l i.
Proof. reflexivity. Qed.

Lemma read_be_skip n l1 l2 i : (length l1 <= i)%nat ->
  read_be n (l1 ++ l2) i = read_be n l2 (i - length l1).
Proof.
  intros. unfold read_be. rewrite slice_skip by lia.
  do 2 f_equal. lia.
Qed.

Lemma read_be_here n v post : 0 <= v < 256 ^ Z.of_nat n ->
  read_be n (to_be n v ++ post) 0 = Ok v.
Proof. intros. apply (read_be_app n [] v post); [reflexivity | assumption]. Qed.

Lemma get_idx_no_panic buf i : (i < length buf)%nat -> no_panic (get_idx buf i).
Proof.
  intros H. destruct (lookup_lt_is_Some_2 buf i H) as [b Hb].
  unfold get_idx. rewrite Hb. discriminate.
Qed.

Lemma get_idx_total buf i : (i < length buf)%nat -> exists b, get_idx buf i = Ok b.
Proof.
  intros H. destruct (lookup_lt_is_Some_2 buf i H) as [b Hb].
  exists b. unfold get_idx. rewrite Hb. reflexivity.
Qed.

Lemma read_be_total n buf i : (i + n <= length buf)%nat -> exists v, read_be n buf i = Ok v.
Proof. intros. unfold read_be. rewrite slice_Ok by lia. simpl. eauto. Qed.

Lemma read_be_no_panic n buf i : (i + n <= length buf)%nat -> no_panic (read_be n buf i).
Proof. intros. unfold read_be. rewrite slice_Ok by lia. discriminate. Qed.

(** A read that stays inside a common prefix of two buffers. *)
Lemma slice_prefix h p q i j : take h p = take h q -> (j <= h)%nat ->
  (h <= length p)%nat -> (h <= length q)%nat -> slice p i j = slice q i j.
Proof.
  intros Ht Hj Hp Hq. unfold slice.
  destruct (Nat.leb_spec i j); [| reflexivity].
  destruct (Nat.leb_spec j (length p)), (Nat.leb_spec j (length q)); try lia. simpl.
  f_equal. rewrite <- (take_drop h p), <- (take_drop h q), Ht.
  assert (Hl : length (take h q) = h) by (rewrite length_take; lia).
  rewrite !skipn_app, !take_app_le by (rewrite length_drop; lia). reflexivity.
Qed.

Lemma read_be_prefix h p q n i : take h p = take h q -> (i + n <= h)%nat ->
  (h <= length p)%nat -> (h <= length q)%nat -> read_be n p i = read_be n q i.
Proof. intros Ht Hi Hp Hq. unfold read_be. rewrite (slice_prefix h p q) by auto. reflexivity. Qed.

Lemma get_idx_prefix h p q i : take h p = take h q -> (i < h)%nat -> get_idx p i = get_idx q i.
Proof.
  intros Ht Hi. unfold get_idx. f_equal.
  rewrite <- (lookup_take_lt p h i), <- (lookup_take_lt q h i), Ht by lia. reflexivity.
Qed.

Lemma read_be_inv n buf i v : bytes_ok buf -> read_be n buf i = Ok v ->
  (i + n <= length buf)%nat /\ 0 <= v < 256 ^ Z.of_nat n /\
  drop i buf = to_be n v ++ drop (i + n) buf.
Proof.
  intros Hb H. unfold read_be in H. bind_inv H. injection H as <-.
  apply slice_Ok_inv in Hv as [Hr ->].
  replace (i + n - i)%nat with n by lia.
  assert (Hl : length (take n (drop i buf)) = n) by (rewrite length_take, length_drop; lia).
  assert (Hok : bytes_ok (take n (drop i buf))) by (apply Forall_take, Forall_drop, Hb).
  pose proof (from_be_range _ Hok) as Hf. rewrite Hl in Hf.
  split; [lia |]. split; [assumption |].
  pose proof (to_be_from_be _ Hok) as Ht. rewrite Hl in Ht. rewrite Ht.
  rewrite <- drop_drop. symmetry. apply take_drop.
Qed.
End slices.

(** The values read do not depend on the error type of the reader. *)
Lemma get_idx_any {E1 E2} buf i v : get_idx (E := E1) buf i = Ok v -> get_idx (E := E2) buf i = Ok v.
Proof. unfold get_idx, expect. destruct (buf !! i); congruence. Qed.

Lemma read_be_any {E1 E2} n buf i v :
  read_be (E := E1) n buf i = Ok v -> read_be (E := E2) n buf i = Ok v.
Proof.
  unfold read_be, slice. destruct (_ && _); simpl; intros [= <-]. reflexivity.
Qed.

Create HintDb rtc.
Create Rewrite HintDb rtclen.
#[export] Hint Resolve to_be_ok wrap8_range wrap16_range wrap32_range
  Ok_no_panic Err_no_panic : rtc.
#[export] Hint Rewrite @length_to_be @length_app @length_take @length_drop
  @length_replicate @length_map @length_fmap : rtclen.

(** Normalise list lengths, then decide the linear arithmetic. *)
Ltac norm_len :=
  autorewrite with rtclen in *; simpl length in *; autorewrite with rtclen in *.
Ltac len := norm_len; try lia.

Ltac elen := norm_len; try elia.

(** Side conditions of the wire-format rewriting lemmas. *)
Ltac side := first [assumption | reflexivity | solve [len] | ulia].

(** Run the reads of a decoder over a concatenation of fields, left to right. *)
Ltac rd_step :=
  match goal with
  | |- context [read_be ?n (to_be ?n ?v ++ ?post) 0] =>
      rewrite (read_be_here n v post) by side
  | |- context [read_be ?n (?l1 ++ ?l2) ?i] =>
      rewrite (read_be_skip n l1 l2 i) by solve [len]
  | |- context [get_idx (?l1 ++ ?l2) ?i] =>
      rewrite (get_idx_skip l1 l2 i) by solve [len]
  | |- context [get_idx (?l1 ++ ?l2) ?i] =>
      rewrite (get_idx_in l1 l2 i) by solve [len]
  | |- context [get_idx (?b :: ?l) (S ?i)] =>
      rewrite (get_idx_cons_S b l i)
  | |- context [slice_from (?l1 ++ ?l2) ?i] =>
      rewrite (slice_from_skip l1 l2 i) by solve [len]
  | |- context [slice_from ?l 0] => rewrite (slice_from_0 l)
  | |- context [get_idx (?b :: ?l) 0] => rewrite (get_idx_cons_0 b l)
  end.
Ltac rd := repeat (rd_step; rewrite ?length_to_be, ?Nat.sub_diag;
                   cbn [length Nat.sub Nat.add mbind outcome_bind]).

(** [no_panic] goals: follow the control flow, bounds by [len]. *)
Ltac np_step :=
  match goal with
  | |- no_panic (Ok _) => apply Ok_no_panic
  | |- no_panic (Err _) => apply Err_no_panic
  | |- no_panic (if ?c then _ else _) => case_bool c
  | |- no_panic (read_be _ _ _) => apply read_be_no_panic; solve [len]
  | |- no_panic (get_idx _ _) => apply get_idx_no_panic; solve [len]
  | |- no_panic (slice_from _ _) => apply slice_from_no_panic; solve [len]
  | |- no_panic (slice _ _ _) => apply slice_no_panic; solve [len]
  | |- no_panic (mbind _ _) => apply bind_no_panic; [| intros ? ?]
  | |- no_panic (let '(_, _) := ?p in _) => destruct p
  end.
Ltac np := repeat np_step.
