(* ===== verification/Utf8.v ===== *)
(** * UTF-8 text

    A Rust [String] or [&str] is modelled by its octets. [utf8_valid] is the test of
    [str::from_utf8] and [String::from_utf8]; [from_utf8_lossy] replaces each maximal
    ill-formed subsequence by U+FFFD, as the standard library does. *)

From stdpp Require Import prelude strings.
From Stdlib Require Import ZArith Lia.
From S2P Require Import Prelude.
Local Open Scope Z_scope.

Definition in_range (lo hi b : Z) : bool := (lo <=? b) && (b <=? hi).

(** Continuation octets and the permitted second octets of 3- and 4-octet sequences. *)
Definition cont (b : Z) : bool := in_range 128 191 b.
Definition lead2 (b : Z) : bool := in_range 194 223 b.
Definition lead3 (b : Z) : bool := in_range 224 239 b.
Definition lead4 (b : Z) : bool := in_range 240 244 b.
Definition second3 (b0 b1 : Z) : bool :=
  if b0 =? 224 then in_range 160 191 b1
  else if b0 =? 237 then in_range 128 159 b1 else cont b1.
Definition second4 (b0 b1 : Z) : bool :=
  if b0 =? 240 then in_range 144 191 b1
  else if b0 =? 244 then in_range 128 143 b1 else cont b1.

(** [str::from_utf8(bs).is_ok()] *)
Fixpoint utf8_valid (bs : bytes) : bool :=
  match bs with
  | [] => true
  | b0 :: r0 =>
      if in_range 0 127 b0 then utf8_valid r0
      else if lead2 b0 then
        match r0 with b1 :: r1 => cont b1 && utf8_valid r1 | _ => false end
      else if lead3 b0 then
        match r0 with
        | b1 :: b2 :: r2 => second3 b0 b1 && cont b2 && utf8_valid r2
        | _ => false
        end
      else if lead4 b0 then
        match r0 with
        | b1 :: b2 :: b3 :: r3 => second4 b0 b1 && cont b2 && cont b3 && utf8_valid r3
        | _ => false
        end
      else false
  end.

(** U+FFFD *)
Definition replacement : bytes := [239; 191; 189].

(** [String::from_utf8_lossy(bs).into_owned()] *)
Fixpoint from_utf8_lossy (bs : bytes) : bytes :=
  match bs with
  | [] => []
  | b0 :: r0 =>
      if in_range 0 127 b0 then b0 :: from_utf8_lossy r0
      else if lead2 b0 then
        match r0 with
        | [] => replacement
        | b1 :: r1 =>
            if cont b1 then b0 :: b1 :: from_utf8_lossy r1
            else replacement ++ from_utf8_lossy r0
        end
      else if lead3 b0 then
        match r0 with
        | [] => replacement
        | b1 :: r1 =>
            if second3 b0 b1 then
              match r1 with
              | [] => replacement
              | b2 :: r2 =>
                  if cont b2 then b0 :: b1 :: b2 :: from_utf8_lossy r2
                  else replacement ++ from_utf8_lossy r1
              end
            else replacement ++ from_utf8_lossy r0
        end
      else if lead4 b0 then
        match r0 with
        | [] => replacement
        | b1 :: r1 =>
            if second4 b0 b1 then
              match r1 with
              | [] => replacement
              | b2 :: r2 =>
                  if cont b2 then
                    match r2 with
                    | [] => replacement
                    | b3 :: r3 =>
                        if cont b3 then b0 :: b1 :: b2 :: b3 :: from_utf8_lossy r3
                        else replacement ++ from_utf8_lossy r2
                    end
                  else replacement ++ from_utf8_lossy r1
              end
            else replacement ++ from_utf8_lossy r0
        end
      else replacement ++ from_utf8_lossy r0
  end.

(** The invariant of a Rust string. *)
Definition str_ok (s : bytes) : Prop := utf8_valid s = true.

#[export] Instance str_ok_dec s : Decision (str_ok s).
Proof. unfold str_ok; apply _. Defined.

Lemma in_range_spec lo hi b : in_range lo hi b = true <-> lo <= b <= hi.
Proof. unfold in_range. rewrite andb_true_iff, !Z.leb_le. reflexivity. Qed.

(** Induction on the length, to follow the 1- to 4-octet sequences. *)
Lemma bytes_len_ind (P : bytes -> Prop) :
  (forall bs, (forall bs', (length bs' < length bs)%nat -> P bs') -> P bs) -> forall bs, P bs.
Proof.
  intros H bs. remember (length bs) as n. revert bs Heqn.
  induction n as [n IH] using lt_wf_ind. intros bs ->. apply H. eauto.
Qed.

(** A lossy conversion leaves well-formed text unchanged. *)
Lemma from_utf8_lossy_valid bs : str_ok bs -> from_utf8_lossy bs = bs.
Proof.
  unfold str_ok. induction bs as [bs IH] using bytes_len_ind. intros H.
  destruct bs as [| b0 r0]; [reflexivity |]. simpl in H |- *.
  destruct (in_range 0 127 b0); [rewrite IH by (simpl; auto); reflexivity |].
  destruct (lead2 b0).
  { destruct r0 as [| b1 r1]; [discriminate |]. apply andb_true_iff in H as [-> H].
    rewrite IH by (simpl; auto with lia). reflexivity. }
  destruct (lead3 b0).
  { destruct r0 as [| b1 [| b2 r2]]; [discriminate.. |].
    rewrite !andb_true_iff in H. destruct H as [[-> ->] H].
    rewrite IH by (simpl; auto with lia). reflexivity. }
  destruct (lead4 b0); [| discriminate].
  destruct r0 as [| b1 [| b2 [| b3 r3]]]; [discriminate.. |].
  rewrite !andb_true_iff in H. destruct H as [[[-> ->] ->] H].
  rewrite IH by (simpl; auto with lia). reflexivity.
Qed.

Lemma cont_u8 b : cont b = true -> u8 b.
Proof. unfold cont. rewrite in_range_spec. ulia. Qed.
Lemma second3_u8 b0 b1 : second3 b0 b1 = true -> u8 b1.
Proof. unfold second3, cont. repeat case_test; rewrite in_range_spec; ulia. Qed.
Lemma second4_u8 b0 b1 : second4 b0 b1 = true -> u8 b1.
Proof. unfold second4, cont. repeat case_test; rewrite in_range_spec; ulia. Qed.

Lemma str_ok_bytes_ok bs : str_ok bs -> bytes_ok bs.
Proof.
  unfold str_ok, bytes_ok. induction bs as [bs IH] using bytes_len_ind. intros H.
  destruct bs as [| b0 r0]; [constructor |]. simpl in H.
  destruct (in_range 0 127 b0) eqn:E1.
  { apply in_range_spec in E1. constructor; [ulia |]. apply IH; simpl; auto. }
  destruct (lead2 b0) eqn:E2.
  { apply in_range_spec in E2. destruct r0 as [| b1 r1]; [discriminate |].
    apply andb_true_iff in H as [H1 H]. apply cont_u8 in H1.
    repeat (constructor; [first [assumption | ulia] |]). apply IH; simpl; auto with lia. }
  destruct (lead3 b0) eqn:E3.
  { apply in_range_spec in E3. destruct r0 as [| b1 [| b2 r2]]; [discriminate.. |].
    rewrite !andb_true_iff in H. destruct H as [[H1 H2] H].
    apply second3_u8 in H1. apply cont_u8 in H2.
    repeat (constructor; [first [assumption | ulia] |]). apply IH; simpl; auto with lia. }
  destruct (lead4 b0) eqn:E4; [| discriminate].
  apply in_range_spec in E4. destruct r0 as [| b1 [| b2 [| b3 r3]]]; [discriminate.. |].
  rewrite !andb_true_iff in H. destruct H as [[[H1 H2] H3] H].
  apply second4_u8 in H1. apply cont_u8 in H2, H3.
  repeat (constructor; [first [assumption | ulia] |]). apply IH; simpl; auto with lia.
Qed.

(** The result of a lossy conversion is always text. *)
Lemma from_utf8_lossy_ok bs : str_ok (from_utf8_lossy bs).
Proof.
  unfold str_ok. induction bs as [bs IH] using bytes_len_ind.
  destruct bs as [| b0 r0]; [reflexivity |]. simpl.
  repeat match goal with
  | |- context [if ?c then _ else _] => destruct c eqn:?
  | |- context [match ?l with [] => _ | _ :: _ => _ end] => destruct l
  end; simpl;
  repeat match goal with E : ?c = _ |- context [?c] => rewrite E end; simpl;
  try reflexivity;
  first [apply IH; simpl; lia
        | match goal with z : Z, r : bytes |- _ => exact (IH (z :: r) ltac:(simpl; lia)) end].
Qed.

#[export] Hint Resolve from_utf8_lossy_ok str_ok_bytes_ok : rtc.

(** Octets of an ASCII literal, for concrete inputs. *)
Fixpoint lit (s : String.string) : bytes :=
  match s with
  | String.EmptyString => []
  | String.String c s' => Z.of_N (Ascii.N_of_ascii c) :: lit s'
  end.
