(* ===== verification/Text.v ===== *)
(** * Text: the string functions of the standard library that the text codecs use

    A Rust string is the list of its UTF-8 octets. White space is Unicode's [White_Space]: in
    UTF-8, six single octets, two two-octet and seventeen three-octet characters. A lead octet
    never occurs inside a character, so that a scan over the octets of a valid string finds
    exactly its white space characters. *)

From stdpp Require Import prelude.
From Stdlib Require Import ZArith Lia.
From S2P Require Import Prelude Utf8.
Local Open Scope Z_scope.

(** ** White space *)
Definition ws1 (b : Z) : bool := in_range 9 13 b || (b =? 32).
Definition ws2 (b0 b1 : Z) : bool := (b0 =? 194) && ((b1 =? 133) || (b1 =? 160)).
Definition ws3 (b0 b1 b2 : Z) : bool :=
  ((b0 =? 225) && (b1 =? 154) && (b2 =? 128)) ||
  ((b0 =? 226) && (b1 =? 128) &&
     (in_range 128 138 b2 || (b2 =? 168) || (b2 =? 169) || (b2 =? 175))) ||
  ((b0 =? 226) && (b1 =? 129) && (b2 =? 159)) ||
  ((b0 =? 227) && (b1 =? 128) && (b2 =? 128)).

(** [str::trim_start] *)
Fixpoint trim_start (s : bytes) : bytes :=
  match s with
  | [] => []
  | b0 :: r =>
    if ws1 b0 then trim_start r else
    match r with
    | b1 :: r1 =>
      if ws2 b0 b1 then trim_start r1 else
      match r1 with
      | b2 :: r2 => if ws3 b0 b1 b2 then trim_start r2 else s
      | [] => s
      end
    | [] => s
    end
  end.

(** [str::trim_end], on the reversed octets *)
Fixpoint trim_end_rev (s : bytes) : bytes :=
  match s with
  | [] => []
  | b0 :: r =>
    if ws1 b0 then trim_end_rev r else
    match r with
    | b1 :: r1 =>
      if ws2 b1 b0 then trim_end_rev r1 else
      match r1 with
      | b2 :: r2 => if ws3 b2 b1 b0 then trim_end_rev r2 else s
      | [] => s
      end
    | [] => s
    end
  end.
Definition trim_end (s : bytes) : bytes := reverse (trim_end_rev (reverse s)).
Definition trim (s : bytes) : bytes := trim_end (trim_start s).

(** [str::split_whitespace]: [cur] is the word under construction. *)
Definition flush (cur : bytes) : list bytes := match cur with [] => [] | _ => [cur] end.
Fixpoint words (cur s : bytes) : list bytes :=
  match s with
  | [] => flush cur
  | b0 :: r =>
    if ws1 b0 then flush cur ++ words [] r else
    match r with
    | b1 :: r1 =>
      if ws2 b0 b1 then flush cur ++ words [] r1 else
      match r1 with
      | b2 :: r2 => if ws3 b0 b1 b2 then flush cur ++ words [] r2 else words (cur ++ [b0]) r
      | [] => words (cur ++ [b0]) r
      end
    | [] => words (cur ++ [b0]) r
    end
  end.
Definition split_whitespace (s : bytes) : list bytes := words [] s.

(** [str::split_once] and [str::split] at an ASCII character *)
Fixpoint split_once (c : Z) (s : bytes) : option (bytes * bytes) :=
  match s with
  | [] => None
  | b :: r => if b =? c then Some ([], r)
              else match split_once c r with Some (k, v) => Some (b :: k, v) | None => None end
  end.
Fixpoint split_at_char (c : Z) (cur s : bytes) : list bytes :=
  match s with
  | [] => [cur]
  | b :: r => if b =? c then cur :: split_at_char c [] r else split_at_char c (cur ++ [b]) r
  end.
Definition split_char (c : Z) (s : bytes) : list bytes := split_at_char c [] s.

(** [str::trim_end_matches] for a character *)
Fixpoint drop_while_eq (c : Z) (s : bytes) : bytes :=
  match s with b :: r => if b =? c then drop_while_eq c r else s | [] => [] end.
Definition trim_end_matches (c : Z) (s : bytes) : bytes := reverse (drop_while_eq c (reverse s)).

(** [[String]::join] *)
Fixpoint join (sep : bytes) (l : list bytes) : bytes :=
  match l with
  | [] => []
  | w :: r => match r with [] => w | _ :: _ => w ++ sep ++ join sep r end
  end.

(** ** Integers: [from_str_radix] and [FromStr] of the unsigned types

    One leading [+] is accepted. A digit is checked before the multiplication's overflow. *)
Module ParseIntError.
Inductive t : Type := Empty | InvalidDigit | PosOverflow.
#[export] Instance t_eq_dec : EqDecision t.
Proof. solve_decision. Defined.
End ParseIntError.
#[export] Existing Instance ParseIntError.t_eq_dec.

Definition to_digit (radix c : Z) : option Z :=
  let d := if in_range 48 57 c then Some (c - 48)
           else if in_range 97 122 c then Some (c - 87)
           else if in_range 65 90 c then Some (c - 55) else None in
  match d with Some v => if v <? radix then Some v else None | None => None end.

Fixpoint digits_acc (radix max acc : Z) (s : bytes) : outcome ParseIntError.t Z :=
  match s with
  | [] => Ok acc
  | c :: r =>
    match to_digit radix c with
    | None => Err ParseIntError.InvalidDigit
    | Some d =>
      if max <? acc * radix then Err ParseIntError.PosOverflow
      else if max <? acc * radix + d then Err ParseIntError.PosOverflow
      else digits_acc radix max (acc * radix + d) r
    end
  end.

Definition from_str_radix (radix max : Z) (s : bytes) : outcome ParseIntError.t Z :=
  match s with
  | [] => Err ParseIntError.Empty
  | c :: r =>
    if ((c =? 43) || (c =? 45)) && bool_decide (r = []) then Err ParseIntError.InvalidDigit
    else if c =? 43 then digits_acc radix max 0 r
    else digits_acc radix max 0 s
  end.
Definition u8_max : Z := 255.
Definition u16_max : Z := 65535.
Definition u32_max : Z := 4294967295.
Definition u64_max : Z := 18446744073709551615.

(** ** Decimal text: [format!("{}")] and [format!("{:06}")] of a [u64] *)
Fixpoint dec_aux (fuel : nat) (n : Z) (acc : bytes) : bytes :=
  match fuel with
  | O => acc
  | S f => let acc := 48 + n mod 10 :: acc in
           if n / 10 =? 0 then acc else dec_aux f (n / 10) acc
  end.

(** A [u64] has at most 20 digits. *)
Definition dec (n : Z) : bytes := dec_aux 20 n [].
Definition dec6 (n : Z) : bytes := replicate (6 - length (dec n)) 48 ++ dec n.

Definition dec_val (l : bytes) : Z := foldl (fun a d => 10 * a + (d - 48)) 0 l.

Lemma foldl_dec l a : foldl (fun a d => 10 * a + (d - 48)) a l =
  a * 10 ^ Z.of_nat (length l) + dec_val l.
Proof.
  unfold dec_val. revert a. induction l as [| d l IH]; intros a; cbn [foldl length].
  - simpl. lia.
  - rewrite IH, (IH (10 * 0 + (d - 48))), Nat2Z.inj_succ, Z.pow_succ_r by lia. lia.
Qed.

Lemma dec_aux_val f n acc : 0 <= n < 10 ^ Z.of_nat f -> (0 < f)%nat ->
  dec_val (dec_aux f n acc) = n * 10 ^ Z.of_nat (length acc) + dec_val acc.
Proof.
  revert n acc. induction f as [| f IH]; intros n acc Hn Hf; [lia |].
  cbn [dec_aux]. rewrite Nat2Z.inj_succ, Z.pow_succ_r in Hn by lia.
  assert (Hd : dec_val (48 + n mod 10 :: acc) =
               n mod 10 * 10 ^ Z.of_nat (length acc) + dec_val acc).
  { unfold dec_val at 1. cbn [foldl]. rewrite foldl_dec. lia. }
  pose proof (Z.div_mod n 10). case_test; [rewrite Hd; nia |].
  assert (0 < f)%nat. { destruct f; [simpl in Hn |]; elia. }
  rewrite IH, Hd by elia. cbn [length]. rewrite Nat2Z.inj_succ, Z.pow_succ_r by lia. nia.
Qed.

Lemma dec_val_dec n : u64 n -> dec_val (dec n) = n.
Proof. intros Hn. unfold dec. rewrite dec_aux_val by (simpl; ulia). unfold dec_val. simpl. lia. Qed.

Lemma dec_val_pad k l : dec_val (replicate k 48 ++ l) = dec_val l.
Proof.
  unfold dec_val. rewrite foldl_app. f_equal. induction k as [| k IH]; [reflexivity | exact IH].
Qed.

Lemma dec_inj n m : u64 n -> u64 m -> dec n = dec m -> n = m.
Proof. intros Hn Hm H. rewrite <- (dec_val_dec n Hn), H. apply dec_val_dec, Hm. Qed.

Lemma dec6_inj n m : u64 n -> u64 m -> dec6 n = dec6 m -> n = m.
Proof.
  unfold dec6. intros Hn Hm H. apply (f_equal dec_val) in H. rewrite !dec_val_pad in H.
  rewrite !dec_val_dec in H by assumption. exact H.
Qed.

(** Lower-case hexadecimal with leading zeros ([{:016x}] of a [u64] with [k = 16]) *)
Definition hex_digit (d : Z) : Z := if d <? 10 then 48 + d else 87 + d.
Fixpoint hex_fixed (k : nat) (v : Z) : bytes :=
  match k with
  | O => []
  | S j => hex_digit (v / 16 ^ Z.of_nat j mod 16) :: hex_fixed j v
  end.

(** ** Lemmas: printing and reading integers *)
Lemma to_digit_dec d : 48 <= d <= 57 -> to_digit 10 d = Some (d - 48).
Proof.
  intros H. unfold to_digit. rewrite (proj2 (in_range_spec 48 57 d) H).
  case_test; [reflexivity | lia].
Qed.

Lemma hex_digit_spec d : 0 <= d < 16 ->
  to_digit 16 (hex_digit d) = Some d /\ 48 <= hex_digit d <= 102 /\ ws1 (hex_digit d) = false.
Proof. intros Hd. by_range 16%nat d. Qed.

Lemma dec_aux_digits f n acc : 0 <= n -> Forall (fun d => 48 <= d <= 57) acc ->
  Forall (fun d => 48 <= d <= 57) (dec_aux f n acc).
Proof.
  revert n acc. induction f as [| f IH]; intros n acc Hn Ha; cbn [dec_aux]; [exact Ha |].
  assert (Forall (fun d => 48 <= d <= 57) (48 + n mod 10 :: acc)) by (constructor; [elia | exact Ha]).
  case_test; [assumption |]. apply IH; [elia | assumption].
Qed.

Lemma dec_digits n : u64 n -> Forall (fun d => 48 <= d <= 57) (dec n).
Proof. intros Hn. apply dec_aux_digits; [ulia | constructor]. Qed.

Lemma dec_aux_ne f n acc : (0 < f)%nat \/ acc <> [] -> dec_aux f n acc <> [].
Proof.
  revert n acc. induction f as [| f IH]; intros n acc Ha; cbn [dec_aux].
  - destruct Ha; [lia | assumption].
  - case_test; [discriminate | apply IH; right; discriminate].
Qed.

Lemma dec_ne n : dec n <> [].
Proof. apply dec_aux_ne. lia. Qed.

Lemma dec_val_nonneg l : Forall (fun d => 48 <= d <= 57) l -> 0 <= dec_val l.
Proof.
  induction 1 as [| d l Hd _ IH]; [reflexivity |]. unfold dec_val. cbn [foldl].
  rewrite foldl_dec. nia.
Qed.

Lemma digits_acc_dec max acc l : 0 <= acc -> Forall (fun d => 48 <= d <= 57) l ->
  acc * 10 ^ Z.of_nat (length l) + dec_val l <= max ->
  digits_acc 10 max acc l = Ok (acc * 10 ^ Z.of_nat (length l) + dec_val l).
Proof.
  intros Ha Hl. revert acc Ha. induction Hl as [| d l Hd Hl IH]; intros acc Ha Hm.
  - cbn. f_equal. unfold dec_val. simpl. lia.
  - cbn [digits_acc length] in *. rewrite to_digit_dec by exact Hd.
    pose proof (dec_val_nonneg l Hl). rewrite Nat2Z.inj_succ, Z.pow_succ_r in * by lia.
    unfold dec_val in Hm |- *. cbn [foldl] in *. rewrite foldl_dec in *.
    assert (0 < 10 ^ Z.of_nat (length l)) by lia.
    case_test; [nia |]. case_test; [nia |].
    rewrite IH by nia. f_equal. lia.
Qed.

Lemma parse_dec max n : u64 n -> n <= max -> from_str_radix 10 max (dec n) = Ok n.
Proof.
  intros Hn Hm. pose proof (dec_digits n Hn) as Hd. pose proof (dec_val_dec n Hn) as Hv.
  assert (Hr : digits_acc 10 max 0 (dec n) = Ok n) by (rewrite digits_acc_dec by (lia || assumption); f_equal; lia).
  unfold from_str_radix. destruct (dec n) as [| c r] eqn:E; [contradiction (dec_ne n E) |].
  apply Forall_cons in Hd as [Hc _].
  destruct (Z.eqb_spec c 43), (Z.eqb_spec c 45); try lia. exact Hr.
Qed.

Lemma digits_acc_hex max k v acc : 0 <= acc -> acc * 16 ^ Z.of_nat k + v mod 16 ^ Z.of_nat k <= max ->
  digits_acc 16 max acc (hex_fixed k v) = Ok (acc * 16 ^ Z.of_nat k + v mod 16 ^ Z.of_nat k).
Proof.
  revert acc. induction k as [| k IH]; intros acc Ha Hm; cbn [hex_fixed digits_acc].
  - f_equal. rewrite Z.mod_1_r. simpl. lia.
  - assert (Hp : 0 < 16 ^ Z.of_nat k) by lia.
    rewrite Nat2Z.inj_succ, Z.pow_succ_r in * by lia.
    rewrite (Z.mul_comm 16), Z.rem_mul_r in * by lia.
    pose proof (Z.mod_pos_bound (v / 16 ^ Z.of_nat k) 16 ltac:(lia)) as Hd.
    pose proof (Z.mod_pos_bound v (16 ^ Z.of_nat k) Hp).
    rewrite (proj1 (hex_digit_spec _ Hd)).
    case_test; [nia |]. case_test; [nia |]. rewrite IH by nia. f_equal. nia.
Qed.

Lemma parse_hex_fixed max k v : (0 < k)%nat -> 0 <= v < 16 ^ Z.of_nat k -> v <= max ->
  from_str_radix 16 max (hex_fixed k v) = Ok v.
Proof.
  intros Hk Hv Hm.
  assert (Hr : digits_acc 16 max 0 (hex_fixed k v) = Ok v).
  { pose proof (Z.mod_small v (16 ^ Z.of_nat k) Hv) as E.
    rewrite digits_acc_hex; rewrite ?E; [f_equal |..]; lia. }
  destruct k as [| k]; [lia |]. cbn [hex_fixed] in *. unfold from_str_radix.
  assert (Hd : 0 <= v / 16 ^ Z.of_nat k mod 16 < 16) by (apply Z.mod_pos_bound; lia).
  pose proof (hex_digit_spec _ Hd).
  destruct (Z.eqb_spec (hex_digit (v / 16 ^ Z.of_nat k mod 16)) 43); [lia |].
  destruct (Z.eqb_spec (hex_digit (v / 16 ^ Z.of_nat k mod 16)) 45); [lia |]. exact Hr.
Qed.

Lemma to_digit_range radix c d : to_digit radix c = Some d -> 0 <= d < radix.
Proof.
  unfold to_digit, in_range. repeat case_match; intros; simplify_eq; lia.
Qed.

Lemma digits_acc_range radix max acc s v : 0 <= acc <= max -> 0 <= radix ->
  digits_acc radix max acc s = Ok v -> 0 <= v <= max.
Proof.
  intros Ha Hr. revert acc Ha. induction s as [| c s IH]; intros acc Ha; cbn [digits_acc].
  - intros [= <-]. exact Ha.
  - destruct (to_digit radix c) as [d |] eqn:Ed; [| discriminate].
    apply to_digit_range in Ed. case_test; [discriminate |]. case_test; [discriminate |].
    apply IH. nia.
Qed.

Lemma from_str_radix_range radix max s v : 0 <= max -> 0 <= radix ->
  from_str_radix radix max s = Ok v -> 0 <= v <= max.
Proof.
  intros Hm Hr. unfold from_str_radix. destruct s as [| c r]; [discriminate |].
  case_match; [discriminate |]. case_match; apply digits_acc_range; lia.
Qed.

Lemma digits_acc_np radix max acc s : no_panic (digits_acc radix max acc s).
Proof.
  revert acc. induction s as [| c s IH]; intros acc; cbn [digits_acc]; [discriminate |].
  repeat case_match; try discriminate. apply IH.
Qed.

Lemma from_str_radix_np radix max s : no_panic (from_str_radix radix max s).
Proof. unfold from_str_radix. repeat case_match; try discriminate; apply digits_acc_np. Qed.
#[export] Hint Resolve from_str_radix_np : rtc.

(** ** Lemmas: white space and separators *)

(** A white space character at the head *)
Definition ws_at (s : bytes) : bool :=
  match s with
  | [] => false
  | b0 :: r => ws1 b0 || match r with
                         | [] => false
                         | b1 :: r1 => ws2 b0 b1 || match r1 with [] => false | b2 :: _ => ws3 b0 b1 b2 end
                         end
  end.

(** A word: not empty, no white space character at any position. *)
Fixpoint no_ws (s : bytes) : bool :=
  match s with [] => true | _ :: r => negb (ws_at s) && no_ws r end.
Definition word (s : bytes) : bool := negb (bool_decide (s = [])) && no_ws s.

(** What follows a word in the printed text: nothing, or an ASCII character. *)
Definition ascii_head (s : bytes) : Prop := match s with [] => True | b :: _ => b < 128 end.

Lemma ws2_ascii b0 b1 : b1 < 128 -> ws2 b0 b1 = false.
Proof.
  intros H. unfold ws2. destruct (Z.eqb_spec b1 133), (Z.eqb_spec b1 160); lia.
Qed.
Lemma ws3_ascii b0 b1 b2 : b2 < 128 -> ws3 b0 b1 b2 = false.
Proof.
  intros H. unfold ws3, in_range.
  destruct (Z.eqb_spec b2 128), (Z.eqb_spec b2 168), (Z.eqb_spec b2 169), (Z.eqb_spec b2 175),
    (Z.eqb_spec b2 159), (Z.leb_spec 128 b2); lia.
Qed.
Lemma ws3_ascii2 b0 b1 b2 : b1 < 128 -> ws3 b0 b1 b2 = false.
Proof.
  intros H. unfold ws3.
  destruct (Z.eqb_spec b1 154), (Z.eqb_spec b1 128), (Z.eqb_spec b1 129); lia.
Qed.

Lemma ws_at_app b w s : ascii_head s -> ws_at ((b :: w) ++ s) = ws_at (b :: w).
Proof.
  intros Hs. unfold ws_at. destruct w as [| b1 [| b2 w]]; [..| reflexivity]; cbn [app].
  - destruct s as [| b1 s]; [reflexivity |]. rewrite ws2_ascii by exact Hs.
    destruct s as [| b2 s]; [reflexivity |]. rewrite ws3_ascii2 by exact Hs. reflexivity.
  - destruct s as [| b2 s]; [reflexivity |]. rewrite ws3_ascii by exact Hs. reflexivity.
Qed.

Lemma words_no_ws b r cur : ws_at (b :: r) = false -> words cur (b :: r) = words (cur ++ [b]) r.
Proof.
  unfold ws_at. cbn [words]. intros H. apply orb_false_iff in H as [-> H].
  destruct r as [| b1 r]; [reflexivity |]. apply orb_false_iff in H as [-> H].
  destruct r as [| b2 r]; [reflexivity |]. rewrite H. reflexivity.
Qed.

Lemma words_app w s cur : no_ws w = true -> ascii_head s -> words cur (w ++ s) = words (cur ++ w) s.
Proof.
  revert cur. induction w as [| b w IH]; intros cur Hw Hs.
  - rewrite app_nil_r. reflexivity.
  - cbn [no_ws] in Hw. apply andb_prop in Hw as [Hb Hw]. apply negb_true_iff in Hb.
    rewrite <- (ws_at_app _ _ s Hs) in Hb. rewrite <- app_comm_cons in *.
    rewrite words_no_ws, IH by assumption. rewrite <- app_assoc. reflexivity.
Qed.

Lemma word_inv w : word w = true -> w <> [] /\ no_ws w = true.
Proof. unfold word. rewrite andb_true_iff, negb_true_iff, bool_decide_eq_false. tauto. Qed.

Lemma flush_word w : w <> [] -> flush w = [w].
Proof. destruct w; [congruence | reflexivity]. Qed.

Lemma words_space cur s : words cur (32 :: s) = flush cur ++ words [] s.
Proof. reflexivity. Qed.

Lemma split_whitespace_cons w s : word w = true ->
  split_whitespace (w ++ 32 :: s) = w :: split_whitespace s.
Proof.
  intros [Hn Hw]%word_inv. unfold split_whitespace. rewrite words_app by (assumption || (simpl; lia)).
  rewrite app_nil_l, words_space, flush_word by exact Hn. reflexivity.
Qed.

Lemma split_whitespace_one w : word w = true -> split_whitespace w = [w].
Proof.
  intros [Hn Hw]%word_inv. unfold split_whitespace. rewrite <- (app_nil_r w), words_app by (assumption || exact I).
  rewrite app_nil_l, app_nil_r. apply flush_word, Hn.
Qed.

Lemma split_whitespace_space s : split_whitespace (32 :: s) = split_whitespace s.
Proof. reflexivity. Qed.

(** Words joined by spaces are read back. *)
Lemma split_whitespace_join l : forallb word l = true -> split_whitespace (join [32] l) = l.
Proof.
  induction l as [| w l IH]; [reflexivity |]. cbn [forallb join]. intros [Hw Hl]%andb_prop.
  destruct l as [| w' l]; [apply split_whitespace_one, Hw |].
  cbn [app]. rewrite split_whitespace_cons, IH by assumption. reflexivity.
Qed.

Lemma ascii_no_ws s : Forall (fun b => b < 128 /\ ws1 b = false) s -> no_ws s = true.
Proof.
  induction 1 as [| b s [Hb Hw] Hs IH]; [reflexivity |]. cbn [no_ws]. rewrite IH, andb_true_r.
  apply negb_true_iff. unfold ws_at. rewrite Hw.
  destruct Hs as [| b1 s [Hb1 _] Hs]; [reflexivity |]. rewrite ws2_ascii by exact Hb1.
  destruct Hs as [| b2 s [Hb2 _] Hs]; [reflexivity |]. rewrite ws3_ascii by exact Hb2. reflexivity.
Qed.

Lemma dec_word n : u64 n -> word (dec n) = true.
Proof.
  intros Hn. unfold word. rewrite bool_decide_false by apply dec_ne. apply ascii_no_ws.
  eapply Forall_impl; [apply dec_digits, Hn |]. intros d Hd. split; [simpl in Hd; lia |].
  simpl in Hd. unfold ws1, in_range. lia.
Qed.

Lemma hex_fixed_ascii k v : Forall (fun b => 48 <= b <= 102 /\ ws1 b = false) (hex_fixed k v).
Proof.
  induction k as [| k IH]; [constructor |]. cbn [hex_fixed]. constructor; [| exact IH].
  apply hex_digit_spec, Z.mod_pos_bound. lia.
Qed.

Lemma hex_fixed_word k v : (0 < k)%nat -> word (hex_fixed k v) = true.
Proof.
  intros Hk. unfold word. rewrite bool_decide_false by (destruct k; [lia | discriminate]).
  apply ascii_no_ws. eapply Forall_impl; [apply hex_fixed_ascii |].
  intros b [Hb Hw]. split; [lia | exact Hw].
Qed.

(** Text that starts and ends with printable ASCII is not trimmed. *)
Lemma trim_start_ascii b s : b < 128 -> ws1 b = false -> trim_start (b :: s) = b :: s.
Proof.
  intros Hb Hw. cbn [trim_start]. rewrite Hw. destruct s as [| b1 s]; [reflexivity |].
  assert (ws2 b b1 = false) as -> by (unfold ws2; lia).
  destruct s as [| b2 s]; [reflexivity |].
  assert (ws3 b b1 b2 = false) as -> by (unfold ws3; lia). reflexivity.
Qed.

Lemma trim_end_ascii b s : b < 128 -> ws1 b = false -> trim_end (s ++ [b]) = s ++ [b].
Proof.
  intros Hb Hw. unfold trim_end. rewrite reverse_snoc. cbn [trim_end_rev]. rewrite Hw.
  destruct (reverse s) as [| b1 r] eqn:E.
  - apply (f_equal reverse) in E. rewrite reverse_involutive in E. rewrite E. reflexivity.
  - rewrite ws2_ascii by exact Hb.
    assert (reverse (b :: b1 :: r) = s ++ [b]) as H
      by (rewrite reverse_cons, <- E, reverse_involutive; reflexivity).
    destruct r as [| b2 r]; [exact H |]. rewrite ws3_ascii by exact Hb. exact H.
Qed.

Lemma ascii_str_ok s : Forall (fun b => 0 <= b < 128) s -> str_ok s.
Proof.
  unfold str_ok. induction 1 as [| b s Hb _ IH]; [reflexivity |]. cbn [utf8_valid].
  rewrite (proj2 (in_range_spec 0 127 b)) by lia. exact IH.
Qed.

Lemma split_once_app c k v : c ∉ k -> split_once c (k ++ c :: v) = Some (k, v).
Proof.
  induction k as [| b k IH]; intros Hk; cbn [app split_once].
  - rewrite Z.eqb_refl. reflexivity.
  - apply not_elem_of_cons in Hk as [Hb Hk]. destruct (Z.eqb_spec b c); [congruence |].
    rewrite IH by exact Hk. reflexivity.
Qed.

Lemma split_once_none c s : c ∉ s -> split_once c s = None.
Proof.
  induction s as [| b s IH]; intros Hs; cbn [split_once]; [reflexivity |].
  apply not_elem_of_cons in Hs as [Hb Hs]. destruct (Z.eqb_spec b c); [congruence |].
  rewrite IH by exact Hs. reflexivity.
Qed.

Lemma split_once_inv c s k v : split_once c s = Some (k, v) -> s = k ++ c :: v /\ c ∉ k.
Proof.
  revert k. induction s as [| b s IH]; intros k; cbn [split_once]; [discriminate |].
  destruct (Z.eqb_spec b c) as [-> | Hb].
  - intros [= <- <-]. split; [reflexivity | apply not_elem_of_nil].
  - destruct (split_once c s) as [[k' v'] |]; [| discriminate]. intros [= <- <-].
    destruct (IH k' eq_refl) as [-> Hk]. split; [reflexivity |]. apply not_elem_of_cons. auto.
Qed.

Lemma split_at_char_app c l s cur : c ∉ l ->
  split_at_char c cur (l ++ c :: s) = (cur ++ l) :: split_at_char c [] s.
Proof.
  revert cur. induction l as [| b l IH]; intros cur Hl; cbn [app split_at_char].
  - rewrite Z.eqb_refl, app_nil_r. reflexivity.
  - apply not_elem_of_cons in Hl as [Hb Hl]. destruct (Z.eqb_spec b c); [congruence |].
    rewrite IH by exact Hl. rewrite <- app_assoc. reflexivity.
Qed.

Lemma split_char_line c l s : c ∉ l -> split_char c (l ++ c :: s) = l :: split_char c s.
Proof. intros Hl. apply (split_at_char_app c l s []), Hl. Qed.

Lemma trim_end_matches_one c s : c ∉ s -> trim_end_matches c (s ++ [c]) = s.
Proof.
  intros Hs. unfold trim_end_matches. rewrite reverse_snoc. cbn [drop_while_eq].
  rewrite Z.eqb_refl. destruct (reverse s) as [| b r] eqn:E; cbn [drop_while_eq].
  - apply (f_equal reverse) in E. rewrite reverse_involutive in E. symmetry. exact E.
  - destruct (Z.eqb_spec b c) as [-> |].
    + exfalso. apply Hs, elem_of_reverse. rewrite E. apply list_elem_of_here.
    + rewrite <- E. apply reverse_involutive.
Qed.

(** ** Lines of printable ASCII words *)
Definition printable (s : bytes) : bool :=
  negb (bool_decide (s = [])) && forallb (in_range 33 126) s.

Lemma printable_inv s : printable s = true -> s <> [] /\ Forall (fun b => 33 <= b <= 126) s.
Proof.
  unfold printable. rewrite andb_true_iff, negb_true_iff, bool_decide_eq_false, forallb_forall.
  intros [Hn H]. split; [exact Hn |]. apply Forall_forall. intros b Hb.
  apply in_range_spec, H, list_elem_of_In, Hb.
Qed.

Lemma printable_char b : 33 <= b <= 126 -> b < 128 /\ ws1 b = false.
Proof. intros H. unfold ws1, in_range. lia. Qed.

Lemma printable_word s : printable s = true -> word s = true.
Proof.
  intros [Hn H]%printable_inv. unfold word. rewrite bool_decide_false by exact Hn.
  apply ascii_no_ws. eapply Forall_impl; [exact H |]. apply printable_char.
Qed.

Lemma hex_fixed_printable k v : (0 < k)%nat -> printable (hex_fixed k v) = true.
Proof.
  intros Hk. unfold printable. rewrite bool_decide_false by (destruct k; [lia | discriminate]).
  apply forallb_forall. intros b Hb. apply in_range_spec.
  pose proof (hex_fixed_ascii k v) as H. rewrite Forall_forall in H.
  specialize (H b (proj2 (list_elem_of_In _ _) Hb)). simpl in H. lia.
Qed.

Lemma join_printable f : f <> [] -> forallb printable f = true ->
  Forall (fun b => 0 <= b < 128) (join [32] f) /\
  (exists b r, join [32] f = b :: r /\ 33 <= b <= 126) /\
  (exists l b, join [32] f = l ++ [b] /\ 33 <= b <= 126).
Proof.
  induction f as [| w f IH]; [congruence |]. intros _. cbn [forallb]. intros [Hw Hf]%andb_prop.
  apply printable_inv in Hw as [Hn Hw].
  assert (Ha : Forall (fun b => 0 <= b < 128) w)
    by (eapply Forall_impl; [exact Hw |]; simpl; intros; lia).
  destruct f as [| w' f].
  - cbn [join]. split; [exact Ha |]. split.
    + destruct Hw as [| b r Hb _]; [congruence | eauto].
    + destruct (exists_last Hn) as (l & b & ->). apply Forall_app in Hw as [_ Hw].
      apply Forall_cons in Hw as [Hb _]. eauto.
  - destruct (IH ltac:(discriminate) Hf) as (Hj & _ & l & b & E & Hb).
    cbn [join]. cbn [join] in E, Hj. rewrite E in *. split; [| split].
    + apply Forall_app. split; [exact Ha |]. constructor; [lia | exact Hj].
    + destruct Hw as [| c r Hc _]; [congruence |]. rewrite <- app_comm_cons. eauto.
    + exists (w ++ [32] ++ l), b. rewrite <- !app_assoc. auto.
Qed.

Lemma join_trim f : f <> [] -> forallb printable f = true -> trim (join [32] f) = join [32] f.
Proof.
  intros Hn Hf. destruct (join_printable f Hn Hf) as (Ha & (b & r & Er & Hb) & l & c & El & Hc).
  unfold trim. rewrite Er, trim_start_ascii by apply printable_char, Hb.
  rewrite <- Er, El. apply trim_end_ascii; apply printable_char, Hc.
Qed.

Lemma printable_words f : forallb printable f = true -> forallb word f = true.
Proof.
  induction f as [| w f IH]; [reflexivity |]. cbn [forallb]. intros [Hw Hf]%andb_prop.
  rewrite printable_word, IH by assumption. reflexivity.
Qed.

Lemma printable_join f : forallb printable f = true -> split_whitespace (join [32] f) = f.
Proof. intros Hf. apply split_whitespace_join, printable_words, Hf. Qed.

Lemma ascii_line f : f <> [] -> forallb printable f = true ->
  split_whitespace (trim (from_utf8_lossy (join [32] f))) = f.
Proof.
  intros Hn Hf. destruct (join_printable f Hn Hf) as (Ha & _).
  rewrite from_utf8_lossy_valid by apply ascii_str_ok, Ha. rewrite join_trim by assumption.
  apply printable_join, Hf.
Qed.

(** ** What [split_whitespace] and [trim] return *)
Lemma ws_at_prefix a b : ws_at (a ++ b) = false -> ws_at a = false.
Proof.
  destruct a as [| x [| y [| z a]]]; simpl; auto; rewrite ?orb_false_iff; destruct b as [| b0 [| b1 b]];
    simpl; rewrite ?orb_false_iff; tauto.
Qed.

(** The four cases of a scan for white space *)
Lemma ws_cases b0 r :
  (ws_at (b0 :: r) = false /\ forall cur, words cur (b0 :: r) = words (cur ++ [b0]) r /\
                                          trim_start (b0 :: r) = b0 :: r) \/
  (ws_at (b0 :: r) = true /\ exists r' skipped, b0 :: r = skipped ++ r' /\ (length r' < length (b0 :: r))%nat /\
     trim_start (b0 :: r) = trim_start r' /\ forall cur, words cur (b0 :: r) = flush cur ++ words [] r').
Proof.
  cbn [ws_at words trim_start].
  destruct (ws1 b0); [right; split; [reflexivity |]; exists r, [b0]; repeat split; simpl; lia |].
  destruct r as [| b1 r]; [left; repeat split |].
  destruct (ws2 b0 b1); [right; split; [reflexivity |]; exists r, [b0; b1]; repeat split; simpl; lia |].
  destruct r as [| b2 r]; [left; repeat split |].
  destruct (ws3 b0 b1 b2); [right; split; [reflexivity |]; exists r, [b0; b1; b2]; repeat split; simpl; lia |].
  left; repeat split.
Qed.

(** No white space starts inside [cur] when [s] follows it. *)
Definition clear (cur s : bytes) : Prop :=
  forall c1 b c2, cur = c1 ++ b :: c2 -> ws_at (b :: c2 ++ s) = false.

Lemma clear_no_ws cur s : clear cur s -> no_ws cur = true.
Proof.
  induction cur as [| b cur IH]; intros H; [reflexivity |]. cbn [no_ws].
  pose proof (H [] b cur eq_refl) as Hb. rewrite app_comm_cons in Hb. apply ws_at_prefix in Hb. rewrite Hb.
  apply IH. intros c1 b' c2 ->. apply (H (b :: c1) b' c2). reflexivity.
Qed.

Lemma clear_snoc cur b r : clear cur (b :: r) -> ws_at (b :: r) = false -> clear (cur ++ [b]) r.
Proof.
  intros H Hb c1 b' c2 E. destruct (decide (c2 = [])) as [-> | Hne].
  - apply app_inj_tail in E as [_ <-]. exact Hb.
  - destruct (exists_last Hne) as (c3 & b'' & ->). rewrite app_comm_cons, app_assoc in E.
    apply app_inj_tail in E as [-> <-]. rewrite <- app_assoc. apply (H c1 b' c3). reflexivity.
Qed.

Lemma flush_words cur s : clear cur s -> forallb word (flush cur) = true.
Proof.
  intros H. apply clear_no_ws in H. destruct cur as [| b cur]; [reflexivity |].
  cbn [flush forallb]. unfold word. rewrite H, bool_decide_false by discriminate. reflexivity.
Qed.

Lemma words_are_words s : forall cur, clear cur s -> forallb word (words cur s) = true.
Proof.
  induction s as [s IH] using bytes_len_ind. intros cur Hc.
  destruct s as [| b r]; [apply (flush_words cur [] Hc) |].
  destruct (ws_cases b r) as [[Hb Hw] | (Hb & r' & sk & E & Hl & _ & Hw)].
  - rewrite (proj1 (Hw cur)). apply IH; [simpl; lia | apply clear_snoc; assumption].
  - rewrite Hw, forallb_app, (flush_words cur _ Hc). apply IH; [exact Hl |].
    intros c1 b' c2 E'. destruct c1; discriminate.
Qed.

Lemma split_whitespace_words s : forallb word (split_whitespace s) = true.
Proof. apply words_are_words. intros c1 b c2 E. destruct c1; discriminate. Qed.

Lemma trim_start_spec s : ws_at (trim_start s) = false /\ exists p, s = p ++ trim_start s.
Proof.
  induction s as [s IH] using bytes_len_ind. destruct s as [| b r]; [split; [reflexivity | exists []; reflexivity] |].
  destruct (ws_cases b r) as [[Hb Hw] | (Hb & r' & sk & E & Hl & Ht & _)].
  - rewrite (proj2 (Hw [])). split; [exact Hb | exists []; reflexivity].
  - rewrite Ht. destruct (IH r' Hl) as [H1 [p Hp]]. split; [exact H1 |]. exists (sk ++ p).
    rewrite <- app_assoc, <- Hp. exact E.
Qed.

Lemma trim_start_id s : ws_at s = false -> trim_start s = s.
Proof.
  destruct s as [| b r]; [reflexivity |]. intros H.
  destruct (ws_cases b r) as [[_ Hw] | (Hb & _)]; [apply (Hw []) | congruence].
Qed.

(** White space at the end, on reversed octets *)
Definition ws_end (s : bytes) : bool :=
  match s with
  | [] => false
  | b0 :: r => ws1 b0 || match r with
                         | [] => false
                         | b1 :: r1 => ws2 b1 b0 || match r1 with [] => false | b2 :: _ => ws3 b2 b1 b0 end
                         end
  end.

Lemma ws_end_cases b0 r :
  (ws_end (b0 :: r) = false /\ trim_end_rev (b0 :: r) = b0 :: r) \/
  (ws_end (b0 :: r) = true /\ exists r' sk, b0 :: r = sk ++ r' /\ (length r' < length (b0 :: r))%nat /\
     trim_end_rev (b0 :: r) = trim_end_rev r').
Proof.
  cbn [ws_end trim_end_rev].
  destruct (ws1 b0); [right; split; [reflexivity |]; exists r, [b0]; repeat split; simpl; lia |].
  destruct r as [| b1 r]; [left; repeat split |].
  destruct (ws2 b1 b0); [right; split; [reflexivity |]; exists r, [b0; b1]; repeat split; simpl; lia |].
  destruct r as [| b2 r]; [left; repeat split |].
  destruct (ws3 b2 b1 b0); [right; split; [reflexivity |]; exists r, [b0; b1; b2]; repeat split; simpl; lia |].
  left; repeat split.
Qed.

Lemma trim_end_rev_spec s : ws_end (trim_end_rev s) = false /\ exists p, s = p ++ trim_end_rev s.
Proof.
  induction s as [s IH] using bytes_len_ind. destruct s as [| b r]; [split; [reflexivity | exists []; reflexivity] |].
  destruct (ws_end_cases b r) as [[Hb ->] | (Hb & r' & sk & E & Hl & Ht)].
  - split; [exact Hb | exists []; reflexivity].
  - rewrite Ht. destruct (IH r' Hl) as [H1 [p Hp]]. split; [exact H1 |]. exists (sk ++ p).
    rewrite <- app_assoc, <- Hp. exact E.
Qed.

Lemma trim_end_rev_id s : ws_end s = false -> trim_end_rev s = s.
Proof.
  destruct s as [| b r]; [reflexivity |]. intros H.
  destruct (ws_end_cases b r) as [[_ Hw] | (Hb & _)]; [exact Hw | congruence].
Qed.

Lemma trim_end_prefix s : exists q, s = trim_end s ++ q.
Proof.
  destruct (trim_end_rev_spec (reverse s)) as [_ [p Hp]]. exists (reverse p). unfold trim_end.
  rewrite <- reverse_app, <- Hp, reverse_involutive. reflexivity.
Qed.

Lemma trim_parts s : exists p q, s = p ++ trim s ++ q.
Proof.
  destruct (trim_start_spec s) as [_ [p Hp]]. destruct (trim_end_prefix (trim_start s)) as [q Hq].
  exists p, q. unfold trim. rewrite <- Hq. exact Hp.
Qed.

Lemma trim_lacks c s : c ∉ s -> c ∉ trim s.
Proof.
  intros H. destruct (trim_parts s) as (p & q & E). rewrite E in H. intros Hin. apply H.
  apply elem_of_app. right. apply elem_of_app. left. exact Hin.
Qed.

Lemma trim_last s b : last (trim s) = Some b -> ws1 b = false.
Proof.
  unfold trim, trim_end. intros H. destruct (trim_end_rev_spec (reverse (trim_start s))) as [He _].
  rewrite last_reverse in H. destruct (trim_end_rev _) as [| c r]; [discriminate |].
  simpl in H. injection H as ->. cbn [ws_end] in He. apply orb_false_iff in He. tauto.
Qed.

Lemma trim_idempotent s : trim (trim s) = trim s.
Proof.
  unfold trim at 1. rewrite trim_start_id.
  - unfold trim, trim_end. rewrite reverse_involutive, trim_end_rev_id; [reflexivity |].
    apply trim_end_rev_spec.
  - destruct (trim_start_spec s) as [H _]. destruct (trim_end_prefix (trim_start s)) as [q Hq].
    unfold trim. rewrite Hq in H. apply ws_at_prefix in H. exact H.
Qed.

Lemma split_at_char_lacks c s cur : c ∉ cur -> Forall (fun l => c ∉ l) (split_at_char c cur s).
Proof.
  revert cur. induction s as [| b s IH]; intros cur Hc; cbn [split_at_char].
  - constructor; [exact Hc | constructor].
  - destruct (Z.eqb_spec b c).
    + constructor; [exact Hc | apply IH, not_elem_of_nil].
    + apply IH. rewrite elem_of_app, list_elem_of_singleton. intros [H | H]; auto.
Qed.
Lemma split_char_lacks c s : Forall (fun l => c ∉ l) (split_char c s).
Proof. apply split_at_char_lacks, not_elem_of_nil. Qed.

Lemma drop_while_eq_spec c s : (exists p, s = p ++ drop_while_eq c s) /\ head (drop_while_eq c s) <> Some c.
Proof.
  induction s as [| b s [[p Hp] IH]]; [split; [exists []; reflexivity | discriminate] |].
  cbn [drop_while_eq]. destruct (Z.eqb_spec b c) as [-> | Hb].
  - split; [| exact IH]. exists (c :: p). rewrite <- app_comm_cons, <- Hp. reflexivity.
  - split; [exists []; reflexivity |]. simpl. congruence.
Qed.

Lemma trim_end_matches_spec c s :
  (exists q, s = trim_end_matches c s ++ q) /\ last (trim_end_matches c s) <> Some c.
Proof.
  unfold trim_end_matches. destruct (drop_while_eq_spec c (reverse s)) as [[p Hp] Hh]. split.
  - exists (reverse p). rewrite <- reverse_app, <- Hp, reverse_involutive. reflexivity.
  - rewrite last_reverse. exact Hh.
Qed.
