(* ===== verification/Rtp.v ===== *)
(** * RTP packets (src/rtp)

    The fixed header, CSRC list, generic header extension and padding of RFC 3550,
    with [RtpPacket::encode] and [RtpPacket::decode] translated branch by branch.
    Lengths and indices are [nat] ([usize]); field values are [Z] and the ranges of
    their Rust types are part of [RtpPacket.wire_ok]. *)

From stdpp Require Import prelude.
From Stdlib Require Import ZArith Lia.
From S2P Require Import Prelude.
Local Open Scope Z_scope.

Definition RTP_VERSION : Z := 2.

Inductive RtpError : Type :=
| TooShort
| BadVersion (v : Z)
| CsrcCountMismatch (expected buf_left : nat)
| HeaderExtensionTooShort
| HeaderExtensionTooLong
| PaddingTooShort
| Invalid.

Module RtpHeaderExtension.
Record t : Type := mk { profile : Z; data : bytes }.
End RtpHeaderExtension.

Module RtpHeader.
Record t : Type := mk {
  version : Z;
  padding : bool;
  extension : bool;
  marker : bool;
  payload_type : Z;
  sequence_number : Z;
  timestamp : Z;
  ssrc : Z;
  csrcs : list Z;
  header_extension : option RtpHeaderExtension.t }.

Definition new (payload_type sequence_number timestamp ssrc : Z) : t :=
  mk RTP_VERSION false false false payload_type sequence_number timestamp ssrc [] None.

Definition with_marker (h : t) (m : bool) : t :=
  mk (version h) (padding h) (extension h) m (payload_type h) (sequence_number h)
     (timestamp h) (ssrc h) (csrcs h) (header_extension h).

Definition with_csrcs (h : t) (cs : list Z) : t :=
  mk (version h) (padding h) (extension h) (marker h) (payload_type h) (sequence_number h)
     (timestamp h) (ssrc h) cs (header_extension h).

Definition with_extension (h : t) (ext : option RtpHeaderExtension.t) : t :=
  mk (version h) (padding h) (is_some ext) (marker h) (payload_type h)
     (sequence_number h) (timestamp h) (ssrc h) (csrcs h) ext.
End RtpHeader.

Module RtpPacket.
Import RtpHeader.
Record t : Type := mk {
  header : RtpHeader.t;
  payload : bytes;
  padding_bytes : Z }.

Definition new (h : RtpHeader.t) (pl : bytes) : t := mk h pl 0.

Definition simple (pt : Z) (m : bool) (seq ts ssrc : Z) (pl : bytes) : t :=
  new (with_marker (RtpHeader.new pt seq ts ssrc) m) pl.

(** The first two octets of the header. *)
Definition vpxcc_byte (version : Z) (has_pad has_ext : bool) (cc : Z) : Z :=
  Z.lor (Z.lor (Z.lor (Z.shiftl (Z.land version 3) 6) (Z.shiftl (bool_u8 has_pad) 5))
               (Z.shiftl (bool_u8 has_ext) 4)) cc.
Definition m_pt_byte (m : bool) (pt : Z) : Z :=
  Z.lor (Z.shiftl (bool_u8 m) 7) (Z.land pt 127).

(** Profile, length in words, data and zero padding to a 32-bit boundary. *)
Definition encode_ext (ext : option RtpHeaderExtension.t) : outcome RtpError bytes :=
  match ext with
  | None => Ok []
  | Some e =>
      let len := length (RtpHeaderExtension.data e) in
      let words := wrap32 (Z.of_nat ((len + 3) / 4)) in
      if 65535 <? words then Err HeaderExtensionTooLong
      else
        let len_words := wrap16 words in
        let pad := ((4 - len mod 4) mod 4)%nat in
        Ok (to_be 2 (RtpHeaderExtension.profile e) ++ to_be 2 len_words
            ++ RtpHeaderExtension.data e ++ replicate pad 0)
  end.

(** The trailing padding octets, whose last one is the padding count. *)
Definition encode_padding (pb : Z) : bytes :=
  if 0 <? pb then
    (if 1 <? pb then replicate (Z.to_nat (pb - 1)) 0 else []) ++ [pb]
  else [].

Definition encode (p : t) : outcome RtpError bytes :=
  let h := header p in
  let cc := Z.land (Z.of_nat (length (csrcs h))) 15 in
  let has_ext := is_some (header_extension h) in
  let has_pad := 0 <? padding_bytes p in
  let vpxcc := vpxcc_byte (version h) has_pad has_ext cc in
  let m_pt := m_pt_byte (marker h) (payload_type h) in
  let fixed := [vpxcc; m_pt] ++ to_be 2 (sequence_number h) ++ to_be 4 (timestamp h)
               ++ to_be 4 (ssrc h) in
  ext ← encode_ext (header_extension h);
  Ok (fixed ++ concat (to_be 4 <$> csrcs h) ++ ext ++ payload p
      ++ encode_padding (padding_bytes p)).

(** [for _ in 0..cc { csrcs.push(..); idx += 4 }] *)
Fixpoint read_csrcs (n : nat) (buf : bytes) (idx : nat) : outcome RtpError (list Z * nat) :=
  match n with
  | O => Ok ([], idx)
  | S n' =>
      csrc ← read_be 4 buf idx;
      '(cs, idx') ← read_csrcs n' buf (idx + 4);
      Ok (csrc :: cs, idx')
  end.

Definition read_ext (ext : bool) (buf : bytes) (idx : nat)
  : outcome RtpError (option RtpHeaderExtension.t * nat) :=
  if ext then
    if (length buf <? idx + 4)%nat then Err HeaderExtensionTooShort
    else
      profile ← read_be 2 buf idx;
      length_words ← read_be 2 buf (idx + 2);
      let idx := (idx + 4)%nat in
      let ext_len := (Z.to_nat length_words * 4)%nat in
      if (length buf <? idx + ext_len)%nat then Err HeaderExtensionTooShort
      else
        data ← slice buf idx (idx + ext_len);
        Ok (Some (RtpHeaderExtension.mk profile data), (idx + ext_len)%nat)
  else Ok (None, idx).

(** The end of the payload and the padding count. *)
Definition read_padding (pad : bool) (buf : bytes) (idx : nat) : outcome RtpError (nat * Z) :=
  let payload_end := length buf in
  if pad then
    if (payload_end =? idx)%nat then Err PaddingTooShort
    else
      pad ← get_idx buf (payload_end - 1);
      if pad =? 0 then Err PaddingTooShort
      else if (payload_end - idx <? Z.to_nat pad)%nat then Err PaddingTooShort
      else Ok ((payload_end - Z.to_nat pad)%nat, pad)
  else Ok (payload_end, 0).

Definition decode (buf : bytes) : outcome RtpError t :=
  if (length buf <? 12)%nat then Err TooShort
  else
    vpxcc ← get_idx buf 0;
    m_pt ← get_idx buf 1;
    let version := Z.land (Z.shiftr vpxcc 6) 3 in
    if negb (version =? RTP_VERSION) then Err (BadVersion version)
    else
      let padding := negb (Z.land (Z.shiftr vpxcc 5) 1 =? 0) in
      let extension := negb (Z.land (Z.shiftr vpxcc 4) 1 =? 0) in
      let cc := Z.to_nat (Z.land vpxcc 15) in
      let marker := negb (Z.shiftr m_pt 7 =? 0) in
      let payload_type := Z.land m_pt 127 in
      sequence_number ← read_be 2 buf 2;
      timestamp ← read_be 4 buf 4;
      ssrc ← read_be 4 buf 8;
      let idx := 12%nat in
      if (length buf <? idx + cc * 4)%nat
      then Err (CsrcCountMismatch cc (length buf - idx))
      else
        '(csrcs, idx) ← read_csrcs cc buf idx;
        '(header_extension, idx) ← read_ext extension buf idx;
        if (length buf <? idx)%nat then Err TooShort
        else
          '(payload_end, padding_bytes) ← read_padding padding buf idx;
          if (idx <=? payload_end)%nat then
            payload ← slice buf idx payload_end;
            Ok (mk (RtpHeader.mk version padding extension marker payload_type
                      sequence_number timestamp ssrc csrcs header_extension)
                   payload padding_bytes)
          else Err Invalid.

(** ** Well-formed packets: the ranges of the Rust field types and the consistency
    between the flags and the fields they announce. *)
Definition ext_ok (e : RtpHeaderExtension.t) : Prop :=
  u16 (RtpHeaderExtension.profile e) /\ bytes_ok (RtpHeaderExtension.data e) /\
  (length (RtpHeaderExtension.data e) mod 4 = 0)%nat /\
  Z.of_nat (length (RtpHeaderExtension.data e)) <= 4 * 65535.

Definition wire_ok (p : t) : Prop :=
  let h := header p in
  version h = RTP_VERSION /\ 0 <= payload_type h < 128 /\ u16 (sequence_number h) /\
  u32 (timestamp h) /\ u32 (ssrc h) /\ Forall u32 (csrcs h) /\ (length (csrcs h) <= 15)%nat /\
  extension h = is_some (header_extension h) /\
  (forall e, header_extension h = Some e -> ext_ok e) /\
  padding h = (0 <? padding_bytes p) /\ u8 (padding_bytes p) /\ bytes_ok (payload p).

(** ** Header octets *)
Lemma vpxcc_fields b :
  u8 b -> Z.land (Z.shiftr b 6) 3 = RTP_VERSION ->
  vpxcc_byte RTP_VERSION (negb (Z.land (Z.shiftr b 5) 1 =? 0))
    (negb (Z.land (Z.shiftr b 4) 1 =? 0)) (Z.land b 15) = b.
Proof. intros Hb. by_range 256%nat b. Qed.

Lemma vpxcc_parse (hp hx : bool) cc : 0 <= cc < 16 ->
  let b := vpxcc_byte RTP_VERSION hp hx cc in
  u8 b /\ Z.land (Z.shiftr b 6) 3 = RTP_VERSION /\
  negb (Z.land (Z.shiftr b 5) 1 =? 0) = hp /\
  negb (Z.land (Z.shiftr b 4) 1 =? 0) = hx /\ Z.land b 15 = cc.
Proof. intros H. cbv zeta. destruct hp, hx; by_range 16%nat cc. Qed.

Lemma m_pt_fields b : u8 b -> m_pt_byte (negb (Z.shiftr b 7 =? 0)) (Z.land b 127) = b.
Proof. intros Hb. by_range 256%nat b. Qed.

Lemma m_pt_parse (m : bool) pt : 0 <= pt < 128 ->
  let b := m_pt_byte m pt in
  u8 b /\ negb (Z.shiftr b 7 =? 0) = m /\ Z.land b 127 = pt.
Proof. intros H. cbv zeta. destruct m; by_range 128%nat pt. Qed.

(** ** The CSRC list *)
Lemma length_csrc_bytes cs : length (concat (to_be 4 <$> cs)) = (length cs * 4)%nat.
Proof. induction cs; csimpl; len. Qed.

Lemma read_csrcs_total n buf idx : (idx + n * 4 <= length buf)%nat ->
  exists cs, read_csrcs n buf idx = Ok (cs, (idx + n * 4)%nat).
Proof.
  revert idx. induction n as [| n IH]; intros idx H; simpl.
  - exists []. do 2 f_equal. lia.
  - unfold read_be. rewrite slice_Ok by lia. simpl.
    destruct (IH (idx + 4)%nat) as [cs ->]; [lia |]. simpl.
    eexists. do 2 f_equal. lia.
Qed.

Lemma read_csrcs_app pre cs post : Forall u32 cs ->
  read_csrcs (length cs) (pre ++ concat (to_be 4 <$> cs) ++ post) (length pre)
  = Ok (cs, (length pre + length cs * 4)%nat).
Proof.
  revert pre. induction cs as [| c cs IH]; intros pre Hcs; csimpl.
  - do 2 f_equal. lia.
  - inversion Hcs; subst. rewrite <- app_assoc, read_be_app by (auto || lia). csimpl.
    specialize (IH (pre ++ to_be 4 c) H2). rewrite <- app_assoc in IH.
    rewrite length_app, length_to_be in IH. rewrite IH. simpl. do 2 f_equal. lia.
Qed.

Lemma read_csrcs_inv n buf idx cs idx' : bytes_ok buf ->
  read_csrcs n buf idx = Ok (cs, idx') ->
  length cs = n /\ Forall u32 cs /\ idx' = (idx + n * 4)%nat /\
  drop idx buf = concat (to_be 4 <$> cs) ++ drop idx' buf.
Proof.
  intros Hb. revert idx cs. induction n as [| n IH]; intros idx cs H; simpl in H.
  - injection H as <- <-. repeat split; [constructor | lia].
  - bind_inv H. bind_inv H. destruct v0 as [cs0 idx0]. injection H as <- <-.
    apply read_be_inv in Hv as (Hl & Hr & Hd); [| assumption].
    apply IH in Hv0 as (<- & Hcs & -> & Hd0).
    repeat split; [constructor; assumption | lia |].
    rewrite Hd, Hd0. csimpl. rewrite <- app_assoc. reflexivity.
Qed.

(** ** The header extension *)
Lemma encode_ext_ok e : ext_ok e ->
  encode_ext (Some e) =
  Ok (to_be 2 (RtpHeaderExtension.profile e)
      ++ to_be 2 (Z.of_nat (length (RtpHeaderExtension.data e) / 4))
      ++ RtpHeaderExtension.data e).
Proof.
  intros (_ & _ & Hm & Hl). unfold encode_ext. set (n := length _) in *.
  pose proof (Nat.div_mod_eq n 4) as Hn. rewrite Hm in Hn.
  replace ((n + 3) / 4)%nat with (n / 4)%nat.
  2:{ apply (Nat.div_unique _ _ _ 3); lia. }
  rewrite wrap32_small by ulia.
  destruct (Z.ltb_spec 65535 (Z.of_nat (n / 4))); [lia |].
  rewrite wrap16_small by ulia. rewrite Hm. simpl. rewrite app_nil_r. reflexivity.
Qed.

Lemma encode_ext_None : encode_ext None = Ok [].
Proof. reflexivity. Qed.

Lemma read_ext_app pre e post : ext_ok e ->
  read_ext true (pre ++ (to_be 2 (RtpHeaderExtension.profile e)
      ++ to_be 2 (Z.of_nat (length (RtpHeaderExtension.data e) / 4))
      ++ RtpHeaderExtension.data e) ++ post) (length pre)
  = Ok (Some e, (length pre + (4 + length (RtpHeaderExtension.data e)))%nat).
Proof.
  intros (Hp & Hb & Hm & Hl). unfold read_ext.
  destruct e as [p d]; cbn [RtpHeaderExtension.profile RtpHeaderExtension.data] in *.
  pose proof (Nat.div_mod_eq (length d) 4) as Hn. rewrite Hm in Hn.
  set (w := (length d / 4)%nat) in *.
  destruct (Nat.ltb_spec (length (pre ++ (to_be 2 p ++ to_be 2 (Z.of_nat w) ++ d) ++ post))
              (length pre + 4)); [len |].
  rewrite <- !app_assoc, (read_u16_app pre p _ (length pre)) by side. simpl.
  rewrite (app_assoc pre), (read_u16_app _ (Z.of_nat w)) by side. simpl.
  rewrite Nat2Z.id.
  replace (w * 4)%nat with (length d) by lia.
  rewrite (app_assoc (pre ++ _)).
  destruct (Nat.ltb_spec (length (((pre ++ to_be 2 p) ++ to_be 2 (Z.of_nat w)) ++ d ++ post))
              (length pre + 4 + length d)); [len |].
  rewrite slice_app by side. simpl. do 2 f_equal. lia.
Qed.

Lemma read_ext_inv x buf idx e idx' : bytes_ok buf ->
  read_ext x buf idx = Ok (e, idx') -> (idx <= length buf)%nat ->
  x = is_some e /\ (idx' <= length buf)%nat /\ (forall e0, e = Some e0 -> ext_ok e0) /\
  exists xb, encode_ext e = Ok xb /\ drop idx buf = xb ++ drop idx' buf.
Proof.
  intros Hb H Hi. unfold read_ext in H. destruct x.
  - case_test_in H; [discriminate |].
    bind_inv H. bind_inv H. case_test_in H; [discriminate |].
    bind_inv H. injection H as <- <-.
    apply read_be_inv in Hv as (_ & Hp & Hd1); [| assumption].
    apply read_be_inv in Hv0 as (_ & Hw & Hd2); [| assumption].
    apply slice_Ok_inv in Hv1 as [_ ->].
    set (w := Z.to_nat v0) in *. set (d := take _ _).
    assert (Hd : length d = (w * 4)%nat) by (unfold d; rewrite length_take, length_drop; lia).
    assert (He : ext_ok (RtpHeaderExtension.mk v d)).
    { split; [exact Hp |]. split; [apply Forall_take, Forall_drop, Hb |].
      cbn [RtpHeaderExtension.data]. rewrite Hd, Nat.Div0.mod_mul.
      split; [reflexivity | change (256 ^ Z.of_nat 2) with 65536 in Hw; lia]. }
    split; [reflexivity |]. split; [lia |]. split; [intros ? [= <-]; exact He |].
    eexists. split; [apply encode_ext_ok, He |].
    cbn [RtpHeaderExtension.data RtpHeaderExtension.profile].
    rewrite Hd, Nat.div_mul by lia. rewrite Hd1, <- !app_assoc. f_equal.
    unfold w at 1. rewrite Z2Nat.id by lia. rewrite Hd2. f_equal.
    replace (idx + 2 + 2)%nat with (idx + 4)%nat by lia.
    rewrite <- (drop_drop buf (w * 4)), <- (take_drop (w * 4) (drop (idx + 4) buf)) at 1.
    unfold d. do 2 f_equal. lia.
  - injection H as <- <-. split; [reflexivity |]. split; [lia |].
    split; [discriminate |]. exists []. auto.
Qed.

(** ** Padding *)
Lemma length_encode_padding pb : 0 <= pb -> length (encode_padding pb) = Z.to_nat pb.
Proof.
  intros. unfold encode_padding. case_test; [| simpl; lia].
  case_test; len.
Qed.

Lemma encode_padding_last pb : 0 < pb -> exists z, encode_padding pb = z ++ [pb].
Proof. intros. unfold encode_padding. case_test; [eauto | lia]. Qed.

Lemma read_padding_app body pb idx : u8 pb -> (idx <= length body)%nat ->
  read_padding (0 <? pb) (body ++ encode_padding pb) idx = Ok (length body, pb).
Proof.
  intros Hp Hi. unfold read_padding.
  destruct (Z.ltb_spec 0 pb).
  - destruct (encode_padding_last pb) as [z Hz]; [lia |].
    pose proof (length_encode_padding pb ltac:(ulia)) as Hl. rewrite Hz in *.
    rewrite length_app in Hl. simpl in Hl. rewrite !length_app. simpl length.
    case_test; [lia |]. unfold get_idx.
    rewrite app_assoc, lookup_app_r by (rewrite length_app; lia).
    replace (_ - _ - _)%nat with 0%nat by (rewrite length_app; lia). simpl.
    case_test; [lia |]. case_test; [lia |]. do 2 f_equal. lia.
  - replace pb with 0 by ulia. simpl. rewrite app_nil_r. reflexivity.
Qed.

Lemma read_padding_inv pad buf idx pe pb : bytes_ok buf -> (idx <= length buf)%nat ->
  read_padding pad buf idx = Ok (pe, pb) ->
  (idx <= pe)%nat /\ (pe + Z.to_nat pb = length buf)%nat /\ u8 pb /\ pad = (0 <? pb).
Proof.
  intros Hb Hi H. unfold read_padding in H. destruct pad.
  - case_test_in H; [discriminate |]. bind_inv H.
    case_test_in H; [discriminate |]. case_test_in H; [discriminate |].
    injection H as <- <-. unfold get_idx, expect in Hv.
    destruct (buf !! _) eqn:E; simplify_eq/=.
    assert (Hu : u8 v) by (eapply Forall_lookup_1; eassumption).
    split_and!; [lia | lia | assumption |].
    symmetry. apply Z.ltb_lt. ulia.
  - injection H as <- <-. split_and!; [lia | lia | ulia | reflexivity].
Qed.

Lemma read_ext_no_panic x buf idx : no_panic (read_ext x buf idx).
Proof.
  unfold read_ext. destruct x; [| apply Ok_no_panic].
  case_test; [apply Err_no_panic |].
  destruct (@read_be_total RtpError 2 buf idx) as [? ->]; [lia |].
  destruct (@read_be_total RtpError 2 buf (idx + 2)) as [? ->]; [lia |]. simpl.
  case_test; [apply Err_no_panic |]. rewrite slice_Ok by lia. apply Ok_no_panic.
Qed.

Lemma read_padding_no_panic pad buf idx : (idx <= length buf)%nat ->
  no_panic (read_padding pad buf idx).
Proof.
  intros. unfold read_padding. destruct pad; [| apply Ok_no_panic].
  case_test; [apply Err_no_panic |].
  destruct (@get_idx_total RtpError buf (length buf - 1)) as [? ->]; [lia |]. simpl.
  repeat case_test; auto with rtc.
Qed.

Lemma read_padding_end pad buf idx pe pb :
  read_padding pad buf idx = Ok (pe, pb) -> (pe <= length buf)%nat.
Proof.
  unfold read_padding. destruct pad; intros H; [| injection H as <- <-; lia].
  case_test_in H; [discriminate |]. bind_inv H.
  case_test_in H; [discriminate |]. case_test_in H; [discriminate |].
  injection H as <- <-. lia.
Qed.

(** ** The fixed header *)
Lemma fixed_reads (a b s ts ssrc : Z) rest :
  let out := [a; b] ++ to_be 2 s ++ to_be 4 ts ++ to_be 4 ssrc ++ rest in
  u16 s -> u32 ts -> u32 ssrc ->
  (12 <= length out)%nat /\
  @get_idx RtpError out 0 = Ok a /\ @get_idx RtpError out 1 = Ok b /\
  @read_be RtpError 2 out 2 = Ok s /\ @read_be RtpError 4 out 4 = Ok ts /\
  @read_be RtpError 4 out 8 = Ok ssrc.
Proof.
  intros out Hs Hts Hss. unfold out.
  split; [len |]. split; [reflexivity |]. split; [reflexivity |].
  split; [apply read_u16_app; side |].
  rewrite (app_assoc [a; b]). split; [apply read_u32_app; side |].
  rewrite (app_assoc ([a; b] ++ _)). apply read_u32_app; side.
Qed.

Lemma fixed_reads_inv buf a b s ts ssrc : bytes_ok buf -> (12 <= length buf)%nat ->
  @get_idx RtpError buf 0 = Ok a -> @get_idx RtpError buf 1 = Ok b ->
  @read_be RtpError 2 buf 2 = Ok s -> @read_be RtpError 4 buf 4 = Ok ts ->
  @read_be RtpError 4 buf 8 = Ok ssrc ->
  u8 a /\ u8 b /\ u16 s /\ u32 ts /\ u32 ssrc /\
  buf = [a; b] ++ to_be 2 s ++ to_be 4 ts ++ to_be 4 ssrc ++ drop 12 buf.
Proof.
  intros Hok Hl Ha Hb Hs Hts Hss.
  destruct buf as [| a' [| b' rest]]; [simpl in Hl; lia.. |].
  injection Ha as ->. injection Hb as ->.
  pose proof Hok as Hok2. inversion_clear Hok2 as [| ? ? Hua Hok3].
  inversion_clear Hok3 as [| ? ? Hub _].
  apply read_be_inv in Hs as (_ & Hs & Hd1); [| assumption].
  apply read_be_inv in Hts as (_ & Hts & Hd2); [| assumption].
  apply read_be_inv in Hss as (_ & Hss & Hd3); [| assumption].
  repeat (split; [assumption |]).
  simpl in Hd1, Hd2, Hd3 |- *. do 2 f_equal. rewrite drop_0 in Hd1.
  etransitivity; [exact Hd1 |]. f_equal.
  etransitivity; [exact Hd2 |]. f_equal. exact Hd3.
Qed.

(** ** The steps of a successful decode *)
Record decoded (buf : bytes) (p : t) (a b : Z) (i1 i2 pe : nat) : Prop := {
  d_len : (12 <= length buf)%nat;
  d_a : @get_idx RtpError buf 0 = Ok a;
  d_b : @get_idx RtpError buf 1 = Ok b;
  d_ver : Z.land (Z.shiftr a 6) 3 = RTP_VERSION;
  d_seq : @read_be RtpError 2 buf 2 = Ok (sequence_number (header p));
  d_ts : @read_be RtpError 4 buf 4 = Ok (timestamp (header p));
  d_ssrc : @read_be RtpError 4 buf 8 = Ok (ssrc (header p));
  d_cc : (12 + Z.to_nat (Z.land a 15) * 4 <= length buf)%nat;
  d_csrcs : read_csrcs (Z.to_nat (Z.land a 15)) buf 12 = Ok (csrcs (header p), i1);
  d_ext : read_ext (extension (header p)) buf i1 = Ok (header_extension (header p), i2);
  d_i2 : (i2 <= length buf)%nat;
  d_pad : read_padding (padding (header p)) buf i2 = Ok (pe, padding_bytes p);
  d_pe : (i2 <= pe)%nat;
  d_pl : @slice RtpError buf i2 pe = Ok (payload p);
  d_v : version (header p) = RTP_VERSION;
  d_p : padding (header p) = negb (Z.land (Z.shiftr a 5) 1 =? 0);
  d_x : extension (header p) = negb (Z.land (Z.shiftr a 4) 1 =? 0);
  d_m : marker (header p) = negb (Z.shiftr b 7 =? 0);
  d_pt : payload_type (header p) = Z.land b 127 }.

Lemma decode_intro buf p a b i1 i2 pe : decoded buf p a b i1 i2 pe -> decode buf = Ok p.
Proof.
  destruct p as [[v pd x m pt sq ts ss cs xe] pl pb]. intros []; simpl in *; subst.
  unfold decode. case_test; [lia |].
  rewrite d_a0, d_b0; simpl. rewrite d_ver0; simpl.
  rewrite d_seq0, d_ts0, d_ssrc0; simpl.
  case_test; [lia |]. rewrite d_csrcs0; simpl. rewrite d_ext0; simpl.
  case_test; [lia |]. rewrite d_pad0; simpl.
  case_test; [| lia]. rewrite d_pl0; simpl. reflexivity.
Qed.

Lemma decode_inv buf p : decode buf = Ok p -> exists a b i1 i2 pe, decoded buf p a b i1 i2 pe.
Proof.
  unfold decode. intros H. case_test_in H; [discriminate |].
  do 2 bind_inv H. case_test_in H; [| discriminate].
  do 3 bind_inv H. case_test_in H; [discriminate |].
  bind_inv H. destruct v4 as [cs i1]. bind_inv H. destruct v4 as [xe i2].
  case_test_in H; [discriminate |].
  bind_inv H. destruct v4 as [pe pb]. case_test_in H; [| discriminate].
  bind_inv H. injection H as <-.
  exists v, v0, i1, i2, pe. split; try assumption; try reflexivity; simpl; lia.
Qed.
End RtpPacket.

(** ** Theorems *)
Section theorems.
Import RtpHeader RtpPacket.

Lemma encode_then_decode (p : RtpPacket.t) :
  wire_ok p -> exists bs, encode p = Ok bs /\ decode bs = Ok p.
Proof.
  intros (Hv & Hpt & Hseq & Hts & Hss & Hcs & Hcc & Hx & Hxok & Hp & Hpb & Hpl).
  destruct p as [[v pd x m pt sq ts ss cs xe] pl pb]; simpl in *; subst v x pd.
  assert (exists xb, encode_ext xe = Ok xb /\ forall pre post,
    read_ext (is_some xe) (pre ++ xb ++ post) (length pre)
    = Ok (xe, (length pre + length xb)%nat)) as (xb & Hxb & Hrx).
  { destruct xe as [e |].
    - specialize (Hxok e eq_refl). eexists. split; [apply encode_ext_ok, Hxok |].
      intros. simpl is_some. rewrite read_ext_app by assumption. reflexivity.
    - exists []. split; [reflexivity |]. intros. simpl. do 2 f_equal. lia. }
  unfold encode; simpl. rewrite Hxb; simpl. eexists. split; [reflexivity |].
  rewrite (Z.land_ones _ 4) by lia. rewrite Z.mod_small by lia.
  pose proof (vpxcc_parse (0 <? pb) (is_some xe) (Z.of_nat (length cs)) ltac:(lia))
    as (_ & P1 & P2 & P3 & P4).
  pose proof (m_pt_parse m pt Hpt) as (_ & Q1 & Q2).
  set (a := vpxcc_byte _ _ _ _) in *. set (b := m_pt_byte _ _) in *.
  rewrite <- !app_assoc. set (rest := concat _ ++ _).
  pose proof (fixed_reads a b sq ts ss rest Hseq Hts Hss) as (R0 & R1 & R2 & R3 & R4 & R5).
  simpl app in *. set (out := a :: _) in *.
  set (hd := a :: b :: to_be 2 sq ++ to_be 4 ts ++ to_be 4 ss).
  assert (Hhd : length hd = 12%nat) by reflexivity.
  assert (Hout : out = hd ++ rest) by (unfold hd; simpl; rewrite <- !app_assoc; reflexivity).
  clearbody out hd. subst out. unfold rest in *.
  pose proof (length_csrc_bytes cs) as Hlc.
  eapply (decode_intro _ _ a b (length hd + length cs * 4)
    (length hd + length cs * 4 + length xb)
    (length hd + length cs * 4 + length xb + length pl)).
  split; simpl; try (assumption || (symmetry; assumption) || reflexivity).
  - rewrite P4, Nat2Z.id. len.
  - rewrite P4, Nat2Z.id, <- Hhd. apply read_csrcs_app, Hcs.
  - rewrite app_assoc, <- Hlc, <- length_app. apply Hrx.
  - len.
  - rewrite (app_assoc hd), (app_assoc (hd ++ _)), (app_assoc ((hd ++ _) ++ _)).
    rewrite read_padding_app by (assumption || len). do 2 f_equal. len.
  - lia.
  - rewrite (app_assoc hd), (app_assoc (hd ++ _)). apply slice_app; len.
Qed.

(** C32 (roundtrip): every well-formed packet is encoded, and decoding the octets gives
    the packet back: header fields, CSRC list, extension, payload and padding count. *)
Theorem rtp_encode_decode (p : RtpPacket.t) :
  wire_ok p -> exists bs, encode p = Ok bs /\ decode bs = Ok p.
Proof. exact (encode_then_decode p). Qed.

(** (roundtrip): a packet that [decode] accepts is well-formed, and encoding it gives
    the received octets back, up to the value of the padding filler octets (which
    [encode] always writes as zeros). *)
Theorem rtp_decode_encode (buf : bytes) (p : RtpPacket.t) :
  bytes_ok buf -> decode buf = Ok p ->
  wire_ok p /\
  encode p = Ok (take (length buf - Z.to_nat (padding_bytes p)) buf
                 ++ encode_padding (padding_bytes p)).
Proof.
  intros Hok H. apply decode_inv in H as (a & b & i1 & i2 & pe & []).
  apply fixed_reads_inv with (a := a) (b := b) (s := sequence_number (header p))
    (ts := timestamp (header p)) (ssrc := ssrc (header p)) in Hok as Hf; try assumption.
  destruct Hf as (Ha & Hb & Hs & Hts & Hss & Hbuf).
  apply read_csrcs_inv in d_csrcs0 as (Hlc & Hcs & Hi1 & Hd1); [| assumption].
  apply read_ext_inv in d_ext0 as (Hx & _ & Hxok & xb & Hxb & Hd2); [| assumption | lia].
  apply read_padding_inv in d_pad0 as (_ & Hpe & Hpb & Hp); [| assumption..].
  apply slice_Ok_inv in d_pl0 as [_ Hpl].
  assert (Hcc : 0 <= Z.land a 15 < 16).
  { clear - Ha. revert Ha. unfold u8. intros. by_range 256%nat a. }
  split.
  - unfold wire_ok. rewrite d_pt0, Hpl.
    split_and!; try assumption; try lia.
    + clear - Hb. by_range 256%nat b.
    + clear - Hb. by_range 256%nat b.
    + apply Forall_take, Forall_drop, Hok.
  - unfold encode. rewrite Hxb. simpl. rewrite d_v0, d_pt0, d_m0, m_pt_fields by assumption.
    rewrite <- Hp, <- Hx, d_p0, d_x0, Hlc, Z2Nat.id by lia.
    rewrite <- Z.land_assoc. change (Z.land 15 15) with 15.
    rewrite vpxcc_fields by assumption. f_equal.
    replace (length buf - _)%nat with pe by lia.
    rewrite Hd1, Hd2 in Hbuf. rewrite Hpl.
    set (pre := [a; b] ++ to_be 2 (sequence_number (header p)) ++ to_be 4 (timestamp (header p))
      ++ to_be 4 (ssrc (header p)) ++ concat (to_be 4 <$> csrcs (header p)) ++ xb).
    assert (Hpre : buf = pre ++ drop i2 buf).
    { rewrite Hbuf at 1. unfold pre. rewrite <- !app_assoc. reflexivity. }
    assert (Hl : length pre = i2).
    { apply (f_equal length) in Hpre. rewrite length_app, length_drop in Hpre. lia. }
    rewrite Hpre at 2. rewrite take_app_ge, Hl by lia.
    unfold pre. rewrite <- !app_assoc. reflexivity.
Qed.

(** (safety): decoding never panics, whatever the received octets: every index and
    slice of the source is within bounds on every path. *)
Theorem rtp_decode_no_panic (buf : bytes) : no_panic (decode buf).
Proof.
  unfold decode. case_test; [apply Err_no_panic |].
  destruct (@get_idx_total RtpError buf 0) as [a ->]; [lia |].
  destruct (@get_idx_total RtpError buf 1) as [b ->]; [lia |]. simpl.
  case_test; [| apply Err_no_panic].
  destruct (@read_be_total RtpError 2 buf 2) as [? ->]; [lia |].
  destruct (@read_be_total RtpError 4 buf 4) as [? ->]; [lia |].
  destruct (@read_be_total RtpError 4 buf 8) as [? ->]; [lia |]. simpl.
  case_test; [apply Err_no_panic |].
  destruct (read_csrcs_total (Z.to_nat (Z.land a 15)) buf 12) as [? ->]; [lia |]. simpl.
  apply bind_no_panic; [apply read_ext_no_panic |].
  intros [xe i2] _. case_test; [apply Err_no_panic |].
  apply bind_no_panic; [apply read_padding_no_panic; lia |].
  intros [pe pb] Hpe. case_test; [| apply Err_no_panic].
  apply read_padding_end in Hpe. rewrite slice_Ok by lia. apply Ok_no_panic.
Qed.

(** (error): [encode] masks the CSRC count to four bits without an error: a packet
    with sixteen CSRCs is put on the wire as one with none, whose payload starts with
    the CSRC octets. *)
Theorem rtp_encode_csrc_overflow (p : RtpPacket.t) :
  length (csrcs (header p)) = 16%nat -> header_extension (header p) = None ->
  encode p = encode (RtpPacket.mk (with_csrcs (header p) [])
                       (concat (to_be 4 <$> csrcs (header p)) ++ payload p)
                       (padding_bytes p)).
Proof.
  destruct p as [h pl pb]. unfold encode. simpl. intros -> ->. simpl.
  rewrite <- !app_assoc. reflexivity.
Qed.
End theorems.

(** A concrete packet with two CSRCs, an extension and padding. *)
Definition sample_packet : RtpPacket.t :=
  RtpPacket.mk
    (RtpHeader.mk 2 true true true 96 65535 4294967295 305419896 [7; 4294967295]
       (Some (RtpHeaderExtension.mk 48862 [1; 2; 3; 4])))
    [1; 2; 3] 4.

Lemma sample_packet_ok : RtpPacket.wire_ok sample_packet.
Proof.
  unfold RtpPacket.wire_ok. simpl.
  split_and!; try (ulia || reflexivity || (repeat constructor; ulia)).
  intros e [= <-]. repeat split; simpl; try (ulia || reflexivity || (repeat constructor; ulia)).
Defined.

Lemma rtp_encode_decode_witness :
  RtpPacket.wire_ok sample_packet /\
  exists bs, RtpPacket.encode sample_packet = Ok bs /\ RtpPacket.decode bs = Ok sample_packet.
Proof.
  split; [exact sample_packet_ok |]. exact (rtp_encode_decode sample_packet sample_packet_ok).
Defined.

Lemma rtp_decode_encode_witness :
  exists p, RtpPacket.decode ([128; 96] ++ repeat 1 10 ++ [5; 6]) = Ok p /\
            RtpPacket.encode p = Ok ([128; 96] ++ repeat 1 10 ++ [5; 6]).
Proof.
  eexists. split; [vm_compute; reflexivity |].
  assert (H : bytes_ok ([128; 96] ++ repeat 1 10 ++ [5; 6])) by (repeat constructor; ulia).
  exact (proj2 (rtp_decode_encode _ _ H eq_refl)).
Defined.

Lemma rtp_encode_csrc_overflow_witness :
  let p := RtpPacket.mk (RtpHeader.with_csrcs (RtpHeader.new 96 1 2 3) (repeat 9 16)) [5] 0 in
  RtpPacket.encode p
  = RtpPacket.encode (RtpPacket.mk (RtpHeader.new 96 1 2 3)
                        (concat (to_be 4 <$> repeat 9 16) ++ [5]) 0).
Proof. intros p. exact (rtp_encode_csrc_overflow p eq_refl eq_refl). Defined.
