(* ===== verification/Rtcp.v ===== *)
(** * RTCP packets (src/rtcp)

    The common header, the seven packet types with their [encode_into] and [decode], and
    compound packets. Encoders append to the vector [out] and patch the length field in
    place at [start + 2], as the source does; [finish_spec] shows this equals writing the
    length directly. Loops over the input are structural on fuel: running out of fuel is
    [Panic], so that the [no_panic] theorems also show that the fuel is enough. *)

From stdpp Require Import prelude strings.
From Stdlib Require Import ZArith Lia.
From S2P Require Import Prelude Utf8.
Local Open Scope Z_scope.

Definition RTCP_VERSION : Z := 2.

Definition PT_SR : Z := 200.
Definition PT_RR : Z := 201.
Definition PT_SDES : Z := 202.
Definition PT_BYE : Z := 203.
Definition PT_APP : Z := 204.
Definition PT_RTPFB : Z := 205.
Definition PT_PSFB : Z := 206.

Inductive RtcpError : Type :=
| TooShort
| BadVersion (v : Z)
| LengthMismatch
| PaddingTooShort
| UnknownPacketType (pt : Z)
| Truncated
| Invalid
| SdesItemTooShort
| SdesItemTooLong
| TooManyReportBlocks (n : nat)
| TooManySdesItems (n : nat)
| TooManyByeSources (n : nat).

(** ** Data *)
Module CommonHeader.
Record t : Type := mk {
  version : Z;
  padding : bool;
  rc_or_fmt : Z;
  pt : Z;
  length_words : Z }.

Definition new (rc_or_fmt pt : Z) (padding : bool) : t :=
  mk RTCP_VERSION padding rc_or_fmt pt 0.

Definition with_length (rc_or_fmt pt : Z) (padding : bool) (length_words : Z) : t :=
  mk RTCP_VERSION padding rc_or_fmt pt length_words.

Definition decode (buf : bytes) : outcome RtcpError (t * nat) :=
  if (length buf <? 4)%nat then Err TooShort
  else
    vprc ← get_idx buf 0;
    let version := Z.shiftr vprc 6 in
    if negb (version =? RTCP_VERSION) then Err (BadVersion version)
    else
      let padding := negb (Z.land (Z.shiftr vprc 5) 1 =? 0) in
      let rc_or_fmt := Z.land vprc 31 in
      pt ← get_idx buf 1;
      length_words ← read_be 2 buf 2;
      let total_bytes := ((Z.to_nat length_words + 1) * 4)%nat in
      if (length buf <? total_bytes)%nat then Err TooShort
      else Ok (mk version padding rc_or_fmt pt length_words, total_bytes).

Definition vprc_byte (version : Z) (padding : bool) (rc_or_fmt : Z) : Z :=
  Z.lor (Z.lor (Z.shiftl (Z.land version 3) 6) (Z.shiftl (bool_u8 padding) 5))
        (Z.land rc_or_fmt 31).

Definition encode_into (h : t) (out : bytes) : bytes :=
  out ++ [vprc_byte (version h) (padding h) (rc_or_fmt h); pt h] ++ to_be 2 (length_words h).
End CommonHeader.

Module SenderInfo.
Record t : Type := mk {
  ntp_most_sw : Z; now_least_sw : Z; rtp_ts : Z; packet_count : Z; octet_count : Z }.

Definition decode (buf : bytes) : outcome RtcpError (t * nat) :=
  if (length buf <? 20)%nat then Err TooShort
  else
    a ← read_be 4 buf 0; b ← read_be 4 buf 4; c ← read_be 4 buf 8;
    d ← read_be 4 buf 12; e ← read_be 4 buf 16;
    Ok (mk a b c d e, 20%nat).

Definition encode_into (i : t) (out : bytes) : bytes :=
  out ++ to_be 4 (ntp_most_sw i) ++ to_be 4 (now_least_sw i) ++ to_be 4 (rtp_ts i)
  ++ to_be 4 (packet_count i) ++ to_be 4 (octet_count i).
End SenderInfo.

Module ReportBlock.
Record t : Type := mk {
  ssrc : Z;
  fraction_lost : Z;
  cumulative_lost : Z;
  highest_seq_no_received : Z;
  interarrival_jitter : Z;
  lsr : Z;
  dlsr : Z }.

(** The 24-bit signed field: read with sign extension, written clamped. *)
Definition read_i24 (b5 b6 b7 : Z) : Z :=
  let cl_raw := Z.lor (Z.lor (Z.shiftl b5 16) (Z.shiftl b6 8)) b7 in
  if negb (Z.land cl_raw 8388608 =? 0) then as_i32 (Z.lor cl_raw 4278190080)
  else as_i32 cl_raw.

Definition write_i24 (c : Z) : bytes :=
  let cl := Z.max (-8388608) (Z.min c 8388607) in
  let cl_u := Z.land (wrap32 cl) 16777215 in
  [Z.land (Z.shiftr cl_u 16) 255; Z.land (Z.shiftr cl_u 8) 255; Z.land cl_u 255].

Definition decode (buf : bytes) : outcome RtcpError (t * nat) :=
  if (length buf <? 24)%nat then Err TooShort
  else
    ssrc ← read_be 4 buf 0;
    fraction_lost ← get_idx buf 4;
    b5 ← get_idx buf 5; b6 ← get_idx buf 6; b7 ← get_idx buf 7;
    let cumulative_lost := read_i24 b5 b6 b7 in
    highest_seq_no_received ← read_be 4 buf 8;
    interarrival_jitter ← read_be 4 buf 12;
    lsr ← read_be 4 buf 16;
    dlsr ← read_be 4 buf 20;
    Ok (mk ssrc fraction_lost cumulative_lost highest_seq_no_received
           interarrival_jitter lsr dlsr, 24%nat).

Definition encode_into (r : t) (out : bytes) : bytes :=
  out ++ to_be 4 (ssrc r) ++ [fraction_lost r] ++ write_i24 (cumulative_lost r)
  ++ to_be 4 (highest_seq_no_received r) ++ to_be 4 (interarrival_jitter r)
  ++ to_be 4 (lsr r) ++ to_be 4 (dlsr r).
End ReportBlock.

Module SenderReport.
Record t : Type := mk {
  ssrc : Z; info : SenderInfo.t; reports : list ReportBlock.t; profile_ext : bytes }.
Definition MAX_RC : nat := 31.
Definition new (ssrc : Z) (info : SenderInfo.t) (reports : list ReportBlock.t) : t :=
  mk ssrc info reports [].
End SenderReport.

Module ReceiverReport.
Record t : Type := mk {
  ssrc : Z; reports : list ReportBlock.t; profile_ext : bytes }.
Definition new (ssrc : Z) (reports : list ReportBlock.t) : t := mk ssrc reports [].
End ReceiverReport.

Inductive SdesItem : Type :=
| Cname (s : bytes) | Name (s : bytes) | Email (s : bytes) | Phone (s : bytes)
| Loc (s : bytes) | Tool (s : bytes) | Note (s : bytes)
| Priv (v : bytes)
| Unknown (t : Z) (v : bytes).

Module SdesChunk.
Record t : Type := mk { ssrc : Z; items : list SdesItem }.
End SdesChunk.

Module Sdes.
Record t : Type := mk { chunks : list SdesChunk.t }.
Definition cname (ssrc : Z) (c : bytes) : t := mk [SdesChunk.mk ssrc [Cname c]].
End Sdes.

Module Bye.
Record t : Type := mk { sources : list Z; reason : option bytes }.
Definition single (ssrc : Z) (reason : option bytes) : t := mk [ssrc] reason.
End Bye.

Module App.
Record t : Type := mk { subtype : Z; name : bytes; ssrc : Z; data : bytes }.
End App.

Module GenericNack.
Record t : Type := mk { sender_ssrc : Z; media_ssrc : Z; entries : list (Z * Z) }.
Definition new (s m : Z) (e : list (Z * Z)) : t := mk s m e.
End GenericNack.

Module PictureLossIndication.
Record t : Type := mk { sender_ssrc : Z; media_ssrc : Z }.
Definition new (s m : Z) : t := mk s m.
End PictureLossIndication.

Inductive RtcpPacket : Type :=
| PSr (sr : SenderReport.t)
| PRr (rr : ReceiverReport.t)
| PSdes (sdes : Sdes.t)
| PBye (bye : Bye.t)
| PApp (app : App.t)
| PNack (nack : GenericNack.t)
| PPli (pli : PictureLossIndication.t).

(** The trait [RtcpPacketType]. *)
Class RtcpPacketType (T : Type) : Type := {
  encode_into : T -> bytes -> outcome RtcpError bytes;
  decode : CommonHeader.t -> bytes -> outcome RtcpError RtcpPacket }.

(** The tail of every [encode_into]: pad to a 32-bit boundary, then patch the length. *)
Definition pad_to_word (out : bytes) (start : nat) : bytes :=
  let pad := ((4 - (length out - start) mod 4) mod 4)%nat in out ++ replicate pad 0.

Definition fix_length (out : bytes) (start : nat) : bytes :=
  let total := (length out - start)%nat in
  let len_words := Z.of_nat (total / 4 - 1) in
  <[(start + 3)%nat := Z.land len_words 255]>
    (<[(start + 2)%nat := Z.land (Z.shiftr len_words 8) 255]> out).

Definition finish (out : bytes) (start : nat) : bytes :=
  fix_length (pad_to_word out start) start.

(** ** Sender and receiver reports *)

(** [for _ in 0..rc { .. reports.push(rb) }] *)
Fixpoint read_reports (n : nat) (payload : bytes) (idx : nat)
  : outcome RtcpError (list ReportBlock.t * nat) :=
  match n with
  | O => Ok ([], idx)
  | S n' =>
      if (length payload <? idx + 24)%nat then Err Truncated
      else
        rest ← slice_from payload idx;
        '(rb, used) ← ReportBlock.decode rest;
        '(rbs, idx') ← read_reports n' payload (idx + used);
        Ok (rb :: rbs, idx')
  end.

Definition push_reports (rbs : list ReportBlock.t) (out : bytes) : bytes :=
  foldl (fun o rb => ReportBlock.encode_into rb o) out rbs.

#[export] Instance SenderReport_type : RtcpPacketType SenderReport.t := {|
  encode_into sr out :=
    if (SenderReport.MAX_RC <? length (SenderReport.reports sr))%nat
    then Err (TooManyReportBlocks (length (SenderReport.reports sr)))
    else
      let start := length out in
      let hdr := CommonHeader.new (wrap8 (Z.of_nat (length (SenderReport.reports sr))))
                   PT_SR false in
      let out := CommonHeader.encode_into hdr out in
      let out := out ++ to_be 4 (SenderReport.ssrc sr) in
      let out := SenderInfo.encode_into (SenderReport.info sr) out in
      let out := push_reports (SenderReport.reports sr) out in
      let out := out ++ SenderReport.profile_ext sr in
      Ok (finish out start);
  decode hdr payload :=
    if (length payload <? 24)%nat then Err TooShort
    else
      ssrc ← read_be 4 payload 0;
      rest ← slice_from payload 4;
      '(info, used) ← SenderInfo.decode rest;
      let idx := (4 + used)%nat in
      let rc := Z.to_nat (CommonHeader.rc_or_fmt hdr) in
      '(reports, idx) ← read_reports rc payload idx;
      profile_ext ← slice_from payload idx;
      Ok (PSr (SenderReport.mk ssrc info reports profile_ext)) |}.

#[export] Instance ReceiverReport_type : RtcpPacketType ReceiverReport.t := {|
  encode_into rr out :=
    let start := length out in
    let hdr := CommonHeader.new (wrap8 (Z.of_nat (length (ReceiverReport.reports rr))))
                 PT_RR false in
    let out := CommonHeader.encode_into hdr out in
    let out := out ++ to_be 4 (ReceiverReport.ssrc rr) in
    let out := push_reports (ReceiverReport.reports rr) out in
    let out := out ++ ReceiverReport.profile_ext rr in
    Ok (finish out start);
  decode hdr payload :=
    if (length payload <? 4)%nat then Err TooShort
    else
      ssrc ← read_be 4 payload 0;
      let rc := Z.to_nat (CommonHeader.rc_or_fmt hdr) in
      '(reports, idx) ← read_reports rc payload 4;
      profile_ext ← slice_from payload idx;
      Ok (PRr (ReceiverReport.mk ssrc reports profile_ext)) |}.

(** ** Source descriptions *)
Definition typ_code (i : SdesItem) : Z :=
  match i with
  | Cname _ => 1 | Name _ => 2 | Email _ => 3 | Phone _ => 4
  | Loc _ => 5 | Tool _ => 6 | Note _ => 7 | Priv _ => 8 | Unknown t _ => t
  end.

Definition as_bytes (i : SdesItem) : Z * bytes :=
  match i with
  | Cname s | Name s | Email s | Phone s | Loc s | Tool s | Note s => (typ_code i, s)
  | Priv v => (typ_code i, v)
  | Unknown t v => (t, v)
  end.

Definition item_of (t : Z) (data : bytes) : SdesItem :=
  if t =? 1 then Cname (from_utf8_lossy data)
  else if t =? 2 then Name (from_utf8_lossy data)
  else if t =? 3 then Email (from_utf8_lossy data)
  else if t =? 4 then Phone (from_utf8_lossy data)
  else if t =? 5 then Loc (from_utf8_lossy data)
  else if t =? 6 then Tool (from_utf8_lossy data)
  else if t =? 7 then Note (from_utf8_lossy data)
  else if t =? 8 then Priv data
  else Unknown t data.

Fixpoint push_items (items : list SdesItem) (out : bytes) : outcome RtcpError bytes :=
  match items with
  | [] => Ok out
  | item :: items' =>
      let '(t, data) := as_bytes item in
      if (255 <? length data)%nat then Err SdesItemTooLong
      else push_items items' (out ++ [t; wrap8 (Z.of_nat (length data))] ++ data)
  end.

Definition chunk_encode_into (c : SdesChunk.t) (out : bytes) : outcome RtcpError bytes :=
  let start := length out in
  out ← push_items (SdesChunk.items c) (out ++ to_be 4 (SdesChunk.ssrc c));
  let out := out ++ [0] in
  let rem := ((length out - start) mod 4)%nat in
  Ok (if (rem =? 0)%nat then out else out ++ replicate (4 - rem) 0).

(** [while idx < buf.len()]: items up to END, then the alignment padding. *)
Fixpoint read_items (fuel : nat) (buf : bytes) (idx : nat)
  : outcome RtcpError (list SdesItem * nat) :=
  match fuel with
  | O => Panic
  | S fuel =>
      if (idx <? length buf)%nat then
        t ← get_idx buf idx;
        let idx := (idx + 1)%nat in
        if t =? 0 then
          let pad := ((4 - idx mod 4) mod 4)%nat in
          if (length buf <? idx + pad)%nat then Err Truncated
          else Ok ([], (idx + pad)%nat)
        else if (length buf <? idx + 1)%nat then Err SdesItemTooShort
        else
          len ← get_idx buf idx;
          let len := Z.to_nat len in
          let idx := (idx + 1)%nat in
          if (length buf <? idx + len)%nat then Err SdesItemTooShort
          else
            data ← slice buf idx (idx + len);
            '(items, idx') ← read_items fuel buf (idx + len);
            Ok (item_of t data :: items, idx')
      else Ok ([], idx)
  end.

Definition chunk_decode (buf : bytes) : outcome RtcpError (SdesChunk.t * nat) :=
  if (length buf <? 4)%nat then Err TooShort
  else
    ssrc ← read_be 4 buf 0;
    '(items, idx) ← read_items (S (length buf)) buf 4;
    Ok (SdesChunk.mk ssrc items, idx).

Fixpoint push_chunks (cs : list SdesChunk.t) (out : bytes) : outcome RtcpError bytes :=
  match cs with
  | [] => Ok out
  | c :: cs' => out ← chunk_encode_into c out; push_chunks cs' out
  end.

(** [while idx + 4 <= payload.len()] *)
Fixpoint read_chunks (fuel : nat) (payload : bytes) (idx : nat)
  : outcome RtcpError (list SdesChunk.t * nat) :=
  match fuel with
  | O => Panic
  | S fuel =>
      if (idx + 4 <=? length payload)%nat then
        rest ← slice_from payload idx;
        '(chunk, used) ← chunk_decode rest;
        '(chunks, idx') ← read_chunks fuel payload (idx + used);
        Ok (chunk :: chunks, idx')
      else Ok ([], idx)
  end.

#[export] Instance Sdes_type : RtcpPacketType Sdes.t := {|
  encode_into sdes out :=
    let start := length out in
    let hdr := CommonHeader.new (wrap8 (Z.of_nat (length (Sdes.chunks sdes)))) PT_SDES false in
    let out := CommonHeader.encode_into hdr out in
    out ← push_chunks (Sdes.chunks sdes) out;
    Ok (finish out start);
  decode hdr payload :=
    '(chunks, idx) ← read_chunks (S (length payload)) payload 0;
    if negb (idx =? length payload)%nat then Err Truncated
    else Ok (PSdes (Sdes.mk chunks)) |}.

(** ** Goodbye *)
Fixpoint read_sources (n : nat) (payload : bytes) (idx : nat)
  : outcome RtcpError (list Z * nat) :=
  match n with
  | O => Ok ([], idx)
  | S n' =>
      ssrc ← read_be 4 payload idx;
      '(l, idx') ← read_sources n' payload (idx + 4);
      Ok (ssrc :: l, idx')
  end.

Definition read_reason (payload : bytes) (idx : nat) : outcome RtcpError (option bytes) :=
  if (idx <? length payload)%nat then
    len ← get_idx payload idx;
    let len := Z.to_nat len in
    let idx := (idx + 1)%nat in
    if (length payload <? idx + len)%nat then Err Truncated
    else
      s ← slice payload idx (idx + len);
      Ok (Some (from_utf8_lossy s))
  else Ok None.

(** [u8::try_from(rbytes.len()).unwrap_or(0)], the reason and its padding *)
Definition reason_bytes (rbytes : bytes) : bytes :=
  let len := length rbytes in
  let pad := ((4 - (1 + len) mod 4) mod 4)%nat in
  [if (len <=? 255)%nat then Z.of_nat len else 0] ++ rbytes ++ replicate pad 0.

#[export] Instance Bye_type : RtcpPacketType Bye.t := {|
  encode_into bye out :=
    if (31 <=? length (Bye.sources bye))%nat
    then Err (TooManyByeSources (length (Bye.sources bye)))
    else
      let start := length out in
      let hdr := CommonHeader.new (wrap8 (Z.of_nat (length (Bye.sources bye)))) PT_BYE false in
      let out := CommonHeader.encode_into hdr out in
      let out := out ++ concat (to_be 4 <$> Bye.sources bye) in
      let out := match Bye.reason bye with
                 | Some r => out ++ reason_bytes r
                 | None => out
                 end in
      Ok (finish out start);
  decode hdr payload :=
    let sc := Z.to_nat (CommonHeader.rc_or_fmt hdr) in
    if (length payload <? sc * 4)%nat then Err Truncated
    else
      '(sources, idx) ← read_sources sc payload 0;
      reason ← read_reason payload idx;
      Ok (PBye (Bye.mk sources reason)) |}.

(** ** Application-defined packets *)
#[export] Instance App_type : RtcpPacketType App.t := {|
  encode_into app out :=
    let start := length out in
    let hdr := CommonHeader.new (Z.land (App.subtype app) 31) PT_APP false in
    let out := CommonHeader.encode_into hdr out in
    let out := out ++ to_be 4 (App.ssrc app) ++ App.name app ++ App.data app in
    Ok (finish out start);
  decode hdr payload :=
    if (length payload <? 8)%nat then Err TooShort
    else
      ssrc ← read_be 4 payload 0;
      name ← slice payload 4 8;
      data ← slice_from payload 8;
      Ok (PApp (App.mk (Z.land (CommonHeader.rc_or_fmt hdr) 31) name ssrc data)) |}.

(** ** Generic NACK *)
Definition nack_bytes (entries : list (Z * Z)) : bytes :=
  concat ((fun e : Z * Z => to_be 2 e.1 ++ to_be 2 e.2) <$> entries).

(** [while idx + 4 <= payload.len()] *)
Fixpoint read_entries (fuel : nat) (payload : bytes) (idx : nat)
  : outcome RtcpError (list (Z * Z) * nat) :=
  match fuel with
  | O => Panic
  | S fuel =>
      if (idx + 4 <=? length payload)%nat then
        pid ← read_be 2 payload idx;
        blp ← read_be 2 payload (idx + 2);
        '(es, idx') ← read_entries fuel payload (idx + 4);
        Ok ((pid, blp) :: es, idx')
      else Ok ([], idx)
  end.

#[export] Instance GenericNack_type : RtcpPacketType GenericNack.t := {|
  encode_into nack out :=
    let start := length out in
    let hdr := CommonHeader.new 1 PT_RTPFB false in
    let out := CommonHeader.encode_into hdr out in
    let out := out ++ to_be 4 (GenericNack.sender_ssrc nack)
                   ++ to_be 4 (GenericNack.media_ssrc nack)
                   ++ nack_bytes (GenericNack.entries nack) in
    Ok (finish out start);
  decode hdr payload :=
    if (length payload <? 8)%nat then Err TooShort
    else
      sender_ssrc ← read_be 4 payload 0;
      media_ssrc ← read_be 4 payload 4;
      if CommonHeader.rc_or_fmt hdr =? 1 then
        '(entries, idx) ← read_entries (S (length payload)) payload 8;
        if negb (idx =? length payload)%nat then Err Truncated
        else Ok (PNack (GenericNack.mk sender_ssrc media_ssrc entries))
      else Err Invalid |}.

(** ** Picture loss indication *)
#[export] Instance PictureLossIndication_type : RtcpPacketType PictureLossIndication.t := {|
  encode_into pli out :=
    let start := length out in
    let hdr := CommonHeader.new 1 PT_PSFB false in
    let out := CommonHeader.encode_into hdr out in
    let out := out ++ to_be 4 (PictureLossIndication.sender_ssrc pli)
                   ++ to_be 4 (PictureLossIndication.media_ssrc pli) in
    Ok (finish out start);
  decode hdr payload :=
    if (length payload <? 8)%nat then Err TooShort
    else
      sender_ssrc ← read_be 4 payload 0;
      media_ssrc ← read_be 4 payload 4;
      if CommonHeader.rc_or_fmt hdr =? 1
      then Ok (PPli (PictureLossIndication.mk sender_ssrc media_ssrc))
      else Err Invalid |}.

(** ** Compound packets *)
Definition encode_one (p : RtcpPacket) (out : bytes) : outcome RtcpError bytes :=
  match p with
  | PSr x => encode_into x out
  | PRr x => encode_into x out
  | PSdes x => encode_into x out
  | PBye x => encode_into x out
  | PApp x => encode_into x out
  | PNack x => encode_into x out
  | PPli x => encode_into x out
  end.

Fixpoint encode_all (pkts : list RtcpPacket) (out : bytes) : outcome RtcpError bytes :=
  match pkts with
  | [] => Ok out
  | p :: pkts' => out ← encode_one p out; encode_all pkts' out
  end.

Definition encode_compound (pkts : list RtcpPacket) : outcome RtcpError bytes :=
  encode_all pkts [].

(** The payload without the P-bit padding. *)
Definition strip_padding (hdr : CommonHeader.t) (pkt_bytes payload : bytes)
  : outcome RtcpError bytes :=
  if CommonHeader.padding hdr then
    if (length payload =? 0)%nat then Err PaddingTooShort
    else
      pad ← ok_or (last pkt_bytes) Invalid;
      let pad := Z.to_nat pad in
      if (pad =? 0)%nat || (length payload <? pad)%nat then Err PaddingTooShort
      else slice payload 0 (length payload - pad)
  else Ok payload.

(** Dispatch on the packet type. *)
Definition decode_one (hdr : CommonHeader.t) (payload : bytes) : outcome RtcpError RtcpPacket :=
  let pt := CommonHeader.pt hdr in
  if pt =? PT_SR then decode (T := SenderReport.t) hdr payload
  else if pt =? PT_RR then decode (T := ReceiverReport.t) hdr payload
  else if pt =? PT_SDES then decode (T := Sdes.t) hdr payload
  else if pt =? PT_BYE then decode (T := Bye.t) hdr payload
  else if pt =? PT_APP then decode (T := App.t) hdr payload
  else if pt =? PT_RTPFB then decode (T := GenericNack.t) hdr payload
  else if pt =? PT_PSFB then decode (T := PictureLossIndication.t) hdr payload
  else Err (UnknownPacketType pt).

(** [while idx + 4 <= buf.len()] *)
Fixpoint decode_loop (fuel : nat) (buf : bytes) (idx : nat)
  : outcome RtcpError (list RtcpPacket * nat) :=
  match fuel with
  | O => Panic
  | S fuel =>
      if (idx + 4 <=? length buf)%nat then
        rest ← slice_from buf idx;
        '(hdr, total) ← CommonHeader.decode rest;
        if (total <? 4)%nat || (length buf <? idx + total)%nat then Err Truncated
        else
          pkt_bytes ← slice buf idx (idx + total);
          payload ← slice_from pkt_bytes 4;
          payload ← strip_padding hdr pkt_bytes payload;
          pkt ← decode_one hdr payload;
          '(pkts, idx') ← decode_loop fuel buf (idx + total);
          Ok (pkt :: pkts, idx')
      else Ok ([], idx)
  end.

Definition decode_compound (buf : bytes) : outcome RtcpError (list RtcpPacket) :=
  if (length buf <? 4)%nat then Err TooShort
  else
    '(out, idx) ← decode_loop (S (length buf)) buf 0;
    if negb (idx =? length buf)%nat then Err TooShort
    else Ok out.

(** The compound of the source's test [roundtrip_pli_and_bye_and_app_compound]. *)
Definition sample_compound : list RtcpPacket :=
  [PPli (PictureLossIndication.mk 2864434397 287454020);
   PBye (Bye.mk [3735928559] (Some (lit "bye!")));
   PApp (App.mk 7 (lit "TEST") 305419896 [1; 2; 3; 4; 5; 6; 7; 8]);
   PSdes (Sdes.cname 4041265344 (lit "alice@example.com"));
   PNack (GenericNack.mk 1 2 [(1000, 3)]);
   PRr (ReceiverReport.new 5 [ReportBlock.mk 9 255 (-1) 70000 3 4 5])].

Example sample_compound_runs :
  (bs ← encode_compound sample_compound; decode_compound bs) = Ok sample_compound.
Proof. vm_compute. reflexivity. Qed.

(** ** Framing: what the in-place patching of the length writes *)
Definition vprc (rc : Z) : Z := CommonHeader.vprc_byte RTCP_VERSION false rc.

Definition frame (rc pt : Z) (body : bytes) : bytes :=
  [vprc rc; pt] ++ to_be 2 (Z.of_nat (length body / 4)) ++ body.

Definition aligned (l : bytes) : Prop := (length l mod 4 = 0)%nat.

Lemma aligned_app l1 l2 : aligned l1 -> aligned l2 -> aligned (l1 ++ l2).
Proof. unfold aligned. rewrite length_app. elia. Qed.

Lemma aligned_concat {A} (f : A -> bytes) l :
  (forall x, aligned (f x)) -> aligned (concat (f <$> l)).
Proof. intros Hf. induction l; [reflexivity |]. apply aligned_app; auto. Qed.

Lemma aligned_to_be_4 v : aligned (to_be 4 v).
Proof. unfold aligned. rewrite length_to_be. reflexivity. Qed.

#[export] Hint Resolve aligned_app aligned_concat aligned_to_be_4 : rtc.

Lemma length_frame rc pt body : aligned body ->
  length (frame rc pt body) = ((length body / 4 + 1) * 4)%nat.
Proof. unfold frame, aligned. intros. elen. Qed.

Lemma finish_spec out rc pt body : aligned body ->
  finish (CommonHeader.encode_into (CommonHeader.new rc pt false) out ++ body) (length out)
  = out ++ frame rc pt body.
Proof.
  intros Hb. unfold aligned in Hb. unfold CommonHeader.encode_into, CommonHeader.new; simpl.
  rewrite to_be_2 by lia. rewrite <- app_assoc. simpl.
  unfold finish, pad_to_word. rewrite length_app. simpl length.
  replace ((4 - _ mod 4) mod 4)%nat with 0%nat by elia.
  rewrite app_nil_r. unfold fix_length. rewrite length_app. simpl length.
  unfold frame. rewrite to_be_2 by lia.
  rewrite !insert_app_r. simpl.
  replace ((length out + S (S (S (S (length body)))) - length out) / 4 - 1)%nat
    with (length body / 4)%nat by elia.
  reflexivity.
Qed.

Lemma vprc_bits rc :
  Z.shiftr (vprc rc) 6 = 2 /\ Z.land (Z.shiftr (vprc rc) 5) 1 = 0 /\
  Z.land (vprc rc) 31 = Z.land rc 31.
Proof.
  unfold vprc, CommonHeader.vprc_byte.
  assert (H : 0 <= Z.land rc 31 < Z.of_nat 32)
    by (change 31 with (Z.ones 5); rewrite Z.land_ones by lia;
        apply Z.mod_pos_bound; lia).
  generalize dependent (Z.land rc 31). intros r Hr. by_range 32%nat r.
Qed.

Lemma header_decode rc pt body rest : aligned body -> Z.of_nat (length body / 4) < 65536 ->
  CommonHeader.decode (frame rc pt body ++ rest) =
  Ok (CommonHeader.with_length (Z.land rc 31) pt false (Z.of_nat (length body / 4)),
      length (frame rc pt body)).
Proof.
  intros Ha Hl. rewrite length_frame by exact Ha.
  destruct (vprc_bits rc) as (H6 & H5 & H31).
  unfold CommonHeader.decode, frame. rewrite <- !app_assoc. rd.
  case_test; [exfalso; len |]. simpl get_idx. simpl mbind.
  rewrite H6, H5, H31. simpl. rd.
  rewrite Nat2Z.id. unfold aligned in Ha. case_test; [exfalso; elen | reflexivity].
Qed.

(** What each packet type promises to the compound codec: under [wf] it is encoded as a
    frame around a word-aligned body, and decoded back from that body. *)
Class RtcpCodec (T : Type) `{RtcpPacketType T} : Type := {
  inj : T -> RtcpPacket;
  pt_of : Z;
  wf : T -> Prop;
  rc : T -> Z;
  body : T -> bytes;
  body_aligned x : wf x -> aligned (body x);
  encode_law x out : wf x -> encode_into x out = Ok (out ++ frame (rc x) pt_of (body x));
  decode_law x hdr : wf x -> CommonHeader.rc_or_fmt hdr = Z.land (rc x) 31 ->
    decode hdr (body x) = Ok (inj x) }.

(** ** Report blocks *)
Lemma read_i24_spec b5 b6 b7 : u8 b5 -> u8 b6 -> u8 b7 ->
  ReportBlock.read_i24 b5 b6 b7 =
  let u := b5 * 65536 + b6 * 256 + b7 in
  if u <? 8388608 then u else u - 16777216.
Proof.
  unfold u8. intros H5 H6 H7. unfold ReportBlock.read_i24.
  rewrite <- Z.lor_assoc.
  rewrite (lor_shiftl_add b6 b7 8) by lia. change (2 ^ 8) with 256.
  rewrite (lor_shiftl_add b5 (b6 * 256 + b7) 16) by lia. change (2 ^ 16) with 65536.
  cbv zeta. rewrite Z.add_assoc. set (u := b5 * 65536 + b6 * 256 + b7).
  assert (Hu : 0 <= u < 16777216) by (unfold u; lia).
  assert (Hbit : Z.land u 8388608 = (u / 8388608) * 8388608).
  { change 8388608 with (2 ^ 23). rewrite <- Z.shiftl_mul_pow2, <- Z.shiftr_div_pow2 by lia.
    rewrite <- Z.ldiff_ones_r by lia. apply Z.bits_inj'. intros n Hn.
    rewrite Z.land_spec, Z.ldiff_spec, Z.pow2_bits_eqb, Z.testbit_ones_nonneg by lia.
    destruct (Z.eqb_spec 23 n), (Z.ltb_spec n 23); try lia;
      rewrite ?andb_false_r, ?andb_true_r; try reflexivity.
    rewrite (bits_small u 24 n) by lia. reflexivity. }
  destruct (Z.ltb_spec u 8388608) as [Hs | Hs].
  - rewrite Hbit, Z.div_small by lia. simpl. unfold as_i32.
    rewrite Z.mod_small by lia. destruct (Z.ltb_spec u 2147483648); lia.
  - rewrite Hbit. replace (u / 8388608) with 1 by elia. simpl.
    rewrite Z.lor_comm. change 4278190080 with (Z.shiftl 255 24).
    rewrite (lor_shiftl_add 255 u 24) by lia. unfold as_i32.
    rewrite Z.mod_small by lia.
    destruct (Z.ltb_spec (255 * 2 ^ 24 + u) 2147483648); lia.
Qed.

Lemma read_write_i24 c : -8388608 <= c <= 8388607 ->
  exists b5 b6 b7, ReportBlock.write_i24 c = [b5; b6; b7] /\
    ReportBlock.read_i24 b5 b6 b7 = c.
Proof.
  intros Hc. unfold ReportBlock.write_i24.
  rewrite Z.min_l, Z.max_r by lia. eexists _, _, _. split; [reflexivity |].
  assert (Hcu : Z.land (wrap32 c) 16777215 = c mod 16777216).
  { change 16777215 with (Z.ones 24). rewrite Z.land_ones by lia. unfold wrap32. elia. }
  rewrite Hcu, !Z.shiftr_div_pow2 by lia.
  change 255 with (Z.ones 8). rewrite !Z.land_ones by lia.
  change (2 ^ 8) with 256. change (2 ^ 16) with 65536.
  rewrite read_i24_spec by (unfold u8; elia). cbv zeta.
  match goal with |- (if ?a <? _ then _ else _) = _ =>
    replace a with (c mod 16777216) by elia end.
  destruct (Z.ltb_spec (c mod 16777216) 8388608); elia.
Qed.

Record report_wf (r : ReportBlock.t) : Prop := {
  rw_ssrc : u32 (ReportBlock.ssrc r);
  rw_fraction : u8 (ReportBlock.fraction_lost r);
  rw_lost : -8388608 <= ReportBlock.cumulative_lost r <= 8388607;
  rw_seq : u32 (ReportBlock.highest_seq_no_received r);
  rw_jitter : u32 (ReportBlock.interarrival_jitter r);
  rw_lsr : u32 (ReportBlock.lsr r);
  rw_dlsr : u32 (ReportBlock.dlsr r) }.

Definition report_wire (r : ReportBlock.t) : bytes := ReportBlock.encode_into r [].

Lemma length_report_wire r : length (report_wire r) = 24%nat.
Proof. unfold report_wire, ReportBlock.encode_into. len. Qed.
#[export] Hint Rewrite length_report_wire : rtclen.

Lemma report_decode r rest : report_wf r ->
  ReportBlock.decode (report_wire r ++ rest) = Ok (r, 24%nat).
Proof.
  intros []. unfold ReportBlock.decode. case_test; [exfalso; len |].
  destruct (read_write_i24 _ rw_lost0) as (b5 & b6 & b7 & Hw & Hr).
  unfold report_wire, ReportBlock.encode_into. rewrite Hw, app_nil_l, <- !app_assoc.
  rd. rewrite Hr. destruct r; reflexivity.
Qed.

Lemma push_reports_spec rbs out :
  push_reports rbs out = out ++ concat (report_wire <$> rbs).
Proof.
  revert out. induction rbs as [| r rbs IH]; intros out; csimpl.
  - symmetry. apply app_nil_r.
  - unfold push_reports in *. simpl. rewrite IH, app_assoc. reflexivity.
Qed.

Lemma length_reports rbs : length (concat (report_wire <$> rbs)) = (24 * length rbs)%nat.
Proof. induction rbs; csimpl; [reflexivity |]. len. Qed.
#[export] Hint Rewrite length_reports : rtclen.

Lemma read_reports_spec rbs pre post idx : Forall report_wf rbs -> idx = length pre ->
  read_reports (length rbs) (pre ++ concat (report_wire <$> rbs) ++ post) idx
  = Ok (rbs, (idx + 24 * length rbs)%nat).
Proof.
  intros Hwf. revert pre idx. induction Hwf as [| r rbs Hr Hwf IH]; intros pre idx ->.
  - simpl. do 2 f_equal. lia.
  - csimpl. case_test; [exfalso; len |].
    rewrite slice_from_app by reflexivity. simpl mbind.
    rewrite <- app_assoc, report_decode by exact Hr. simpl mbind.
    rewrite app_assoc, IH by len. simpl. do 2 f_equal. lia.
Qed.

Lemma aligned_reports rbs : aligned (concat (report_wire <$> rbs)).
Proof. unfold aligned. rewrite length_reports. elia. Qed.
#[export] Hint Resolve aligned_reports : rtc.

(** A report count of at most 31 survives the five-bit field. *)
Lemma rc_mask n : (n <= 31)%nat -> Z.to_nat (Z.land (wrap8 (Z.of_nat n)) 31) = n.
Proof.
  intros. change 31 with (Z.ones 5). rewrite Z.land_ones by lia.
  unfold wrap8. change (2 ^ 5) with 32. elia.
Qed.

Record info_wf (i : SenderInfo.t) : Prop := {
  iw_ntp : u32 (SenderInfo.ntp_most_sw i);
  iw_now : u32 (SenderInfo.now_least_sw i);
  iw_ts : u32 (SenderInfo.rtp_ts i);
  iw_pc : u32 (SenderInfo.packet_count i);
  iw_oc : u32 (SenderInfo.octet_count i) }.

Definition info_wire (i : SenderInfo.t) : bytes := SenderInfo.encode_into i [].

Lemma length_info_wire i : length (info_wire i) = 20%nat.
Proof. unfold info_wire, SenderInfo.encode_into. len. Qed.
#[export] Hint Rewrite length_info_wire : rtclen.

Lemma info_decode i rest : info_wf i ->
  SenderInfo.decode (info_wire i ++ rest) = Ok (i, 20%nat).
Proof.
  intros []. unfold SenderInfo.decode. case_test; [exfalso; len |].
  unfold info_wire, SenderInfo.encode_into. rewrite app_nil_l, <- !app_assoc.
  rd. destruct i; reflexivity.
Qed.

Record sr_wf (sr : SenderReport.t) : Prop := {
  sr_ssrc : u32 (SenderReport.ssrc sr);
  sr_info : info_wf (SenderReport.info sr);
  sr_reports : Forall report_wf (SenderReport.reports sr);
  sr_count : (length (SenderReport.reports sr) <= 31)%nat;
  sr_ext : aligned (SenderReport.profile_ext sr) }.

Definition sr_body (sr : SenderReport.t) : bytes :=
  to_be 4 (SenderReport.ssrc sr) ++ info_wire (SenderReport.info sr)
  ++ concat (report_wire <$> SenderReport.reports sr) ++ SenderReport.profile_ext sr.

#[export] Program Instance SenderReport_codec : RtcpCodec SenderReport.t := {|
  inj := PSr; pt_of := PT_SR; wf := sr_wf; body := sr_body;
  rc sr := wrap8 (Z.of_nat (length (SenderReport.reports sr))) |}.
Next Obligation.
  intros sr []. unfold sr_body, aligned in *. rewrite !length_app, length_reports. elen.
Qed.
Next Obligation.
  intros sr out [] . simpl. case_test; [unfold SenderReport.MAX_RC in *; lia |].
  unfold SenderInfo.encode_into. rewrite push_reports_spec.
  f_equal. rewrite <- !app_assoc. rewrite <- finish_spec.
  - unfold sr_body, info_wire, SenderInfo.encode_into. rewrite app_nil_l, <- !app_assoc.
    reflexivity.
  - unfold sr_body, aligned in *. rewrite !length_app, length_reports. elen.
Qed.
Next Obligation.
  intros sr hdr [] Hrc. simpl. rewrite Hrc, rc_mask by assumption. unfold sr_body.
  case_test; [exfalso; len |]. rd. rewrite info_decode by assumption. simpl.
  rewrite app_assoc, read_reports_spec by (assumption || len). simpl.
  rewrite app_assoc, slice_from_app by len. simpl. destruct sr; reflexivity.
Qed.

Record rr_wf (rr : ReceiverReport.t) : Prop := {
  rr_ssrc : u32 (ReceiverReport.ssrc rr);
  rr_reports : Forall report_wf (ReceiverReport.reports rr);
  rr_count : (length (ReceiverReport.reports rr) <= 31)%nat;
  rr_ext : aligned (ReceiverReport.profile_ext rr) }.

Definition rr_body (rr : ReceiverReport.t) : bytes :=
  to_be 4 (ReceiverReport.ssrc rr)
  ++ concat (report_wire <$> ReceiverReport.reports rr) ++ ReceiverReport.profile_ext rr.

Lemma rr_body_aligned rr : aligned (ReceiverReport.profile_ext rr) -> aligned (rr_body rr).
Proof. intros. unfold rr_body. auto with rtc. Qed.

Lemma rr_encode rr out : aligned (ReceiverReport.profile_ext rr) ->
  encode_into rr out = Ok (out ++ frame (wrap8 (Z.of_nat (length (ReceiverReport.reports rr))))
                                   PT_RR (rr_body rr)).
Proof.
  intros Ha. simpl. rewrite push_reports_spec. f_equal. rewrite <- !app_assoc.
  rewrite <- finish_spec by (apply rr_body_aligned, Ha).
  unfold rr_body. reflexivity.
Qed.

#[export] Program Instance ReceiverReport_codec : RtcpCodec ReceiverReport.t := {|
  inj := PRr; pt_of := PT_RR; wf := rr_wf; body := rr_body;
  rc rr := wrap8 (Z.of_nat (length (ReceiverReport.reports rr))) |}.
Next Obligation. intros rr []. apply rr_body_aligned. assumption. Qed.
Next Obligation. intros rr out []. apply rr_encode. assumption. Qed.
Next Obligation.
  intros rr hdr [] Hrc. simpl. rewrite Hrc, rc_mask by assumption. unfold rr_body.
  case_test; [exfalso; len |]. rd.
  rewrite read_reports_spec by (assumption || len). simpl.
  rewrite app_assoc, slice_from_app by len. simpl. destruct rr; reflexivity.
Qed.

(** ** Source descriptions: laws *)
Definition item_wf (i : SdesItem) : Prop :=
  (length (as_bytes i).2 <= 255)%nat /\
  match i with
  | Cname s | Name s | Email s | Phone s | Loc s | Tool s | Note s => str_ok s
  | Priv _ => True
  | Unknown t _ => 8 < t < 256
  end.

Definition item_wire (i : SdesItem) : bytes :=
  let '(t, data) := as_bytes i in [t; wrap8 (Z.of_nat (length data))] ++ data.

Lemma item_of_as_bytes i : item_wf i -> item_of (as_bytes i).1 (as_bytes i).2 = i.
Proof.
  intros [_ Hi]. destruct i; simpl in *; unfold item_of; simpl;
    rewrite ?from_utf8_lossy_valid by exact Hi; try reflexivity.
  repeat (case_test; [lia |]). reflexivity.
Qed.

Lemma push_items_spec items out : Forall item_wf items ->
  push_items items out = Ok (out ++ concat (item_wire <$> items)).
Proof.
  intros Hwf. revert out. induction Hwf as [| i items Hi Hwf IH]; intros out; csimpl.
  - rewrite app_nil_r. reflexivity.
  - unfold item_wire at 1. destruct Hi as [Hl _]. destruct (as_bytes i) as [t data]; simpl in *.
    case_test; [lia |]. rewrite IH, <- app_assoc. reflexivity.
Qed.

Lemma read_items_step fuel pre i rest items' idx' : item_wf i ->
  read_items fuel (pre ++ item_wire i ++ rest) (length pre + length (item_wire i))
  = Ok (items', idx') ->
  read_items (S fuel) (pre ++ item_wire i ++ rest) (length pre) = Ok (i :: items', idx').
Proof.
  intros Hwf Hr. pose proof (item_of_as_bytes i Hwf) as Hof.
  destruct Hwf as [Hl Ht]. cbn [read_items]. unfold item_wire in *.
  destruct (as_bytes i) as [t data] eqn:Hb; simpl fst in *; simpl snd in *.
  assert (Ht0 : (t =? 0) = false).
  { apply Z.eqb_neq. destruct i; simpl in Hb; injection Hb as <- <-; lia. }
  case_test; [| exfalso; len]. rewrite <- app_assoc in *. rd. rewrite Ht0.
  case_test; [exfalso; len |].
  replace (length pre + 1 - length pre)%nat with 1%nat by lia. simpl mbind.
  replace (Z.to_nat (wrap8 (Z.of_nat (length data)))) with (length data)
    by (unfold wrap8; rewrite Z.mod_small by lia; lia).
  replace (length pre + 1 + 1)%nat with (length pre + 2)%nat by lia.
  case_test; [exfalso; len |].
  change (t :: wrap8 (Z.of_nat (length data)) :: data ++ rest)
    with ([t; wrap8 (Z.of_nat (length data))] ++ data ++ rest).
  rewrite (app_assoc pre), slice_app, <- app_assoc by len. simpl mbind.
  rewrite length_app in Hr. simpl length in Hr.
  replace (length pre + 2 + length data)%nat with (length pre + (2 + length data))%nat by lia.
  simpl app in Hr |- *. rewrite Hr. simpl. rewrite Hof. reflexivity.
Qed.

(** END and the alignment zeroes after [n] octets of items *)
Definition end_pad (n : nat) : bytes := 0 :: replicate ((4 - S n mod 4) mod 4) 0.

Lemma read_items_spec items fuel pre rest idx : Forall item_wf items ->
  (length items < fuel)%nat -> idx = length pre ->
  let n := (length pre + length (concat (item_wire <$> items)))%nat in
  read_items fuel (pre ++ concat (item_wire <$> items) ++ end_pad n ++ rest) idx
  = Ok (items, (n + length (end_pad n))%nat).
Proof.
  intros Hwf. revert fuel pre idx.
  induction Hwf as [| i items Hi Hwf IH]; intros fuel pre idx Hf ->; csimpl;
    (destruct fuel as [| fuel]; [lia |]).
  - cbn [read_items]. rewrite Nat.add_0_r. unfold end_pad.
    case_test; [| exfalso; len]. rd. simpl Z.eqb. cbv iota.
    replace (length pre + 1)%nat with (S (length pre)) by lia.
    case_test; [exfalso; len |]. do 2 f_equal. len.
  - rewrite length_app, <- app_assoc. apply read_items_step; [exact Hi |].
    rewrite app_assoc.
    rewrite Nat.add_assoc, <- (length_app pre (item_wire i)).
    apply (IH fuel (pre ++ item_wire i)); [simpl in Hf; lia | reflexivity].
Qed.

Definition chunk_wf (c : SdesChunk.t) : Prop :=
  u32 (SdesChunk.ssrc c) /\ Forall item_wf (SdesChunk.items c).

Definition chunk_wire (c : SdesChunk.t) : bytes :=
  let items := concat (item_wire <$> SdesChunk.items c) in
  to_be 4 (SdesChunk.ssrc c) ++ items ++ end_pad (4 + length items).

Lemma chunk_aligned c : aligned (chunk_wire c).
Proof. unfold aligned, chunk_wire, end_pad. elen. Qed.

Lemma chunk_encode_spec c out : chunk_wf c -> chunk_encode_into c out = Ok (out ++ chunk_wire c).
Proof.
  intros [_ Hi]. unfold chunk_encode_into, chunk_wire. rewrite push_items_spec by exact Hi.
  simpl mbind. f_equal. set (items := concat (item_wire <$> SdesChunk.items c)).
  unfold end_pad.
  assert (Hr : ((length (((out ++ to_be 4 (SdesChunk.ssrc c)) ++ items) ++ [0%Z]) - length out)
                = S (4 + length items))%nat) by len.
  rewrite Hr. generalize (S (4 + length items)). intros n.
  case_test; rewrite <- !app_assoc; do 3 f_equal; simpl; f_equal.
  - replace ((4 - n mod 4) mod 4)%nat with 0%nat by elia. reflexivity.
  - f_equal. elia.
Qed.

Lemma length_items_le items : (length items <= length (concat (item_wire <$> items)))%nat.
Proof.
  induction items as [| i items IH]; csimpl; [lia |]. unfold item_wire at 1.
  destruct (as_bytes i). len.
Qed.

Lemma chunk_decode_spec c rest : chunk_wf c ->
  chunk_decode (chunk_wire c ++ rest) = Ok (c, length (chunk_wire c)).
Proof.
  intros [Hs Hi]. unfold chunk_decode, chunk_wire.
  set (items := concat (item_wire <$> SdesChunk.items c)).
  pose proof (length_items_le (SdesChunk.items c)) as Hle. fold items in Hle.
  pose proof (fun fuel => read_items_spec (SdesChunk.items c) fuel
    (to_be 4 (SdesChunk.ssrc c)) rest 4 Hi) as Hr.
  cbv zeta in Hr. fold items in Hr. rewrite length_to_be in Hr.
  set (e := end_pad (4 + length items)) in *.
  rewrite <- !app_assoc. case_test; [exfalso; len |]. rd.
  rewrite Hr by len. simpl. do 2 f_equal; [destruct c; reflexivity | len].
Qed.

Lemma push_chunks_spec cs out : Forall chunk_wf cs ->
  push_chunks cs out = Ok (out ++ concat (chunk_wire <$> cs)).
Proof.
  intros Hwf. revert out. induction Hwf as [| c cs Hc Hwf IH]; intros out; csimpl.
  - rewrite app_nil_r. reflexivity.
  - rewrite chunk_encode_spec by exact Hc. simpl mbind. rewrite IH, <- app_assoc. reflexivity.
Qed.

Lemma chunk_wire_ge c : (4 <= length (chunk_wire c))%nat.
Proof. unfold chunk_wire. len. Qed.

Lemma length_chunks_le cs : (length cs <= length (concat (chunk_wire <$> cs)))%nat.
Proof.
  induction cs as [| c cs IH]; csimpl; [lia |].
  pose proof (chunk_wire_ge c). len.
Qed.

Lemma read_chunks_spec cs fuel pre idx : Forall chunk_wf cs ->
  (length cs < fuel)%nat -> idx = length pre ->
  read_chunks fuel (pre ++ concat (chunk_wire <$> cs)) idx
  = Ok (cs, length (pre ++ concat (chunk_wire <$> cs))).
Proof.
  intros Hwf. revert fuel pre idx.
  induction Hwf as [| c cs Hc Hwf IH]; intros fuel pre idx Hf ->;
    (destruct fuel as [| fuel]; [lia |]); csimpl.
  - rewrite app_nil_r. case_test; [lia | reflexivity].
  - pose proof (chunk_wire_ge c). case_test; [| exfalso; len].
    rewrite slice_from_app by reflexivity. simpl mbind.
    rewrite chunk_decode_spec by exact Hc. simpl mbind.
    rewrite app_assoc, IH; [reflexivity | simpl in Hf; lia | len].
Qed.

Definition sdes_body (s : Sdes.t) : bytes := concat (chunk_wire <$> Sdes.chunks s).

#[export] Program Instance Sdes_codec : RtcpCodec Sdes.t := {|
  inj := PSdes; pt_of := PT_SDES; wf s := Forall chunk_wf (Sdes.chunks s); body := sdes_body;
  rc s := wrap8 (Z.of_nat (length (Sdes.chunks s))) |}.
Next Obligation. intros s _. apply aligned_concat, chunk_aligned. Qed.
Next Obligation.
  intros s out Hwf. simpl. rewrite push_chunks_spec by exact Hwf. simpl. f_equal.
  apply finish_spec, aligned_concat, chunk_aligned.
Qed.
Next Obligation.
  intros s hdr Hwf _. cbn [decode Sdes_type]. unfold sdes_body.
  pose proof (length_chunks_le (Sdes.chunks s)) as Hle.
  pose proof (fun fuel => read_chunks_spec _ fuel [] 0 Hwf) as Hr. simpl app in Hr.
  rewrite Hr by (reflexivity || lia). simpl. rewrite Nat.eqb_refl. destruct s; reflexivity.
Qed.

(** ** Goodbye: laws *)
Record bye_wf (b : Bye.t) : Prop := {
  bye_sources : Forall u32 (Bye.sources b);
  bye_count : (length (Bye.sources b) < 31)%nat;
  bye_reason : forall r, Bye.reason b = Some r -> str_ok r /\ (length r <= 255)%nat }.

Definition bye_body (b : Bye.t) : bytes :=
  concat (to_be 4 <$> Bye.sources b)
  ++ match Bye.reason b with Some r => reason_bytes r | None => [] end.

Lemma reason_aligned r : aligned (reason_bytes r).
Proof. unfold aligned, reason_bytes. elen. Qed.

Lemma length_sources l : length (concat (to_be 4 <$> l)) = (4 * length l)%nat.
Proof. induction l; csimpl; [reflexivity |]. len. Qed.
#[export] Hint Rewrite length_sources : rtclen.

Lemma read_sources_spec l pre post idx : Forall u32 l -> idx = length pre ->
  read_sources (length l) (pre ++ concat (to_be 4 <$> l) ++ post) idx
  = Ok (l, (idx + 4 * length l)%nat).
Proof.
  intros Hl. revert pre idx. induction Hl as [| s l Hs Hl IH]; intros pre idx ->; csimpl.
  - do 2 f_equal. lia.
  - rewrite <- app_assoc, read_u32_app by (reflexivity || exact Hs). simpl mbind.
    rewrite (app_assoc pre), IH by len. simpl. do 2 f_equal. lia.
Qed.

Lemma read_reason_spec pre r : str_ok r -> (length r <= 255)%nat ->
  read_reason (pre ++ reason_bytes r) (length pre) = Ok (Some r).
Proof.
  intros Hr Hl. unfold read_reason, reason_bytes.
  case_test; [| exfalso; len].
  assert (Hb : (length r <=? 255)%nat = true) by (apply Nat.leb_le, Hl). rewrite Hb.
  rd. rewrite Nat2Z.id. case_test; [exfalso; len |].
  rewrite app_assoc, slice_app by len. simpl. rewrite from_utf8_lossy_valid by exact Hr.
  reflexivity.
Qed.

Lemma bye_body_aligned b : aligned (bye_body b).
Proof.
  unfold bye_body. apply aligned_app; [auto with rtc |].
  destruct (Bye.reason b); [apply reason_aligned | reflexivity].
Qed.

#[export] Program Instance Bye_codec : RtcpCodec Bye.t := {|
  inj := PBye; pt_of := PT_BYE; wf := bye_wf; body := bye_body;
  rc b := wrap8 (Z.of_nat (length (Bye.sources b))) |}.
Next Obligation. intros b _. apply bye_body_aligned. Qed.
Next Obligation.
  intros b out []. cbn [encode_into Bye_type]. case_test; [lia |]. f_equal.
  rewrite <- finish_spec by apply bye_body_aligned. unfold bye_body.
  destruct (Bye.reason b); rewrite ?app_nil_r, ?app_assoc; reflexivity.
Qed.
Next Obligation.
  intros b hdr [] Hrc. simpl. rewrite Hrc, rc_mask by lia. unfold bye_body.
  case_test; [exfalso; len |].
  pose proof (fun post => read_sources_spec _ [] post 0 bye_sources0 eq_refl) as Hs.
  setoid_rewrite Nat.add_0_l in Hs. rewrite <- length_sources in Hs.
  simpl app in Hs. rewrite Hs. simpl.
  destruct b as [src [r |]]; simpl in *.
  - destruct (bye_reason0 r eq_refl).
    rewrite read_reason_spec by assumption. reflexivity.
  - unfold read_reason. case_test; [exfalso; len | reflexivity].
Qed.

(** ** Application packets and feedback: laws *)
Record app_wf (a : App.t) : Prop := {
  app_subtype : 0 <= App.subtype a < 32;
  app_name : length (App.name a) = 4%nat;
  app_ssrc : u32 (App.ssrc a);
  app_data : aligned (App.data a) }.

Definition app_body (a : App.t) : bytes := to_be 4 (App.ssrc a) ++ App.name a ++ App.data a.

Lemma app_body_aligned a : app_wf a -> aligned (app_body a).
Proof. intros []. unfold app_body, aligned in *. elen. Qed.

Lemma land_31_small v : 0 <= v < 32 -> Z.land v 31 = v.
Proof.
  intros. change 31 with (Z.ones 5). rewrite Z.land_ones by lia. apply Z.mod_small. assumption.
Qed.

#[export] Program Instance App_codec : RtcpCodec App.t := {|
  inj := PApp; pt_of := PT_APP; wf := app_wf; body := app_body; rc := App.subtype |}.
Next Obligation. exact app_body_aligned. Qed.
Next Obligation.
  intros a out Hwf. simpl. rewrite (land_31_small _ (app_subtype _ Hwf)). f_equal.
  apply finish_spec, app_body_aligned, Hwf.
Qed.
Next Obligation.
  intros a hdr [] Hrc. simpl. unfold app_body. case_test; [exfalso; len |]. rd.
  rewrite slice_app by len. simpl. rewrite app_name0. simpl.
  rewrite Hrc, !land_31_small by (rewrite ?land_31_small by assumption; assumption).
  destruct a; reflexivity.
Qed.

Definition entry_wf (e : Z * Z) : Prop := u16 e.1 /\ u16 e.2.

Record nack_wf (n : GenericNack.t) : Prop := {
  nack_sender : u32 (GenericNack.sender_ssrc n);
  nack_media : u32 (GenericNack.media_ssrc n);
  nack_entries : Forall entry_wf (GenericNack.entries n) }.

Definition nack_body (n : GenericNack.t) : bytes :=
  to_be 4 (GenericNack.sender_ssrc n) ++ to_be 4 (GenericNack.media_ssrc n)
  ++ nack_bytes (GenericNack.entries n).

Lemma length_nack_bytes es : length (nack_bytes es) = (4 * length es)%nat.
Proof. unfold nack_bytes. induction es; csimpl; [reflexivity |]. len. Qed.
#[export] Hint Rewrite length_nack_bytes : rtclen.

Lemma read_entries_spec es fuel pre idx : Forall entry_wf es ->
  (length es < fuel)%nat -> idx = length pre ->
  read_entries fuel (pre ++ nack_bytes es) idx = Ok (es, length (pre ++ nack_bytes es)).
Proof.
  intros Hwf. revert fuel pre idx.
  induction Hwf as [| [p b] es [Hp Hb] Hwf IH]; intros fuel pre idx Hf ->;
    (destruct fuel as [| fuel]; [lia |]).
  - cbn. rewrite app_nil_r. case_test; [lia | reflexivity].
  - change (nack_bytes ((p, b) :: es)) with ((to_be 2 p ++ to_be 2 b) ++ nack_bytes es).
    simpl in Hp, Hb. cbn [read_entries]. case_test; [| exfalso; len].
    rewrite <- (app_assoc (to_be 2 p)), (read_u16_app pre p _ (length pre))
      by (assumption || reflexivity).
    simpl mbind. rewrite (app_assoc pre), (read_u16_app _ b _ (length pre + 2))
      by (assumption || len).
    simpl mbind. rewrite app_assoc, IH; [reflexivity | simpl in Hf; lia | len].
Qed.

Lemma nack_body_aligned n : aligned (nack_body n).
Proof. unfold aligned, nack_body. elen. Qed.

#[export] Program Instance GenericNack_codec : RtcpCodec GenericNack.t := {|
  inj := PNack; pt_of := PT_RTPFB; wf := nack_wf; body := nack_body; rc _ := 1 |}.
Next Obligation. intros n _. apply nack_body_aligned. Qed.
Next Obligation. intros n out _. simpl. f_equal. apply finish_spec, nack_body_aligned. Qed.
Next Obligation.
  intros n hdr [] Hrc. cbn [decode GenericNack_type]. unfold nack_body. case_test; [exfalso; len |]. rd.
  rewrite Hrc. change (Z.land 1 31 =? 1) with true. cbv iota.
  rewrite app_assoc, read_entries_spec by (assumption || len).
  simpl. rewrite Nat.eqb_refl. destruct n; reflexivity.
Qed.

Definition pli_wf (p : PictureLossIndication.t) : Prop :=
  u32 (PictureLossIndication.sender_ssrc p) /\ u32 (PictureLossIndication.media_ssrc p).

Definition pli_body (p : PictureLossIndication.t) : bytes :=
  to_be 4 (PictureLossIndication.sender_ssrc p) ++ to_be 4 (PictureLossIndication.media_ssrc p).

Lemma pli_body_aligned p : aligned (pli_body p).
Proof. unfold pli_body. auto with rtc. Qed.

#[export] Program Instance PictureLossIndication_codec : RtcpCodec PictureLossIndication.t := {|
  inj := PPli; pt_of := PT_PSFB; wf := pli_wf; body := pli_body; rc _ := 1 |}.
Next Obligation. intros p _. apply pli_body_aligned. Qed.
Next Obligation. intros p out _. simpl. f_equal. apply finish_spec, pli_body_aligned. Qed.
Next Obligation.
  intros p hdr [] Hrc. simpl. unfold pli_body. case_test; [exfalso; len |].
  rewrite <- (app_nil_r (to_be 4 (PictureLossIndication.media_ssrc p))). rd.
  rewrite Hrc. destruct p; reflexivity.
Qed.

(** ** Compound packets: round trip *)
Definition fits {T} `{RtcpCodec T} (x : T) : Prop :=
  wf x /\ Z.of_nat (length (body x) / 4) < 65536.

Definition packet_wf (p : RtcpPacket) : Prop :=
  match p with
  | PSr x => fits x | PRr x => fits x | PSdes x => fits x | PBye x => fits x
  | PApp x => fits x | PNack x => fits x | PPli x => fits x
  end.

(** The interface lifted to the sum type. *)
Record framed (p : RtcpPacket) (w : bytes) : Prop := {
  fr_ge : (4 <= length w)%nat;
  fr_encode out : encode_one p out = Ok (out ++ w);
  fr_header rest : exists hdr,
    CommonHeader.decode (w ++ rest) = Ok (hdr, length w) /\
    CommonHeader.padding hdr = false /\ decode_one hdr (drop 4 w) = Ok p }.

Lemma codec_framed {T} `{RtcpCodec T} (x : T) :
  (forall out, encode_one (inj x) out = encode_into x out) ->
  (forall hdr payload, CommonHeader.pt hdr = pt_of -> decode_one hdr payload = decode hdr payload) ->
  fits x -> framed (inj x) (frame (rc x) pt_of (body x)).
Proof.
  intros He Hd [Hwf Hs]. pose proof (body_aligned x Hwf) as Ha. split.
  - rewrite length_frame by exact Ha. lia.
  - intros out. rewrite He. apply encode_law, Hwf.
  - intros rest. eexists. split; [apply header_decode; assumption |].
    split; [reflexivity |]. rewrite Hd by reflexivity.
    unfold frame. rewrite app_assoc, drop_app_ge by len.
    replace (4 - _)%nat with 0%nat by len. rewrite drop_0. apply decode_law; auto.
Qed.

Lemma packet_framed p : packet_wf p -> exists w, framed p w.
Proof.
  destruct p; simpl packet_wf; intros Hf; eexists;
    (eapply codec_framed in Hf; [exact Hf | reflexivity |]);
    intros hdr payload Hpt; unfold decode_one; rewrite Hpt; reflexivity.
Qed.

Definition framed_list (pkts : list RtcpPacket) (ws : list bytes) : Prop :=
  Forall2 framed pkts ws.

Lemma packets_framed pkts : Forall packet_wf pkts -> exists ws, framed_list pkts ws.
Proof.
  induction 1 as [| p pkts Hp _ [ws Hws]]; [exists []; constructor |].
  destruct (packet_framed p Hp) as [w Hw]. exists (w :: ws). constructor; assumption.
Qed.

Lemma encode_all_framed pkts ws out : framed_list pkts ws ->
  encode_all pkts out = Ok (out ++ concat ws).
Proof.
  intros Hf. revert out. induction Hf as [| p w pkts ws Hp Hf IH]; intros out; simpl.
  - rewrite app_nil_r. reflexivity.
  - rewrite (fr_encode _ _ Hp). simpl mbind. rewrite IH, <- app_assoc. reflexivity.
Qed.

Lemma decode_loop_framed pkts ws fuel pre : framed_list pkts ws ->
  (length pkts < fuel)%nat ->
  decode_loop fuel (pre ++ concat ws) (length pre) = Ok (pkts, length (pre ++ concat ws)).
Proof.
  intros Hf. revert fuel pre. induction Hf as [| p w pkts ws Hp Hf IH];
    intros fuel pre Hfuel; (destruct fuel as [| fuel]; [lia |]); cbn [decode_loop concat].
  - rewrite app_nil_r. case_test; [lia | reflexivity].
  - pose proof (fr_ge _ _ Hp) as Hge.
    destruct (fr_header _ _ Hp (concat ws)) as (hdr & Hh & Hpad & Hd).
    case_test; [| exfalso; len].
    rewrite slice_from_app by reflexivity. simpl mbind. rewrite Hh. simpl mbind.
    destruct (Nat.ltb_spec (length w) 4); [lia |].
    destruct (Nat.ltb_spec (length (pre ++ w ++ concat ws)) (length pre + length w));
      [exfalso; len |]. cbn [orb].
    rewrite slice_app by reflexivity. cbn [mbind outcome_bind].
    unfold slice_from at 1. destruct (Nat.leb_spec 4 (length w)); [| lia].
    cbn [mbind outcome_bind]. unfold strip_padding. rewrite Hpad. cbn [mbind outcome_bind].
    rewrite Hd. cbn [mbind outcome_bind]. rewrite app_assoc, <- length_app.
    rewrite IH by (simpl in Hfuel; lia). reflexivity.
Qed.

Lemma framed_length pkts ws : framed_list pkts ws ->
  (4 * length pkts <= length (concat ws))%nat.
Proof.
  induction 1 as [| p w pkts ws Hp _ IH]; simpl; [lia |].
  pose proof (fr_ge _ _ Hp). len.
Qed.

Lemma decode_compound_framed pkts ws : framed_list pkts ws -> pkts <> [] ->
  decode_compound (concat ws) = Ok pkts.
Proof.
  intros Hf Hne. pose proof (framed_length _ _ Hf) as Hl. unfold decode_compound.
  case_test; [destruct pkts; [congruence | simpl in Hl; lia] |].
  pose proof (decode_loop_framed pkts ws (S (length (concat ws))) [] Hf) as Hd.
  simpl app in Hd. cbn [length] in Hd. rewrite Hd by lia. simpl.
  rewrite Nat.eqb_refl. reflexivity.
Qed.

(** C33 A compound of well-formed packets (each of the seven types, in any order) is
    accepted by [encode_compound], and [decode_compound] gives back the same packets. *)
Theorem rtcp_compound_roundtrip pkts :
  Forall packet_wf pkts -> pkts <> [] ->
  exists bs, encode_compound pkts = Ok bs /\ decode_compound bs = Ok pkts.
Proof.
  intros Hwf Hne. destruct (packets_framed pkts Hwf) as [ws Hf]. exists (concat ws).
  split; [apply (encode_all_framed _ _ [] Hf) | apply decode_compound_framed; assumption].
Qed.

Lemma sample_compound_wf : Forall packet_wf sample_compound.
Proof.
  unfold sample_compound. rewrite !Forall_cons.
  split_and!; try apply Forall_nil_2; (split; [| vm_compute; reflexivity]).
  - split; simpl; ulia.
  - split; [repeat constructor; simpl; ulia | simpl; lia | intros r [= <-]].
    split; [vm_compute; reflexivity | simpl; lia].
  - split; simpl; try ulia; reflexivity.
  - repeat constructor; try ulia; simpl; try lia; vm_compute; reflexivity.
  - split; [simpl; ulia | simpl; ulia | repeat constructor; simpl; ulia].
  - split; [simpl; ulia | | simpl; lia | reflexivity].
    repeat constructor; simpl; ulia.
Qed.

Lemma rtcp_compound_roundtrip_witness :
  exists bs, encode_compound sample_compound = Ok bs /\
    decode_compound bs = Ok sample_compound.
Proof.
  apply (rtcp_compound_roundtrip sample_compound); [exact sample_compound_wf | discriminate].
Defined.

(** ** Robustness: no input makes the decoder panic or run out of fuel *)
Lemma report_decode_no_panic buf : no_panic (ReportBlock.decode buf).
Proof. unfold ReportBlock.decode. np. Qed.

Lemma info_decode_used buf i n : SenderInfo.decode buf = Ok (i, n) -> n = 20%nat.
Proof.
  unfold SenderInfo.decode. intros H. case_test_in H; [discriminate |].
  do 5 bind_inv H. congruence.
Qed.

Lemma report_decode_used buf r n : ReportBlock.decode buf = Ok (r, n) -> n = 24%nat.
Proof.
  unfold ReportBlock.decode. intros H. case_test_in H; [discriminate |].
  do 9 bind_inv H. congruence.
Qed.

Lemma read_reports_bound n payload idx rbs idx' : (idx <= length payload)%nat ->
  read_reports n payload idx = Ok (rbs, idx') -> (idx' <= length payload)%nat.
Proof.
  revert idx rbs. induction n as [| n IH]; intros idx rbs Hi H; cbn [read_reports] in H.
  { congruence. }
  case_test_in H; [discriminate |]. bind_inv H. bind_inv H. destruct v0 as [rb used].
  apply report_decode_used in Hv0 as ->. bind_inv H. destruct v0 as [l i].
  injection H as <- <-. eapply IH; [| exact Hv0]. lia.
Qed.

Lemma read_reports_no_panic n payload idx : no_panic (read_reports n payload idx).
Proof.
  revert idx. induction n as [| n IH]; intros idx; cbn [read_reports]; np.
  - apply report_decode_no_panic.
  - apply IH.
Qed.

Lemma sr_decode_no_panic hdr payload : no_panic (decode (T := SenderReport.t) hdr payload).
Proof.
  cbn [decode SenderReport_type]. np.
  - unfold SenderInfo.decode. np.
  - apply read_reports_no_panic.
  - match goal with H : SenderInfo.decode _ = _ |- _ => apply info_decode_used in H as -> end.
    match goal with H : read_reports _ _ _ = _ |- _ => apply read_reports_bound in H; [| lia] end.
    np.
Qed.

Lemma rr_decode_no_panic hdr payload : no_panic (decode (T := ReceiverReport.t) hdr payload).
Proof.
  cbn [decode ReceiverReport_type]. np; [apply read_reports_no_panic |].
  match goal with H : read_reports _ _ _ = _ |- _ => apply read_reports_bound in H; [| lia] end.
  np.
Qed.

Lemma read_items_mono fuel buf idx items idx' :
  read_items fuel buf idx = Ok (items, idx') -> (idx <= idx')%nat.
Proof.
  revert idx items. induction fuel as [| fuel IH]; intros idx items H; [discriminate |].
  cbn [read_items] in H. case_test_in H; [| injection H; lia].
  bind_inv H. case_test_in H; [case_test_in H; [discriminate | injection H; lia] |].
  case_test_in H; [discriminate |]. bind_inv H. case_test_in H; [discriminate |].
  bind_inv H. bind_inv H. destruct v2 as [l i]. injection H as _ <-.
  apply IH in Hv2. lia.
Qed.

Lemma read_items_no_panic fuel buf idx :
  (length buf - idx < fuel)%nat -> no_panic (read_items fuel buf idx).
Proof.
  revert idx. induction fuel as [| fuel IH]; intros idx Hf; [lia |].
  cbn [read_items]. np. apply IH. lia.
Qed.

Lemma chunk_decode_no_panic buf : no_panic (chunk_decode buf).
Proof. unfold chunk_decode. np. apply read_items_no_panic. lia. Qed.

Lemma chunk_decode_used buf c n : chunk_decode buf = Ok (c, n) -> (4 <= n)%nat.
Proof.
  unfold chunk_decode. intros H. case_test_in H; [discriminate |].
  bind_inv H. bind_inv H. destruct v0. injection H as _ <-.
  exact (read_items_mono _ _ _ _ _ Hv0).
Qed.

Lemma read_chunks_no_panic fuel payload idx :
  (length payload - idx < fuel)%nat -> no_panic (read_chunks fuel payload idx).
Proof.
  revert idx. induction fuel as [| fuel IH]; intros idx Hf; [lia |].
  cbn [read_chunks]. np; [apply chunk_decode_no_panic |].
  match goal with H : chunk_decode _ = _ |- _ => apply chunk_decode_used in H end.
  apply IH. lia.
Qed.

Lemma sdes_decode_no_panic hdr payload : no_panic (decode (T := Sdes.t) hdr payload).
Proof. cbn [decode Sdes_type]. np. apply read_chunks_no_panic. lia. Qed.

Lemma read_sources_no_panic n payload idx : (idx + 4 * n <= length payload)%nat ->
  no_panic (read_sources n payload idx).
Proof.
  revert idx. induction n as [| n IH]; intros idx Hi; cbn [read_sources]; np. apply IH. lia.
Qed.

Lemma bye_decode_no_panic hdr payload : no_panic (decode (T := Bye.t) hdr payload).
Proof.
  cbn [decode Bye_type]. np; [apply read_sources_no_panic; lia |].
  unfold read_reason. np.
Qed.

Lemma app_decode_no_panic hdr payload : no_panic (decode (T := App.t) hdr payload).
Proof. cbn [decode App_type]. np. Qed.

Lemma read_entries_no_panic fuel payload idx :
  (length payload - idx < fuel)%nat -> no_panic (read_entries fuel payload idx).
Proof.
  revert idx. induction fuel as [| fuel IH]; intros idx Hf; [lia |].
  cbn [read_entries]. np. apply IH. lia.
Qed.

Lemma nack_decode_no_panic hdr payload : no_panic (decode (T := GenericNack.t) hdr payload).
Proof. cbn [decode GenericNack_type]. np. apply read_entries_no_panic. lia. Qed.

Lemma pli_decode_no_panic hdr payload :
  no_panic (decode (T := PictureLossIndication.t) hdr payload).
Proof. cbn [decode PictureLossIndication_type]. np. Qed.

#[export] Hint Resolve sr_decode_no_panic rr_decode_no_panic sdes_decode_no_panic
  bye_decode_no_panic app_decode_no_panic nack_decode_no_panic pli_decode_no_panic : rtc.

Lemma decode_one_no_panic hdr payload : no_panic (decode_one hdr payload).
Proof. unfold decode_one. repeat case_test; auto with rtc. Qed.

Lemma strip_padding_no_panic hdr pkt payload : no_panic (strip_padding hdr pkt payload).
Proof. unfold strip_padding, ok_or. destruct (last pkt); np. Qed.

Lemma header_decode_no_panic buf : no_panic (CommonHeader.decode buf).
Proof. unfold CommonHeader.decode. np. Qed.

Lemma decode_loop_no_panic fuel buf idx :
  (length buf - idx < fuel)%nat -> no_panic (decode_loop fuel buf idx).
Proof.
  revert idx. induction fuel as [| fuel IH]; intros idx Hf; [lia |].
  cbn [decode_loop]. np; try apply header_decode_no_panic; try apply strip_padding_no_panic;
    try apply decode_one_no_panic.
  all: match goal with H : (_ || _) = false |- _ => apply orb_false_iff in H as [Hl Hb] end.
  all: apply Nat.ltb_ge in Hl, Hb.
  - np.
  - match goal with H : slice _ _ _ = _ |- _ => apply slice_Ok_inv in H as [_ ->] end. np.
  - apply IH. lia.
Qed.

(** Decoding an RTCP datagram terminates without panicking, whatever its octets. *)
Theorem rtcp_decode_no_panic buf : no_panic (decode_compound buf).
Proof. unfold decode_compound. np. apply decode_loop_no_panic. lia. Qed.

(** ** Limits of the encoders *)

(** The limit of 31 report blocks is enforced for sender reports only: a receiver report
    with 32 of them is encoded with the count masked to zero. *)
Definition many_reports : ReceiverReport.t :=
  ReceiverReport.new 5 (replicate 32 (ReportBlock.mk 9 0 0 7 3 4 5)).

(** A receiver report with more than 31 blocks is encoded without an error, and decoding
    the result gives a different packet: the blocks beyond the masked count come back as a
    profile extension. *)
Theorem rr_encode_over_31_lossy :
  exists bs p, encode_compound [PRr many_reports] = Ok bs /\
    decode_compound bs = Ok [PRr p] /\ ReceiverReport.reports p = [] /\
    length (ReceiverReport.profile_ext p) = 768%nat.
Proof.
  eexists _, _. split; [vm_compute; reflexivity |].
  split; [vm_compute; reflexivity |]. split; reflexivity.
Qed.

Lemma decode_single rc pt b p :
  aligned b -> Z.of_nat (length b / 4) < 65536 ->
  decode_one (CommonHeader.with_length (Z.land rc 31) pt false (Z.of_nat (length b / 4))) b
    = Ok p ->
  decode_compound (frame rc pt b) = Ok [p].
Proof.
  intros Ha Hs Hd. unfold decode_compound.
  pose proof (length_frame rc pt b Ha) as Hl.
  pose proof (header_decode rc pt b [] Ha Hs) as Hh. rewrite app_nil_r in Hh.
  set (w := frame rc pt b) in *. case_test; [lia |]. cbn [decode_loop].
  case_test; [| lia]. rewrite slice_from_0. cbn [mbind outcome_bind]. rewrite Hh.
  cbn [mbind outcome_bind]. rewrite Nat.add_0_l.
  destruct (Nat.ltb_spec (length w) 4); [lia |]. rewrite Nat.ltb_irrefl. cbn [orb].
  rewrite slice_Ok by lia. cbn [mbind outcome_bind]. rewrite drop_0, Nat.sub_0_r, firstn_all.
  assert (Hb : slice_from (E := RtcpError) w 4 = Ok b).
  { unfold w, frame. rewrite app_assoc. apply slice_from_app. len. }
  rewrite Hb. cbn [mbind outcome_bind]. unfold strip_padding.
  cbn [CommonHeader.padding CommonHeader.with_length mbind outcome_bind]. rewrite Hd.
  cbn [mbind outcome_bind].
  destruct (length w) as [| n] eqn:Hn; [lia |]. cbn [decode_loop]. rewrite Hn.
  case_test; [lia |]. simpl. rewrite Nat.eqb_refl. reflexivity.
Qed.

(** A BYE reason longer than 255 octets is encoded with length octet 0 and decodes as an
    empty reason, whatever its text. *)
Theorem bye_long_reason_lost srcs r :
  Forall u32 srcs -> (length srcs < 31)%nat -> 255 < Z.of_nat (length r) < 200000 ->
  exists bs, encode_compound [PBye (Bye.mk srcs (Some r))] = Ok bs /\
    decode_compound bs = Ok [PBye (Bye.mk srcs (Some []))].
Proof.
  intros Hs Hc Hr. set (b := Bye.mk srcs (Some r)).
  exists (frame (wrap8 (Z.of_nat (length srcs))) PT_BYE (bye_body b)). split.
  - unfold encode_compound. cbn [encode_all encode_one encode_into Bye_type Bye.sources b].
    case_test; [lia |]. cbn [mbind outcome_bind Bye.reason].
    f_equal. rewrite <- (app_nil_l (frame _ _ _)), <- finish_spec by apply bye_body_aligned.
    unfold bye_body, b. cbn [Bye.reason Bye.sources]. rewrite <- app_assoc. reflexivity.
  - assert (Hz : (length r <=? 255)%nat = false) by (apply Nat.leb_gt; lia).
    apply decode_single; [apply bye_body_aligned | |].
    + unfold bye_body, b, reason_bytes. simpl Bye.sources. simpl Bye.reason. cbv iota. elen.
    + cbn [decode_one decode Bye_type CommonHeader.rc_or_fmt CommonHeader.with_length].
      change (decode (T := Bye.t) (CommonHeader.with_length
        (Z.land (wrap8 (Z.of_nat (length srcs))) 31) PT_BYE false
        (Z.of_nat (length (bye_body b) / 4))) (bye_body b)
        = Ok (PBye (Bye.mk srcs (Some [])))).
      cbn [decode Bye_type CommonHeader.rc_or_fmt CommonHeader.with_length].
      rewrite rc_mask by lia. unfold bye_body, b, reason_bytes. cbn [Bye.sources Bye.reason].
      rewrite Hz. case_test; [exfalso; len |].
      pose proof (fun post => read_sources_spec _ [] post 0 Hs eq_refl) as Hr'.
      setoid_rewrite Nat.add_0_l in Hr'. rewrite <- length_sources in Hr'.
      simpl app in Hr'. simpl app. rewrite Hr'. cbn [mbind outcome_bind].
      unfold read_reason. case_test; [| exfalso; len]. rd.
      case_test; [exfalso; len |]. rewrite slice_Ok by len.
      replace (_ - _)%nat with 0%nat by lia. reflexivity.
Qed.

Lemma bye_long_reason_lost_witness :
  exists bs, encode_compound [PBye (Bye.mk [7] (Some (replicate 300 97)))] = Ok bs /\
    decode_compound bs = Ok [PBye (Bye.mk [7] (Some []))].
Proof.
  apply (bye_long_reason_lost [7] (replicate 300 97)).
  - repeat constructor; ulia.
  - simpl. lia.
  - rewrite length_replicate. lia.
Defined.
