(* ===== verification/Trackers.v ===== *)
(** * RTP reception and transmission statistics (src/rtp_session)

    [SeqExt] (sequence number extension), [RxTracker] (loss and jitter of one remote
    source, report blocks), [TxTracker] (what the peer reports about a local source, round
    trip times) and the NTP helpers. Clock readings are arguments. [Panic] is an overflow
    check of the debug profile. *)

From stdpp Require Import prelude.
From Stdlib Require Import ZArith Lia.
From S2P Require Import Prelude Utf8 Rtcp.
Local Open Scope Z_scope.

(** ** NTP helpers *)

(** [ntp_now], of the wall clock as seconds and nanoseconds since 1970 *)
Definition ntp_now (unix_secs nanos : Z) : Z * Z :=
  (wrap32 (unix_secs + 2208988800), wrap32 (Z.shiftl nanos 32 / 1000000000)).

Definition ntp_compact (secs frac : Z) : Z :=
  Z.lor (Z.shiftl (Z.land secs 65535) 16) (Z.shiftr frac 16).

Definition ntp_to_compact (msw lsw : Z) : Z :=
  Z.lor (wrap32 (Z.shiftl msw 16)) (Z.shiftr lsw 16).

(** [u32::saturating_sub] and [u32::abs_diff] *)
Definition sat_sub (a b : Z) : Z := Z.max 0 (a - b).
Definition abs_diff (a b : Z) : Z := Z.abs (a - b).

(** A checked [u32] operation *)
Definition checked32 {E} (v : Z) : outcome E Z :=
  if (0 <=? v) && (v <? 4294967296) then Ok v else Panic.

Module SeqExt.
Record t : Type := mk { cycles : Z; last : Z }.
Definition initial : t := mk 0 0.

Definition update (s : t) (seq : Z) : t * Z :=
  let cycles' :=
    if (seq <? last s) && (32768 <? wrap16 (last s - seq))
    then wrap32 (cycles s + 65536) else cycles s in
  (mk cycles' seq, Z.lor cycles' seq).
End SeqExt.

Module RxTracker.
Record t : Type := mk {
  seqext : SeqExt.t;
  base_ext_seq : option Z;
  highest_ext_seq : Z;
  received_unique : Z;
  expected_prev : Z;
  received_prev : Z;
  jitter : Z;
  last_transit : option Z;
  last_sr_compact : option Z;
  last_sr_arrival_compact : option Z }.
Definition initial : t := mk SeqExt.initial None 0 0 0 0 0 None None None.

Definition on_rtp (r : t) (seq rtp_ts arrival_rtp_units : Z) : t :=
  let '(seqext', ext) := SeqExt.update (seqext r) seq in
  let base' := match base_ext_seq r with None => Some ext | b => b end in
  let highest' := if highest_ext_seq r <? ext then ext else highest_ext_seq r in
  let received' := wrap32 (received_unique r + 1) in
  let transit := wrap32 (arrival_rtp_units - rtp_ts) in
  let jitter' :=
    match last_transit r with
    | Some prev =>
        let d_abs := abs_diff transit prev in
        wrap32 (jitter r + wrap32 (sat_sub d_abs (jitter r) / 16))
    | None => jitter r
    end in
  mk seqext' base' highest' received' (expected_prev r) (received_prev r) jitter'
     (Some transit) (last_sr_compact r) (last_sr_arrival_compact r).

Definition on_sr_received (r : t) (ntp_secs ntp_frac : Z) (now_ntp : Z * Z) : t :=
  mk (seqext r) (base_ext_seq r) (highest_ext_seq r) (received_unique r) (expected_prev r)
     (received_prev r) (jitter r) (last_transit r)
     (Some (ntp_compact ntp_secs ntp_frac)) (Some (ntp_compact now_ntp.1 now_ntp.2)).

Definition fraction (lost_delta exp_delta : Z) : outcome Empty_set Z :=
  if exp_delta =? 0 then Ok 0
  else p ← checked32 (lost_delta * 256); Ok (wrap8 (p / exp_delta)).

(** LSR and DLSR; [now_ntp] is the reading of [time::ntp_now()] *)
Definition sr_timing (r : t) (now_ntp : Z * Z) : Z * Z :=
  match last_sr_compact r, last_sr_arrival_compact r with
  | Some lsr, Some arrival => (lsr, wrap32 (ntp_compact now_ntp.1 now_ntp.2 - arrival))
  | _, _ => (0, 0)
  end.

Definition build_report_block (r : t) (ssrc : Z) (now_ntp : Z * Z)
  : outcome Empty_set (t * ReportBlock.t) :=
  let base := default 0 (base_ext_seq r) in
  expected_total ← checked32 (sat_sub (highest_ext_seq r) base + 1);
  let cumulative_lost_i64 := expected_total - received_unique r in
  let exp_delta := sat_sub expected_total (expected_prev r) in
  let rec_delta := sat_sub (received_unique r) (received_prev r) in
  let lost_delta := sat_sub exp_delta rec_delta in
  fraction_lost ← fraction lost_delta exp_delta;
  let '(lsr, dlsr) := sr_timing r now_ntp in
  Ok (mk (seqext r) (base_ext_seq r) (highest_ext_seq r) (received_unique r)
         expected_total (received_unique r) (jitter r) (last_transit r)
         (last_sr_compact r) (last_sr_arrival_compact r),
      ReportBlock.mk ssrc fraction_lost (Z.land (as_i32 cumulative_lost_i64) 16777215)
        (highest_ext_seq r) (jitter r) lsr dlsr).
End RxTracker.

Module TxTracker.
Record t : Type := mk {
  last_sr_ntp_compact : Z;
  last_rr_instant : option Z;
  remote_fraction_lost : Z;
  remote_cum_lost : Z;
  remote_highest_ext_seq : Z;
  remote_jitter : Z;
  rtt_ms : option Z }.
Definition initial : t := mk 0 None 0 0 0 0 None.

Definition mark_sr_sent (x : t) (ntp_most_sw ntp_least_sw : Z) : t :=
  mk (ntp_to_compact ntp_most_sw ntp_least_sw) (last_rr_instant x) (remote_fraction_lost x)
     (remote_cum_lost x) (remote_highest_ext_seq x) (remote_jitter x) (rtt_ms x).

(** [now] is [Instant::now()] *)
Definition on_report_block (x : t) (rb : ReportBlock.t) (arrival_ntp_compact now : Z) : t :=
  let lsr := ReportBlock.lsr rb in
  let dlsr := ReportBlock.dlsr rb in
  let rtt :=
    if negb (lsr =? 0) && negb (dlsr =? 0) && negb (last_sr_ntp_compact x =? 0)
       && (lsr =? last_sr_ntp_compact x)
    then
      let rtt_units := wrap32 (wrap32 (arrival_ntp_compact - lsr) - dlsr) in
      Some (wrap32 (Z.shiftr (rtt_units * 1000) 16))
    else rtt_ms x in
  mk (last_sr_ntp_compact x) (Some now) (ReportBlock.fraction_lost rb)
     (ReportBlock.cumulative_lost rb) (ReportBlock.highest_seq_no_received rb)
     (ReportBlock.interarrival_jitter rb) rtt.
End TxTracker.

(** ** Bit fields *)
Lemma lor_low16 c s : u16 s -> c mod 65536 = 0 -> Z.lor c s = c + s.
Proof.
  unfold u16. intros Hs Hc.
  assert (Hd : c = Z.shiftl (c / 65536) 16) by (rewrite Z.shiftl_mul_pow2 by lia; elia).
  rewrite Hd at 1. rewrite lor_shiftl_add by lia. change (2 ^ 16) with 65536. elia.
Qed.

Lemma ntp_compact_value secs frac : u32 secs -> u32 frac ->
  ntp_compact secs frac = secs mod 65536 * 65536 + frac / 65536.
Proof.
  unfold u32. intros Hs Hf. unfold ntp_compact.
  change 65535 with (Z.ones 16). rewrite Z.land_ones, (Z.shiftr_div_pow2 frac) by lia.
  change (2 ^ 16) with 65536. rewrite lor_shiftl_add; [reflexivity | lia |].
  change (2 ^ 16) with 65536. elia.
Qed.

(** The two definitions of the compact form in the code agree. *)
Lemma ntp_compact_agree secs frac : u32 secs -> u32 frac ->
  ntp_to_compact secs frac = ntp_compact secs frac.
Proof.
  intros Hs Hf. rewrite ntp_compact_value by assumption. unfold ntp_to_compact, u32 in *.
  rewrite (Z.shiftr_div_pow2 frac), Z.shiftl_mul_pow2 by lia. change (2 ^ 16) with 65536.
  assert (Hw : wrap32 (secs * 65536) = secs mod 65536 * 65536) by (unfold wrap32; elia).
  rewrite Hw, lor_low16; [reflexivity | unfold u16; elia | elia].
Qed.

Lemma ntp_compact_range secs frac : u32 secs -> u32 frac -> u32 (ntp_compact secs frac).
Proof. intros. rewrite ntp_compact_value by assumption. unfold u32 in *. elia. Qed.

(** ** Sequence number extension refines an unbounded packet index *)

(** The state stands for the index [n] of the last packet. *)
Definition at_index (s : SeqExt.t) (n : Z) : Prop :=
  0 <= n /\ SeqExt.cycles s = wrap32 (n / 65536 * 65536) /\ SeqExt.last s = wrap16 n.

Lemma wrap_cycles n : wrap32 (n / 65536 * 65536) mod 65536 = 0.
Proof. unfold wrap32. elia. Qed.

Lemma wrap_index n : wrap32 (n / 65536 * 65536) + wrap16 n = wrap32 n.
Proof. unfold wrap32, wrap16. elia. Qed.

Lemma update_value s n m : at_index s n ->
  (if (wrap16 m <? SeqExt.last s) && (32768 <? wrap16 (SeqExt.last s - wrap16 m))
   then wrap32 (SeqExt.cycles s + 65536) else SeqExt.cycles s)
    = wrap32 (m / 65536 * 65536) ->
  0 <= m ->
  at_index (SeqExt.update s (wrap16 m)).1 m /\ (SeqExt.update s (wrap16 m)).2 = wrap32 m.
Proof.
  intros Hat Hc Hm. unfold SeqExt.update. rewrite Hc. simpl. split; [split_and!; auto |].
  rewrite lor_low16 by (apply wrap16_range || apply wrap_cycles). apply wrap_index.
Qed.

(** A packet at most 32767 ahead of the last one, or behind it in the same cycle, is given
    its own index. *)
Lemma update_index s n m : at_index s n ->
  n <= m < n + 32768 \/ (0 <= m < n /\ m / 65536 = n / 65536 /\ n <= m + 32768) ->
  at_index (SeqExt.update s (wrap16 m)).1 m /\ (SeqExt.update s (wrap16 m)).2 = wrap32 m.
Proof.
  intros Hat Hm. apply (update_value s n m Hat); [| destruct Hat; lia].
  destruct Hat as (Hn & -> & ->).
  destruct (Z.ltb_spec (wrap16 m) (wrap16 n)), (Z.ltb_spec 32768 (wrap16 (wrap16 n - wrap16 m)));
    simpl; unfold wrap16, wrap32 in *; elia.
Qed.

(** A late packet from before the last wrap of the sequence number is given the index one
    cycle too high. *)
Lemma update_late_wrap s n m : at_index s n -> 0 <= m < n ->
  n / 65536 = m / 65536 + 1 -> n < m + 32768 ->
  (SeqExt.update s (wrap16 m)).2 = wrap32 (m + 65536).
Proof.
  intros (Hn & Hc & Hl) Hm Hcy Hlt. unfold SeqExt.update. rewrite Hc, Hl.
  destruct (Z.ltb_spec (wrap16 m) (wrap16 n));
    [exfalso; unfold wrap16 in *; elia |]. simpl.
  rewrite lor_low16 by (apply wrap16_range || apply wrap_cycles).
  rewrite <- (wrap_index (m + 65536)). unfold wrap16, wrap32. elia.
Qed.

(** ** Loss statistics count the missing packet indices *)

(** Arrivals of one source: packet index, RTP timestamp, arrival time. *)
Record arrival : Type := arr { index : Z; ts : Z; at_time : Z }.

Definition receive (r : RxTracker.t) (a : arrival) : RxTracker.t :=
  RxTracker.on_rtp r (wrap16 (index a)) (ts a) (at_time a).

(** Each packet is ahead of the previous one, repeats it, or is late within the same cycle. *)
Fixpoint flow (prev : Z) (l : list arrival) : Prop :=
  match l with
  | [] => True
  | a :: l' =>
      (prev <= index a < prev + 32768 \/
       (0 <= index a < prev /\ index a / 65536 = prev / 65536 /\ prev <= index a + 32768))
      /\ index a < 4294967295 /\ flow (index a) l'
  end.


(** The tracker has seen [n] packets from index [first], the highest being [hi]. *)
Record tracks (r : RxTracker.t) (first hi cur n : Z) : Prop := {
  tr_cur : at_index (RxTracker.seqext r) cur;
  tr_base : RxTracker.base_ext_seq r = Some first;
  tr_hi : RxTracker.highest_ext_seq r = hi;
  tr_n : RxTracker.received_unique r = n;
  tr_order : 0 <= first <= hi /\ 0 <= cur <= hi /\ hi < 4294967295 }.

Definition unreported (r r' : RxTracker.t) : Prop :=
  RxTracker.expected_prev r' = RxTracker.expected_prev r /\
  RxTracker.received_prev r' = RxTracker.received_prev r.

Lemma receive_first a : u16 (index a) ->
  tracks (receive RxTracker.initial a) (index a) (index a) (index a) 1 /\
  unreported RxTracker.initial (receive RxTracker.initial a).
Proof.
  intros Hu. unfold u16 in Hu.
  assert (Hat : at_index SeqExt.initial 0) by (split_and!; reflexivity || lia).
  assert (Hup : at_index (SeqExt.update SeqExt.initial (wrap16 (index a))).1 (index a) /\
                (SeqExt.update SeqExt.initial (wrap16 (index a))).2 = wrap32 (index a)).
  { apply (update_value _ 0 _ Hat); [| lia]. cbn [SeqExt.last SeqExt.cycles SeqExt.initial].
    rewrite wrap16_small by exact Hu. destruct (Z.ltb_spec (index a) 0); [lia |].
    simpl. rewrite Z.div_small by lia. reflexivity. }
  unfold receive, RxTracker.on_rtp. cbn [RxTracker.seqext RxTracker.initial].
  destruct (SeqExt.update _ _) as [s ext]; simpl in Hup. destruct Hup as [Hs ->].
  assert (Hw : wrap32 (index a) = index a) by (apply wrap32_small; ulia).
  split; [| split; reflexivity]. split; cbn; rewrite ?Hw; auto; [| lia].
  destruct (Z.ltb_spec 0 (index a)); lia.
Qed.

Lemma receive_next r first hi cur n a : tracks r first hi cur n ->
  flow cur [a] -> 0 <= n < 4294967295 ->
  tracks (receive r a) first (Z.max hi (index a)) (index a) (n + 1) /\
  unreported r (receive r a).
Proof.
  intros [Hc Hb Hh Hn Ho] (Hm & Hlt & _) Hr.
  pose proof (update_index _ _ _ Hc Hm) as Hup.
  unfold receive, RxTracker.on_rtp.
  destruct (SeqExt.update _ _) as [s ext]; simpl in Hup. destruct Hup as [Hs ->].
  assert (Hw : wrap32 (index a) = index a) by (apply wrap32_small; ulia).
  split; [| split; reflexivity]. split; cbn; rewrite ?Hw; auto.
  - rewrite Hb. reflexivity.
  - rewrite Hh. destruct (Z.ltb_spec hi (index a)); lia.
  - rewrite Hn. apply wrap32_small. ulia.
  - lia.
Qed.















(** A packet that is late across a wrap of the sequence number is taken for one of the
    next cycle: the highest sequence number jumps forward by more than half a cycle, so the
    next report counts that many packets as lost. *)
Theorem rx_late_across_wrap r first hi cur n a :
  tracks r first hi cur n -> hi < cur + 32768 ->
  0 <= index a < cur -> cur / 65536 = index a / 65536 + 1 -> cur < index a + 32768 ->
  index a + 65536 < 4294967296 ->
  RxTracker.highest_ext_seq (receive r a) = Z.max hi (index a + 65536) /\
  cur + 32768 < RxTracker.highest_ext_seq (receive r a).
Proof.
  intros [Hc Hb Hh Hn Ho] Hhi Hm Hcy Hlt Hbig.
  pose proof (update_late_wrap _ _ _ Hc Hm Hcy Hlt) as Hup.
  unfold receive, RxTracker.on_rtp. destruct (SeqExt.update _ _) as [s ext]; simpl in Hup.
  cbn [RxTracker.highest_ext_seq]. rewrite Hup, Hh, wrap32_small by ulia.
  destruct (Z.ltb_spec hi (index a + 65536)); lia.
Qed.

(** 65534, then 0 of the next cycle, then the late 65535: the tracker believes it has seen
    packet 131071. *)
Lemma rx_late_across_wrap_witness :
  RxTracker.highest_ext_seq
    (foldl receive RxTracker.initial [arr 65534 0 0; arr 65536 0 0; arr 65535 0 0])
  = 131071.
Proof.
  destruct (receive_first (arr 65534 0 0)) as [Ht _]; [simpl; ulia |].
  destruct (receive_next _ _ _ _ _ (arr 65536 0 0) Ht) as [Ht2 _];
    [simpl; split_and!; auto; lia | lia |].
  exact (proj1 (rx_late_across_wrap _ _ _ _ _ (arr 65535 0 0) Ht2
    ltac:(simpl; lia) ltac:(simpl; lia) ltac:(reflexivity) ltac:(simpl; lia)
    ltac:(simpl; lia))).
Defined.

(** When more packets were received than expected (duplicates are counted as received),
    the negative cumulative loss is masked to 24 bits before the encoder clamps it, and the
    wire carries the largest positive loss, 8388607. *)
Theorem rx_surplus_reported_as_max_loss r first hi cur n ssrc now r' b :
  tracks r first hi cur n -> 0 < n - (hi - first + 1) < 8388608 ->
  RxTracker.build_report_block r ssrc now = Ok (r', b) ->
  ReportBlock.cumulative_lost b = 16777216 + (hi - first + 1 - n) /\
  ReportBlock.write_i24 (ReportBlock.cumulative_lost b) = [127; 255; 255].
Proof.
  intros [Hc Hb Hh Hn Ho] Hk H. unfold RxTracker.build_report_block in H.
  rewrite Hb, Hh, Hn in H. cbn [default from_option id] in H.
  assert (Hx : sat_sub hi first + 1 = hi - first + 1) by (unfold sat_sub; lia).
  rewrite Hx in H. bind_inv H. unfold checked32 in Hv.
  destruct (Z.leb_spec 0 (hi - first + 1)); [| discriminate].
  destruct (Z.ltb_spec (hi - first + 1) 4294967296); [| discriminate].
  injection Hv as <-. bind_inv H. destruct (RxTracker.sr_timing r now).
  injection H as _ <-. cbn [ReportBlock.cumulative_lost].
  assert (Hl : Z.land (as_i32 (hi - first + 1 - n)) 16777215 = 16777216 + (hi - first + 1 - n)).
  { change 16777215 with (Z.ones 24). rewrite Z.land_ones by lia. change (2 ^ 24) with 16777216.
    unfold as_i32. destruct (Z.ltb_spec ((hi - first + 1 - n) mod 4294967296) 2147483648); elia. }
  rewrite Hl. split; [reflexivity |].
  unfold ReportBlock.write_i24. rewrite Z.min_r, Z.max_r by lia. reflexivity.
Qed.

Lemma rx_surplus_reported_as_max_loss_witness :
  exists r b, RxTracker.build_report_block
      (foldl receive RxTracker.initial [arr 10 0 0; arr 10 0 0]) 7 (0, 0) = Ok (r, b) /\
    ReportBlock.cumulative_lost b = 16777215 /\
    ReportBlock.write_i24 (ReportBlock.cumulative_lost b) = [127; 255; 255].
Proof.
  destruct (receive_first (arr 10 0 0)) as [Ht _]; [simpl; ulia |].
  destruct (receive_next _ _ _ _ _ (arr 10 0 0) Ht) as [Ht2 _];
    [simpl; split_and!; auto; lia | lia |].
  eexists _, _. split; [vm_compute; reflexivity |].
  exact (rx_surplus_reported_as_max_loss _ _ _ _ _ 7 (0, 0) _ _ Ht2
    ltac:(simpl; lia) ltac:(vm_compute; reflexivity)).
Defined.

(** A report built before any packet arrived claims one expected and one lost packet, with
    a loss fraction of 256/256 truncated to zero. *)
Lemma rx_report_before_any_packet ssrc now :
  exists r, RxTracker.build_report_block RxTracker.initial ssrc now =
    Ok (r, ReportBlock.mk ssrc 0 1 0 0 0 0).
Proof. eexists. reflexivity. Qed.

(** ** Jitter *)
Record jitter_ok (r : RxTracker.t) : Prop := {
  jk_jitter : u32 (RxTracker.jitter r);
  jk_transit : forall t, RxTracker.last_transit r = Some t -> u32 t }.

Lemma jitter_on_rtp r seq rts a : jitter_ok r ->
  jitter_ok (RxTracker.on_rtp r seq rts a) /\
  RxTracker.jitter (RxTracker.on_rtp r seq rts a) =
  match RxTracker.last_transit r with
  | Some prev => RxTracker.jitter r +
      Z.max 0 (Z.abs (wrap32 (a - rts) - prev) - RxTracker.jitter r) / 16
  | None => RxTracker.jitter r
  end.
Proof.
  intros [Hj Ht]. unfold RxTracker.on_rtp. destruct (SeqExt.update _ _) as [s ext].
  pose proof (wrap32_range (a - rts)) as Hw.
  cbn [RxTracker.jitter RxTracker.last_transit]. destruct (RxTracker.last_transit r) as [p |].
  - specialize (Ht p eq_refl). unfold abs_diff, sat_sub.
    set (d := Z.max 0 (Z.abs (wrap32 (a - rts) - p) - RxTracker.jitter r) / 16).
    assert (Hd : 0 <= d /\ RxTracker.jitter r + d < 4294967296)
      by (unfold d, u32 in *; elia).
    assert (Hr : wrap32 (RxTracker.jitter r + wrap32 d) = RxTracker.jitter r + d).
    { unfold u32 in *. rewrite (wrap32_small d) by (unfold u32; lia).
      apply wrap32_small. unfold u32; lia. }
    rewrite Hr. split; [split | reflexivity]; cbn; [unfold u32 in *; lia |].
    intros t [= <-]. exact Hw.
  - split; [split | reflexivity]; cbn; [exact Hj |]. intros t [= <-]. exact Hw.
Qed.

(** The interarrival jitter estimate never decreases, whatever the arrivals: the update
    subtracts the old estimate with saturation, so it moves only upwards (the estimator of
    RFC 3550 A.8 that the comment names moves both ways). *)
Theorem rx_jitter_never_decreases l r :
  jitter_ok r -> RxTracker.jitter r <= RxTracker.jitter (foldl receive r l) < 4294967296.
Proof.
  revert r. induction l as [| a l IH]; intros r Hok; simpl.
  - destruct Hok as [[] _]. lia.
  - destruct (jitter_on_rtp r (wrap16 (index a)) (ts a) (at_time a) Hok) as [Hok' Hj].
    specialize (IH _ Hok'). fold (receive r a) in IH, Hj.
    assert (RxTracker.jitter r <= RxTracker.jitter (receive r a)); [| lia].
    rewrite Hj. destruct (RxTracker.last_transit r); [| lia].
    apply Z.le_sub_le_add_l. rewrite Z.sub_diag. apply Z.div_pos; lia.
Qed.

Lemma rx_jitter_never_decreases_witness :
  RxTracker.jitter (foldl receive RxTracker.initial [arr 1 0 0; arr 2 0 1600; arr 3 0 1600])
  = 100 /\
  100 <= RxTracker.jitter (foldl receive
    (foldl receive RxTracker.initial [arr 1 0 0; arr 2 0 1600; arr 3 0 1600])
    [arr 4 0 1600; arr 5 0 1600]) < 4294967296.
Proof.
  split; [reflexivity |].
  apply (rx_jitter_never_decreases [arr 4 0 1600; arr 5 0 1600]
    (foldl receive RxTracker.initial [arr 1 0 0; arr 2 0 1600; arr 3 0 1600])).
  split; [vm_compute; intuition discriminate | intros t [= <-]; vm_compute; intuition discriminate].
Defined.

(** The difference of transit times is taken without regard to the wrap of the 32-bit clock:
    a transit that crosses zero by two units counts as a deviation of almost 2^32. *)
Lemma rx_jitter_clock_wrap :
  RxTracker.jitter (foldl receive RxTracker.initial [arr 1 1 0; arr 2 0 1]) = 268435455.
Proof. reflexivity. Qed.

(** ** Round trip times *)

(** A sender report at (s, f) acknowledged by a report block that the peer's tracker
    builds, received [net] after the sum of the send time and the peer's holding time (all
    in units of 1/65536 s modulo 2^32), makes the sender record the network delay [net] in
    milliseconds. *)
Theorem rtt_is_network_delay x rx s f arr1 now ssrc rx' b instant net :
  u32 s -> u32 f -> u32 net ->
  ntp_compact s f <> 0 ->
  let rx1 := RxTracker.on_sr_received rx s f arr1 in
  RxTracker.build_report_block rx1 ssrc now = Ok (rx', b) ->
  ReportBlock.dlsr b <> 0 ->
  let arrival := wrap32 (ntp_compact s f + ReportBlock.dlsr b + net) in
  TxTracker.rtt_ms (TxTracker.on_report_block (TxTracker.mark_sr_sent x s f) b arrival instant)
  = Some (net * 1000 / 65536).
Proof.
  intros Hs Hf Hnet Hnz rx1 Hb Hd arrival.
  assert (Hlsr : ReportBlock.lsr b = ntp_compact s f).
  { unfold RxTracker.build_report_block in Hb. bind_inv Hb. bind_inv Hb. cbn in Hb.
    injection Hb as _ <-. reflexivity. }
  pose proof (ntp_compact_range s f Hs Hf) as Hr.
  unfold TxTracker.on_report_block, TxTracker.mark_sr_sent. cbn [TxTracker.rtt_ms
    TxTracker.last_sr_ntp_compact]. rewrite Hlsr, ntp_compact_agree by assumption.
  destruct (Z.eqb_spec (ntp_compact s f) 0); [contradiction |].
  destruct (Z.eqb_spec (ReportBlock.dlsr b) 0); [contradiction |].
  rewrite Z.eqb_refl. cbn [negb andb]. f_equal.
  replace (wrap32 (wrap32 (arrival - ntp_compact s f) - ReportBlock.dlsr b)) with net.
  - rewrite Z.shiftr_div_pow2 by lia. change (2 ^ 16) with 65536.
    apply wrap32_small. unfold u32 in *. elia.
  - subst arrival. unfold wrap32, u32 in *. generalize (ReportBlock.dlsr b) as d. intros d.
    generalize (ntp_compact s f) as c. intros c. elia.
Qed.

(** Half a second on the wire in total. *)
Lemma rtt_is_network_delay_witness :
  exists rx' b,
    RxTracker.build_report_block
      (RxTracker.on_sr_received RxTracker.initial 3900000000 77 (3900000001, 0)) 7
      (3900000003, 0) = Ok (rx', b) /\
    TxTracker.rtt_ms (TxTracker.on_report_block
      (TxTracker.mark_sr_sent TxTracker.initial 3900000000 77) b
      (wrap32 (ntp_compact 3900000000 77 + ReportBlock.dlsr b + 32768)) 0) = Some 500.
Proof.
  eexists _, _. split; [vm_compute; reflexivity |].
  refine (rtt_is_network_delay TxTracker.initial RxTracker.initial 3900000000 77
    (3900000001, 0) (3900000003, 0) 7 _ _ 0 32768 _ _ _ _ _ _);
    try ulia; vm_compute; try reflexivity; discriminate.
Defined.
