(* ===== verification/Srtp.v ===== *)
(** * SRTP (src/srtp)

    Replay window, key derivation, packet index (rollover counter) estimation, protection
    and unprotection of RTP packets. AES in counter mode and HMAC-SHA1 are the functions
    [keystream] and [hmac_sha1] of a section: the ciphers are external crates and only the
    lengths of their outputs are used. Each operation returns the context and the packet
    buffer as the code leaves them, on the error paths too. *)

From stdpp Require Import prelude gmap.
From Stdlib Require Import ZArith Lia.
From S2P Require Import Prelude Rtp.
Local Open Scope Z_scope.

Definition SRTP_LABEL_ENCRYPTION : Z := 0.
Definition SRTP_LABEL_AUTH : Z := 1.
Definition SRTP_LABEL_SALT : Z := 2.
Definition SESSION_KEY_LEN : nat := 16.
Definition SESSION_AUTH_LEN : nat := 20.
Definition SESSION_SALT_LEN : nat := 14.
Definition AUTH_TAG_LEN : nat := 10.
Definition REPLAY_WINDOW_SIZE : Z := 64.

(** The error strings of the code, one constructor each. *)
Inductive SrtpError : Type :=
| PacketTooShortForRtp
| PacketTooShortForSrtp
| ContentTooShort
| ReplayDetected (ssrc seq : Z)
| AuthTagMismatch
| HeaderTooShort
| ExtHeaderTooShort
| SmallerThanHeader.

#[export] Instance SrtpError_eq_dec : EqDecision SrtpError.
Proof. solve_decision. Defined.

(** ** Replay window *)
Module ReplayWindow.
Record t : Type := mk { max_index : Z; window : Z }.
Definition new : t := mk 0 0.

Definition is_replay (w : t) (index : Z) : bool :=
  if max_index w <? index then false
  else
    let diff := Z.max 0 (max_index w - index) in
    if REPLAY_WINDOW_SIZE <=? diff then true
    else negb (Z.land (window w) (Z.shiftl 1 diff) =? 0).

Definition record (w : t) (index : Z) : t :=
  if max_index w <? index then
    let diff := Z.max 0 (index - max_index w) in
    let window' := if diff <? REPLAY_WINDOW_SIZE
                   then wrap64 (Z.shiftl (window w) diff) else 0 in
    mk index (Z.lor window' 1)
  else
    let diff := Z.max 0 (max_index w - index) in
    if diff <? REPLAY_WINDOW_SIZE
    then mk (max_index w) (Z.lor (window w) (Z.shiftl 1 diff))
    else w.
End ReplayWindow.

(** ** Keys and utilities *)
Module SrtpEndpointKeys.
Record t : Type := mk { master_key : bytes; master_salt : bytes }.
End SrtpEndpointKeys.

Module SessionKeys.
Record t : Type := mk { enc_key : bytes; auth_key : bytes; salt : bytes }.
End SessionKeys.

(** [result |= x ^ y] over the zipped slices *)
Definition constant_time_eq (a b : bytes) : bool :=
  if negb (length a =? length b)%nat then false
  else foldl (fun r p => Z.lor r (Z.lxor p.1 p.2)) 0 (zip a b) =? 0.

(** XOR [l] into [iv] at position [i]. *)
Definition xor_at (i : nat) (l iv : bytes) : bytes :=
  take i iv ++ zip_with Z.lxor (take (length l) (drop i iv)) l ++ drop (i + length l) iv.

Definition compute_iv (session_salt : bytes) (ssrc index : Z) : bytes :=
  let iv := session_salt ++ replicate 2 0 in
  let iv := xor_at 4 (to_be 4 ssrc) iv in
  xor_at 8 (drop 2 (to_be 8 index)) iv.

(** The header length with the extension, [len] octets into the packet *)
Definition with_ext (x : bool) (packet : bytes) (len : nat) : outcome SrtpError nat :=
  if x then
    if (length packet <? len + 4)%nat then Err ExtHeaderTooShort
    else
      ext_len ← read_be 2 packet (len + 2);
      Ok (len + (4 + Z.to_nat ext_len * 4))%nat
  else Ok len.

Definition get_rtp_header_len (packet : bytes) : outcome SrtpError nat :=
  if (length packet <? 12)%nat then Err HeaderTooShort
  else
    v_p_x_cc ← get_idx packet 0;
    let cc := Z.land v_p_x_cc 15 in
    let x := negb (Z.land v_p_x_cc 16 =? 0) in
    let len := (12 + Z.to_nat cc * 4)%nat in
    len ← with_ext x packet len;
    if (length packet <? len)%nat then Err SmallerThanHeader else Ok len.

Module SrtpContext.
Record t : Type := mk {
  session_keys : SessionKeys.t;
  rocs : gmap Z Z;
  last_seqs : gmap Z Z;
  replay_windows : gmap Z ReplayWindow.t }.

Definition set_roc (c : t) (ssrc roc seq : Z) : t :=
  mk (session_keys c) (<[ssrc := roc]> (rocs c)) (<[ssrc := seq]> (last_seqs c))
     (replay_windows c).

Definition set_window (c : t) (ssrc : Z) (w : ReplayWindow.t) : t :=
  mk (session_keys c) (rocs c) (last_seqs c) (<[ssrc := w]> (replay_windows c)).

Definition get_or_create_roc (c : t) (ssrc seq : Z) : t * Z :=
  match last_seqs c !! ssrc with
  | None => (set_roc c ssrc 0 seq, 0)
  | Some last_seq =>
      let roc := default 0 (rocs c !! ssrc) in
      let roc :=
        if seq <? last_seq then
          let diff := wrap32 (last_seq - seq) in
          if 1000 <? diff then wrap32 (roc + 1) else roc
        else roc in
      (set_roc c ssrc roc seq, roc)
  end.

Definition estimate_roc (c : t) (ssrc seq : Z) : Z :=
  match last_seqs c !! ssrc with
  | None => 0
  | Some last_seq =>
      let last_roc := default 0 (rocs c !! ssrc) in
      let delta := seq - last_seq in
      if delta <=? -32768 then wrap32 (last_roc + 1)
      else if 32768 <=? delta then wrap32 (last_roc - 1)
      else last_roc
  end.

(** [(u64::from(roc) << 16) | u64::from(seq)] *)
Definition packet_index (roc seq : Z) : Z := Z.lor (Z.shiftl roc 16) seq.

Section crypto.
(** [Aes128Ctr]: the first [n] keystream octets for a key and an initial counter block.
    [HmacSha1]: the tag of a message; it accepts keys of every length. *)
Variable keystream : bytes -> bytes -> nat -> bytes.
Variable hmac_sha1 : bytes -> bytes -> bytes.

(** [cipher.apply_keystream(buf)] *)
Definition apply_keystream (key iv buf : bytes) : bytes :=
  zip_with Z.lxor buf (keystream key iv (length buf)).

(** [Aes128Ctr::new(master_key.into(), ..)] panics unless the key has 16 octets. *)
Definition aes_cm_prf (master_key master_salt_padded : bytes) (label : Z) (out_len : nat)
  : outcome SrtpError bytes :=
  let iv := xor_at 7 [label] master_salt_padded in
  if (length master_key =? 16)%nat
  then Ok (apply_keystream master_key iv (replicate out_len 0))
  else Panic.

Definition derive_session_keys (master : SrtpEndpointKeys.t) : outcome SrtpError SessionKeys.t :=
  let ms := SrtpEndpointKeys.master_salt master in
  let salt_pad := if (14 <=? length ms)%nat then take 14 ms ++ replicate 2 0
                  else ms ++ replicate (16 - length ms) 0 in
  let mk := SrtpEndpointKeys.master_key master in
  enc_key ← aes_cm_prf mk salt_pad SRTP_LABEL_ENCRYPTION SESSION_KEY_LEN;
  auth_key ← aes_cm_prf mk salt_pad SRTP_LABEL_AUTH SESSION_AUTH_LEN;
  salt ← aes_cm_prf mk salt_pad SRTP_LABEL_SALT SESSION_SALT_LEN;
  Ok (SessionKeys.mk enc_key auth_key salt).

Definition new (master_keys : SrtpEndpointKeys.t) : outcome SrtpError t :=
  session_keys ← derive_session_keys master_keys;
  Ok (mk session_keys ∅ ∅ ∅).

Definition auth_tag (keys : SessionKeys.t) (content : bytes) (roc : Z) : bytes :=
  take AUTH_TAG_LEN (hmac_sha1 (SessionKeys.auth_key keys) (content ++ to_be 4 roc)).

(** Encryption and decryption of everything after the header *)
Definition crypt (keys : SessionKeys.t) (ssrc index : Z) (header_len : nat) (packet : bytes)
  : bytes :=
  let iv := compute_iv (SessionKeys.salt keys) ssrc index in
  take header_len packet ++ apply_keystream (SessionKeys.enc_key keys) iv (drop header_len packet).

Definition protect (c : t) (ssrc : Z) (packet : bytes) : t * bytes * outcome SrtpError unit :=
  if (length packet <? 12)%nat then (c, packet, Err PacketTooShortForRtp)
  else
    match read_be 2 packet 2 with
    | Ok seq =>
        let '(c, roc) := get_or_create_roc c ssrc seq in
        let index := packet_index roc seq in
        match get_rtp_header_len packet with
        | Ok header_len =>
            let packet := crypt (session_keys c) ssrc index header_len packet in
            (c, packet ++ auth_tag (session_keys c) packet roc, Ok ())
        | Err e => (c, packet, Err e)
        | Panic => (c, packet, Panic)
        end
    | Err e => (c, packet, Err e)
    | Panic => (c, packet, Panic)
    end.

Definition unprotect (c : t) (packet : bytes) : t * bytes * outcome SrtpError unit :=
  if (length packet <? 12 + AUTH_TAG_LEN)%nat then (c, packet, Err PacketTooShortForSrtp)
  else
    let tag_start := (length packet - AUTH_TAG_LEN)%nat in
    let content := take tag_start packet in
    let received_tag := drop tag_start packet in
    if (length content <? 12)%nat then (c, packet, Err ContentTooShort)
    else
      match read_be 2 content 2, read_be 4 content 8 with
      | Ok seq, Ok ssrc =>
          let roc := estimate_roc c ssrc seq in
          let index := packet_index roc seq in
          (* [entry(ssrc).or_default()] *)
          let window := default ReplayWindow.new (replay_windows c !! ssrc) in
          let c := set_window c ssrc window in
          if ReplayWindow.is_replay window index
          then (c, packet, Err (ReplayDetected ssrc seq))
          else if negb (constant_time_eq (auth_tag (session_keys c) content roc) received_tag)
          then (c, packet, Err AuthTagMismatch)
          else
            match get_rtp_header_len content with
            | Ok header_len =>
                let clear := crypt (session_keys c) ssrc index header_len content in
                let c := set_roc c ssrc roc seq in
                (set_window c ssrc (ReplayWindow.record window index), clear, Ok ())
            | Err e => (c, content, Err e)
            | Panic => (c, content, Panic)
            end
      | Err e, _ | _, Err e => (c, packet, Err e)
      | _, _ => (c, packet, Panic)
      end.
End crypto.
End SrtpContext.

(** ** The replay window is the exact set of recorded indices, 64 deep *)
Lemma land_bit w d : 0 <= d -> negb (Z.land w (Z.shiftl 1 d) =? 0) = Z.testbit w d.
Proof.
  intros Hd. rewrite Z.shiftl_1_l.
  assert (Hl : Z.land w (2 ^ d) = if Z.testbit w d then 2 ^ d else 0).
  { apply Z.bits_inj'. intros n Hn. rewrite Z.land_spec, Z.pow2_bits_eqb by lia.
    destruct (Z.eqb_spec d n) as [-> | Hne].
    - destruct (Z.testbit w n) eqn:E; [rewrite Z.pow2_bits_true by lia | rewrite Z.bits_0];
        reflexivity.
    - rewrite andb_false_r. destruct (Z.testbit w d); [| rewrite Z.bits_0; reflexivity].
      rewrite Z.pow2_bits_false by lia. reflexivity. }
  rewrite Hl. destruct (Z.testbit w d); [| reflexivity].
  destruct (Z.eqb_spec (2 ^ d) 0); [| reflexivity].
  pose proof (Z.pow_pos_nonneg 2 d). lia.
Qed.

Definition highest (l : list Z) : Z := foldl Z.max 0 l.

Lemma highest_snoc l i : highest (l ++ [i]) = Z.max (highest l) i.
Proof. unfold highest. rewrite foldl_app. reflexivity. Qed.

Lemma highest_ge l : 0 <= highest l /\ (forall i, i ∈ l -> i <= highest l).
Proof.
  induction l as [| i l IH] using rev_ind; [split; [reflexivity | set_solver] |].
  rewrite highest_snoc. destruct IH as [H0 IH]. split; [lia |].
  intros j [Hj | ->%list_elem_of_singleton]%elem_of_app; [specialize (IH j Hj) |]; lia.
Qed.

Record sees (w : ReplayWindow.t) (l : list Z) : Prop := {
  se_max : ReplayWindow.max_index w = highest l;
  se_bits : forall d, 0 <= d < 64 ->
    Z.testbit (ReplayWindow.window w) d = bool_decide (highest l - d ∈ l) }.

Lemma wrap64_bit v d : 0 <= d < 64 -> Z.testbit (wrap64 v) d = Z.testbit v d.
Proof.
  intros Hd. unfold wrap64. change 18446744073709551616 with (2 ^ 64).
  apply Z.mod_pow2_bits_low. lia.
Qed.

Lemma elem_snoc {A} (x y : A) l : x ∈ l ++ [y] <-> x ∈ l \/ x = y.
Proof. rewrite elem_of_app, list_elem_of_singleton. tauto. Qed.

Lemma record_ahead w l i : sees w l -> highest l < i -> sees (ReplayWindow.record w i) (l ++ [i]).
Proof.
  intros [Hm Hb] Hi. destruct (highest_ge l) as [H0 Hge].
  unfold ReplayWindow.record. rewrite Hm.
  destruct (Z.ltb_spec (highest l) i); [| lia].
  split; cbn [ReplayWindow.max_index ReplayWindow.window]; rewrite highest_snoc, (Z.max_r (highest l) i) by lia;
    [reflexivity |]. intros d Hd. rewrite Z.lor_spec.
  replace (Z.max 0 (i - highest l)) with (i - highest l) by lia.
  destruct (decide (d = 0)) as [-> | Hd0].
  { rewrite (Z.bit0_odd 1), orb_true_r, Z.sub_0_r. symmetry. apply bool_decide_eq_true.
    apply elem_snoc. auto. }
  replace (Z.testbit 1 d) with false
    by (symmetry; apply (bits_small 1 1 d); lia). rewrite orb_false_r.
  assert (Hel : i - d ∈ l ++ [i] <-> i - d ∈ l) by (rewrite elem_snoc; intuition lia).
  rewrite (bool_decide_ext _ _ Hel). unfold REPLAY_WINDOW_SIZE.
  assert (Hlow : d < i - highest l -> bool_decide (i - d ∈ l) = false).
  { intros Hlt. apply bool_decide_eq_false. intros Hin. specialize (Hge _ Hin). lia. }
  destruct (Z.ltb_spec (i - highest l) 64).
  - rewrite wrap64_bit, Z.shiftl_spec by lia. destruct (decide (d < i - highest l)).
    + rewrite Hlow by lia. apply Z.testbit_neg_r. lia.
    + rewrite Hb by lia. replace (highest l - (d - (i - highest l))) with (i - d) by lia.
      reflexivity.
  - rewrite Z.bits_0, Hlow by lia. reflexivity.
Qed.

Lemma record_behind w l i : sees w l -> i <= highest l -> sees (ReplayWindow.record w i) (l ++ [i]).
Proof.
  intros [Hm Hb] Hi. unfold ReplayWindow.record. rewrite Hm.
  destruct (Z.ltb_spec (highest l) i); [lia |].
  replace (Z.max 0 (highest l - i)) with (highest l - i) by lia. unfold REPLAY_WINDOW_SIZE.
  destruct (Z.ltb_spec (highest l - i) 64); split;
    cbn [ReplayWindow.max_index ReplayWindow.window]; rewrite ?highest_snoc, ?Z.max_l by lia;
    try reflexivity; try exact Hm; intros d Hd.
  - rewrite Z.lor_spec, Z.shiftl_1_l, Z.pow2_bits_eqb, Hb by lia.
    destruct (Z.eqb_spec (highest l - i) d) as [<- | Hne].
    + rewrite orb_true_r. symmetry. apply bool_decide_eq_true, elem_snoc. right. lia.
    + rewrite orb_false_r. apply bool_decide_ext. rewrite elem_snoc. intuition lia.
  - rewrite Hb by lia. apply bool_decide_ext. rewrite elem_snoc. intuition lia.
Qed.

Lemma sees_new : sees ReplayWindow.new [].
Proof. split; [reflexivity |]. intros d _. rewrite Z.bits_0. reflexivity. Qed.

Lemma sees_record w l i : sees w l -> sees (ReplayWindow.record w i) (l ++ [i]).
Proof.
  intros Hs. destruct (Z.lt_ge_cases (highest l) i);
    [apply record_ahead | apply record_behind]; assumption.
Qed.

Lemma is_replay_spec w l i : sees w l ->
  ReplayWindow.is_replay w i = bool_decide (i <= highest l /\ (64 <= highest l - i \/ i ∈ l)).
Proof.
  intros [Hm Hb]. unfold ReplayWindow.is_replay. rewrite Hm. unfold REPLAY_WINDOW_SIZE.
  destruct (Z.ltb_spec (highest l) i); [symmetry; apply bool_decide_eq_false; lia |].
  replace (Z.max 0 (highest l - i)) with (highest l - i) by lia.
  destruct (Z.leb_spec 64 (highest l - i)); [symmetry; apply bool_decide_eq_true; auto |].
  rewrite land_bit, Hb by lia. apply bool_decide_ext.
  replace (highest l - (highest l - i)) with i by lia. intuition lia.
Qed.

Definition record_all (l : list Z) : ReplayWindow.t :=
  foldl ReplayWindow.record ReplayWindow.new l.

Lemma record_all_sees l : sees (record_all l) l.
Proof.
  unfold record_all. induction l as [| i l IH] using rev_ind; [exact sees_new |].
  rewrite foldl_app. apply sees_record, IH.
Qed.

(** C15 After any sequence of recorded packet indices, the 64-bit window answers exactly
    "already recorded, or at least 64 behind the highest": no recorded index is ever
    accepted again and no fresh index inside the window is rejected. *)
Theorem replay_window_exact l i :
  ReplayWindow.is_replay (record_all l) i = true <->
  i <= highest l /\ (64 <= highest l - i \/ i ∈ l).
Proof. rewrite (is_replay_spec _ _ _ (record_all_sees l)). apply bool_decide_eq_true. Qed.

(** ** Comparison, initial counter blocks, header length *)
Lemma foldl_lor_zero l r :
  foldl (fun r (p : Z * Z) => Z.lor r (Z.lxor p.1 p.2)) r l = 0 <->
  r = 0 /\ Forall (fun p => p.1 = p.2) l.
Proof.
  revert r. induction l as [| [x y] l IH]; intros r; simpl; [rewrite Forall_nil; tauto |].
  rewrite IH, Forall_cons, Z.lor_eq_0_iff, Z.lxor_eq_0_iff. simpl. tauto.
Qed.

Lemma constant_time_eq_spec a b : constant_time_eq a b = true <-> a = b.
Proof.
  unfold constant_time_eq. destruct (Nat.eqb_spec (length a) (length b)) as [Hl | Hl]; simpl;
    [| split; [discriminate | intros ->; contradiction]].
  rewrite Z.eqb_eq, foldl_lor_zero. split; [intros [_ Hf] | intros ->; split; [reflexivity |]].
  - revert b Hl Hf. induction a as [| x a IH]; intros [| y b] Hl Hf; try discriminate;
      [reflexivity |]. simpl in Hf. apply Forall_cons in Hf as [Hxy Hf]. simpl in Hxy, Hl.
    f_equal; [exact Hxy | apply IH; [lia | exact Hf]].
  - clear Hl. induction b; simpl; constructor; auto.
Qed.

Lemma xor_at_app pre mid post l i : i = length pre -> length mid = length l ->
  xor_at i l (pre ++ mid ++ post) = pre ++ zip_with Z.lxor mid l ++ post.
Proof.
  intros -> Hl. unfold xor_at.
  rewrite take_app_length, drop_app_length, <- Hl, take_app_length. do 2 f_equal.
  rewrite app_assoc, <- length_app. apply drop_app_length.
Qed.

Lemma zip_lxor_inj a : forall l1 l2, length l1 = length a -> length l2 = length a ->
  zip_with Z.lxor a l1 = zip_with Z.lxor a l2 -> l1 = l2.
Proof.
  induction a as [| x a IH]; intros [| y1 l1] [| y2 l2] H1 H2 H; try discriminate;
    [reflexivity |]. simpl in *. injection H as Hx H. f_equal; [| apply IH; lia || exact H].
  assert (Hy : Z.lxor x (Z.lxor x y1) = Z.lxor x (Z.lxor x y2)) by congruence.
  rewrite <- !Z.lxor_assoc, Z.lxor_nilpotent, !Z.lxor_0_l in Hy. exact Hy.
Qed.

Lemma compute_iv_app a b c ssrc index :
  length a = 4%nat -> length b = 4%nat -> length c = 6%nat ->
  compute_iv (a ++ b ++ c) ssrc index
  = a ++ zip_with Z.lxor b (to_be 4 ssrc) ++ zip_with Z.lxor c (to_be 6 index) ++ [0; 0].
Proof.
  intros Ha Hb Hc. unfold compute_iv. change (replicate 2 0) with [0; 0].
  rewrite !to_be_S. cbn [drop]. rewrite <- !to_be_S. rewrite <- !app_assoc.
  rewrite xor_at_app by (rewrite ?length_to_be; congruence).
  rewrite app_assoc, (xor_at_app (a ++ _) c [0; 0]).
  - rewrite <- app_assoc. reflexivity.
  - rewrite length_app, length_zip_with, length_to_be. lia.
  - rewrite length_to_be. exact Hc.
Qed.

(** Two packets never share an initial counter block: under one session salt it
    determines the source and the 48-bit packet index. *)
Theorem compute_iv_injective salt ssrc1 i1 ssrc2 i2 :
  length salt = SESSION_SALT_LEN -> u32 ssrc1 -> u32 ssrc2 ->
  0 <= i1 < 2 ^ 48 -> 0 <= i2 < 2 ^ 48 ->
  (ssrc1, i1) <> (ssrc2, i2) ->
  compute_iv salt ssrc1 i1 <> compute_iv salt ssrc2 i2.
Proof.
  unfold SESSION_SALT_LEN. intros Hl Hs1 Hs2 Hi1 Hi2 Hne H. apply Hne.
  rewrite <- (take_drop 4 salt), <- (take_drop 4 (drop 4 salt)) in H.
  rewrite !compute_iv_app in H by (rewrite ?length_take, ?length_drop; lia).
  apply app_inj_1 in H as [_ H]; [| reflexivity].
  apply app_inj_1 in H as [Hs H];
    [| rewrite !length_zip_with, !length_to_be; reflexivity].
  apply app_inj_1 in H as [Hi _];
    [| rewrite !length_zip_with, !length_to_be; reflexivity].
  apply zip_lxor_inj in Hs; [| rewrite length_to_be, length_take, length_drop; lia ..].
  apply zip_lxor_inj in Hi; [| rewrite length_to_be, !length_drop; lia ..].
  apply (to_be_inj 4) in Hs; [| assumption ..].
  apply (to_be_inj 6) in Hi; [| assumption ..]. congruence.
Qed.

Lemma compute_iv_injective_witness :
  compute_iv (replicate 14 1) 7 1 <> compute_iv (replicate 14 1) 7 65537.
Proof.
  apply (compute_iv_injective (replicate 14 1) 7 1 7 65537); try ulia;
    [reflexivity | discriminate].
Defined.

Lemma with_ext_ge x p len h : with_ext x p len = Ok h ->
  (len <= h)%nat /\ (x = true -> len + 4 <= h)%nat.
Proof.
  unfold with_ext. destruct x; intros H; [| injection H as <-; split; [lia | discriminate]].
  case_test_in H; [discriminate |]. bind_inv H. injection H as <-. split; intros; lia.
Qed.

Lemma header_len_bounds p h : get_rtp_header_len p = Ok h -> (12 <= h <= length p)%nat.
Proof.
  unfold get_rtp_header_len. intros H. case_test_in H; [discriminate |].
  bind_inv H. bind_inv H. apply with_ext_ge in Hv0 as [Hge _].
  case_test_in H; [discriminate |]. injection H as <-. lia.
Qed.

Lemma header_len_no_panic p : no_panic (get_rtp_header_len p).
Proof. unfold get_rtp_header_len. np. unfold with_ext. np. Qed.

Lemma with_ext_prefix x p q len h : with_ext x p len = Ok h -> (h <= length p)%nat ->
  take h p = take h q -> length p = length q -> with_ext x q len = Ok h.
Proof.
  intros H Hh Ht Hl. pose proof (with_ext_ge x p len h H) as [Hge Hx].
  unfold with_ext in *. destruct x; [| exact H]. specialize (Hx eq_refl).
  rewrite <- Hl. case_test_in H; [discriminate |].
  rewrite <- (read_be_prefix h p q) by (auto; lia). exact H.
Qed.

(** The header length is read from the header alone. *)
Lemma header_len_prefix p q h : get_rtp_header_len p = Ok h ->
  take h p = take h q -> length p = length q -> get_rtp_header_len q = Ok h.
Proof.
  intros H Ht Hl. pose proof (header_len_bounds p h H) as Hb.
  unfold get_rtp_header_len in *. rewrite <- Hl.
  case_test_in H; [discriminate |].
  rewrite <- (get_idx_prefix h p q 0) by (auto; lia).
  bind_inv H. rewrite Hv. cbn [mbind outcome_bind]. bind_inv H.
  case_test_in H; [discriminate |]. injection H as ->.
  rewrite (with_ext_prefix _ p q _ h) by (auto; lia). cbn [mbind outcome_bind].
  case_test; [lia | reflexivity].
Qed.

(** ** Rollover counters refine an unbounded packet index *)
Import SrtpContext.

Lemma packet_index_value i : 0 <= i -> packet_index (i / 65536) (wrap16 i) = i.
Proof.
  intros Hi. unfold packet_index, wrap16. rewrite lor_shiftl_add by elia.
  change (2 ^ 16) with 65536. elia.
Qed.

(** The context last handled packet [n] of the source. *)
Definition ctx_at (c : t) (ssrc n : Z) : Prop :=
  0 <= n < 2 ^ 48 /\ last_seqs c !! ssrc = Some (wrap16 n) /\ rocs c !! ssrc = Some (n / 65536).

Lemma set_roc_at c ssrc n : 0 <= n < 2 ^ 48 ->
  ctx_at (set_roc c ssrc (n / 65536) (wrap16 n)) ssrc n.
Proof.
  intros Hn. split; [exact Hn |]. cbn [last_seqs rocs set_roc].
  rewrite !lookup_insert_eq. auto.
Qed.

(** A sender that moves forward by less than 64536 packets gives each its index. *)
Lemma sender_roc c ssrc n m : ctx_at c ssrc n -> n <= m < n + 64536 -> m < 2 ^ 48 ->
  get_or_create_roc c ssrc (wrap16 m)
  = (set_roc c ssrc (m / 65536) (wrap16 m), m / 65536).
Proof.
  intros (Hn & Hs & Hr) Hm Hlt. unfold get_or_create_roc. rewrite Hs, Hr. cbn [default from_option id].
  assert (E : (if wrap16 m <? wrap16 n
    then if 1000 <? wrap32 (wrap16 n - wrap16 m) then wrap32 (n / 65536 + 1) else n / 65536
    else n / 65536) = m / 65536).
  { unfold wrap16, wrap32. destruct (Z.ltb_spec (m mod 65536) (n mod 65536));
      [destruct (Z.ltb_spec 1000 ((n mod 65536 - m mod 65536) mod 4294967296)) |]; elia. }
  rewrite E. reflexivity.
Qed.

(** A receiver within half a cycle of the last packet recovers the index, in both
    directions and across wraps. *)
Lemma receiver_roc c ssrc n m : ctx_at c ssrc n -> n - 32768 < m < n + 32768 ->
  0 <= m < 2 ^ 48 -> estimate_roc c ssrc (wrap16 m) = m / 65536.
Proof.
  intros (Hn & Hs & Hr) Hm Hlt. unfold estimate_roc. rewrite Hs, Hr. cbn [default from_option id].
  unfold wrap16, wrap32.
  destruct (Z.leb_spec (m mod 65536 - n mod 65536) (-32768));
    [| destruct (Z.leb_spec 32768 (m mod 65536 - n mod 65536))]; elia.
Qed.

Section session.
Context (keystream : bytes -> bytes -> nat -> bytes) (hmac_sha1 : bytes -> bytes -> bytes).
(** CTR mode yields as many octets as asked for; HMAC-SHA1 tags have 20 octets. *)
Hypothesis keystream_length : forall k iv n, length (keystream k iv n) = n.
Hypothesis hmac_length : forall k m, length (hmac_sha1 k m) = 20%nat.

Local Abbreviation crypt := (crypt keystream).
Local Abbreviation auth_tag := (auth_tag hmac_sha1).
Local Abbreviation protect := (protect keystream hmac_sha1).
Local Abbreviation unprotect := (unprotect keystream hmac_sha1).

Lemma zip_lxor_cancel l : forall ks, length ks = length l ->
  zip_with Z.lxor (zip_with Z.lxor l ks) ks = l.
Proof.
  induction l as [| x l IH]; intros [| k ks] Hl; try discriminate; [reflexivity |].
  simpl. rewrite Z.lxor_assoc, Z.lxor_nilpotent, Z.lxor_0_r, IH by (simpl in Hl; lia).
  reflexivity.
Qed.

Lemma length_apply_keystream k iv l : length (apply_keystream keystream k iv l) = length l.
Proof. unfold apply_keystream. rewrite length_zip_with, keystream_length. lia. Qed.

Lemma length_crypt keys ssrc i h p : length (crypt keys ssrc i h p) = length p.
Proof.
  unfold SrtpContext.crypt. rewrite length_app, length_apply_keystream, length_take, length_drop.
  lia.
Qed.

Lemma crypt_header keys ssrc i h p : (h <= length p)%nat ->
  take h (crypt keys ssrc i h p) = take h p.
Proof.
  intros Hh. unfold SrtpContext.crypt.
  rewrite take_app_le, take_take, Nat.min_id by (rewrite length_take; lia). reflexivity.
Qed.

Lemma crypt_crypt keys ssrc i h p : (h <= length p)%nat ->
  crypt keys ssrc i h (crypt keys ssrc i h p) = p.
Proof.
  intros Hh. unfold SrtpContext.crypt at 1. rewrite crypt_header by exact Hh.
  unfold SrtpContext.crypt. rewrite drop_app_ge by (rewrite length_take; lia).
  replace (h - length (take h p))%nat with 0%nat by (rewrite length_take; lia). rewrite drop_0.
  unfold apply_keystream at 1. rewrite length_apply_keystream. unfold apply_keystream.
  rewrite zip_lxor_cancel by apply keystream_length. apply take_drop.
Qed.

(** A packet of source [ssrc] with the sequence number of index [i] *)
Definition rtp_for (ssrc i : Z) (p : bytes) : Prop :=
  (exists h, get_rtp_header_len p = Ok h) /\
  read_be (E := SrtpError) 2 p 2 = Ok (wrap16 i) /\
  read_be (E := SrtpError) 4 p 8 = Ok ssrc.

(** The SRTP packet for it *)
Definition wire (keys : SessionKeys.t) (ssrc i : Z) (p : bytes) : bytes :=
  match get_rtp_header_len p with
  | Ok h => let e := crypt keys ssrc i h p in e ++ auth_tag keys e (i / 65536)
  | _ => []
  end.

Lemma protect_first c ssrc i p : rtp_for ssrc i p -> last_seqs c !! ssrc = None -> u16 i ->
  protect c ssrc p = (set_roc c ssrc (i / 65536) (wrap16 i), wire (session_keys c) ssrc i p, Ok ()).
Proof.
  intros ([h Hh] & Hs & _) Hn Hi. unfold u16 in Hi. unfold SrtpContext.protect, wire.
  pose proof (header_len_bounds p h Hh). rewrite Hh, Hs.
  case_test; [lia |]. unfold get_or_create_roc. rewrite Hn.
  replace (i / 65536) with 0 by elia.
  replace (packet_index 0 (wrap16 i)) with i
    by (rewrite <- (packet_index_value i) at 1 by lia; do 2 f_equal; elia).
  reflexivity.
Qed.

Lemma protect_next c ssrc n i p : rtp_for ssrc i p -> ctx_at c ssrc n ->
  n <= i < n + 64536 -> i < 2 ^ 48 ->
  protect c ssrc p = (set_roc c ssrc (i / 65536) (wrap16 i), wire (session_keys c) ssrc i p, Ok ()).
Proof.
  intros ([h Hh] & Hs & _) Hc Hi Hlt. pose proof (header_len_bounds p h Hh).
  unfold SrtpContext.protect, wire. rewrite Hh, Hs.
  case_test; [lia |]. rewrite (sender_roc c ssrc n i) by assumption.
  rewrite packet_index_value by (destruct Hc; lia). reflexivity.
Qed.

Lemma length_auth_tag keys content roc : length (auth_tag keys content roc) = AUTH_TAG_LEN.
Proof. unfold SrtpContext.auth_tag. rewrite length_take, hmac_length. reflexivity. Qed.

(** What the receiver makes of the SRTP packet of index [i] when it recovers that index. *)
Lemma unprotect_wire c ssrc i p : rtp_for ssrc i p -> 0 <= i ->
  estimate_roc c ssrc (wrap16 i) = i / 65536 ->
  let w := default ReplayWindow.new (replay_windows c !! ssrc) in
  let c1 := set_window c ssrc w in
  unprotect c (wire (session_keys c) ssrc i p) =
  if ReplayWindow.is_replay w i
  then (c1, wire (session_keys c) ssrc i p, Err (ReplayDetected ssrc (wrap16 i)))
  else (set_window (set_roc c1 ssrc (i / 65536) (wrap16 i)) ssrc (ReplayWindow.record w i),
        p, Ok ()).
Proof.
  intros ([h Hh] & Hs & Hr) Hi Hroc w c1. unfold wire. rewrite Hh.
  pose proof (header_len_bounds p h Hh) as Hb.
  set (e := crypt (session_keys c) ssrc i h p).
  assert (He : length e = length p) by apply length_crypt.
  assert (Ht : take h p = take h e) by (symmetry; apply crypt_header; lia).
  assert (Hhe : get_rtp_header_len e = Ok h) by (apply (header_len_prefix p); auto).
  set (tag := auth_tag (session_keys c) e (i / 65536)).
  assert (Htag : length tag = AUTH_TAG_LEN) by apply length_auth_tag.
  unfold SrtpContext.unprotect. case_test; [rewrite length_app in *; unfold AUTH_TAG_LEN in *; lia |].
  replace (length (e ++ tag) - AUTH_TAG_LEN)%nat with (length e) by (rewrite length_app; lia).
  rewrite take_app_length, drop_app_length. case_test; [lia |].
  rewrite (read_be_prefix h e p), (read_be_prefix h e p) by (auto; lia).
  rewrite Hs, Hr, Hroc, packet_index_value by exact Hi. fold w. fold c1.
  destruct (ReplayWindow.is_replay w i); [reflexivity |].
  change (session_keys c1) with (session_keys c). fold tag.
  assert (Heq : constant_time_eq tag tag = true) by (apply constant_time_eq_spec; reflexivity).
  rewrite Heq, Hhe. cbn [negb]. unfold e at 1. rewrite crypt_crypt by lia. reflexivity.
Qed.

(** The receiver accepted exactly the indices [l] of the source, in this order. *)
Definition recv_at (c : t) (ssrc : Z) (l : list Z) : Prop :=
  sees (default ReplayWindow.new (replay_windows c !! ssrc)) l /\
  match last l with
  | Some n => ctx_at c ssrc n
  | None => last_seqs c !! ssrc = None
  end.

(** Index [i] can arrive after [l]: new, not 64 behind, and within half a cycle of the last arrival;
    the first arrival has to come before the first wrap of the sequence number, since the receiver
    starts with a rollover count of 0. *)
Definition acceptable (l : list Z) (i : Z) : Prop :=
  (i ∉ l) /\ highest l - 64 < i /\ 0 <= i < 2 ^ 48 /\
  match last l with
  | Some n => n - 32768 < i < n + 32768
  | None => i < 65536
  end.

Lemma recv_estimate c ssrc l i : recv_at c ssrc l -> 0 <= i < 2 ^ 48 ->
  match last l with Some n => n - 32768 < i < n + 32768 | None => i < 65536 end ->
  estimate_roc c ssrc (wrap16 i) = i / 65536.
Proof.
  intros [_ Hl] Hi Hnear. destruct (last l) as [n |].
  - apply (receiver_roc c ssrc n); assumption.
  - unfold estimate_roc. rewrite Hl. elia.
Qed.

Lemma unprotect_accepts c ssrc l i p : recv_at c ssrc l -> rtp_for ssrc i p -> acceptable l i ->
  exists c', unprotect c (wire (session_keys c) ssrc i p) = (c', p, Ok ()) /\
    session_keys c' = session_keys c /\ recv_at c' ssrc (l ++ [i]).
Proof.
  intros Hr Hp (Hnew & Hwin & Hi & Hnear).
  pose proof (recv_estimate c ssrc l i Hr Hi Hnear) as Hroc. destruct Hr as [Hsee Hlast].
  rewrite unprotect_wire by (auto; lia). cbv zeta.
  rewrite (is_replay_spec _ l), bool_decide_false by (assumption || (intros [? [?|?]]; [lia | contradiction])).
  eexists. split; [reflexivity |]. split; [reflexivity |]. split.
  - cbn [replay_windows set_window set_roc]. rewrite lookup_insert_eq. cbn [default from_option id].
    apply sees_record, Hsee.
  - rewrite last_snoc. split; [exact Hi |].
    cbn [last_seqs rocs set_window set_roc]. rewrite !lookup_insert_eq. auto.
Qed.

(** [protect] on each packet of a list, then [unprotect] on each arrival. *)
Fixpoint protect_all (c : t) (ssrc : Z) (ps : list bytes) : t * list bytes :=
  match ps with
  | [] => (c, [])
  | p :: ps' =>
      let '(c, w, _) := protect c ssrc p in
      let '(c, ws) := protect_all c ssrc ps' in (c, w :: ws)
  end.

Fixpoint unprotect_all (c : t) (ws : list bytes) : list (bytes * outcome SrtpError unit) :=
  match ws with
  | [] => []
  | w :: ws' => let '(c, p, r) := unprotect c w in (p, r) :: unprotect_all c ws'
  end.

Lemma protect_all_next c ssrc n ps : ctx_at c ssrc n -> n + Z.of_nat (length ps) < 2 ^ 48 ->
  (forall k p, ps !! k = Some p -> rtp_for ssrc (n + 1 + Z.of_nat k) p) ->
  (protect_all c ssrc ps).2 =
  imap (fun k p => wire (session_keys c) ssrc (n + 1 + Z.of_nat k) p) ps.
Proof.
  revert c n. induction ps as [| p ps IH]; intros c n Hc Hn Hp; [reflexivity |].
  cbn [length] in Hn. cbn [protect_all].
  assert (Hp0 : rtp_for ssrc (n + 1) p) by (rewrite <- (Z.add_0_r (n + 1)); apply (Hp 0%nat); reflexivity).
  rewrite (protect_next c ssrc n (n + 1) p Hp0 Hc) by lia.
  assert (Hn0 : 0 <= n + 1 < 2 ^ 48) by (destruct Hc; lia).
  specialize (IH (set_roc c ssrc ((n + 1) / 65536) (wrap16 (n + 1))) (n + 1)
    (set_roc_at c ssrc (n + 1) Hn0) ltac:(lia)).
  destruct (protect_all _ ssrc ps) as [c' ws]. simpl in IH |- *. rewrite IH.
  - rewrite Z.add_0_r. f_equal. apply imap_ext. intros k q _. simpl. f_equal. lia.
  - intros k q Hk. replace (n + 1 + 1 + Z.of_nat k) with (n + 1 + Z.of_nat (S k)) by lia.
    apply Hp. exact Hk.
Qed.

Lemma protect_all_fresh c ssrc s0 ps : last_seqs c !! ssrc = None -> u16 s0 ->
  s0 + Z.of_nat (length ps) < 2 ^ 48 ->
  (forall k p, ps !! k = Some p -> rtp_for ssrc (s0 + Z.of_nat k) p) ->
  (protect_all c ssrc ps).2 = imap (fun k p => wire (session_keys c) ssrc (s0 + Z.of_nat k) p) ps.
Proof.
  intros Hc Hs Hn Hp. destruct ps as [| p ps]; [reflexivity |]. cbn [length] in Hn.
  cbn [protect_all].
  assert (Hp0 : rtp_for ssrc s0 p) by (rewrite <- (Z.add_0_r s0); apply (Hp 0%nat); reflexivity).
  rewrite (protect_first c ssrc s0 p) by assumption.
  assert (Hs0 : 0 <= s0 < 2 ^ 48) by ulia.
  pose proof (protect_all_next _ ssrc s0 ps (set_roc_at c ssrc s0 Hs0) ltac:(lia)) as IH.
  destruct (protect_all _ ssrc ps) as [c' ws]. simpl in IH |- *. rewrite IH.
  - rewrite Z.add_0_r. f_equal. apply imap_ext. intros k q _. simpl. f_equal. lia.
  - intros k q Hk. replace (s0 + 1 + Z.of_nat k) with (s0 + Z.of_nat (S k)) by lia.
    apply Hp. exact Hk.
Qed.

(** An order of arrival [ds] (positions in the sent list) the receiver can follow. *)
Fixpoint deliverable (l : list Z) (s0 : Z) (ds : list nat) : Prop :=
  match ds with
  | [] => True
  | d :: ds' => let i := s0 + Z.of_nat d in acceptable l i /\ deliverable (l ++ [i]) s0 ds'
  end.

Lemma unprotect_all_wire c ssrc s0 (ps : list bytes) l ds : recv_at c ssrc l ->
  (forall k p, ps !! k = Some p -> rtp_for ssrc (s0 + Z.of_nat k) p) ->
  Forall (fun d => (d < length ps)%nat) ds -> deliverable l s0 ds ->
  unprotect_all c (omap (fun d => imap (fun k p =>
      wire (session_keys c) ssrc (s0 + Z.of_nat k) p) ps !! d) ds)
  = (fun p => (p, Ok ())) <$> omap (fun d => ps !! d) ds.
Proof.
  intros Hr Hp Hd. revert c l Hr. induction Hd as [| d ds Hd Hds IH]; intros c l Hr Hdel;
    [reflexivity |]. destruct Hdel as [Hacc Hdel].
  destruct (lookup_lt_is_Some_2 ps d Hd) as [p Hpd]. csimpl.
  rewrite list_lookup_imap, Hpd. csimpl.
  destruct (unprotect_accepts c ssrc l _ p Hr (Hp d p Hpd) Hacc) as (c' & -> & Hk & Hr').
  f_equal. rewrite <- Hk. apply (IH c' (l ++ [s0 + Z.of_nat d])); assumption.
Qed.
End session.

(** C9 SRTP delivers: the packets of a fresh sender, numbered consecutively from any 16-bit number
    across any number of wraps, reach a fresh receiver with the same keys in any order whose first
    arrival was sent before the first wrap, that never repeats a packet, never lags 64 behind the
    newest and never jumps by half a cycle (losses allowed); each arrival is accepted and decrypts to
    the packet sent. *)
Theorem srtp_delivery (keystream : bytes -> bytes -> nat -> bytes)
    (hmac_sha1 : bytes -> bytes -> bytes) (cs cr : SrtpContext.t) ssrc s0 ps ds :
  (forall k iv n, length (keystream k iv n) = n) ->
  (forall k m, length (hmac_sha1 k m) = 20%nat) ->
  session_keys cr = session_keys cs -> last_seqs cs !! ssrc = None ->
  last_seqs cr !! ssrc = None -> replay_windows cr !! ssrc = None ->
  u16 s0 -> s0 + Z.of_nat (length ps) < 2 ^ 48 ->
  (forall k p, ps !! k = Some p -> rtp_for ssrc (s0 + Z.of_nat k) p) ->
  Forall (fun d => (d < length ps)%nat) ds -> deliverable [] s0 ds ->
  let ws := (protect_all keystream hmac_sha1 cs ssrc ps).2 in
  unprotect_all keystream hmac_sha1 cr (omap (fun d => ws !! d) ds)
  = (fun p => (p, Ok ())) <$> omap (fun d => ps !! d) ds.
Proof.
  intros Hks Hhm Hk Hs Hr Hw Hs0 Hn Hp Hd Hdel. cbv zeta.
  rewrite (protect_all_fresh keystream hmac_sha1 cs ssrc s0) by assumption. rewrite <- Hk.
  apply (unprotect_all_wire keystream hmac_sha1) with (l := []); try assumption.
  split; [rewrite Hw; exact sees_new | exact Hr].
Qed.

(** A toy cipher and tag to run the model with. *)
Definition toy_keystream (k iv : bytes) (n : nat) : bytes :=
  imap (fun i _ => wrap8 (Z.of_nat i + foldr Z.add 0 iv)) (replicate n ()).
Definition toy_hmac (k m : bytes) : bytes := replicate 20 (wrap8 (foldr Z.add 0 (k ++ m))).

Lemma toy_keystream_length k iv n : length (toy_keystream k iv n) = n.
Proof. unfold toy_keystream. rewrite length_imap, length_replicate. reflexivity. Qed.
Lemma toy_hmac_length k m : length (toy_hmac k m) = 20%nat.
Proof. apply length_replicate. Qed.

Definition toy_ctx : SrtpContext.t :=
  SrtpContext.mk (SessionKeys.mk (replicate 16 3) (replicate 20 4) (replicate 14 5)) ∅ ∅ ∅.

Definition toy_packet (seq : Z) (payload : bytes) : bytes :=
  [128; 96] ++ to_be 2 seq ++ to_be 4 1000 ++ to_be 4 9 ++ payload.

(** Four packets across a wrap; the third is lost and the last two are swapped. *)
Lemma srtp_delivery_witness :
  let ps := [toy_packet 65534 [1; 2]; toy_packet 65535 [3]; toy_packet 0 [4]; toy_packet 1 [5]] in
  let ws := (protect_all toy_keystream toy_hmac toy_ctx 9 ps).2 in
  unprotect_all toy_keystream toy_hmac toy_ctx (omap (fun d => ws !! d) [0; 3; 1]%nat)
  = [(toy_packet 65534 [1; 2], Ok ()); (toy_packet 1 [5], Ok ()); (toy_packet 65535 [3], Ok ())].
Proof.
  cbv zeta.
  rewrite (srtp_delivery toy_keystream toy_hmac toy_ctx toy_ctx 9 65534
    [toy_packet 65534 [1; 2]; toy_packet 65535 [3]; toy_packet 0 [4]; toy_packet 1 [5]]
    [0; 3; 1]%nat toy_keystream_length toy_hmac_length); try reflexivity; try ulia.
  - intros [| [| [| [| k]]]] p [= <-]; (split; [eexists; vm_compute; reflexivity |]);
      split; vm_compute; reflexivity.
  - repeat constructor; simpl; lia.
  - simpl. unfold acceptable. cbn. repeat split; try lia;
      intros Hin%list_elem_of_In; simpl in Hin; lia.
Defined.

(** A packet index that was accepted is rejected as a replay when the same SRTP packet
    (or any other protected under the same index) comes again within half a cycle, and the
    receiver's state of the source is unchanged. *)
Theorem srtp_replay_rejected (keystream : bytes -> bytes -> nat -> bytes)
    (hmac_sha1 : bytes -> bytes -> bytes) (c : SrtpContext.t) ssrc l n i p :
  (forall k iv n, length (keystream k iv n) = n) ->
  (forall k m, length (hmac_sha1 k m) = 20%nat) ->
  recv_at c ssrc l -> last l = Some n -> i ∈ l -> 0 <= i < 2 ^ 48 ->
  n - 32768 < i < n + 32768 -> rtp_for ssrc i p ->
  let w := wire keystream hmac_sha1 (session_keys c) ssrc i p in
  exists c', unprotect keystream hmac_sha1 c w
    = (c', w, Err (ReplayDetected ssrc (wrap16 i))) /\
    recv_at c' ssrc l /\ rocs c' = rocs c /\ last_seqs c' = last_seqs c.
Proof.
  intros Hks Hhm Hr Hl Hin Hi Hnear Hp. cbv zeta.
  assert (Hroc : estimate_roc c ssrc (wrap16 i) = i / 65536)
    by (apply (recv_estimate c ssrc l); rewrite ?Hl; assumption).
  destruct Hr as [Hsee Hlast].
  rewrite unprotect_wire by (auto; lia). cbv zeta.
  rewrite (is_replay_spec _ l), bool_decide_true
    by (assumption || (split; [apply highest_ge, Hin | auto])).
  eexists. split; [reflexivity |]. split; [| auto]. split.
  - cbn [replay_windows set_window]. rewrite lookup_insert_eq. exact Hsee.
  - rewrite Hl in *. exact Hlast.
Qed.

Lemma srtp_replay_rejected_witness :
  let p := toy_packet 65534 [1; 2] in
  let w := wire toy_keystream toy_hmac (session_keys toy_ctx) 9 65534 p in
  let c := (unprotect toy_keystream toy_hmac toy_ctx w).1.1 in
  exists c', unprotect toy_keystream toy_hmac c w = (c', w, Err (ReplayDetected 9 65534)) /\
    recv_at c' 9 [65534] /\ rocs c' = rocs c /\ last_seqs c' = last_seqs c.
Proof.
  cbv zeta.
  assert (Hp : rtp_for 9 65534 (toy_packet 65534 [1; 2]))
    by (split; [eexists; vm_compute; reflexivity | split; vm_compute; reflexivity]).
  destruct (unprotect_accepts toy_keystream toy_hmac toy_keystream_length toy_hmac_length
    toy_ctx 9 [] 65534 (toy_packet 65534 [1; 2])) as (c & Hc & Hk & Hr).
  - split; [exact sees_new | reflexivity].
  - exact Hp.
  - unfold acceptable. cbn. repeat split; try lia. apply not_elem_of_nil.
  - rewrite Hc. cbn [fst]. rewrite <- Hk.
    apply (srtp_replay_rejected toy_keystream toy_hmac c 9 [65534] 65534 65534
      (toy_packet 65534 [1; 2]) toy_keystream_length toy_hmac_length Hr eq_refl);
      [apply list_elem_of_singleton; reflexivity | lia | lia | exact Hp].
Defined.

(** An accepted packet is authentic: its last ten octets are the tag of the rest under
    the estimated rollover counter. A rejected one changes no rollover counter, no sequence
    number and no recorded index of any source. *)
Theorem srtp_unprotect_cases (keystream : bytes -> bytes -> nat -> bytes)
    (hmac_sha1 : bytes -> bytes -> bytes) (c : SrtpContext.t) packet :
  match unprotect keystream hmac_sha1 c packet with
  | (c', _, Ok ()) => exists ssrc seq,
      let content := take (length packet - AUTH_TAG_LEN) packet in
      read_be (E := SrtpError) 2 content 2 = Ok seq /\
      read_be (E := SrtpError) 4 content 8 = Ok ssrc /\
      packet = content ++ auth_tag hmac_sha1 (session_keys c) content (estimate_roc c ssrc seq)
  | (c', _, Err _) =>
      session_keys c' = session_keys c /\ rocs c' = rocs c /\ last_seqs c' = last_seqs c /\
      forall s, default ReplayWindow.new (replay_windows c' !! s)
              = default ReplayWindow.new (replay_windows c !! s)
  | (_, _, Panic) => False
  end.
Proof.
  unfold unprotect. case_test; [auto |]. case_test; [auto |].
  set (content := take _ packet) in *. unfold AUTH_TAG_LEN in *.
  assert (Hw : forall s0 s, default ReplayWindow.new (replay_windows (set_window c s0
    (default ReplayWindow.new (replay_windows c !! s0))) !! s)
    = default ReplayWindow.new (replay_windows c !! s)).
  { intros s0 s. cbn [replay_windows set_window]. destruct (decide (s0 = s)) as [-> | Hne].
    - rewrite lookup_insert_eq. reflexivity.
    - rewrite lookup_insert_ne by exact Hne. reflexivity. }
  destruct (read_be_total (E := SrtpError) 2 content 2) as [seq Hseq]; [lia |].
  destruct (read_be_total (E := SrtpError) 4 content 8) as [ssrc Hssrc]; [lia |].
  rewrite Hseq, Hssrc. case_test; [auto |].
  destruct (constant_time_eq _ _) eqn:Heq; cbn [negb]; [| auto].
  apply constant_time_eq_spec in Heq. cbn [session_keys set_window] in Heq.
  pose proof (header_len_no_panic content) as Hnp.
  destruct (get_rtp_header_len content) as [h | e |]; [| auto | apply Hnp; reflexivity].
  exists ssrc, seq. do 2 (split; [reflexivity |]).
  rewrite Heq. symmetry. apply take_drop.
Qed.

Lemma x_bit a : u8 a -> negb (Z.land a 16 =? 0) = negb (Z.land (Z.shiftr a 4) 1 =? 0).
Proof. intros Ha. by_range 256%nat a. Qed.

Lemma with_ext_read_ext x buf i1 e i2 :
  RtpPacket.read_ext x buf i1 = Ok (e, i2) -> with_ext x buf i1 = Ok i2.
Proof.
  unfold RtpPacket.read_ext, with_ext. destruct x; intros H; [| congruence].
  case_test_in H; [discriminate |]. bind_inv H. bind_inv H.
  case_test_in H; [discriminate |]. bind_inv H. injection H as _ <-.
  rewrite (read_be_any _ _ _ _ Hv0). simpl. f_equal. lia.
Qed.

Lemma header_len_decoded buf p :
  bytes_ok buf -> RtpPacket.decode buf = Ok p ->
  exists h, get_rtp_header_len buf = Ok h /\
    take (length (RtpPacket.payload p)) (drop h buf) = RtpPacket.payload p /\
    Z.of_nat (h + length (RtpPacket.payload p)) + RtpPacket.padding_bytes p
      = Z.of_nat (length buf).
Proof.
  intros Hok Hd. apply RtpPacket.decode_inv in Hd as (a & b & i1 & i2 & pe & []).
  assert (Ha : u8 a).
  { unfold get_idx, expect in d_a. destruct (buf !! 0%nat) eqn:Hl; [| discriminate].
    injection d_a as ->. exact (Forall_lookup_1 _ _ _ _ Hok Hl). }
  apply RtpPacket.read_csrcs_inv in d_csrcs as (_ & _ & Hi1 & _); [| exact Hok].
  exists i2. split_and!.
  - unfold get_rtp_header_len. case_test; [lia |]. rewrite (get_idx_any _ _ _ d_a).
    cbn [mbind outcome_bind]. rewrite x_bit, <- d_x, <- Hi1 by exact Ha.
    rewrite (with_ext_read_ext _ _ _ _ _ d_ext). cbn [mbind outcome_bind].
    case_test; [lia | reflexivity].
  - apply slice_Ok_inv in d_pl as [Hr Hpl]. rewrite Hpl at 1. rewrite Hpl.
    rewrite length_take, length_drop. f_equal. lia.
  - apply slice_Ok_inv in d_pl as [Hr Hpl]. rewrite Hpl, length_take, length_drop.
    unfold RtpPacket.read_padding in d_pad. destruct (RtpHeader.padding _);
      [| injection d_pad as <- <-; lia].
    case_test_in d_pad; [discriminate |]. bind_inv d_pad.
    case_test_in d_pad; [discriminate |]. case_test_in d_pad; [discriminate |].
    injection d_pad as <- <-.
    assert (Hv0 : u8 v).
    { unfold get_idx, expect in Hv. destruct (buf !! _) eqn:Hl; [| discriminate].
      injection Hv as ->. exact (Forall_lookup_1 _ _ _ _ Hok Hl). }
    ulia.
Qed.

Lemma rtp_for_decoded buf p i : bytes_ok buf -> RtpPacket.decode buf = Ok p ->
  RtpHeader.sequence_number (RtpPacket.header p) = wrap16 i ->
  rtp_for (RtpHeader.ssrc (RtpPacket.header p)) i buf.
Proof.
  intros Hok Hd Hseq. destruct (header_len_decoded buf p Hok Hd) as (h & Hh & _).
  split; [eauto |]. apply RtpPacket.decode_inv in Hd as (a & b & i1 & i2 & pe & []).
  split; [rewrite <- Hseq; exact (read_be_any _ _ _ _ d_seq) | exact (read_be_any _ _ _ _ d_ssrc)].
Qed.

(** SRTP leaves exactly the RTP header in the clear: on a packet the RTP decoder
    accepts, the header length SRTP computes is where the payload starts, and payload and
    padding are what it encrypts. *)
Theorem srtp_header_is_rtp_header buf p :
  bytes_ok buf -> RtpPacket.decode buf = Ok p ->
  exists h, get_rtp_header_len buf = Ok h /\
    take (length (RtpPacket.payload p)) (drop h buf) = RtpPacket.payload p /\
    Z.of_nat (h + length (RtpPacket.payload p)) + RtpPacket.padding_bytes p
      = Z.of_nat (length buf).
Proof. exact (header_len_decoded buf p). Qed.

Lemma srtp_header_is_rtp_header_witness :
  exists h, get_rtp_header_len (toy_packet 7 [1; 2; 3]) = Ok h /\
    take 3 (drop h (toy_packet 7 [1; 2; 3])) = [1; 2; 3] /\
    Z.of_nat (h + 3) + 0 = Z.of_nat (length (toy_packet 7 [1; 2; 3])).
Proof.
  apply (srtp_header_is_rtp_header (toy_packet 7 [1; 2; 3])
    (RtpPacket.simple 96 false 7 1000 9 [1; 2; 3])).
  - apply (bool_decide_unpack (bytes_ok _)). vm_compute. exact I.
  - vm_compute. reflexivity.
Defined.
