(* ===== verification/RecvStream.v ===== *)
(** * Receive streams and their jitter buffer (src/rtp_session/rtp_recv_stream.rs)

    A stream checks the source of each packet, updates the statistics, buffers the packet in
    a map ordered by sequence number and emits packets in sequence; a gap is skipped when
    the first buffered packet is older than [max_latency]. Instants are nanoseconds; every
    [Instant::now()] is an argument, and the readings inside the drain loop are a function
    of the iteration. Events sent on the channel are returned as a list. *)

From stdpp Require Import prelude gmap.
From Stdlib Require Import ZArith Lia.
From S2P Require Import Prelude Utf8 Rtp Rtcp Trackers.
Local Open Scope Z_scope.

Module RtpCodec.
Record t : Type := mk { payload_type : Z; clock_rate : Z; name : bytes }.
Definition new (pt clock : Z) : t := mk pt clock [].
Definition with_name (pt clock : Z) (n : bytes) : t := mk pt clock n.
End RtpCodec.

Module RtpRecvConfig.
Record t : Type := mk { codec : RtpCodec.t; remote_ssrc : option Z }.
Definition new (codec : RtpCodec.t) (remote_ssrc : option Z) : t := mk codec remote_ssrc.
End RtpRecvConfig.

(** [EngineEvent::RtpIn] *)
Module RtpIn.
Record t : Type := mk {
  pt : Z; marker : bool; timestamp_90khz : Z; seq : Z; ssrc : Z; payload : bytes }.

Definition of_packet (p : RtpPacket.t) : t :=
  let h := RtpPacket.header p in
  mk (RtpHeader.payload_type h) (RtpHeader.marker h) (RtpHeader.timestamp h)
     (RtpHeader.sequence_number h) (RtpHeader.ssrc h) (RtpPacket.payload p).
End RtpIn.

Record BufferedPacket : Type := buffered { packet : RtpPacket.t; received_at : Z }.

Abbreviation buffer := (gmap Z BufferedPacket).

(** [jitter_buffer.iter().next()]: the entry with the smallest key *)
Definition smaller (kv : Z * BufferedPacket) (acc : option (Z * BufferedPacket))
  : option (Z * BufferedPacket) :=
  match acc with
  | Some kv' => if kv'.1 <? kv.1 then acc else Some kv
  | None => Some kv
  end.

Definition first_entry (m : buffer) : option (Z * BufferedPacket) :=
  foldr smaller None (map_to_list m).

Module RtpRecvStream.
Record t : Type := mk {
  codec : RtpCodec.t;
  remote_ssrc : option Z;
  rx : RxTracker.t;
  epoch : Z;
  last_activity : Z;
  jitter_buffer : buffer;
  next_seq : option Z;
  max_latency : Z }.

Definition new (cfg : RtpRecvConfig.t) (now : Z) : t :=
  mk (RtpRecvConfig.codec cfg) (RtpRecvConfig.remote_ssrc cfg) RxTracker.initial now now
     ∅ None 200000000.

(** [u128] saturating product, then truncation to [u32] *)
Definition instant_to_rtp_units (s : t) (now : Z) : Z :=
  let ns := Z.max 0 (now - epoch s) in
  wrap32 (Z.min (ns * RtpCodec.clock_rate (codec s)) (2 ^ 128 - 1) / 1000000000).

(** The loop of [process_buffer]; [clock k] is the instant read by [elapsed()] in
    iteration [k]. [None] is running out of fuel. *)
Fixpoint drain (fuel : nat) (max_latency : Z) (clock : nat -> Z) (k : nat) (buf : buffer)
    (next_seq : Z) : option (list RtpIn.t * buffer * Z) :=
  match fuel with
  | O => None
  | S fuel =>
      match buf !! next_seq with
      | Some b =>
          '(evts, buf', n) ← drain fuel max_latency clock (S k) (delete next_seq buf)
                               (wrap16 (next_seq + 1));
          Some (RtpIn.of_packet (packet b) :: evts, buf', n)
      | None =>
          match first_entry buf with
          | Some (buffered_seq, b) =>
              if max_latency <? Z.max 0 (clock k - received_at b)
              then drain fuel max_latency clock (S k) buf buffered_seq
              else Some ([], buf, next_seq)
          | None => Some ([], buf, next_seq)
          end
      end
  end.

Definition drain_fuel (buf : buffer) : nat := 2 + 2 * size buf.

Definition process_buffer (s : t) (clock : nat -> Z) : option (t * list RtpIn.t) :=
  match next_seq s with
  | None => Some (s, [])
  | Some n =>
      '(evts, buf', n') ← drain (drain_fuel (jitter_buffer s)) (max_latency s) clock 0
                            (jitter_buffer s) n;
      Some (mk (codec s) (remote_ssrc s) (rx s) (epoch s) (last_activity s) buf' (Some n')
              (max_latency s), evts)
  end.

Definition receive_rtp_packet (s : t) (p : RtpPacket.t) (now : Z) (clock : nat -> Z)
  : option (t * list RtpIn.t) :=
  let h := RtpPacket.header p in
  let touched := mk (codec s) (remote_ssrc s) (rx s) (epoch s) now (jitter_buffer s)
                    (next_seq s) (max_latency s) in
  let accept (remote : option Z) :=
    let rx' := RxTracker.on_rtp (rx s) (RtpHeader.sequence_number h) (RtpHeader.timestamp h)
                 (instant_to_rtp_units s now) in
    let seq := RtpHeader.sequence_number h in
    let duplicate := is_some (jitter_buffer s !! seq) in
    let buf' := <[seq := buffered p now]> (jitter_buffer s) in
    if duplicate then
      Some (mk (codec s) remote rx' (epoch s) now buf' (next_seq s) (max_latency s), [])
    else
      let next' := match next_seq s with None => Some seq | n => n end in
      process_buffer (mk (codec s) remote rx' (epoch s) now buf' next' (max_latency s)) clock in
  match remote_ssrc s with
  | Some expected =>
      if negb (expected =? RtpHeader.ssrc h) then Some (touched, [])
      else accept (Some expected)
  | None => accept (Some (RtpHeader.ssrc h))
  end.

Definition on_sender_report (s : t) (sender_ssrc : Z) (info : SenderInfo.t)
    (arrival_ntp : Z * Z) (now : Z) : t :=
  let anchor (remote : option Z) :=
    mk (codec s) remote
       (RxTracker.on_sr_received (rx s) (SenderInfo.ntp_most_sw info)
          (SenderInfo.now_least_sw info) arrival_ntp)
       (epoch s) now (jitter_buffer s) (next_seq s) (max_latency s) in
  match remote_ssrc s with
  | Some exp => if negb (exp =? sender_ssrc) then s else anchor (Some exp)
  | None => anchor (Some sender_ssrc)
  end.

Definition build_report_block (s : t) (now_ntp : Z * Z)
  : outcome Empty_set (t * option ReportBlock.t) :=
  match remote_ssrc s with
  | Some ssrc =>
      '(rx', b) ← RxTracker.build_report_block (rx s) ssrc now_ntp;
      Ok (mk (codec s) (remote_ssrc s) rx' (epoch s) (last_activity s) (jitter_buffer s)
            (next_seq s) (max_latency s), Some b)
  | None => Ok (s, None)
  end.
End RtpRecvStream.
Import RtpRecvStream.

(** ** The first entry *)
Lemma first_entry_list l (kv : Z * BufferedPacket) : foldr smaller None l = Some kv ->
  kv ∈ l /\ forall kv', kv' ∈ l -> kv.1 <= kv'.1.
Proof.
  revert kv. induction l as [| x l IH]; intros kv H; [discriminate |]. simpl in H.
  destruct (foldr smaller None l) as [y |] eqn:Hl; simpl in H.
  - destruct (IH y eq_refl) as [Hin Hmin].
    destruct (Z.ltb_spec y.1 x.1) as [Hlt | Hge]; injection H as H; subst kv; split;
      [apply list_elem_of_further, Hin | | apply list_elem_of_here |];
      intros z [-> | Hz]%elem_of_cons; try lia; specialize (Hmin z Hz); lia.
  - injection H as H. subst kv. destruct l as [| z l]; [| simpl in Hl; unfold smaller in Hl;
      destruct (foldr _ None l) as [p |]; [destruct (p.1 <? z.1) |]; discriminate].
    split; [apply list_elem_of_here |].
    intros z [-> | Hz%not_elem_of_nil]%elem_of_cons; [lia | done].
Qed.

Lemma first_entry_Some m k b : first_entry m = Some (k, b) ->
  m !! k = Some b /\ forall j b', m !! j = Some b' -> k <= j.
Proof.
  intros [Hin Hmin]%first_entry_list. split; [apply elem_of_map_to_list, Hin |].
  intros j b' Hj. apply (Hmin (j, b')), elem_of_map_to_list, Hj.
Qed.

Lemma first_entry_None m : first_entry m = None -> m = ∅.
Proof.
  unfold first_entry. intros H. apply map_to_list_empty_iff.
  destruct (map_to_list m) as [| x l]; [reflexivity |]. simpl in H. unfold smaller in H.
  destruct (foldr _ None l) as [p |]; [destruct (p.1 <? x.1) |]; discriminate.
Qed.

(** ** Termination of the drain loop *)
Definition pending_work (buf : buffer) (next : Z) : nat :=
  2 * size buf + match buf !! next with Some _ => 0 | None => 1 end.

Lemma drain_total fuel lat clock k buf next : (pending_work buf next < fuel)%nat ->
  exists r, drain fuel lat clock k buf next = Some r.
Proof.
  revert k buf next. induction fuel as [| fuel IH]; intros k buf next Hf; [lia |].
  cbn [drain]. unfold pending_work in Hf.
  destruct (buf !! next) as [b |] eqn:Hb.
  - assert (Hs : size buf = S (size (delete next buf))).
    { rewrite <- (insert_delete_id buf next b Hb) at 1. apply map_size_insert_None, lookup_delete_eq. }
    destruct (IH (S k) (delete next buf) (wrap16 (next + 1))) as [[[e b'] n] Hr].
    { unfold pending_work. rewrite Hs in Hf. destruct (delete next buf !! _); lia. }
    rewrite Hr. simpl. eauto.
  - destruct (first_entry buf) as [[j b] |] eqn:Hfe; [| eauto].
    case_test; [| eauto]. apply first_entry_Some in Hfe as [Hj _].
    apply IH. unfold pending_work. rewrite Hj. lia.
Qed.

Lemma process_buffer_total s clock : exists r, process_buffer s clock = Some r.
Proof.
  unfold process_buffer. destruct (next_seq s) as [n |]; [| eauto].
  destruct (drain_total (drain_fuel (jitter_buffer s)) (max_latency s) clock 0
    (jitter_buffer s) n) as [[[e b] m] Hr].
  - unfold pending_work, drain_fuel. destruct (_ !! _); lia.
  - rewrite Hr. simpl. eauto.
Qed.

Lemma receive_total s p now clock :
  exists s' evts, receive_rtp_packet s p now clock = Some (s', evts).
Proof.
  unfold receive_rtp_packet.
  repeat first [progress case_match | case_test]; try (eexists _, _; reflexivity);
    match goal with |- context [process_buffer ?x ?c] =>
      destruct (process_buffer_total x c) as [[s' e] ->]; eauto end.
Qed.

(** Receiving a packet terminates, whatever the buffer, the packet and the clock. *)
Theorem receive_terminates s p now clock :
  exists s' evts, receive_rtp_packet s p now clock = Some (s', evts).
Proof. exact (receive_total s p now clock). Qed.

(** ** Reordering: without timeouts the buffer emits the packets in sequence *)
Section reorder.
Context (s0 : Z) (n : nat) (ssrc : Z) (pk : nat -> RtpPacket.t).
Hypothesis n_small : Z.of_nat n <= 65536.

(** The sequence number of the packet at offset [j] *)
Definition key (j : nat) : Z := wrap16 (s0 + Z.of_nat j).
Definition ev (j : nat) : RtpIn.t := RtpIn.of_packet (pk j).

Lemma key_inj i j : (i < n)%nat -> (j < n)%nat -> key i = key j -> i = j.
Proof. unfold key, wrap16. intros. elia. Qed.

Lemma key_next j : wrap16 (key j + 1) = key (S j).
Proof. unfold key, wrap16. elia. Qed.

(** The buffer holds exactly the packets at the offsets [B], received at the times in [T]. *)
Record buf_is (T : list (nat * Z)) (buf : buffer) (B : gset nat) : Prop := {
  bi_lt : forall j, j ∈ B -> (j < n)%nat;
  bi_in : forall j, j ∈ B -> exists t, (j, t) ∈ T /\ buf !! key j = Some (buffered (pk j) t);
  bi_out : forall q, (forall j, j ∈ B -> q <> key j) -> buf !! q = None }.

Lemma buf_is_entry T buf B q b : buf_is T buf B -> buf !! q = Some b ->
  exists j, j ∈ B /\ q = key j /\ (j, received_at b) ∈ T.
Proof.
  intros H Hq. destruct (decide (Exists (fun j => q = key j) (elements B))) as [He | Hn].
  - apply Exists_exists in He as (j & Hj%elem_of_elements & ->). destruct (bi_in _ _ _ H j Hj) as (t & Ht & Hb).
    rewrite Hq in Hb. injection Hb as ->. exists j. auto.
  - rewrite (bi_out _ _ _ H) in Hq; [discriminate |]. intros j Hj ->. apply Hn, Exists_exists.
    exists j. rewrite elem_of_elements. auto.
Qed.

Lemma buf_is_absent T buf B m : buf_is T buf B -> (m <= n)%nat -> (forall j, j ∈ B -> (m <= j)%nat) ->
  m ∉ B -> buf !! key m = None.
Proof.
  intros H Hm Hge Hn. apply (bi_out _ _ _ H). intros j Hj Heq.
  pose proof (bi_lt _ _ _ H j Hj). pose proof (Hge j Hj).
  apply key_inj in Heq; [subst; contradiction | lia | lia].
Qed.

Lemma buf_is_delete T buf B m : buf_is T buf B -> m ∈ B ->
  buf_is T (delete (key m) buf) (B ∖ {[m]}).
Proof.
  intros H Hm. pose proof (bi_lt _ _ _ H m Hm) as Hlt. split.
  - intros j Hj. apply (bi_lt _ _ _ H). set_solver.
  - intros j Hj. assert (Hin : j ∈ B) by set_solver.
    destruct (bi_in _ _ _ H j Hin) as (t & HT & Ht). exists t. split; [exact HT |]. rewrite lookup_delete_ne; [exact Ht |].
    intros Heq. apply key_inj in Heq; [set_solver | exact Hlt | apply (bi_lt _ _ _ H j Hin)].
  - intros q Hq. destruct (decide (key m = q)) as [<- | Hne]; [apply lookup_delete_eq |].
    rewrite lookup_delete_ne by exact Hne. apply (bi_out _ _ _ H). intros j Hj.
    destruct (decide (j = m)) as [-> | Hjm]; [congruence | apply Hq; set_solver].
Qed.

Lemma buf_is_insert T buf B j t : buf_is T buf B -> (j < n)%nat ->
  buf_is ((j, t) :: T) (<[key j := buffered (pk j) t]> buf) ({[j]} ∪ B).
Proof.
  intros H Hj. split.
  - intros i [->%elem_of_singleton | Hi]%elem_of_union; [exact Hj | apply (bi_lt _ _ _ H i Hi)].
  - intros i Hi. destruct (decide (i = j)) as [-> | Hne].
    + exists t. split; [apply list_elem_of_here | apply lookup_insert_eq].
    + assert (Hin : i ∈ B) by set_solver. destruct (bi_in _ _ _ H i Hin) as (u & HT & Hu). exists u.
      split; [apply list_elem_of_further, HT |]. rewrite lookup_insert_ne; [exact Hu |]. intros Heq.
      apply key_inj in Heq; [congruence | exact Hj | apply (bi_lt _ _ _ H i Hin)].
  - intros q Hq. rewrite lookup_insert_ne by (intros Heq; apply (Hq j); set_solver).
    apply (bi_out _ _ _ H). intros i Hi. apply Hq. set_solver.
Qed.

Definition from (m : nat) (B : gset nat) : gset nat := filter (fun j => m <= j)%nat B.

(** When the clock is read, no packet that still waits for another has waited longer than [lat]. *)
Definition punctual (T : list (nat * Z)) (lat : Z) (clock : nat -> Z) (B : gset nat) (m : nat) : Prop :=
  forall j t, j ∈ B -> (j, t) ∈ T -> (exists h, (m <= h < j)%nat /\ h ∉ B) -> forall i, clock i <= t + lat.

Lemma drain_run T fuel lat clock k buf B m evts buf' nx :
  punctual T lat clock B m -> 0 <= lat ->
  buf_is T buf B -> (forall j, j ∈ B -> (m <= j)%nat) -> (m <= n)%nat ->
  drain fuel lat clock k buf (key m) = Some (evts, buf', nx) ->
  exists m', (m <= m' <= n)%nat /\ nx = key m' /\ evts = ev <$> seq m (m' - m) /\
    buf_is T buf' (from m' B) /\ (forall j, (m <= j < m')%nat -> j ∈ B) /\ m' ∉ B.
Proof.
  intros Hc Hlat. revert k buf B m evts Hc. induction fuel as [| fuel IH];
    intros k buf B m evts Hc Hb Hge Hm H; [discriminate |]. cbn [drain] in H.
  assert (Hstop : m ∉ B -> Some ([], buf, key m) = Some (evts, buf', nx) ->
    exists m', (m <= m' <= n)%nat /\ nx = key m' /\ evts = ev <$> seq m (m' - m) /\
      buf_is T buf' (from m' B) /\ (forall j, (m <= j < m')%nat -> j ∈ B) /\ m' ∉ B).
  { intros Hn [= <- <- <-]. exists m. rewrite Nat.sub_diag. split_and!; auto; try lia.
    replace (from m B) with B; [exact Hb |]. apply set_eq. intros j. unfold from.
    rewrite elem_of_filter. split; [auto | tauto]. }
  destruct (decide (m ∈ B)) as [Hin | Hn].
  - destruct (bi_in _ _ _ Hb m Hin) as (t & _ & Ht). rewrite Ht in H. simpl in H.
    pose proof (bi_lt _ _ _ Hb m Hin) as Hlt.
    destruct (drain fuel lat clock (S k) _ _) as [[[e b'] q] |] eqn:Hd; [| discriminate].
    injection H as <- <- <-. rewrite key_next in Hd.
    apply (IH (S k) _ (B ∖ {[m]}) (S m)) in Hd as (m' & Hm' & -> & -> & Hb' & Hall & Hn');
      [| intros j t' Hj HT (h & Hh & Hhn); apply (Hc j t'); [set_solver | exact HT | exists h; split; [lia |]];
         intros Hin'; apply Hhn, elem_of_difference; rewrite elem_of_singleton; split; [exact Hin' | lia]
       | apply buf_is_delete; assumption
       | intros j Hj; assert (m <= j)%nat by (apply Hge; set_solver);
         assert (j <> m) by set_solver; lia
       | lia].
    exists m'. split_and!; auto; try lia.
    + replace (m' - m)%nat with (S (m' - S m)) by lia. reflexivity.
    + replace (from m' B) with (from m' (B ∖ {[m]})); [exact Hb' |].
      apply set_eq. intros j. unfold from. rewrite !elem_of_filter, elem_of_difference,
        elem_of_singleton. split; [tauto |]. intros [? ?]. split; [assumption |].
      split; [assumption | lia].
    + intros j Hj. destruct (decide (j = m)) as [-> | Hne]; [exact Hin |].
      assert (j ∈ B ∖ {[m]}) by (apply Hall; lia). set_solver.
    + intros Hin'. apply Hn'. apply elem_of_difference. split; [exact Hin' |].
      rewrite elem_of_singleton. lia.
  - rewrite (buf_is_absent T buf B m) in H by assumption.
    destruct (first_entry buf) as [[q b] |] eqn:Hf; [| auto].
    apply first_entry_Some in Hf as [Hq _]. destruct (buf_is_entry _ _ _ _ _ Hb Hq) as (j & Hj & -> & HT).
    assert (m < j)%nat by (pose proof (Hge j Hj); assert (j <> m) by (intros ->; contradiction); lia).
    pose proof (Hc j _ Hj HT (ex_intro _ m (conj (conj (Nat.le_refl m) H0) Hn)) k). case_test_in H; [lia | auto].
Qed.

(** The stream has received the packets [T], by offset and time, and emitted the first [m]. *)
Definition seen (T : list (nat * Z)) : gset nat := list_to_set T.*1.
Record ready (s : t) (T : list (nat * Z)) (m : nat) : Prop := {
  rd_ssrc : remote_ssrc s = Some ssrc;
  rd_lat : max_latency s = 200000000;
  rd_next : next_seq s = Some (key m);
  rd_buf : buf_is T (jitter_buffer s) (from m (seen T));
  rd_lt : forall j, j ∈ seen T -> (j < n)%nat;
  rd_m : (m <= n)%nat;
  rd_all : forall j, (j < m)%nat -> j ∈ seen T;
  rd_new : m ∉ seen T }.

Hypothesis pk_seq : forall j, (j < n)%nat ->
  RtpHeader.sequence_number (RtpPacket.header (pk j)) = key j /\
  RtpHeader.ssrc (RtpPacket.header (pk j)) = ssrc.

Lemma emit_next T m B buf rest clock :
  punctual T 200000000 clock B m -> max_latency rest = 200000000 ->
  jitter_buffer rest = buf -> next_seq rest = Some (key m) -> remote_ssrc rest = Some ssrc ->
  buf_is T buf B -> (forall j, j ∈ B -> (m <= j)%nat) -> (m <= n)%nat ->
  exists s' m', process_buffer rest clock = Some (s', ev <$> seq m (m' - m)) /\
    (m <= m' <= n)%nat /\ remote_ssrc s' = Some ssrc /\ max_latency s' = 200000000 /\
    next_seq s' = Some (key m') /\ buf_is T (jitter_buffer s') (from m' B) /\
    (forall j, (m <= j < m')%nat -> j ∈ B) /\ m' ∉ B.
Proof.
  intros Hc Hlat <- Hn Hr Hb Hge Hm.
  destruct (process_buffer_total rest clock) as [[s' evts] Hp]. rewrite Hp.
  unfold process_buffer in Hp. rewrite Hn, Hlat in Hp.
  destruct (drain _ _ _ _ _ _) as [[[e b'] q] |] eqn:Hd; simpl in Hp; [| discriminate].
  injection Hp as <- <-.
  apply (drain_run T _ _ _ _ _ B m) in Hd as (m' & Hm' & -> & -> & Hb' & Hall & Hn');
    try assumption; try lia.
  eexists _, m'. split; [reflexivity |]. simpl. auto 10.
Qed.

(** No packet of [T] that still waits for one not in [T] has waited for more than 200 ms. *)
Definition in_time (T : list (nat * Z)) (clock : nat -> Z) : Prop :=
  forall j t, (j, t) ∈ T -> (exists h, (h < j)%nat /\ h ∉ seen T) -> forall i, clock i <= t + 200000000.

Lemma receive_step s T m j now clock : ready s T m -> (j < n)%nat -> j ∉ seen T ->
  in_time ((j, now) :: T) clock ->
  exists s' m', receive_rtp_packet s (pk j) now clock = Some (s', ev <$> seq m (m' - m)) /\
    ready s' ((j, now) :: T) m' /\ (m <= m')%nat.
Proof.
  intros [] Hj Hnew Hc. destruct (pk_seq j Hj) as [Hs Hx].
  assert (Hmj : (m <= j)%nat) by (destruct (Nat.lt_ge_cases j m); [exfalso; auto | assumption]).
  unfold receive_rtp_packet. rewrite rd_ssrc0, Hx, Z.eqb_refl, Hs. cbn [negb].
  assert (Habs : jitter_buffer s !! key j = None).
  { apply (bi_out _ _ _ rd_buf0). intros i Hi Heq. apply elem_of_filter in Hi as [_ Hi].
    apply key_inj in Heq; [subst; contradiction | exact Hj | auto]. }
  rewrite Habs, rd_next0. cbn [is_some].
  assert (HB : seen ((j, now) :: T) = {[j]} ∪ seen T) by reflexivity.
  match goal with |- context [process_buffer ?x clock] =>
    destruct (emit_next ((j, now) :: T) m ({[j]} ∪ from m (seen T)) (jitter_buffer x) x clock)
      as (s' & m' & Hp & Hm' & ? & ? & ? & Hb & Hall & Hn')
  end; try reflexivity; try assumption.
  - intros i t _ HT (h & Hh & Hhn). apply (Hc i t HT). exists h. split; [lia |]. rewrite HB.
    intros [Hi%elem_of_singleton | Hi]%elem_of_union; apply Hhn, elem_of_union;
      [left; set_solver | right; apply elem_of_filter; split; [lia | assumption]].
  - apply buf_is_insert; assumption.
  - intros i [->%elem_of_singleton | [? _]%elem_of_filter]%elem_of_union; assumption.
  - exists s', m'. split; [exact Hp |]. split; [| lia].
    split; try assumption; try lia; rewrite HB.
    + replace (from m' ({[j]} ∪ seen T)) with (from m' ({[j]} ∪ from m (seen T))); [exact Hb |].
      apply set_eq. intros i. unfold from.
      rewrite !elem_of_filter, !elem_of_union, !elem_of_filter, !elem_of_singleton.
      split; [tauto |]. intros [? [? | ?]]; split; auto. right. split; [lia | assumption].
    + intros i [->%elem_of_singleton | Hi]%elem_of_union; auto.
    + intros i Hi. destruct (Nat.lt_ge_cases i m) as [Hlt | Hge];
        [apply elem_of_union_r, rd_all0, Hlt |].
      assert (Hin : i ∈ {[j]} ∪ from m (seen T)) by (apply Hall; lia).
      apply elem_of_union in Hin as [Hi1 | [_ Hi2]%elem_of_filter]; apply elem_of_union; auto.
    + intros [Hi%elem_of_singleton | Hi]%elem_of_union; apply Hn', elem_of_union;
        [left; set_solver | right; apply elem_of_filter; split; [lia | assumption]].
Qed.

(** Packets at given offsets, with the clock readings of their reception *)
Fixpoint receive_offsets (s : t) (l : list (nat * Z * (nat -> Z)))
  : option (t * list RtpIn.t) :=
  match l with
  | [] => Some (s, [])
  | (j, now, clock) :: l' =>
      '(s, e) ← receive_rtp_packet s (pk j) now clock;
      '(s, es) ← receive_offsets s l';
      Some (s, e ++ es)
  end.

(** After the arrivals [T], those of [l] keep every wait within the bound. *)
Fixpoint timely (T : list (nat * Z)) (l : list (nat * Z * (nat -> Z))) : Prop :=
  match l with
  | [] => True
  | (j, now, clock) :: l' => in_time ((j, now) :: T) clock /\ timely ((j, now) :: T) l'
  end.

Lemma receive_rest l s T m : ready s T m -> timely T l ->
  (forall j, j ∈ l.*1.*1 -> (j < n)%nat /\ j ∉ seen T) -> NoDup (l.*1.*1) ->
  exists s' T' m', receive_offsets s l = Some (s', ev <$> seq m (m' - m)) /\
    ready s' T' m' /\ seen T' = list_to_set (l.*1.*1) ∪ seen T /\ (m <= m')%nat.
Proof.
  revert s T m. induction l as [| [[j now] clock] l IH]; intros s T m Hr Ht Hj Hnd; csimpl in *.
  - exists s, T, m. rewrite Nat.sub_diag. split_and!; [reflexivity | exact Hr | set_solver | lia].
  - destruct Ht as [Hclk Ht]. apply NoDup_cons in Hnd as [Hjl Hnd].
    destruct (Hj j (list_elem_of_here _ _)) as [Hlt Hnew].
    destruct (receive_step s T m j now clock Hr Hlt Hnew Hclk) as (s1 & m1 & -> & Hr1 & Hm1).
    assert (HB : seen ((j, now) :: T) = {[j]} ∪ seen T) by reflexivity.
    simpl. destruct (IH s1 _ m1 Hr1 Ht) as (s2 & T2 & m2 & -> & Hr2 & HT2 & Hm2); [| exact Hnd |].
    + intros i Hi. destruct (Hj i (list_elem_of_further _ _ _ Hi)) as [? ?].
      split; [assumption |]. rewrite HB. intros [->%elem_of_singleton | ?]%elem_of_union; contradiction.
    + exists s2, T2, m2. simpl. split_and!; [| exact Hr2 | rewrite HT2, HB; set_solver | lia].
      rewrite <- fmap_app. do 3 f_equal. replace (m2 - m)%nat with ((m1 - m) + (m2 - m1))%nat by lia.
      rewrite seq_app. do 2 f_equal. lia.
Qed.

Lemma receive_first_offset cfg now0 now clock : (0 < n)%nat ->
  (RtpRecvConfig.remote_ssrc cfg = None \/ RtpRecvConfig.remote_ssrc cfg = Some ssrc) ->
  exists s', receive_rtp_packet (new cfg now0) (pk 0) now clock = Some (s', [ev 0]) /\
    ready s' [(0%nat, now)] 1.
Proof.
  intros Hn Hcfg. destruct (pk_seq 0 Hn) as [Hs Hx].
  assert (Hb0 : buf_is [] (∅ : buffer) ∅) by (split; [set_solver | set_solver | auto]).
  unfold receive_rtp_packet. cbn [new remote_ssrc jitter_buffer next_seq].
  rewrite Hx, Hs, lookup_empty. cbn [is_some].
  assert (Hgo : forall rest, max_latency rest = 200000000 -> next_seq rest = Some (key 0) ->
    jitter_buffer rest = <[key 0 := buffered (pk 0) now]> ∅ -> remote_ssrc rest = Some ssrc ->
    exists s', process_buffer rest clock = Some (s', [ev 0]) /\ ready s' [(0%nat, now)] 1).
  { intros rest Hl Hnx Hbf Hr.
    pose proof (buf_is_insert _ _ _ 0 now Hb0 Hn) as Hb1.
    destruct (emit_next [(0%nat, now)] 0 ({[0%nat]} ∪ ∅) (<[key 0 := buffered (pk 0) now]> ∅) rest clock)
      as (s' & m' & Hp & Hm' & ? & ? & ? & Hb' & Hall & Hn'); try eassumption; try lia.
    { intros j t Hj _ (h & Hh & _). set_solver by lia. }
    assert (m' = 1%nat) as ->.
    { destruct m' as [| [| m']]; [exfalso; apply Hn'; set_solver | reflexivity |].
      specialize (Hall 1%nat ltac:(lia)). set_solver. }
    assert (HB : seen [(0%nat, now)] = {[0%nat]} ∪ ∅) by reflexivity.
    exists s'. split; [exact Hp |]. split; rewrite ?HB; try assumption; try lia.
    - intros j Hj. assert (j = 0%nat) as -> by set_solver. exact Hn.
    - intros j Hj. assert (j = 0%nat) as -> by lia. set_solver. }
  destruct Hcfg as [-> | ->]; [| rewrite Z.eqb_refl; cbn [negb]]; apply Hgo; reflexivity.
Qed.
End reorder.

(** C10 The jitter buffer reorders: when the packets of consecutive sequence numbers (up to a whole
    cycle, across the wrap) arrive once each, the one with the first number before all others and
    the others in any order, and no packet has to wait for more than 200 ms for those before it, the
    stream emits all of them exactly once in sequence order and its buffer ends empty. *)
Theorem jitter_buffer_reorders s0 n ssrc pk cfg now0 now1 clock1 arrs :
  Z.of_nat n <= 65536 -> (0 < n)%nat ->
  (forall j, (j < n)%nat ->
    RtpHeader.sequence_number (RtpPacket.header (pk j)) = key s0 j /\
    RtpHeader.ssrc (RtpPacket.header (pk j)) = ssrc) ->
  (RtpRecvConfig.remote_ssrc cfg = None \/ RtpRecvConfig.remote_ssrc cfg = Some ssrc) ->
  timely [(0%nat, now1)] arrs ->
  arrs.*1.*1 ≡ₚ seq 1 (n - 1) ->
  exists s', receive_offsets pk (new cfg now0) ((0%nat, now1, clock1) :: arrs)
      = Some (s', ev pk <$> seq 0 n) /\
    jitter_buffer s' = ∅ /\ next_seq s' = Some (key s0 n).
Proof.
  intros Hn Hpos Hpk Hcfg Ht Hperm.
  destruct (receive_first_offset s0 n ssrc pk Hn Hpk cfg now0 now1 clock1 Hpos Hcfg) as (s1 & H1 & Hr1).
  assert (HB : seen [(0%nat, now1)] = {[0%nat]} ∪ ∅) by reflexivity.
  destruct (receive_rest s0 n ssrc pk Hn Hpk arrs s1 [(0%nat, now1)] 1 Hr1 Ht)
    as (s2 & T & m & H2 & Hr2 & HT & Hm).
  - intros j Hj. rewrite Hperm, elem_of_seq in Hj.
    split; [lia |]. rewrite HB, union_empty_r_L, elem_of_singleton. lia.
  - rewrite Hperm. apply NoDup_seq.
  - destruct Hr2.
    assert (m = n) as ->.
    { destruct (Nat.lt_ge_cases m n) as [Hlt |]; [| lia]. exfalso. apply rd_new0. rewrite HT.
      apply elem_of_union_l, elem_of_list_to_set. rewrite Hperm, elem_of_seq. lia. }
    exists s2. split; [| split; [| exact rd_next0]].
    + cbn [receive_offsets]. rewrite H1. cbn [mbind option_bind]. rewrite H2. simpl.
      do 2 f_equal. destruct n as [| n']; [lia |]. simpl. rewrite Nat.sub_0_r. reflexivity.
    + apply map_empty. intros q. apply (bi_out _ _ _ _ _ _ rd_buf0).
      intros j Hj. exfalso. unfold from in Hj. apply elem_of_filter in Hj as [Hge Hj].
      pose proof (rd_lt0 j Hj). lia.
Qed.

Definition sample_pk (j : nat) : RtpPacket.t :=
  RtpPacket.simple 96 false (wrap16 (65534 + Z.of_nat j)) 3000 9 [Z.of_nat j].
Definition sample_cfg : RtpRecvConfig.t := RtpRecvConfig.new (RtpCodec.new 96 90000) None.
Definition at_ms (t : Z) : nat -> Z := fun _ => t * 1000000.

(** Sequence numbers 65534, 1, 0, 65535, 3 and, a second later, 2: the wrap, a reversed run, and a
    pause that no packet waits through. *)
Lemma jitter_buffer_reorders_witness :
  exists s', receive_offsets sample_pk (new sample_cfg 0)
      [(0%nat, 0, at_ms 0); (3%nat, 1000000, at_ms 1); (2%nat, 2000000, at_ms 2); (1%nat, 199000000, at_ms 201);
       (5%nat, 1000000000, at_ms 1000); (4%nat, 1199000000, at_ms 1200)]
      = Some (s', ev sample_pk <$> seq 0 6) /\
    jitter_buffer s' = ∅ /\ next_seq s' = Some (key 65534 6).
Proof.
  apply (jitter_buffer_reorders 65534 6 9 sample_pk sample_cfg 0 0 (at_ms 0)
    [(3%nat, 1000000, at_ms 1); (2%nat, 2000000, at_ms 2); (1%nat, 199000000, at_ms 201);
     (5%nat, 1000000000, at_ms 1000); (4%nat, 1199000000, at_ms 1200)]).
  - lia.
  - lia.
  - intros j _. split; reflexivity.
  - left. reflexivity.
  - repeat split; intros j t HT%list_elem_of_In (h & Hh & Hn) i; unfold at_ms, seen in *;
      rewrite elem_of_list_to_set, list_elem_of_In in Hn; cbn in HT, Hn;
      repeat destruct HT as [[= <- <-] | HT]; try contradiction; lia.
  - apply NoDup_Permutation; [apply (bool_decide_unpack _); vm_compute; exact I | apply NoDup_seq |].
    intros x. rewrite elem_of_seq, list_elem_of_In. cbn. lia.
Defined.

(** ** Timeouts *)

(** The buffer holds the packet just received, under the highest key, and old packets. *)
Definition newest_or_old (lat : Z) (clock : nat -> Z) (newest : Z) (buf : buffer) : Prop :=
  forall q b, buf !! q = Some b ->
    q = newest \/ (q < newest /\ forall i, lat < clock i - received_at b).

Lemma drain_flush fuel lat clock newest k buf next evts buf' nx :
  newest_or_old lat clock newest buf -> 0 <= lat ->
  drain fuel lat clock k buf next = Some (evts, buf', nx) ->
  (forall q, buf' !! q <> None -> q = newest) /\
  (length evts + size buf' = size buf)%nat.
Proof.
  revert k buf next evts. induction fuel as [| fuel IH]; intros k buf next evts Hold Hlat H;
    [discriminate |]. cbn [drain] in H. destruct (buf !! next) as [b |] eqn:Hb.
  - destruct (drain fuel lat clock (S k) _ _) as [[[e b'] q] |] eqn:Hd; simpl in H; [| discriminate].
    injection H as <- <- <-. apply IH in Hd as [Hq Hl]; [| | exact Hlat].
    + split; [exact Hq |]. simpl. rewrite Hl.
      rewrite <- (insert_delete_id buf next b Hb) at 2.
      rewrite map_size_insert_None by apply lookup_delete_eq. reflexivity.
    + intros q' b0 [_ Hq]%lookup_delete_Some. eauto.
  - destruct (first_entry buf) as [[j b] |] eqn:Hf.
    + apply first_entry_Some in Hf as [Hj Hmin].
      case_test_in H; [eauto |]. injection H as <- <- <-. split; [| reflexivity].
      destruct (Hold j b Hj) as [-> | [_ Ho]]; [| specialize (Ho k); lia].
      intros q Hq. destruct (buf !! q) as [b' |] eqn:Hqb; [| contradiction].
      destruct (Hold q b' Hqb) as [-> | [Hlt _]]; [reflexivity |].
      specialize (Hmin q b' Hqb). lia.
    + apply first_entry_None in Hf as ->. injection H as <- <- <-.
      split; [intros q []; apply lookup_empty | reflexivity].
Qed.

(** A timed out gap is skipped: when a packet arrives with a higher sequence number than
    everything buffered, and the buffered packets are older than the latency bound, the
    stream emits all of them; at most the arriving packet stays buffered. *)
Theorem receive_skips_gap s p now clock s' evts :
  let seq := RtpHeader.sequence_number (RtpPacket.header p) in
  remote_ssrc s = Some (RtpHeader.ssrc (RtpPacket.header p)) ->
  next_seq s <> None -> 0 <= max_latency s ->
  (forall q b, jitter_buffer s !! q = Some b ->
     q < seq /\ forall i, max_latency s < clock i - received_at b) ->
  receive_rtp_packet s p now clock = Some (s', evts) ->
  (forall q, jitter_buffer s' !! q <> None -> q = seq) /\
  (length evts + size (jitter_buffer s') = S (size (jitter_buffer s)))%nat.
Proof.
  intros seq Hr Hn Hlat Hold H. unfold receive_rtp_packet in H. fold seq in H.
  assert (Hnew : jitter_buffer s !! seq = None).
  { destruct (jitter_buffer s !! seq) as [b |] eqn:Hb; [| reflexivity].
    destruct (Hold seq b Hb). lia. }
  rewrite Hr, Z.eqb_refl, Hnew in H. cbn [negb is_some] in H.
  unfold process_buffer in H. cbn [next_seq jitter_buffer max_latency] in H.
  destruct (next_seq s) as [nx |]; [| contradiction].
  destruct (drain _ _ _ _ _ _) as [[[e b'] q] |] eqn:Hd; simpl in H; [| discriminate].
  injection H as <- <-. apply (drain_flush _ _ _ seq) in Hd as [Hq Hl]; [| | exact Hlat].
  - split; [exact Hq |]. simpl. rewrite Hl. apply map_size_insert_None, Hnew.
  - intros q' b Hqb. apply lookup_insert_Some in Hqb as [[<- _] | [_ Hqb]]; [auto |].
    right. exact (Hold q' b Hqb).
Qed.

(** Packet 65535 is lost; 0 waits and is emitted when 2 arrives 300 ms later. *)
Definition stalled : t :=
  mk (RtpCodec.new 96 90000) (Some 9) RxTracker.initial 0 0
     {[0 := buffered (sample_pk 2) 0]} (Some 65535) 200000000.

Lemma receive_skips_gap_witness :
  exists s' evts, receive_rtp_packet stalled (sample_pk 4) 300000000 (at_ms 300) = Some (s', evts) /\
    (forall q, jitter_buffer s' !! q <> None -> q = 2) /\
    (length evts + size (jitter_buffer s') = 2)%nat.
Proof.
  destruct (receive_rtp_packet stalled (sample_pk 4) 300000000 (at_ms 300))
    as [[s' evts] |] eqn:H; [| vm_compute in H; discriminate H].
  exists s', evts. split; [reflexivity |].
  refine (receive_skips_gap stalled (sample_pk 4) 300000000 (at_ms 300) s' evts _ _ _ _ H).
  - reflexivity.
  - discriminate.
  - simpl. lia.
  - intros q b Hq. cbn [jitter_buffer stalled] in Hq.
    apply lookup_singleton_Some in Hq as [<- <-]. split; [reflexivity | intros i; reflexivity].
Defined.

(** A duplicate of a packet that was already emitted is not recognised: it waits in the
    buffer under its old number, is emitted a second time after the latency bound, and the
    stream's position goes back to it, so that the following packets wait as if packets
    were missing. *)
Theorem late_duplicate_moves_back :
  let arrivals := [(0%nat, 0, at_ms 0); (1%nat, 0, at_ms 0); (0%nat, 0, at_ms 0);
                   (2%nat, 300000000, at_ms 300); (3%nat, 300000000, at_ms 300)] in
  exists s', receive_offsets sample_pk (new sample_cfg 0) arrivals
      = Some (s', ev sample_pk <$> [0; 1; 2; 0]%nat) /\
    next_seq s' = Some (key 65534 1) /\
    is_some (jitter_buffer s' !! key 65534 3) = true.
Proof. eexists. split; [vm_compute; reflexivity |]. split; vm_compute; reflexivity. Qed.
