(* ===== verification/RtpSession.v ===== *)
(** * RTP sessions (src/rtp_session)

    Send streams, and the session that owns the receive and send streams: registration,
    the body of the inbound loop (demultiplexing, SRTP, routing by source and payload
    type), RTCP handling, the periodic RTCP report and the sending of payloads. The loop
    bodies are functions from state to state; [step] interleaves them. Clock readings,
    random numbers, the result of [send_to] and the iteration order of the hash maps are
    arguments. A poisoned lock is not modelled: no operation panics while holding one. *)

From stdpp Require Import prelude gmap strings.
From Stdlib Require Import ZArith Lia.
From S2P Require Import Prelude Utf8 Text Rtp Rtcp Trackers Srtp RecvStream.
Local Open Scope Z_scope.

Module NetworkMetrics.
Record t : Type := mk {
  round_trip_time : Z;  (* milliseconds *)
  fraction_lost : Z;
  packets_lost : Z;
  highest_sequence_number : Z }.

Definition from_tracker (tracker : TxTracker.t) (rb : ReportBlock.t) : option t :=
  (fun rtt_ms => mk rtt_ms (TxTracker.remote_fraction_lost tracker)
                    (TxTracker.remote_cum_lost tracker)
                    (ReportBlock.highest_seq_no_received rb)) <$> TxTracker.rtt_ms tracker.
End NetworkMetrics.

(** The events of the engine that the session and the congestion controller send *)
Inductive EngineEvent : Type :=
| EvRtpIn (r : RtpIn.t)
| EvNetworkMetrics (m : NetworkMetrics.t)
| EvStatus (msg : bytes)
| EvUpdateBitrate (bps : Z).

Module RtpSendConfig.
Record t : Type := mk { codec : RtpCodec.t; local_ssrc : Z }.
Definition new (codec : RtpCodec.t) (random : Z) : t := mk codec random.
Definition with_ssrc (codec : RtpCodec.t) (ssrc : Z) : t := mk codec ssrc.
End RtpSendConfig.

Inductive RtpSendError : Type :=
| Network
| SendRtp (e : RtpError)
| SRTP (e : SrtpError).

(** What one call reads from its surroundings *)
Record readings : Type := { now : Z; clock : nat -> Z; ntp : Z * Z }.

(** ** Send streams *)
Module RtpSendStream.
Record t : Type := mk {
  codec : RtpCodec.t;
  local_ssrc : Z;
  seq : Z;
  timestamp : Z;
  packet_count : Z;
  octet_count : Z;
  last_sr_built : Z;
  last_pkt_sent : Z;
  tx : TxTracker.t }.

Definition new (cfg : RtpSendConfig.t) (random_seq random_ts : Z) (e : readings) : t :=
  mk (RtpSendConfig.codec cfg) (RtpSendConfig.local_ssrc cfg) (wrap16 random_seq) random_ts
     0 0 (now e) (now e) TxTracker.initial.

Definition advance_timestamp (s : t) (samples : Z) : t :=
  mk (codec s) (local_ssrc s) (seq s) (wrap32 (timestamp s + samples)) (packet_count s)
     (octet_count s) (last_sr_built s) (last_pkt_sent s) (tx s).

Definition set_timestamp (s : t) (ts : Z) : t :=
  mk (codec s) (local_ssrc s) (seq s) ts (packet_count s) (octet_count s)
     (last_sr_built s) (last_pkt_sent s) (tx s).

Definition maybe_build_sr (s : t) (e : readings) : t * option SenderReport.t :=
  if last_pkt_sent s <=? last_sr_built s then (s, None)
  else
    let '(ntp_most_sw, now_least_sw) := ntp e in
    let sr := SenderReport.new (local_ssrc s)
      (SenderInfo.mk ntp_most_sw now_least_sw (timestamp s) (packet_count s) (octet_count s)) [] in
    (mk (codec s) (local_ssrc s) (seq s) (timestamp s) (packet_count s) (octet_count s)
        (now e) (last_pkt_sent s) (TxTracker.mark_sr_sent (tx s) ntp_most_sw now_least_sw),
     Some sr).

Definition on_report_block (s : t) (rb : ReportBlock.t) (arrival_ntp_compact : Z) (e : readings)
  : t * option NetworkMetrics.t :=
  let tx' := TxTracker.on_report_block (tx s) rb arrival_ntp_compact (now e) in
  (mk (codec s) (local_ssrc s) (seq s) (timestamp s) (packet_count s) (octet_count s)
      (last_sr_built s) (last_pkt_sent s) tx', NetworkMetrics.from_tracker tx' rb).

Section crypto.
Variable keystream : bytes -> bytes -> nat -> bytes.
Variable hmac_sha1 : bytes -> bytes -> bytes.

(** The SRTP context is shared with the other send streams; [send_ok] is the result of
    [send_to]. Returns the datagram handed to the socket, if any. *)
Definition send_rtp_payload (s : t) (ctx : option SrtpContext.t) (payload : bytes)
    (ts : Z) (marker : bool) (send_ok : bool) (e : readings)
  : t * option SrtpContext.t * option bytes * outcome RtpSendError unit :=
  let pkt := RtpPacket.simple (RtpCodec.payload_type (codec s)) marker (seq s) ts
               (local_ssrc s) payload in
  match RtpPacket.encode pkt with
  | Err err => (s, ctx, None, Err (SendRtp err))
  | Panic => (s, ctx, None, Panic)
  | Ok encoded =>
      let '(ctx, encoded, res) :=
        match ctx with
        | Some c =>
            let '(c, encoded, res) :=
              SrtpContext.protect keystream hmac_sha1 c (local_ssrc s) encoded in
            (Some c, encoded, map_err SRTP res)
        | None => (None, encoded, Ok ())
        end in
      match res with
      | Err err => (s, ctx, None, Err err)
      | Panic => (s, ctx, None, Panic)
      | Ok _ =>
          if negb send_ok then (s, ctx, Some encoded, Err Network)
          else
            (mk (codec s) (local_ssrc s) (wrap16 (seq s + 1)) ts (wrap32 (packet_count s + 1))
                (wrap32 (octet_count s + wrap32 (Z.of_nat (length payload))))
                (last_sr_built s) (now e) (tx s),
             ctx, Some encoded, Ok ())
      end
  end.
End crypto.
End RtpSendStream.

Inductive RxTrackerError : Type := SeqExt.
Inductive RtpRecvError : Type := RxTrackerErr (e : RxTrackerError).

Inductive RtpSessionError : Type :=
| SessRtcp (e : RtcpError)
| SessRtp (e : RtpError)
| SendStream (source : RtpSendError) (ssrc : Z)
| SendStreamMissing (ssrc : Z)
| RecvStreamErr (source : RtpRecvError) (ssrc : Z)
| MutexPoisoned
| EmptyMediaReceiver.

Module RtpPayloadChunk.
Record t : Type := mk { bytes_of : bytes; marker : bool }.
End RtpPayloadChunk.

Module OutboundTrackHandle.
Record t : Type := mk { local_ssrc : Z; codec : RtpCodec.t }.
Definition payload_type (h : t) : Z := RtpCodec.payload_type (codec h).
End OutboundTrackHandle.

(** [format!("{:#010x}", v)] *)
Definition fmt_hex32 (v : Z) : bytes :=
  lit "0x" ++ ((fun k => hex_digit (Z.land (Z.shiftr v (4 * Z.of_nat k)) 15))
               <$> [7; 6; 5; 4; 3; 2; 1; 0]%nat).

(** [Vec::swap_remove] *)
Definition swap_remove {A} (l : list A) (i : nat) : list A :=
  match last l with
  | Some x => take (length l - 1) (<[i := x]> l)
  | None => l
  end.

(** ** Demultiplexing *)
Definition is_rtcp (pkt : bytes) : bool :=
  if (length pkt <? 4)%nat then false
  else
    match pkt with
    | b0 :: b1 :: _ =>
        if negb (Z.shiftr b0 6 =? 2) then false else (200 <=? b1) && (b1 <=? 206)
    | _ => false
    end.

(** ** The session *)
Module RtpSession.
Record t : Type := mk {
  recv_streams : gmap Z RtpRecvStream.t;
  pending_recv : list RtpRecvStream.t;
  send_streams : gmap Z RtpSendStream.t;
  run : bool;
  rx_media : bool;  (* the receiver of the media channel is still held *)
  local_rtcp_ssrc : Z;
  cname : bytes;
  srtp_inbound : option SrtpContext.t;
  srtp_outbound : option SrtpContext.t }.

Definition with_recv (s : t) (m : gmap Z RtpRecvStream.t) : t :=
  mk m (pending_recv s) (send_streams s) (run s) (rx_media s) (local_rtcp_ssrc s) (cname s)
     (srtp_inbound s) (srtp_outbound s).
Definition with_pending (s : t) (l : list RtpRecvStream.t) : t :=
  mk (recv_streams s) l (send_streams s) (run s) (rx_media s) (local_rtcp_ssrc s) (cname s)
     (srtp_inbound s) (srtp_outbound s).
Definition with_send (s : t) (m : gmap Z RtpSendStream.t) (out : option SrtpContext.t) : t :=
  mk (recv_streams s) (pending_recv s) m (run s) (rx_media s) (local_rtcp_ssrc s) (cname s)
     (srtp_inbound s) out.
Definition with_inbound (s : t) (c : option SrtpContext.t) : t :=
  mk (recv_streams s) (pending_recv s) (send_streams s) (run s) (rx_media s)
     (local_rtcp_ssrc s) (cname s) c (srtp_outbound s).

Definition add_recv_stream (s : t) (cfg : RtpRecvConfig.t) (e : readings) : t :=
  let st := RtpRecvStream.new cfg (now e) in
  match RtpRecvConfig.remote_ssrc cfg with
  | Some ssrc => with_recv s (<[ssrc := st]> (recv_streams s))
  | None => with_pending s (pending_recv s ++ [st])
  end.

Definition add_recv_streams (s : t) (cfgs : list RtpRecvConfig.t) (e : readings) : t :=
  foldl (fun s cfg => add_recv_stream s cfg e) s cfgs.

(** [rnd] are the random initial sequence number and timestamp. *)
Definition add_send_stream (s : t) (cfg : RtpSendConfig.t) (rnd : Z * Z) (e : readings)
  : t * OutboundTrackHandle.t :=
  let ssrc := RtpSendConfig.local_ssrc cfg in
  let st := RtpSendStream.new cfg rnd.1 rnd.2 e in
  (with_send s (<[ssrc := st]> (send_streams s)) (srtp_outbound s),
   OutboundTrackHandle.mk ssrc (RtpSendConfig.codec cfg)).

Fixpoint add_send_streams (s : t) (cfgs : list (RtpSendConfig.t * (Z * Z))) (e : readings)
  : t * list OutboundTrackHandle.t :=
  match cfgs with
  | [] => (s, [])
  | (cfg, rnd) :: cfgs' =>
      let '(s, h) := add_send_stream s cfg rnd e in
      let '(s, hs) := add_send_streams s cfgs' e in (s, h :: hs)
  end.

Definition register_outbound_track (s : t) (codec : RtpCodec.t) (random_ssrc : Z)
    (rnd : Z * Z) (e : readings) : t * OutboundTrackHandle.t :=
  add_send_stream s (RtpSendConfig.new codec random_ssrc) rnd e.

(** [RtpSession::new]; the SRTP contexts come from [SrtpContext::new]. *)
Definition new (initial_recv : list RtpRecvConfig.t)
    (initial_send : list (RtpSendConfig.t * (Z * Z))) (random_ssrc : Z)
    (srtp : option (SrtpContext.t * SrtpContext.t)) (e : readings) : t :=
  let s := mk ∅ [] ∅ false true random_ssrc (lit "roomrtc@local") (fst <$> srtp) (snd <$> srtp) in
  (add_send_streams (add_recv_streams s initial_recv e) initial_send e).1.

(** The two threads are the step functions below. *)
Definition start (s : t) : t * outcome RtpSessionError unit :=
  (mk (recv_streams s) (pending_recv s) (send_streams s) true false (local_rtcp_ssrc s)
      (cname s) (srtp_inbound s) (srtp_outbound s),
   if rx_media s then Ok () else Err EmptyMediaReceiver).

Definition stop (s : t) : t :=
  mk (recv_streams s) (pending_recv s) (send_streams s) false (rx_media s)
     (local_rtcp_ssrc s) (cname s) (srtp_inbound s) (srtp_outbound s).

Definition has_recv_ssrc (s : t) (remote_ssrc : Z) : bool :=
  is_some (recv_streams s !! remote_ssrc).

(** The datagram of [send_pli] *)
Definition send_pli (s : t) (remote_ssrc : Z) : outcome RtcpError bytes :=
  encode_into (PictureLossIndication.new (local_rtcp_ssrc s) remote_ssrc) [].

(** *** RTCP *)
Fixpoint deliver_reports (sends : gmap Z RtpSendStream.t) (rbs : list ReportBlock.t)
    (arrival : Z) (e : readings) : gmap Z RtpSendStream.t * list EngineEvent :=
  match rbs with
  | [] => (sends, [])
  | rb :: rbs' =>
      let '(sends, evs) :=
        match sends !! ReportBlock.ssrc rb with
        | Some st =>
            let '(st, metrics) := RtpSendStream.on_report_block st rb arrival e in
            (<[ReportBlock.ssrc rb := st]> sends,
             match metrics with Some m => [EvNetworkMetrics m] | None => [] end)
        | None => (sends, [])
        end in
      let '(sends, evs') := deliver_reports sends rbs' arrival e in (sends, evs ++ evs')
  end.

Fixpoint remove_sources (recvs : gmap Z RtpRecvStream.t) (sources : list Z)
  : gmap Z RtpRecvStream.t * list EngineEvent :=
  match sources with
  | [] => (recvs, [])
  | ssrc :: sources' =>
      let evs := if is_some (recvs !! ssrc)
                 then [EvStatus (lit "[RTCP][BYE] removed recv stream ssrc=" ++ fmt_hex32 ssrc)]
                 else [] in
      let '(recvs, evs') := remove_sources (delete ssrc recvs) sources' in (recvs, evs ++ evs')
  end.

Definition handle_packet (s : t) (pkt : RtcpPacket) (e : readings) : t * list EngineEvent :=
  let '(msw, lsw) := ntp e in
  let arrival := ntp_to_compact msw lsw in
  match pkt with
  | PSr sr =>
      let s := match recv_streams s !! SenderReport.ssrc sr with
               | Some st =>
                   with_recv s (<[SenderReport.ssrc sr :=
                     RtpRecvStream.on_sender_report st (SenderReport.ssrc sr)
                       (SenderReport.info sr) (msw, lsw) (now e)]> (recv_streams s))
               | None => s
               end in
      let '(sends, evs) := deliver_reports (send_streams s) (SenderReport.reports sr) arrival e in
      (with_send s sends (srtp_outbound s), evs)
  | PRr rr =>
      let '(sends, evs) := deliver_reports (send_streams s) (ReceiverReport.reports rr) arrival e in
      (with_send s sends (srtp_outbound s), evs)
  | PBye bye =>
      let '(recvs, evs) := remove_sources (recv_streams s) (Bye.sources bye) in
      (with_recv s recvs, evs)
  | PSdes _ | PApp _ | PNack _ | PPli _ => (s, [])
  end.

Fixpoint handle_packets (s : t) (pkts : list RtcpPacket) (e : readings) : t * list EngineEvent :=
  match pkts with
  | [] => (s, [])
  | p :: pkts' =>
      let '(s, evs) := handle_packet s p e in
      let '(s, evs') := handle_packets s pkts' e in (s, evs ++ evs')
  end.

Definition handle_rtcp (s : t) (buf : bytes) (e : readings)
  : t * list EngineEvent * outcome RtpSessionError unit :=
  match decode_compound buf with
  | Ok pkts => let '(s, evs) := handle_packets s pkts e in (s, evs, Ok ())
  | Err err => (s, [], Err (SessRtcp err))
  | Panic => (s, [], Panic)
  end.

Section crypto.
Variable keystream : bytes -> bytes -> nat -> bytes.
Variable hmac_sha1 : bytes -> bytes -> bytes.

(** *** The inbound loop *)

(** [pend.iter().position(|s| s.codec.payload_type == pt)], with the stream found *)
Definition find_pending (pt : Z) (l : list RtpRecvStream.t) : option (nat * RtpRecvStream.t) :=
  list_find (fun st : RtpRecvStream.t =>
    RtpCodec.payload_type (RtpRecvStream.codec st) = pt) l.

(** Routing of a decoded packet: a known source, else the first pending stream with the
    payload type, which moves to the map; else the packet is dropped. *)
Definition route (s : t) (rtp : RtpPacket.t) (e : readings) : option (t * list EngineEvent) :=
  let ssrc := RtpHeader.ssrc (RtpPacket.header rtp) in
  let pt := RtpHeader.payload_type (RtpPacket.header rtp) in
  match recv_streams s !! ssrc with
  | Some st =>
      '(st, evs) ← RtpRecvStream.receive_rtp_packet st rtp (now e) (clock e);
      Some (with_recv s (<[ssrc := st]> (recv_streams s)), map EvRtpIn evs)
  | None =>
      match find_pending pt (pending_recv s) with
      | Some (idx, st) =>
          let st := RtpRecvStream.mk (RtpRecvStream.codec st) (Some ssrc) (RtpRecvStream.rx st)
                      (RtpRecvStream.epoch st) (RtpRecvStream.last_activity st)
                      (RtpRecvStream.jitter_buffer st) (RtpRecvStream.next_seq st)
                      (RtpRecvStream.max_latency st) in
          '(st, evs) ← RtpRecvStream.receive_rtp_packet st rtp (now e) (clock e);
          Some (with_recv (with_pending s (swap_remove (pending_recv s) idx))
                  (<[ssrc := st]> (recv_streams s)), map EvRtpIn evs)
      | None => Some (s, [])
      end
  end.

(** One datagram from the media channel; [None] is a loop that does not end. *)
Definition on_datagram (s : t) (pkt : bytes) (e : readings) : option (t * list EngineEvent) :=
  if (length pkt <? 2)%nat then Some (s, [])
  else if is_rtcp pkt then let '(s, evs, _) := handle_rtcp s pkt e in Some (s, evs)
  else if (length pkt <? 12)%nat || negb (Z.shiftr (default 0 (pkt !! 0%nat)) 6 =? 2)
  then Some (s, [])
  else
    let '(s, pkt, ok) :=
      match srtp_inbound s with
      | Some ctx =>
          let '(ctx, pkt, res) := SrtpContext.unprotect keystream hmac_sha1 ctx pkt in
          (with_inbound s (Some ctx), pkt, match res with Ok _ => true | _ => false end)
      | None => (s, pkt, true)
      end in
    if negb ok then Some (s, [])
    else
      match RtpPacket.decode pkt with
      | Ok rtp => route s rtp e
      | _ => Some (s, [])
      end.

(** *** Sending *)
Definition send_rtp_payload (s : t) (local_ssrc : Z) (payload : bytes) (ts : Z)
    (marker : bool) (send_ok : bool) (e : readings)
  : t * option bytes * outcome RtpSessionError unit :=
  match send_streams s !! local_ssrc with
  | None => (s, None, Err (SendStreamMissing local_ssrc))
  | Some st =>
      let '(st, ctx, dg, res) := RtpSendStream.send_rtp_payload keystream hmac_sha1 st
                                   (srtp_outbound s) payload ts marker send_ok e in
      (with_send s (<[local_ssrc := st]> (send_streams s)) ctx, dg,
       map_err (fun err => SendStream err local_ssrc) res)
  end.

(** The chunks of a frame; [oks] are the results of [send_to]. Sending stops at the first
    error. *)
Fixpoint send_rtp_chunks_for_frame (s : t) (local_ssrc : Z)
    (chunks : list (RtpPayloadChunk.t * bool)) (ts : Z) (e : readings)
  : t * list bytes * outcome RtpSessionError unit :=
  match chunks with
  | [] => (s, [], match send_streams s !! local_ssrc with
                  | Some _ => Ok ()
                  | None => Err (SendStreamMissing local_ssrc)
                  end)
  | (ch, ok) :: chunks' =>
      let '(s, dg, res) := send_rtp_payload s local_ssrc (RtpPayloadChunk.bytes_of ch) ts
                             (RtpPayloadChunk.marker ch) ok e in
      let sent := match dg with Some b => [b] | None => [] end in
      match res with
      | Ok _ =>
          let '(s, dgs, res) := send_rtp_chunks_for_frame s local_ssrc chunks' ts e in
          (s, sent ++ dgs, res)
      | other => (s, sent, other)
      end
  end.
End crypto.

(** *** The periodic report *)

(** Sender reports of the streams, in the iteration order [order] of the hash map *)
Fixpoint sender_reports (sends : gmap Z RtpSendStream.t) (order : list Z) (e : readings)
  : gmap Z RtpSendStream.t * list SenderReport.t :=
  match order with
  | [] => (sends, [])
  | k :: order' =>
      match sends !! k with
      | Some st =>
          let '(st, sr) := RtpSendStream.maybe_build_sr st e in
          let '(sends, srs) := sender_reports (<[k := st]> sends) order' e in
          (sends, match sr with Some r => r :: srs | None => srs end)
      | None => sender_reports sends order' e
      end
  end.

Fixpoint report_blocks (recvs : gmap Z RtpRecvStream.t) (order : list Z) (e : readings)
  : outcome Empty_set (gmap Z RtpRecvStream.t * list ReportBlock.t) :=
  match order with
  | [] => Ok (recvs, [])
  | k :: order' =>
      match recvs !! k with
      | Some st =>
          '(st, rb) ← RtpRecvStream.build_report_block st (ntp e);
          '(recvs, rbs) ← report_blocks (<[k := st]> recvs) order' e;
          Ok (recvs, match rb with Some b => b :: rbs | None => rbs end)
      | None => report_blocks recvs order' e
      end
  end.

(** [x.encode_into(&mut v)]; on an error nothing is appended to the compound *)
Definition encoded {T} `{RtcpPacketType T} (x : T) : bytes :=
  match encode_into x [] with Ok b => b | _ => [] end.

Definition rtcp_tick (s : t) (order_send order_recv : list Z) (e : readings)
  : outcome Empty_set (t * option bytes) :=
  let '(sends, srs) := sender_reports (send_streams s) order_send e in
  let comp_pkt := concat (encoded <$> srs) in
  '(recvs, blocks) ← report_blocks (recv_streams s) order_recv e;
  let comp_pkt :=
    if (length blocks =? 0)%nat then comp_pkt
    else comp_pkt ++ encoded (ReceiverReport.new (local_rtcp_ssrc s) blocks) in
  let comp_pkt := comp_pkt ++ encoded (Sdes.cname (local_rtcp_ssrc s) (cname s)) in
  Ok (with_send (with_recv s recvs) sends (srtp_outbound s),
      if (length comp_pkt =? 0)%nat then None else Some comp_pkt).
End RtpSession.
Import RtpSession.

(** ** Demultiplexing of RTP and RTCP *)
Lemma version_bits b : u8 b -> Z.land (Z.shiftr b 6) 3 = RTP_VERSION -> Z.shiftr b 6 = 2.
Proof. intros Hb. by_range 256%nat b. Qed.

Lemma m_pt_rtcp m pt : 0 <= pt < 128 ->
  (200 <=? RtpPacket.m_pt_byte m pt) && (RtpPacket.m_pt_byte m pt <=? 206)
  = m && (72 <=? pt) && (pt <=? 78).
Proof. intros Hp. destruct m; by_range 128%nat pt. Qed.

Lemma encode_head p bs : RtpPacket.wire_ok p -> RtpPacket.encode p = Ok bs ->
  exists a rest, bs = a :: RtpPacket.m_pt_byte (RtpHeader.marker (RtpPacket.header p))
                              (RtpHeader.payload_type (RtpPacket.header p)) :: rest /\
    (10 <= length rest)%nat /\ u8 a /\ Z.shiftr a 6 = 2.
Proof.
  intros Hwf He. destruct (encode_then_decode p Hwf) as (bs' & He' & _).
  unfold RtpPacket.encode in He. bind_inv He. injection He as <-.
  destruct Hwf as (Hv' & _ & _ & _ & _ & _ & Hcc & _). rewrite Hv'.
  eexists _, _. split; [simpl; reflexivity |]. split; [len |].
  change 15 with (Z.ones 4). rewrite Z.land_ones by lia. change (2 ^ 4) with 16.
  rewrite Z.mod_small by lia.
  pose proof (RtpPacket.vpxcc_parse (0 <? RtpPacket.padding_bytes p)
    (is_some (RtpHeader.header_extension (RtpPacket.header p)))
    (Z.of_nat (length (RtpHeader.csrcs (RtpPacket.header p)))) ltac:(lia)) as (Hu & Hver & _).
  split; [exact Hu | apply version_bits; assumption].
Qed.

Lemma is_rtcp_rtp p bs : RtpPacket.wire_ok p -> RtpPacket.encode p = Ok bs ->
  is_rtcp bs = RtpHeader.marker (RtpPacket.header p)
    && (72 <=? RtpHeader.payload_type (RtpPacket.header p))
    && (RtpHeader.payload_type (RtpPacket.header p) <=? 78).
Proof.
  intros Hwf He. destruct (encode_head p bs Hwf He) as (a & rest & -> & Hl & _ & Ha).
  unfold is_rtcp. case_test; [exfalso; simpl in *; lia |]. rewrite Ha. cbn [Z.eqb negb].
  apply m_pt_rtcp. apply Hwf.
Qed.

Lemma decode_one_pt hdr payload p : decode_one hdr payload = Ok p ->
  200 <= CommonHeader.pt hdr <= 206.
Proof.
  unfold decode_one, PT_SR, PT_RR, PT_SDES, PT_BYE, PT_APP, PT_RTPFB, PT_PSFB. intros H.
  repeat (case_test_in H; [lia |]). discriminate.
Qed.

Lemma is_rtcp_compound bs pkts : decode_compound bs = Ok pkts -> is_rtcp bs = true.
Proof.
  unfold decode_compound. intros H. case_test_in H; [discriminate |].
  bind_inv H. clear H. cbn [decode_loop] in Hv. case_test_in Hv; [| lia].
  rewrite slice_from_0 in Hv. cbn [mbind outcome_bind] in Hv. bind_inv Hv.
  destruct v0 as [hdr total]. case_test_in Hv; [discriminate |].
  bind_inv Hv. bind_inv Hv. bind_inv Hv. bind_inv Hv. apply decode_one_pt in Hv4.
  unfold CommonHeader.decode in Hv0. case_test_in Hv0; [discriminate |].
  destruct bs as [| a [| b rest]]; [simpl in *; lia | simpl in *; lia |].
  unfold is_rtcp. case_test; [simpl in *; lia |].
  rewrite get_idx_cons_S, !get_idx_cons_0 in Hv0. cbn [mbind outcome_bind] in Hv0.
  case_test_in Hv0; [| discriminate]. bind_inv Hv0. case_test_in Hv0; [discriminate |].
  injection Hv0 as <- _.
  simpl in Hv4. unfold RTCP_VERSION in *.
  match goal with H : Z.shiftr a 6 = 2 |- _ => rewrite H end. cbn [Z.eqb negb].
  destruct (Z.leb_spec 200 b), (Z.leb_spec b 206); try lia. reflexivity.
Qed.

(** Demultiplexing is exact: every compound that decodes is classified as RTCP, and an
    encoded RTP packet is taken for RTCP only if it has the marker bit and a payload type
    between 72 and 78. *)
Theorem demultiplexing_exact :
  (forall bs pkts, decode_compound bs = Ok pkts -> is_rtcp bs = true) /\
  (forall p bs, RtpPacket.wire_ok p -> RtpPacket.encode p = Ok bs ->
     is_rtcp bs = RtpHeader.marker (RtpPacket.header p)
       && (72 <=? RtpHeader.payload_type (RtpPacket.header p))
       && (RtpHeader.payload_type (RtpPacket.header p) <=? 78)).
Proof. split; [exact is_rtcp_compound | exact is_rtcp_rtp]. Qed.

(** ** The session invariant *)
Record session_ok (s : t) : Prop := {
  so_recv : forall k st, recv_streams s !! k = Some st -> RtpRecvStream.remote_ssrc st = Some k;
  so_pending : Forall (fun st => RtpRecvStream.remote_ssrc st = None) (pending_recv s);
  so_send : forall k st, send_streams s !! k = Some st -> RtpSendStream.local_ssrc st = k }.

Lemma receive_ssrc st p now clock st' evs k : RtpRecvStream.remote_ssrc st = Some k ->
  RtpRecvStream.receive_rtp_packet st p now clock = Some (st', evs) ->
  RtpRecvStream.remote_ssrc st' = Some k.
Proof.
  intros Hk. unfold RtpRecvStream.receive_rtp_packet. rewrite Hk.
  case_test; [| intros [= <- _]; reflexivity]. case_test; [intros [= <- _]; reflexivity |].
  unfold RtpRecvStream.process_buffer. cbn [RtpRecvStream.next_seq].
  destruct (match RtpRecvStream.next_seq st with Some _ => _ | None => _ end);
    [| intros [= <- _]; reflexivity].
  destruct (RtpRecvStream.drain _ _ _ _ _ _) as [[[? ?] ?] |]; simpl; [| discriminate].
  intros [= <- _]. reflexivity.
Qed.

Lemma insert_keyed {A} (m : gmap Z A) (key_of : A -> option Z) k a :
  (forall j x, m !! j = Some x -> key_of x = Some j) -> key_of a = Some k ->
  forall j x, <[k := a]> m !! j = Some x -> key_of x = Some j.
Proof.
  intros Hm Ha j x [[<- <-] | [_ Hx]]%lookup_insert_Some; [exact Ha | exact (Hm j x Hx)].
Qed.

Lemma insert_send (m : gmap Z RtpSendStream.t) k a :
  (forall j x, m !! j = Some x -> RtpSendStream.local_ssrc x = j) ->
  RtpSendStream.local_ssrc a = k ->
  forall j x, <[k := a]> m !! j = Some x -> RtpSendStream.local_ssrc x = j.
Proof.
  intros Hm Ha j x [[<- <-] | [_ Hx]]%lookup_insert_Some; [exact Ha | exact (Hm j x Hx)].
Qed.

Lemma swap_remove_Forall {A} (P : A -> Prop) l i : Forall P l -> Forall P (swap_remove l i).
Proof.
  intros Hl. unfold swap_remove. destruct (last l) as [x |] eqn:Hx; [| exact Hl].
  apply Forall_take, Forall_insert; [exact Hl |].
  apply (Forall_lookup_1 _ _ _ _ Hl (eq_trans (eq_sym (last_lookup l)) Hx)).
Qed.

Lemma ok_add_recv s cfg e : session_ok s -> session_ok (add_recv_stream s cfg e).
Proof.
  intros []. unfold add_recv_stream. destruct (RtpRecvConfig.remote_ssrc cfg) eqn:Hc;
    split; simpl; auto.
  - apply (insert_keyed _ RtpRecvStream.remote_ssrc); assumption.
  - apply Forall_app. split; [assumption | constructor; [assumption | constructor]].
Qed.

Lemma ok_add_send s cfg rnd e : session_ok s -> session_ok (add_send_stream s cfg rnd e).1.
Proof. intros []. split; simpl; auto. apply insert_send; auto. Qed.

Lemma deliver_reports_keyed rbs sends arrival e :
  (forall k st, sends !! k = Some st -> RtpSendStream.local_ssrc st = k) ->
  forall k st, (deliver_reports sends rbs arrival e).1 !! k = Some st ->
    RtpSendStream.local_ssrc st = k.
Proof.
  revert sends. induction rbs as [| rb rbs IH]; intros sends Hs k st; simpl; [apply Hs |].
  destruct (sends !! ReportBlock.ssrc rb) as [x |] eqn:Hx.
  - specialize (IH (<[ReportBlock.ssrc rb := (RtpSendStream.on_report_block x rb arrival e).1]> sends)).
    unfold RtpSendStream.on_report_block in *. cbn [fst] in IH.
    destruct (deliver_reports _ rbs arrival e) as [m evs]. simpl in *. apply IH.
    apply insert_send; [exact Hs | exact (Hs _ _ Hx)].
  - specialize (IH sends Hs). destruct (deliver_reports sends rbs arrival e). apply IH.
Qed.

Lemma remove_sources_sub l recvs k st : (remove_sources recvs l).1 !! k = Some st ->
  recvs !! k = Some st.
Proof.
  revert recvs. induction l as [| x l IH]; intros recvs; simpl; [auto |].
  specialize (IH (delete x recvs)). destruct (remove_sources (delete x recvs) l) as [m evs].
  simpl in *. intros H. apply IH in H. apply lookup_delete_Some in H as [_ H]. exact H.
Qed.

Lemma ok_handle_packet s p e : session_ok s -> session_ok (handle_packet s p e).1.
Proof.
  intros Hok. unfold handle_packet. destruct (ntp e) as [msw lsw].
  destruct p as [sr | rr | sd | bye | ap | nk | pl]; try exact Hok.
  - set (s1 := match recv_streams s !! SenderReport.ssrc sr with Some _ => _ | None => _ end).
    assert (Hok1 : session_ok s1).
    { unfold s1. destruct (recv_streams s !! _) as [st |] eqn:Hst; [| exact Hok].
      destruct Hok. split; simpl; auto. apply (insert_keyed _ RtpRecvStream.remote_ssrc); auto.
      unfold RtpRecvStream.on_sender_report. rewrite (so_recv0 _ _ Hst), Z.eqb_refl. reflexivity. }
    destruct Hok1. pose proof (deliver_reports_keyed (SenderReport.reports sr) (send_streams s1)
      (ntp_to_compact msw lsw) e so_send0) as Hd.
    destruct (deliver_reports _ _ _ _). split; simpl; auto.
  - destruct Hok. pose proof (deliver_reports_keyed (ReceiverReport.reports rr) (send_streams s)
      (ntp_to_compact msw lsw) e so_send0) as Hd.
    destruct (deliver_reports _ _ _ _). split; simpl; auto.
  - destruct Hok. pose proof (remove_sources_sub (Bye.sources bye) (recv_streams s)) as Hd.
    destruct (remove_sources _ _). split; simpl; auto.
Qed.

Lemma ok_handle_packets pkts s e : session_ok s -> session_ok (handle_packets s pkts e).1.
Proof.
  revert s. induction pkts as [| p pkts IH]; intros s Hok; simpl; [exact Hok |].
  pose proof (ok_handle_packet s p e Hok) as H1. destruct (handle_packet s p e) as [s1 e1].
  specialize (IH s1 H1). destruct (handle_packets s1 pkts e). exact IH.
Qed.

Lemma ok_route s rtp e s' evs : session_ok s -> route s rtp e = Some (s', evs) -> session_ok s'.
Proof.
  intros Hok. unfold route. set (k := RtpHeader.ssrc _). destruct Hok.
  destruct (recv_streams s !! k) as [st |] eqn:Hst.
  - destruct (RtpRecvStream.receive_rtp_packet _ _ _ _) as [[st' ev] |] eqn:Hr; simpl;
      [| discriminate]. intros [= <- _]. split; simpl; auto.
    apply (insert_keyed _ RtpRecvStream.remote_ssrc); [assumption |].
    exact (receive_ssrc _ _ _ _ _ _ _ (so_recv0 _ _ Hst) Hr).
  - destruct (find_pending _ _) as [[idx st] |]; [| intros [= <- _]; split; assumption].
    destruct (RtpRecvStream.receive_rtp_packet _ _ _ _) as [[st' ev] |] eqn:Hr; simpl;
      [| discriminate]. intros [= <- _]. split; simpl; auto using swap_remove_Forall.
    apply (insert_keyed _ RtpRecvStream.remote_ssrc); [assumption |].
    refine (receive_ssrc _ _ _ _ _ _ _ _ Hr). reflexivity.
Qed.

Lemma sender_reports_keyed order sends e :
  (forall k st, sends !! k = Some st -> RtpSendStream.local_ssrc st = k) ->
  forall k st, (sender_reports sends order e).1 !! k = Some st -> RtpSendStream.local_ssrc st = k.
Proof.
  revert sends. induction order as [| x order IH]; intros sends Hs; simpl; [exact Hs |].
  destruct (sends !! x) as [st0 |] eqn:Hx; [| apply IH, Hs].
  assert (Hl : RtpSendStream.local_ssrc (RtpSendStream.maybe_build_sr st0 e).1 = x).
  { unfold RtpSendStream.maybe_build_sr. case_test; [apply Hs, Hx |].
    destruct (ntp e). exact (Hs _ _ Hx). }
  destruct (RtpSendStream.maybe_build_sr st0 e) as [st1 sr]. simpl in Hl.
  specialize (IH (<[x := st1]> sends) (insert_send _ _ _ Hs Hl)).
  destruct (sender_reports _ order e). exact IH.
Qed.

Lemma report_blocks_keyed order recvs e recvs' rbs :
  (forall k st, recvs !! k = Some st -> RtpRecvStream.remote_ssrc st = Some k) ->
  report_blocks recvs order e = Ok (recvs', rbs) ->
  forall k st, recvs' !! k = Some st -> RtpRecvStream.remote_ssrc st = Some k.
Proof.
  revert recvs rbs. induction order as [| x order IH]; intros recvs rbs Hs H; simpl in H;
    [injection H as <- _; exact Hs |].
  destruct (recvs !! x) as [st0 |] eqn:Hx; [| exact (IH _ _ Hs H)].
  bind_inv H. destruct v as [st1 rb]. bind_inv H. destruct v as [m l]. injection H as <- _.
  refine (IH _ _ _ Hv0). apply (insert_keyed _ RtpRecvStream.remote_ssrc); [exact Hs |].
  unfold RtpRecvStream.build_report_block in Hv. rewrite (Hs _ _ Hx) in Hv.
  bind_inv Hv. destruct v. injection Hv as <- _. reflexivity.
Qed.

Section steps.
Context (keystream : bytes -> bytes -> nat -> bytes) (hmac_sha1 : bytes -> bytes -> bytes).

(** The operations of the application, the inbound thread and the reporting thread, in any
    interleaving *)
Inductive step : t -> t -> Prop :=
| StepAddRecv s cfg e : step s (add_recv_stream s cfg e)
| StepAddSend s cfg rnd e : step s (add_send_stream s cfg rnd e).1
| StepStart s : step s (start s).1
| StepStop s : step s (stop s)
| StepDatagram s pkt e s' evs :
    on_datagram keystream hmac_sha1 s pkt e = Some (s', evs) -> step s s'
| StepPayload s ssrc payload ts marker ok e :
    step s (send_rtp_payload keystream hmac_sha1 s ssrc payload ts marker ok e).1.1
| StepTick s os orv e s' dg : rtcp_tick s os orv e = Ok (s', dg) -> step s s'.

Lemma ok_datagram s pkt e s' evs : session_ok s ->
  on_datagram keystream hmac_sha1 s pkt e = Some (s', evs) -> session_ok s'.
Proof.
  intros Hok. unfold on_datagram. case_test; [intros [= <- _]; exact Hok |].
  case_test.
  { unfold handle_rtcp. destruct (decode_compound pkt) as [pkts | |];
      [| intros [= <- _]; exact Hok ..].
    pose proof (ok_handle_packets pkts s e Hok) as Hp. destruct (handle_packets s pkts e).
    intros [= <- _]. exact Hp. }
  case_test; [intros [= <- _]; exact Hok |].
  destruct (srtp_inbound s) as [ctx |].
  - destruct (SrtpContext.unprotect _ _ ctx pkt) as [[ctx' pkt'] res].
    assert (Hok' : session_ok (with_inbound s (Some ctx'))) by (destruct Hok; split; auto).
    destruct res; cbn [negb]; try (intros [= <- _]; exact Hok').
    destruct (RtpPacket.decode pkt'); try (intros [= <- _]; exact Hok').
    apply ok_route, Hok'.
  - cbn [negb]. destruct (RtpPacket.decode pkt); try (intros [= <- _]; exact Hok).
    apply ok_route, Hok.
Qed.

Lemma ok_payload s ssrc payload ts marker ok e : session_ok s ->
  session_ok (send_rtp_payload keystream hmac_sha1 s ssrc payload ts marker ok e).1.1.
Proof.
  intros Hok. unfold send_rtp_payload.
  destruct (send_streams s !! ssrc) as [st |] eqn:Hst; [| exact Hok]. destruct Hok.
  assert (Hl : RtpSendStream.local_ssrc (RtpSendStream.send_rtp_payload keystream hmac_sha1 st
    (srtp_outbound s) payload ts marker ok e).1.1.1 = ssrc).
  { unfold RtpSendStream.send_rtp_payload.
    destruct (RtpPacket.encode _) as [enc | |]; try exact (so_send0 _ _ Hst).
    destruct (srtp_outbound s) as [c |];
      [destruct (SrtpContext.protect _ _ _ _ _) as [[c' enc'] res]; destruct res; simpl map_err |];
      try case_test; exact (so_send0 _ _ Hst). }
  destruct (RtpSendStream.send_rtp_payload _ _ _ _ _ _ _ _ _) as [[[st' ctx] dg] res].
  split; simpl; auto. apply insert_send; auto.
Qed.

Lemma ok_step s s' : session_ok s -> step s s' -> session_ok s'.
Proof.
  intros Hok Hst. destruct Hst as [s cfg e | s cfg rnd e | s | s | s pkt e s' evs H |
    s ssrc pl ts mk ok e | s os orv e s' dg H].
  - apply ok_add_recv, Hok.
  - apply ok_add_send, Hok.
  - destruct Hok; split; auto.
  - destruct Hok; split; auto.
  - exact (ok_datagram _ _ _ _ _ Hok H).
  - apply ok_payload, Hok.
  - destruct Hok. unfold rtcp_tick in H.
    pose proof (sender_reports_keyed os _ e so_send0) as Hs.
    destruct (sender_reports (send_streams s) os e) as [sends srs].
    bind_inv H. destruct v as [recvs blocks].
    injection H as <- _. split; simpl; auto. exact (report_blocks_keyed _ _ _ _ _ so_recv0 Hv).
Qed.

(** In every session reachable by any interleaving of the application, the inbound
    thread and the reporting thread, each receive stream is filed under the source it
    accepts, the pending streams accept no source yet, and each send stream is filed under
    the source it sends: so routing by the map never hands a packet to a stream that
    rejects it. *)
Theorem session_streams_keyed s0 s :
  recv_streams s0 = ∅ -> pending_recv s0 = [] -> send_streams s0 = ∅ ->
  rtc step s0 s -> session_ok s.
Proof.
  intros H1 H2 H3 Hr.
  assert (H0 : session_ok s0).
  { split; rewrite ?H1, ?H2, ?H3; [intros k st H; discriminate H | constructor |
      intros k st H; discriminate H]. }
  clear H1 H2 H3. induction Hr as [| s s1 s2 Hst _ IH]; [exact H0 |].
  apply IH, (ok_step s), Hst. exact H0.
Qed.

(** Every datagram is handled in finitely many steps, whatever its octets. *)
Lemma datagram_total s pkt e : exists s' evs,
  on_datagram keystream hmac_sha1 s pkt e = Some (s', evs).
Proof.
  assert (Hroute : forall s rtp, exists s' evs, route s rtp e = Some (s', evs)).
  { intros s1 rtp. unfold route. repeat (case_match; try (eexists _, _; reflexivity));
      match goal with |- context [RtpRecvStream.receive_rtp_packet ?a ?b ?c ?d] =>
        destruct (receive_total a b c d) as (st' & evs & ->); simpl; eauto end. }
  unfold on_datagram. case_test; [eauto |]. case_test.
  { destruct (handle_rtcp s pkt e) as [[s1 evs] r]. eauto. }
  case_test; [eauto |]. destruct (match srtp_inbound s with Some _ => _ | None => _ end)
    as [[s1 pkt1] ok]. destruct ok; cbn [negb]; [| eauto].
  destruct (RtpPacket.decode pkt1); eauto.
Qed.
End steps.

Definition sample_readings : readings := {| now := 0; clock := fun _ => 0; ntp := (0, 0) |}.
Definition empty_session : t :=
  RtpSession.new [] [] 77 None sample_readings.

Lemma session_streams_keyed_witness :
  session_ok (add_recv_stream empty_session
    (RtpRecvConfig.new (RtpCodec.new 96 90000) (Some 9)) sample_readings).
Proof.
  refine (session_streams_keyed toy_keystream toy_hmac empty_session _ eq_refl eq_refl eq_refl _).
  eapply rtc_once, StepAddRecv.
Defined.

(** ** The media path, from a payload to the peer's event *)
Section media.
Context (keystream : bytes -> bytes -> nat -> bytes) (hmac_sha1 : bytes -> bytes -> bytes).
Hypothesis keystream_length : forall k iv n, length (keystream k iv n) = n.
Hypothesis hmac_length : forall k m, length (hmac_sha1 k m) = 20%nat.

Lemma simple_ok pt marker sq ts ssrc payload : 0 <= pt < 128 -> u16 sq -> u32 ts -> u32 ssrc ->
  bytes_ok payload -> RtpPacket.wire_ok (RtpPacket.simple pt marker sq ts ssrc payload).
Proof.
  intros. unfold RtpPacket.wire_ok. simpl.
  split_and!; try assumption; try reflexivity; try lia; [apply Forall_nil_2 | discriminate | ulia].
Qed.

Lemma simple_encode pt marker sq ts ssrc payload : 0 <= pt < 128 -> bytes_ok payload ->
  exists bs, RtpPacket.encode (RtpPacket.simple pt marker sq ts ssrc payload) = Ok bs /\
    bytes_ok bs.
Proof.
  intros Hpt Hp. eexists. split; [reflexivity |].
  destruct (RtpPacket.m_pt_parse marker pt Hpt) as [Hm _]. unfold bytes_ok in *.
  repeat (apply Forall_app; split); try apply to_be_ok; try exact Hp; try apply Forall_nil_2.
  constructor; [vm_compute; intuition discriminate | constructor; [exact Hm | apply Forall_nil_2]].
Qed.

Lemma is_rtcp_prefix p q : (4 <= length p)%nat -> (4 <= length q)%nat ->
  take 2 p = take 2 q -> is_rtcp p = is_rtcp q.
Proof.
  intros Hp Hq Ht. destruct p as [| a [| b p]], q as [| c [| d q]]; simpl in *; try lia.
  injection Ht as -> ->. unfold is_rtcp. repeat case_test; simpl in *; try lia; reflexivity.
Qed.

(** A packet that is next in sequence for a stream with an empty buffer is emitted at once. *)
Lemma receive_in_order st p now clock :
  let h := RtpPacket.header p in
  RtpRecvStream.remote_ssrc st = Some (RtpHeader.ssrc h) ->
  RtpRecvStream.jitter_buffer st = ∅ ->
  (RtpRecvStream.next_seq st = None \/
   RtpRecvStream.next_seq st = Some (RtpHeader.sequence_number h)) ->
  exists st', RtpRecvStream.receive_rtp_packet st p now clock = Some (st', [RtpIn.of_packet p]) /\
    RtpRecvStream.remote_ssrc st' = Some (RtpHeader.ssrc h) /\
    RtpRecvStream.jitter_buffer st' = ∅ /\
    RtpRecvStream.next_seq st' = Some (wrap16 (RtpHeader.sequence_number h + 1)).
Proof.
  intros h Hr Hb Hn. unfold RtpRecvStream.receive_rtp_packet. fold h.
  rewrite Hr, Hb, Z.eqb_refl, lookup_empty. cbn [negb is_some].
  unfold RtpRecvStream.process_buffer. cbn [RtpRecvStream.next_seq RtpRecvStream.jitter_buffer].
  replace (match RtpRecvStream.next_seq st with Some _ => _ | None => _ end)
    with (Some (RtpHeader.sequence_number h)) by (destruct Hn as [-> | ->]; reflexivity).
  unfold RtpRecvStream.drain_fuel. rewrite map_size_insert_None by apply lookup_empty.
  cbn [Nat.add Nat.mul RtpRecvStream.drain]. rewrite lookup_insert_eq.
  rewrite delete_insert_id by apply lookup_empty.
  rewrite lookup_empty. eexists. split; [reflexivity |]. auto.
Qed.

Lemma wire_facts keys ssrc i p : rtp_for ssrc i p -> (12 <= length p)%nat ->
  let w := wire keystream hmac_sha1 keys ssrc i p in
  length w = (length p + 10)%nat /\ take 12 w = take 12 p.
Proof.
  intros [[h Hh] _] Hl. cbv zeta. unfold wire. rewrite Hh.
  pose proof (header_len_bounds p h Hh).
  rewrite length_app, length_crypt, length_auth_tag by assumption. split; [reflexivity |].
  rewrite take_app_le by (rewrite length_crypt by assumption; lia).
  pose proof (crypt_header keystream keys ssrc i h p ltac:(lia)) as Hc.
  transitivity (take 12 (take h p)); [rewrite <- Hc |]; rewrite take_take; f_equal; lia.
Qed.

(** The sender's context is about to protect index [i] of the source. *)
Definition sender_at (c : SrtpContext.t) (ssrc i : Z) : Prop :=
  ctx_at c ssrc (i - 1) \/ (SrtpContext.last_seqs c !! ssrc = None /\ u16 i).

Lemma protect_at c ssrc i p : rtp_for ssrc i p -> sender_at c ssrc i -> 0 <= i < 2 ^ 48 ->
  exists c', SrtpContext.protect keystream hmac_sha1 c ssrc p
    = (c', wire keystream hmac_sha1 (SrtpContext.session_keys c) ssrc i p, Ok ()) /\
    sender_at c' ssrc (i + 1) /\ SrtpContext.session_keys c' = SrtpContext.session_keys c.
Proof.
  intros Hp Hs Hi. exists (SrtpContext.set_roc c ssrc (i / 65536) (wrap16 i)).
  split; [| split; [| reflexivity]].
  - destruct Hs as [Hc | [Hc Hu]];
      [apply (protect_next keystream hmac_sha1 c ssrc (i - 1)); try assumption; lia
      | apply protect_first; assumption].
  - left. replace (i + 1 - 1) with i by lia. apply set_roc_at, Hi.
Qed.

(** The receiving half *)
Lemma datagram_delivered b rs cr ssrc i l p bs e :
  recv_streams b !! ssrc = Some rs -> RtpRecvStream.remote_ssrc rs = Some ssrc ->
  RtpRecvStream.jitter_buffer rs = ∅ ->
  (RtpRecvStream.next_seq rs = None \/ RtpRecvStream.next_seq rs = Some (wrap16 i)) ->
  srtp_inbound b = Some cr -> recv_at cr ssrc l -> acceptable l i ->
  RtpPacket.wire_ok p -> RtpPacket.encode p = Ok bs -> RtpPacket.decode bs = Ok p ->
  rtp_for ssrc i bs -> is_rtcp bs = false ->
  RtpHeader.ssrc (RtpPacket.header p) = ssrc ->
  RtpHeader.sequence_number (RtpPacket.header p) = wrap16 i ->
  exists b' rs' cr', on_datagram keystream hmac_sha1 b
      (wire keystream hmac_sha1 (SrtpContext.session_keys cr) ssrc i bs) e
      = Some (b', [EvRtpIn (RtpIn.of_packet p)]) /\
    recv_streams b' !! ssrc = Some rs' /\ RtpRecvStream.jitter_buffer rs' = ∅ /\
    RtpRecvStream.next_seq rs' = Some (wrap16 (i + 1)) /\
    srtp_inbound b' = Some cr' /\ recv_at cr' ssrc (l ++ [i]) /\
    RtpRecvStream.remote_ssrc rs' = Some ssrc /\
    SrtpContext.session_keys cr' = SrtpContext.session_keys cr.
Proof.
  intros Hrs Hrem Hbuf Hnext Hin Hrecv Hacc Hwf He Hd Hfor Hnot Hssrc Hseq.
  destruct (encode_head p bs Hwf He) as (h0 & rest & Hbs & Hrest & _ & Hver).
  assert (Hlen : (12 <= length bs)%nat) by (rewrite Hbs; simpl; lia).
  destruct (wire_facts (SrtpContext.session_keys cr) ssrc i bs Hfor Hlen) as [Hwl Hwt].
  set (w := wire keystream hmac_sha1 (SrtpContext.session_keys cr) ssrc i bs) in *.
  destruct (unprotect_accepts keystream hmac_sha1 keystream_length hmac_length cr ssrc l i bs
    Hrecv Hfor Hacc) as (cr' & Hun & Hkeys & Hrecv').
  destruct (receive_in_order rs p (now e) (clock e)) as (rs' & Hrx & Hr' & Hb' & Hn');
    [rewrite Hssrc; exact Hrem | exact Hbuf | rewrite Hseq; exact Hnext |].
  assert (Hw0 : w !! 0%nat = Some h0).
  { rewrite <- (lookup_take_lt w 12) by lia. rewrite Hwt, Hbs. reflexivity. }
  assert (Hrtcp : is_rtcp w = false).
  { rewrite <- Hnot. apply is_rtcp_prefix; [lia | lia |].
    change 2%nat with (2 `min` 12)%nat. rewrite <- !take_take, Hwt. reflexivity. }
  unfold on_datagram. case_test; [lia |]. rewrite Hrtcp, Hw0. cbn [default from_option id].
  rewrite Hver. destruct (Nat.ltb_spec (length w) 12); [lia |]. cbn [orb negb Z.eqb Pos.eqb].
  fold w in Hun. rewrite Hin, Hun. cbn [negb]. rewrite Hd. unfold route. rewrite Hssrc.
  cbn [recv_streams with_inbound]. rewrite Hrs, Hrx.
  eexists _, rs', cr'. split; [reflexivity |]. cbn [recv_streams with_recv srtp_inbound].
  split; [apply lookup_insert_eq |]. split_and!; auto; [| congruence].
  rewrite Hn', Hseq. f_equal. unfold wrap16. elia.
Qed.

(** One payload from a session to its peer, and the state of both afterwards *)
Lemma media_packet (a b : RtpSession.t) st rs cs cr ssrc i l payload ts marker ea eb :
  send_streams a !! ssrc = Some st -> RtpSendStream.local_ssrc st = ssrc ->
  RtpSendStream.seq st = wrap16 i -> srtp_outbound a = Some cs -> sender_at cs ssrc i ->
  recv_streams b !! ssrc = Some rs -> RtpRecvStream.remote_ssrc rs = Some ssrc ->
  RtpRecvStream.jitter_buffer rs = ∅ ->
  (RtpRecvStream.next_seq rs = None \/ RtpRecvStream.next_seq rs = Some (wrap16 i)) ->
  srtp_inbound b = Some cr -> SrtpContext.session_keys cr = SrtpContext.session_keys cs ->
  recv_at cr ssrc l -> acceptable l i ->
  u32 ssrc -> u32 ts -> bytes_ok payload ->
  let pt := RtpCodec.payload_type (RtpSendStream.codec st) in
  0 <= pt < 128 -> marker && (72 <=? pt) && (pt <=? 78) = false ->
  exists a' dg st' cs' b' rs' cr',
    send_rtp_payload keystream hmac_sha1 a ssrc payload ts marker true ea = (a', Some dg, Ok ()) /\
    (send_streams a' !! ssrc = Some st' /\ RtpSendStream.local_ssrc st' = ssrc /\
     RtpSendStream.codec st' = RtpSendStream.codec st /\ RtpSendStream.seq st' = wrap16 (i + 1) /\
     srtp_outbound a' = Some cs' /\ sender_at cs' ssrc (i + 1) /\
     SrtpContext.session_keys cs' = SrtpContext.session_keys cs) /\
    on_datagram keystream hmac_sha1 b dg eb
      = Some (b', [EvRtpIn (RtpIn.mk pt marker ts (wrap16 i) ssrc payload)]) /\
    recv_streams b' !! ssrc = Some rs' /\ RtpRecvStream.jitter_buffer rs' = ∅ /\
    RtpRecvStream.next_seq rs' = Some (wrap16 (i + 1)) /\
    srtp_inbound b' = Some cr' /\ recv_at cr' ssrc (l ++ [i]) /\
    RtpRecvStream.remote_ssrc rs' = Some ssrc /\
    SrtpContext.session_keys cr' = SrtpContext.session_keys cr.
Proof.
  intros Hst Hls Hseq Hout Hsend Hrs Hrem Hbuf Hnext Hin Hkeys Hrecv Hacc
    Hssrc Hts Hpl pt Hpt Hnot.
  pose proof (wrap16_range i) as Hu16.
  assert (Hi : 0 <= i < 2 ^ 48) by apply Hacc.
  set (p := RtpPacket.simple pt marker (wrap16 i) ts ssrc payload).
  assert (Hwf : RtpPacket.wire_ok p) by (apply simple_ok; assumption).
  destruct (simple_encode pt marker (wrap16 i) ts ssrc payload Hpt Hpl) as (bs & He & Hbs).
  fold p in He. destruct (encode_then_decode p Hwf) as (bs' & He' & Hd).
  assert (bs' = bs) as -> by congruence.
  assert (Hfor : rtp_for ssrc i bs) by (apply (rtp_for_decoded bs p i Hbs Hd); reflexivity).
  destruct (protect_at cs ssrc i bs Hfor Hsend Hi) as (cs' & Hprot & Hsend' & Hkeys').
  destruct (datagram_delivered b rs cr ssrc i l p bs eb) as (b' & rs' & cr' & Hdel & Hb');
    try assumption; try reflexivity.
  { rewrite (is_rtcp_rtp p bs Hwf He). exact Hnot. }
  rewrite Hkeys in Hdel.
  eexists _, _, _, cs', b', rs', cr'. split; [| split; [split_and! | exact (conj Hdel Hb')]].
  - unfold send_rtp_payload. rewrite Hst. unfold RtpSendStream.send_rtp_payload.
    rewrite Hls, Hseq. fold pt. fold p. rewrite He, Hout, Hprot. simpl. reflexivity.
  - cbn [send_streams with_send]. apply lookup_insert_eq.
  - reflexivity.
  - reflexivity.
  - simpl. unfold wrap16. elia.
  - reflexivity.
  - exact Hsend'.
  - exact Hkeys'.
Qed.
End media.

(** The media path: a payload sent on a stream of one session becomes an SRTP datagram,
    which the other session authenticates, decrypts, demultiplexes, routes to the stream of
    the source and emits as an event with the same payload, payload type, marker, timestamp
    and sequence number; both sides are then ready for the next packet. *)
Theorem media_path (keystream : bytes -> bytes -> nat -> bytes)
    (hmac_sha1 : bytes -> bytes -> bytes) (a b : RtpSession.t) st rs cs cr ssrc i l
    payload ts marker ea eb :
  (forall k iv n, length (keystream k iv n) = n) ->
  (forall k m, length (hmac_sha1 k m) = 20%nat) ->
  send_streams a !! ssrc = Some st -> RtpSendStream.local_ssrc st = ssrc ->
  RtpSendStream.seq st = wrap16 i -> srtp_outbound a = Some cs -> sender_at cs ssrc i ->
  recv_streams b !! ssrc = Some rs -> RtpRecvStream.remote_ssrc rs = Some ssrc ->
  RtpRecvStream.jitter_buffer rs = ∅ ->
  (RtpRecvStream.next_seq rs = None \/ RtpRecvStream.next_seq rs = Some (wrap16 i)) ->
  srtp_inbound b = Some cr -> SrtpContext.session_keys cr = SrtpContext.session_keys cs ->
  recv_at cr ssrc l -> acceptable l i ->
  u32 ssrc -> u32 ts -> bytes_ok payload ->
  let pt := RtpCodec.payload_type (RtpSendStream.codec st) in
  0 <= pt < 128 -> marker && (72 <=? pt) && (pt <=? 78) = false ->
  exists a' dg, send_rtp_payload keystream hmac_sha1 a ssrc payload ts marker true ea
      = (a', Some dg, Ok ()) /\
    (exists st' cs', send_streams a' !! ssrc = Some st' /\
       RtpSendStream.seq st' = wrap16 (i + 1) /\ srtp_outbound a' = Some cs' /\
       sender_at cs' ssrc (i + 1)) /\
    exists b' rs' cr', on_datagram keystream hmac_sha1 b dg eb
        = Some (b', [EvRtpIn (RtpIn.mk pt marker ts (wrap16 i) ssrc payload)]) /\
      recv_streams b' !! ssrc = Some rs' /\ RtpRecvStream.jitter_buffer rs' = ∅ /\
      RtpRecvStream.next_seq rs' = Some (wrap16 (i + 1)) /\
      srtp_inbound b' = Some cr' /\ recv_at cr' ssrc (l ++ [i]).
Proof.
  intros Hks Hhm Hst Hls Hseq Hout Hsend Hrs Hrem Hbuf Hnext Hin Hkeys Hrecv Hacc
    Hssrc Hts Hpl pt Hpt Hnot.
  destruct (media_packet keystream hmac_sha1 Hks Hhm a b st rs cs cr ssrc i l payload ts marker ea eb)
    as (a' & dg & st' & cs' & b' & rs' & cr' & Hs & Ha & Hd & Hb); try assumption.
  exists a', dg. split; [exact Hs |]. split; [exists st', cs'; tauto |].
  exists b', rs', cr'. split; [exact Hd |]. tauto.
Qed.

Definition sender_session : RtpSession.t :=
  (add_send_stream (RtpSession.mk ∅ [] ∅ false true 77 (lit "roomrtc@local") None (Some toy_ctx))
     (RtpSendConfig.with_ssrc (RtpCodec.new 96 90000) 9) (65535, 0) sample_readings).1.
Definition receiver_session : RtpSession.t :=
  add_recv_stream (RtpSession.mk ∅ [] ∅ false true 78 (lit "roomrtc@local") (Some toy_ctx) None)
    (RtpRecvConfig.new (RtpCodec.new 96 90000) (Some 9)) sample_readings.

Lemma media_path_witness :
  exists a' dg, send_rtp_payload toy_keystream toy_hmac sender_session 9 [1; 2; 3] 3000 true true
      sample_readings = (a', Some dg, Ok ()) /\
    exists b', on_datagram toy_keystream toy_hmac receiver_session dg sample_readings
      = Some (b', [EvRtpIn (RtpIn.mk 96 true 3000 65535 9 [1; 2; 3])]).
Proof.
  destruct (media_path toy_keystream toy_hmac sender_session receiver_session
    (RtpSendStream.new (RtpSendConfig.with_ssrc (RtpCodec.new 96 90000) 9) 65535 0 sample_readings)
    (RtpRecvStream.new (RtpRecvConfig.new (RtpCodec.new 96 90000) (Some 9)) 0)
    toy_ctx toy_ctx 9 65535 [] [1; 2; 3] 3000 true sample_readings sample_readings
    toy_keystream_length toy_hmac_length) as (a' & dg & Hs & _ & b' & rs' & cr' & Hr & _);
    try reflexivity; try (simpl; ulia).
  - right. split; [reflexivity | ulia].
  - left. reflexivity.
  - split; [exact sees_new | reflexivity].
  - split; [apply not_elem_of_nil |]. cbn. lia.
  - repeat constructor; ulia.
  - exists a', dg. split; [exact Hs |]. exists b'. exact Hr.
Defined.

(** ** The periodic report is a compound the peer can decode *)
Lemma encoded_frame {T} `{RtcpCodec T} (x : T) : wf x ->
  encoded x = frame (rc x) pt_of (body x).
Proof. intros Hwf. unfold encoded. rewrite encode_law by exact Hwf. reflexivity. Qed.

Ltac framed_by_codec :=
  intros Hf; rewrite encoded_frame by apply Hf;
  eapply codec_framed in Hf; [exact Hf | reflexivity |];
  intros hdr payload Hpt; unfold decode_one; rewrite Hpt; reflexivity.

Lemma sr_framed (sr : SenderReport.t) : fits sr -> framed (PSr sr) (encoded sr).
Proof. framed_by_codec. Qed.

Lemma rr_framed (rr : ReceiverReport.t) : fits rr -> framed (PRr rr) (encoded rr).
Proof. framed_by_codec. Qed.

Lemma sdes_framed (sd : Sdes.t) : fits sd -> framed (PSdes sd) (encoded sd).
Proof. framed_by_codec. Qed.

(** The values of a send stream that go into its reports *)
Definition send_ok (st : RtpSendStream.t) : Prop :=
  u32 (RtpSendStream.local_ssrc st) /\ u32 (RtpSendStream.timestamp st) /\
  u32 (RtpSendStream.packet_count st) /\ u32 (RtpSendStream.octet_count st).

Lemma sender_report_fits ssrc i : u32 ssrc -> info_wf i -> fits (SenderReport.new ssrc i []).
Proof.
  intros Hs Hi. split; [split; simpl; try assumption; [apply Forall_nil_2 | lia | reflexivity] |].
  unfold body; simpl. unfold sr_body. simpl. elen.
Qed.

Lemma maybe_build_sr_ok st e : send_ok st -> u32 (ntp e).1 -> u32 (ntp e).2 ->
  send_ok (RtpSendStream.maybe_build_sr st e).1 /\
  forall sr, (RtpSendStream.maybe_build_sr st e).2 = Some sr -> fits sr.
Proof.
  intros Hst H1 H2. unfold RtpSendStream.maybe_build_sr. case_test; [split; [exact Hst | discriminate] |].
  destruct (ntp e) as [msw lsw]. split; [exact Hst |].
  destruct Hst as (? & ? & ? & ?). intros sr [= <-].
  apply sender_report_fits; [assumption | split; assumption].
Qed.

Lemma sender_reports_fit order sends e : map_Forall (fun _ st => send_ok st) sends ->
  u32 (ntp e).1 -> u32 (ntp e).2 -> Forall fits (sender_reports sends order e).2.
Proof.
  intros Hs H1 H2. revert sends Hs. induction order as [| k order IH]; intros sends Hs; simpl;
    [constructor |]. destruct (sends !! k) as [st |] eqn:Hk; [| apply IH, Hs].
  destruct (maybe_build_sr_ok st e (Hs k st Hk) H1 H2) as [Hst Hsr].
  destruct (RtpSendStream.maybe_build_sr st e) as [st' sr]. simpl in Hst, Hsr.
  specialize (IH (<[k := st']> sends) (map_Forall_insert_2 _ _ _ _ Hst Hs)).
  destruct (sender_reports _ order e) as [m srs]. simpl in *.
  destruct sr as [r |]; [constructor; auto | exact IH].
Qed.

Lemma rr_fits ssrc blocks : u32 ssrc -> Forall report_wf blocks -> (length blocks <= 31)%nat ->
  fits (ReceiverReport.new ssrc blocks).
Proof.
  intros Hs Hb Hl. split; [split; simpl; try assumption; reflexivity |].
  unfold body; simpl. unfold rr_body. simpl. elen.
Qed.

Lemma sdes_fits ssrc name : u32 ssrc -> str_ok name -> (length name <= 255)%nat ->
  fits (Sdes.cname ssrc name).
Proof.
  intros Hs Hn Hl. split.
  - constructor; [| constructor]. split; [exact Hs |]. constructor; [split; assumption | constructor].
  - unfold body; simpl. unfold sdes_body, chunk_wire, end_pad, item_wire. simpl.
    norm_len. elen.
Qed.

Lemma framed_map {A} (inj : A -> RtcpPacket) (enc : A -> bytes) (P : A -> Prop) l :
  (forall x, P x -> framed (inj x) (enc x)) -> Forall P l -> framed_list (inj <$> l) (enc <$> l).
Proof. intros Hf. induction 1; csimpl; constructor; auto. Qed.

(** The periodic report of a session with in-range counters and at most 31 reported
    sources is a compound that decodes, at the peer, to the sender reports of the streams
    that sent something, one receiver report with the report blocks (if any) and the
    source description. *)
Theorem rtcp_tick_decodes s order_send order_recv e recvs blocks :
  report_blocks (recv_streams s) order_recv e = Ok (recvs, blocks) ->
  map_Forall (fun _ st => send_ok st) (send_streams s) -> u32 (ntp e).1 -> u32 (ntp e).2 ->
  u32 (local_rtcp_ssrc s) -> str_ok (cname s) -> (length (cname s) <= 255)%nat ->
  Forall report_wf blocks -> (length blocks <= 31)%nat ->
  exists s' dg, rtcp_tick s order_send order_recv e = Ok (s', Some dg) /\
    decode_compound dg = Ok
      ((PSr <$> (sender_reports (send_streams s) order_send e).2)
       ++ (if (length blocks =? 0)%nat then []
           else [PRr (ReceiverReport.new (local_rtcp_ssrc s) blocks)])
       ++ [PSdes (Sdes.cname (local_rtcp_ssrc s) (cname s))]).
Proof.
  intros Hb Hs H1 H2 Hl Hc1 Hc2 Hwf Hn. unfold rtcp_tick.
  pose proof (sender_reports_fit order_send (send_streams s) e Hs H1 H2) as Hsr.
  destruct (sender_reports (send_streams s) order_send e) as [sends srs]. simpl in Hsr |- *.
  rewrite Hb. cbn [mbind outcome_bind].
  set (sd := Sdes.cname (local_rtcp_ssrc s) (cname s)).
  set (rr := ReceiverReport.new (local_rtcp_ssrc s) blocks).
  pose proof (sdes_framed sd (sdes_fits _ _ Hl Hc1 Hc2)) as Hsd.
  set (mid := if (length blocks =? 0)%nat then [] else [PRr rr]).
  set (midb := if (length blocks =? 0)%nat then [] else [encoded rr]).
  assert (Hf : framed_list ((PSr <$> srs) ++ mid ++ [PSdes sd])
                 ((encoded <$> srs) ++ midb ++ [encoded sd])).
  { apply Forall2_app; [exact (framed_map PSr encoded fits srs sr_framed Hsr) |].
    apply Forall2_app; [| constructor; [exact Hsd | constructor]].
    unfold mid, midb. case_test; constructor; [| constructor].
    apply rr_framed, rr_fits; assumption. }
  apply decode_compound_framed in Hf; [| intros Hnil; apply app_eq_nil in Hnil as [_ Hnil];
    apply app_eq_nil in Hnil as [_ Hnil]; discriminate].
  rewrite !concat_app in Hf. simpl concat in Hf. rewrite app_nil_r in Hf.
  assert (Hcomp : (if (length blocks =? 0)%nat then concat (encoded <$> srs)
      else concat (encoded <$> srs) ++ encoded rr) ++ encoded sd
    = concat (encoded <$> srs) ++ concat midb ++ encoded sd).
  { unfold midb. case_test; simpl; rewrite ?app_nil_r, <- ?app_assoc; reflexivity. }
  rewrite Hcomp. case_test; [exfalso |].
  - pose proof (fr_ge _ _ Hsd). rewrite !length_app in *. lia.
  - eexists _, _. split; [reflexivity | exact Hf].
Qed.

Lemma rtcp_tick_decodes_witness :
  exists s' dg, rtcp_tick receiver_session [] [9] sample_readings = Ok (s', Some dg) /\
    decode_compound dg = Ok [PRr (ReceiverReport.new 78 [ReportBlock.mk 9 0 1 0 0 0 0]);
                             PSdes (Sdes.cname 78 (lit "roomrtc@local"))].
Proof.
  eapply (rtcp_tick_decodes receiver_session [] [9] sample_readings _
    [ReportBlock.mk 9 0 1 0 0 0 0]); try (simpl; ulia).
  - vm_compute. reflexivity.
  - apply map_Forall_empty.
  - reflexivity.
  - constructor; [split; simpl; ulia | constructor].
Defined.
