(* ===== verification/SigProtocol.v ===== *)
(** * Signaling protocol (src/signaling/protocol)

    Messages, their body encoding, and framing over a byte stream. The encoder appends to
    the body as the [put_*] helpers do; the decoder is a parser monad over the remaining
    octets of the [Cursor]. A stream is the list of octets not yet read. *)

From stdpp Require Import prelude strings.
From Stdlib Require Import ZArith Lia.
From S2P Require Import Prelude Utf8.
Local Open Scope Z_scope.

Definition PROTO_VERSION : Z := 1.
Definition MAX_BODY_LEN : Z := 1048576.

Inductive ProtoError : Type :=
| UnknownType (t : Z)
| Truncated
| InvalidUtf8
| TooLarge
| InvalidFormat (msg : string)
| StringTooLong (max actual : Z).

(** [Io] covers every [io::Error]: the end of the stream and the 4 GiB limit of
    [write_frame]. *)
Inductive FrameError : Type :=
| Io
| Proto (e : ProtoError).

Inductive PeerStatus : Type := Available | Busy.

#[export] Instance PeerStatus_eq_dec : EqDecision PeerStatus.
Proof. solve_decision. Defined.

Module MsgType.
Inductive t : Type :=
| Hello | Login | LoginOk | LoginErr | Register | RegisterOk | RegisterErr
| ListPeers | PeersOnline
| CreateSession | Created | Join | JoinOk | JoinErr | PeerJoined | PeerLeft
| Offer | Answer | Candidate | Ack | Bye
| Ping | Pong.

#[export] Instance t_eq_dec : EqDecision t.
Proof. solve_decision. Defined.

Definition as_u8 (m : t) : Z :=
  match m with
  | Hello => 1 | Login => 2 | LoginOk => 3 | LoginErr => 4 | Register => 5
  | RegisterOk => 6 | RegisterErr => 7 | ListPeers => 8 | PeersOnline => 9
  | CreateSession => 16 | Created => 17 | Join => 18 | JoinOk => 19 | JoinErr => 20
  | PeerJoined => 21 | PeerLeft => 22
  | Offer => 32 | Answer => 33 | Candidate => 34 | Ack => 35 | Bye => 36
  | Ping => 48 | Pong => 49
  end.

Definition from_u8 (v : Z) : outcome ProtoError t :=
  match v with
  | 1 => Ok Hello | 2 => Ok Login | 3 => Ok LoginOk | 4 => Ok LoginErr | 5 => Ok Register
  | 6 => Ok RegisterOk | 7 => Ok RegisterErr | 8 => Ok ListPeers | 9 => Ok PeersOnline
  | 16 => Ok CreateSession | 17 => Ok Created | 18 => Ok Join | 19 => Ok JoinOk
  | 20 => Ok JoinErr | 21 => Ok PeerJoined | 22 => Ok PeerLeft
  | 32 => Ok Offer | 33 => Ok Answer | 34 => Ok Candidate | 35 => Ok Ack | 36 => Ok Bye
  | 48 => Ok Ping | 49 => Ok Pong
  | other => Err (UnknownType other)
  end.
End MsgType.

Inductive SignalingMsg : Type :=
| Hello (client_version : bytes)
| Login (username password : bytes)
| LoginOk (username : bytes)
| LoginErr (code : Z)
| Register (username password : bytes)
| RegisterOk (username : bytes)
| RegisterErr (code : Z)
| ListPeers
| PeersOnline (peers : list (bytes * PeerStatus))
| CreateSession (capacity : Z)
| Created (session_id session_code : bytes)
| Join (session_code : bytes)
| JoinOk (session_id : bytes)
| JoinErr (code : Z)
| PeerJoined (session_id username : bytes)
| PeerLeft (session_id username : bytes)
| Offer (txn_id : Z) (from to sdp : bytes)
| Answer (txn_id : Z) (from to sdp : bytes)
| Candidate (from to mid : bytes) (mline_index : Z) (cand : bytes)
| Ack (from to : bytes) (txn_id : Z)
| Bye (from to : bytes) (reason : option bytes)
| Ping (nonce : Z)
| Pong (nonce : Z).

(** ** Writing *)
Definition put_u8 (buf : bytes) (v : Z) : bytes := buf ++ [v].
Definition put_u16 (buf : bytes) (v : Z) : bytes := buf ++ to_be 2 v.
Definition put_u32 (buf : bytes) (v : Z) : bytes := buf ++ to_be 4 v.
Definition put_u64 (buf : bytes) (v : Z) : bytes := buf ++ to_be 8 v.

Definition put_str16 (buf : bytes) (s : bytes) : outcome ProtoError bytes :=
  let len := Z.of_nat (length s) in
  if 65535 <? len then Err (StringTooLong 65535 len)
  else Ok (put_u16 buf len ++ s).

Definition status_byte (s : PeerStatus) : Z :=
  match s with Available => 0 | Busy => 1 end.

Fixpoint put_peers (buf : bytes) (peers : list (bytes * PeerStatus)) : outcome ProtoError bytes :=
  match peers with
  | [] => Ok buf
  | (peer, status) :: peers' =>
      buf ← put_str16 buf peer;
      put_peers (put_u8 buf (status_byte status)) peers'
  end.

Definition put_blob (buf l : bytes) : bytes :=
  put_u32 buf (wrap32 (Z.of_nat (length l))) ++ l.

Definition encode_msg (msg : SignalingMsg) : outcome ProtoError (MsgType.t * bytes) :=
  let body := [] in
  match msg with
  | Hello v => body ← put_str16 body v; Ok (MsgType.Hello, body)
  | Login u p =>
      body ← put_str16 body u; body ← put_str16 body p; Ok (MsgType.Login, body)
  | LoginOk u => body ← put_str16 body u; Ok (MsgType.LoginOk, body)
  | LoginErr code => Ok (MsgType.LoginErr, put_u16 body code)
  | Register u p =>
      body ← put_str16 body u; body ← put_str16 body p; Ok (MsgType.Register, body)
  | RegisterOk u => body ← put_str16 body u; Ok (MsgType.RegisterOk, body)
  | RegisterErr code => Ok (MsgType.RegisterErr, put_u16 body code)
  | ListPeers => Ok (MsgType.ListPeers, body)
  | PeersOnline peers =>
      if 65535 <? Z.of_nat (length peers) then Err (InvalidFormat "too many peers")
      else
        body ← put_peers (put_u16 body (Z.of_nat (length peers))) peers;
        Ok (MsgType.PeersOnline, body)
  | CreateSession capacity => Ok (MsgType.CreateSession, put_u8 body capacity)
  | Created sid code =>
      body ← put_str16 body sid; body ← put_str16 body code; Ok (MsgType.Created, body)
  | Join code => body ← put_str16 body code; Ok (MsgType.Join, body)
  | JoinOk sid => body ← put_str16 body sid; Ok (MsgType.JoinOk, body)
  | JoinErr code => Ok (MsgType.JoinErr, put_u16 body code)
  | PeerJoined sid u =>
      body ← put_str16 body sid; body ← put_str16 body u; Ok (MsgType.PeerJoined, body)
  | PeerLeft sid u =>
      body ← put_str16 body sid; body ← put_str16 body u; Ok (MsgType.PeerLeft, body)
  | Offer txn_id from to sdp =>
      body ← put_str16 (put_u64 body txn_id) from; body ← put_str16 body to;
      Ok (MsgType.Offer, put_blob body sdp)
  | Answer txn_id from to sdp =>
      body ← put_str16 (put_u64 body txn_id) from; body ← put_str16 body to;
      Ok (MsgType.Answer, put_blob body sdp)
  | Candidate from to mid mline_index cand =>
      body ← put_str16 body from; body ← put_str16 body to; body ← put_str16 body mid;
      Ok (MsgType.Candidate, put_blob (put_u16 body mline_index) cand)
  | Ack from to txn_id =>
      body ← put_str16 body from; body ← put_str16 body to;
      Ok (MsgType.Ack, put_u64 body txn_id)
  | Bye from to reason =>
      body ← put_str16 body from; body ← put_str16 body to;
      body ← match reason with
             | Some s => put_str16 body s
             | None => Ok (put_u16 body 0)
             end;
      Ok (MsgType.Bye, body)
  | Ping nonce => Ok (MsgType.Ping, put_u64 body nonce)
  | Pong nonce => Ok (MsgType.Pong, put_u64 body nonce)
  end.

(** ** Reading: the cursor as a parser monad *)
Definition parser (A : Type) : Type := bytes -> outcome ProtoError (A * bytes).

#[export] Instance parser_ret : MRet parser := fun _ a buf => Ok (a, buf).
#[export] Instance parser_bind : MBind parser := fun _ _ k m buf =>
  match m buf with Ok (a, rest) => k a rest | Err e => Err e | Panic => Panic end.

Definition get_uint (n : nat) : parser Z := fun buf =>
  if (length buf <? n)%nat then Err Truncated
  else Ok (from_be (take n buf), drop n buf).
Definition get_u8 : parser Z := fun buf =>
  match buf with [] => Err Truncated | b :: rest => Ok (b, rest) end.
Definition get_u16 : parser Z := get_uint 2.
Definition get_u32 : parser Z := get_uint 4.
Definition get_u64 : parser Z := get_uint 8.

Definition get_bytes (len : nat) : parser bytes := fun buf =>
  if (length buf <? len)%nat then Err Truncated else Ok (take len buf, drop len buf).

(** An error inside the parser *)
Definition fail {A} (e : ProtoError) : parser A := fun _ => Err e.

Definition get_str16 : parser bytes :=
  len ← get_u16;
  l ← get_bytes (Z.to_nat len);
  if utf8_valid l then mret l else fail InvalidUtf8.

Definition get_status : parser PeerStatus :=
  b ← get_u8;
  if b =? 0 then mret Available
  else if b =? 1 then mret Busy
  else fail (InvalidFormat "unknown peer status byte").

Fixpoint get_peers (count : nat) : parser (list (bytes * PeerStatus)) :=
  match count with
  | O => mret []
  | S n => peer ← get_str16; status ← get_status; peers ← get_peers n;
           mret ((peer, status) :: peers)
  end.

Definition get_blob : parser bytes := len ← get_u32; get_bytes (Z.to_nat len).

Definition get_msg (msg_type : MsgType.t) : parser SignalingMsg :=
  match msg_type with
  | MsgType.Hello => v ← get_str16; mret (Hello v)
  | MsgType.Login => u ← get_str16; pw ← get_str16; mret (Login u pw)
  | MsgType.LoginOk => u ← get_str16; mret (LoginOk u)
  | MsgType.LoginErr => code ← get_u16; mret (LoginErr code)
  | MsgType.Register => u ← get_str16; pw ← get_str16; mret (Register u pw)
  | MsgType.RegisterOk => u ← get_str16; mret (RegisterOk u)
  | MsgType.RegisterErr => code ← get_u16; mret (RegisterErr code)
  | MsgType.ListPeers => mret ListPeers
  | MsgType.PeersOnline =>
      count ← get_u16; peers ← get_peers (Z.to_nat count); mret (PeersOnline peers)
  | MsgType.CreateSession => cap ← get_u8; mret (CreateSession cap)
  | MsgType.Created => sid ← get_str16; scode ← get_str16; mret (Created sid scode)
  | MsgType.Join => scode ← get_str16; mret (Join scode)
  | MsgType.JoinOk => sid ← get_str16; mret (JoinOk sid)
  | MsgType.JoinErr => code ← get_u16; mret (JoinErr code)
  | MsgType.PeerJoined => sid ← get_str16; u ← get_str16; mret (PeerJoined sid u)
  | MsgType.PeerLeft => sid ← get_str16; u ← get_str16; mret (PeerLeft sid u)
  | MsgType.Offer =>
      txn ← get_u64; from ← get_str16; to ← get_str16; sdp ← get_blob;
      mret (Offer txn from to sdp)
  | MsgType.Answer =>
      txn ← get_u64; from ← get_str16; to ← get_str16; sdp ← get_blob;
      mret (Answer txn from to sdp)
  | MsgType.Candidate =>
      from ← get_str16; to ← get_str16; mid ← get_str16; mline ← get_u16; cand ← get_blob;
      mret (Candidate from to mid mline cand)
  | MsgType.Ack =>
      from ← get_str16; to ← get_str16; txn ← get_u64; mret (Ack from to txn)
  | MsgType.Bye =>
      from ← get_str16; to ← get_str16; s ← get_str16;
      mret (Bye from to (if (length s =? 0)%nat then None else Some s))
  | MsgType.Ping => nonce ← get_u64; mret (Ping nonce)
  | MsgType.Pong => nonce ← get_u64; mret (Pong nonce)
  end.

Definition decode_msg (msg_type : MsgType.t) (body : bytes) : outcome ProtoError SignalingMsg :=
  '(msg, rest) ← get_msg msg_type body;
  if (length rest =? 0)%nat then Ok msg
  else Err (InvalidFormat "trailing bytes in message body").

(** ** Framing *)

(** Appends to the stream; a writer that fails is the [Io] error of the caller. *)
Definition write_frame (out : bytes) (msg_type : MsgType.t) (body : bytes)
  : outcome FrameError bytes :=
  if 4294967295 <? Z.of_nat (length body) then Err Io
  else
    Ok (out ++ [PROTO_VERSION; MsgType.as_u8 msg_type; 0; 0]
        ++ to_be 4 (Z.of_nat (length body)) ++ body).

(** [r.read_exact(&mut [0; n])] *)
Definition read_exact (n : nat) (stream : bytes) : outcome FrameError (bytes * bytes) :=
  if (length stream <? n)%nat then Err Io else Ok (take n stream, drop n stream).

Definition read_frame (stream : bytes) (max_body : Z)
  : outcome FrameError (MsgType.t * bytes * bytes) :=
  '(header, stream) ← read_exact 8 stream;
  ver ← get_idx header 0;
  if negb (ver =? PROTO_VERSION) then Err (Proto (InvalidFormat "bad proto version"))
  else
    b ← get_idx header 1;
    msg_type ← map_err Proto (MsgType.from_u8 b);
    len ← read_be 4 header 4;
    if max_body <? len then Err (Proto TooLarge)
    else
      '(body, stream) ← read_exact (Z.to_nat len) stream;
      Ok (msg_type, body, stream).

Definition write_msg (out : bytes) (msg : SignalingMsg) : outcome FrameError bytes :=
  '(msg_type, body) ← map_err Proto (encode_msg msg);
  write_frame out msg_type body.

Definition read_msg (stream : bytes) : outcome FrameError (SignalingMsg * bytes) :=
  '(msg_type, body, rest) ← read_frame stream MAX_BODY_LEN;
  msg ← map_err Proto (decode_msg msg_type body);
  Ok (msg, rest).

(** ** The wire format *)
Definition w_str (s : bytes) : bytes := to_be 2 (Z.of_nat (length s)) ++ s.
Definition w_blob (l : bytes) : bytes := to_be 4 (Z.of_nat (length l)) ++ l.
Definition w_peer (p : bytes * PeerStatus) : bytes := w_str p.1 ++ [status_byte p.2].
Definition w_peers (l : list (bytes * PeerStatus)) : bytes :=
  to_be 2 (Z.of_nat (length l)) ++ concat (w_peer <$> l).

Definition type_of (m : SignalingMsg) : MsgType.t :=
  match m with
  | Hello _ => MsgType.Hello | Login _ _ => MsgType.Login | LoginOk _ => MsgType.LoginOk
  | LoginErr _ => MsgType.LoginErr | Register _ _ => MsgType.Register
  | RegisterOk _ => MsgType.RegisterOk | RegisterErr _ => MsgType.RegisterErr
  | ListPeers => MsgType.ListPeers | PeersOnline _ => MsgType.PeersOnline
  | CreateSession _ => MsgType.CreateSession | Created _ _ => MsgType.Created
  | Join _ => MsgType.Join | JoinOk _ => MsgType.JoinOk | JoinErr _ => MsgType.JoinErr
  | PeerJoined _ _ => MsgType.PeerJoined | PeerLeft _ _ => MsgType.PeerLeft
  | Offer _ _ _ _ => MsgType.Offer | Answer _ _ _ _ => MsgType.Answer
  | Candidate _ _ _ _ _ => MsgType.Candidate | Ack _ _ _ => MsgType.Ack
  | Bye _ _ _ => MsgType.Bye | Ping _ => MsgType.Ping | Pong _ => MsgType.Pong
  end.

Definition body_of (m : SignalingMsg) : bytes :=
  match m with
  | Hello s | LoginOk s | RegisterOk s | Join s | JoinOk s => w_str s
  | Login a b | Register a b | Created a b | PeerJoined a b | PeerLeft a b => w_str a ++ w_str b
  | LoginErr c | RegisterErr c | JoinErr c => to_be 2 c
  | ListPeers => []
  | PeersOnline l => w_peers l
  | CreateSession c => [c]
  | Offer t f u s | Answer t f u s => to_be 8 t ++ w_str f ++ w_str u ++ w_blob s
  | Candidate f u m i c => w_str f ++ w_str u ++ w_str m ++ to_be 2 i ++ w_blob c
  | Ack f u t => w_str f ++ w_str u ++ to_be 8 t
  | Bye f u r => w_str f ++ w_str u ++ w_str (default [] r)
  | Ping n | Pong n => to_be 8 n
  end.

Definition str16 (s : bytes) : Prop := str_ok s /\ Z.of_nat (length s) <= 65535.
Definition blob (l : bytes) : Prop := Z.of_nat (length l) < 4294967296.

Definition msg_wf (m : SignalingMsg) : Prop :=
  match m with
  | Hello s | LoginOk s | RegisterOk s | Join s | JoinOk s => str16 s
  | Login a b | Register a b | Created a b | PeerJoined a b | PeerLeft a b => str16 a /\ str16 b
  | LoginErr c | RegisterErr c | JoinErr c => u16 c
  | ListPeers => True
  | PeersOnline l => Forall (fun p => str16 p.1) l /\ Z.of_nat (length l) <= 65535
  | CreateSession c => u8 c
  | Offer t f u s | Answer t f u s => u64 t /\ str16 f /\ str16 u /\ blob s
  | Candidate f u m i c => str16 f /\ str16 u /\ str16 m /\ u16 i /\ blob c
  | Ack f u t => str16 f /\ str16 u /\ u64 t
  | Bye f u r => str16 f /\ str16 u /\ match r with Some s => str16 s /\ s <> [] | None => True end
  | Ping n | Pong n => u64 n
  end.

(** ** Encoder laws *)
Lemma put_str16_ok buf s : str16 s -> put_str16 buf s = Ok (buf ++ w_str s).
Proof.
  intros [_ Hl]. unfold put_str16, put_u16, w_str. case_test; [lia |].
  rewrite <- app_assoc. reflexivity.
Qed.

Lemma put_blob_ok buf l : blob l -> put_blob buf l = buf ++ w_blob l.
Proof.
  intros Hl. unfold put_blob, put_u32, w_blob. unfold blob in Hl.
  rewrite wrap32_small by (unfold u32; lia). rewrite <- app_assoc. reflexivity.
Qed.

Lemma put_peers_ok buf l : Forall (fun p => str16 p.1) l ->
  put_peers buf l = Ok (buf ++ concat (w_peer <$> l)).
Proof.
  intros Hl. revert buf. induction Hl as [| [p st] l Hp Hl IH]; intros buf; csimpl.
  - rewrite app_nil_r. reflexivity.
  - rewrite put_str16_ok by exact Hp. simpl mbind. rewrite IH. unfold put_u8, w_peer. simpl.
    rewrite <- !app_assoc. reflexivity.
Qed.

Lemma encode_msg_ok m : msg_wf m -> encode_msg m = Ok (type_of m, body_of m).
Proof.
  destruct m; cbn [msg_wf encode_msg type_of body_of]; intros Hwf; destruct_and?;
    repeat (rewrite put_str16_ok by assumption; cbn [mbind outcome_bind]);
    rewrite ?put_blob_ok by assumption; unfold put_u8, put_u16, put_u64;
    rewrite ?app_nil_l, <- ?app_assoc; try reflexivity.
  - case_test; [lia |]. rewrite put_peers_ok by assumption. reflexivity.
  - destruct reason as [r |]; [destruct_and?; rewrite put_str16_ok by assumption |];
      cbn [mbind outcome_bind]; rewrite <- ?app_assoc; reflexivity.
Qed.

(** ** Parser laws: [parses p v w], the parser reads [w] as [v] and leaves the rest *)
Definition parses {A} (p : parser A) (v : A) (w : bytes) : Prop :=
  forall rest, p (w ++ rest) = Ok (v, rest).

Lemma parses_ret {A} (v : A) : parses (mret v) v [].
Proof. intros rest. reflexivity. Qed.

Lemma parses_bind {A B} (p : parser A) (k : A -> parser B) v u w1 w2 :
  parses p v w1 -> parses (k v) u w2 -> parses (p ≫= k) u (w1 ++ w2).
Proof.
  intros Hp Hk rest. unfold mbind, parser_bind. rewrite <- app_assoc, Hp. apply Hk.
Qed.

Lemma parses_last {A B} (p : parser A) (f : A -> B) v w :
  parses p v w -> parses (x ← p; mret (f x)) (f v) w.
Proof. intros Hp rest. unfold mbind, parser_bind. rewrite Hp. reflexivity. Qed.

Lemma parses_uint n v : 0 <= v < 256 ^ Z.of_nat n -> parses (get_uint n) v (to_be n v).
Proof.
  intros Hv rest. unfold get_uint. case_test; [exfalso; len |].
  rewrite take_app_length', drop_app_length' by (symmetry; apply length_to_be).
  rewrite from_be_to_be_small by exact Hv. reflexivity.
Qed.

Lemma parses_bytes l : parses (get_bytes (length l)) l l.
Proof.
  intros rest. unfold get_bytes. case_test; [exfalso; len |].
  rewrite take_app_length, drop_app_length. reflexivity.
Qed.

Lemma parses_str s : str16 s -> parses get_str16 s (w_str s).
Proof.
  intros [Hu Hl]. unfold get_str16, w_str, get_u16.
  apply (parses_bind _ _ (Z.of_nat (length s))); [apply parses_uint; simpl; lia |].
  rewrite Nat2Z.id. intros rest. rewrite <- (app_nil_r s) at 2. revert rest.
  apply (parses_bind _ _ s); [apply parses_bytes |].
  unfold str_ok in Hu. rewrite Hu. apply parses_ret.
Qed.

Lemma parses_blob l : blob l -> parses get_blob l (w_blob l).
Proof.
  unfold blob. intros Hl. unfold get_blob, w_blob, get_u32.
  apply (parses_bind _ _ (Z.of_nat (length l))); [apply parses_uint; simpl; lia |].
  rewrite Nat2Z.id. apply parses_bytes.
Qed.

Lemma parses_status s : parses get_status s [status_byte s].
Proof. intros rest. destruct s; reflexivity. Qed.

Lemma parses_peers l : Forall (fun p => str16 p.1) l ->
  parses (get_peers (length l)) l (concat (w_peer <$> l)).
Proof.
  induction 1 as [| [p st] l Hp _ IH]; csimpl; [apply parses_ret |].
  unfold w_peer at 1. rewrite <- app_assoc.
  eapply parses_bind; [apply parses_str, Hp |].
  eapply parses_bind; [apply parses_status |]. apply (parses_last _ (cons (p, st))), IH.
Qed.

Lemma parses_u16 v : u16 v -> parses get_u16 v (to_be 2 v).
Proof. apply (parses_uint 2). Qed.
Lemma parses_u64 v : u64 v -> parses get_u64 v (to_be 8 v).
Proof. apply (parses_uint 8). Qed.
Lemma parses_u8 v : parses get_u8 v [v].
Proof. intros rest. reflexivity. Qed.

Create HintDb sig.
#[export] Hint Resolve parses_str parses_blob parses_u16 parses_u64 parses_u8 parses_ret : sig.

Ltac parse_fields :=
  repeat first [eapply parses_bind; [solve [eauto with sig] |]
               | eapply parses_last; solve [eauto with sig]].

Lemma get_msg_ok m : msg_wf m -> parses (get_msg (type_of m)) m (body_of m).
Proof.
  destruct m; cbn [msg_wf get_msg type_of body_of]; intros Hwf; destruct_and?;
    try (parse_fields; fail); parse_fields; try solve [eauto with sig].
  - unfold w_peers. eapply parses_bind; [apply parses_u16; ulia |]. rewrite Nat2Z.id.
    eapply parses_last, parses_peers. assumption.
  - pose (f := fun s : bytes => Bye from to (if (length s =? 0)%nat then None else Some s)).
    assert (Hr : Bye from to reason = f (default [] reason)).
    { unfold f. destruct reason as [[| x r] |]; destruct_and?; [congruence | reflexivity ..]. }
    rewrite Hr. eapply (parses_last _ f).
    destruct reason as [r |]; destruct_and?; apply parses_str;
      [assumption | split; [reflexivity | simpl; lia]].
Qed.

Lemma decode_msg_ok m : msg_wf m -> decode_msg (type_of m) (body_of m) = Ok m.
Proof.
  intros Hwf. unfold decode_msg. rewrite <- (app_nil_r (body_of m)), (get_msg_ok m Hwf).
  reflexivity.
Qed.

(** ** What a parser that succeeds has read *)
Definition reads {A} (p : parser A) (w : A -> bytes) (ok : A -> Prop) : Prop :=
  forall buf v rest, bytes_ok buf -> p buf = Ok (v, rest) ->
    buf = w v ++ rest /\ ok v /\ bytes_ok rest.

Lemma parser_bind_inv {A B} (p : parser A) (k : A -> parser B) buf u rest :
  (p ≫= k) buf = Ok (u, rest) ->
  exists v mid, p buf = Ok (v, mid) /\ k v mid = Ok (u, rest).
Proof.
  unfold mbind, parser_bind. destruct (p buf) as [[v mid] | e |]; [eauto | discriminate ..].
Qed.

Lemma reads_split n buf : bytes_ok buf -> (n <= length buf)%nat ->
  buf = take n buf ++ drop n buf /\ bytes_ok (take n buf) /\ bytes_ok (drop n buf) /\
  length (take n buf) = n.
Proof.
  intros Hb Hn. rewrite take_drop. unfold bytes_ok. rewrite length_take.
  auto using Forall_take, Forall_drop with lia.
Qed.

Lemma reads_uint n : reads (get_uint n) (to_be n) (fun v => 0 <= v < 256 ^ Z.of_nat n).
Proof.
  intros buf v rest Hb. unfold get_uint. case_test; [discriminate |]. intros [= <- <-].
  destruct (reads_split n buf Hb) as (H1 & H2 & H3 & H4); [lia |].
  pose proof (to_be_from_be _ H2) as H5. pose proof (from_be_range _ H2) as H6.
  rewrite H4 in H5, H6. rewrite H5. auto.
Qed.

Lemma reads_bytes n : reads (get_bytes n) (fun l => l) (fun l => length l = n).
Proof.
  intros buf v rest Hb. unfold get_bytes. case_test; [discriminate |]. intros [= <- <-].
  destruct (reads_split n buf Hb) as (H1 & H2 & H3 & H4); [lia | auto].
Qed.

Lemma reads_u8 : reads get_u8 (fun v => [v]) u8.
Proof.
  intros [| b buf] v rest Hb; [discriminate |]. intros [= <- <-].
  apply Forall_cons in Hb. destruct Hb. auto.
Qed.

Lemma reads_u16 : reads get_u16 (to_be 2) u16.
Proof. exact (reads_uint 2). Qed.
Lemma reads_u64 : reads get_u64 (to_be 8) u64.
Proof. exact (reads_uint 8). Qed.

Lemma reads_str : reads get_str16 w_str str16.
Proof.
  intros buf v rest Hb H. unfold get_str16 in H.
  apply parser_bind_inv in H. destruct H as (n & mid & H1 & H).
  apply parser_bind_inv in H. destruct H as (l & mid' & H2 & H).
  apply (reads_uint 2) in H1; [| exact Hb]. destruct H1 as (-> & Hn & Hm).
  apply reads_bytes in H2; [| exact Hm]. destruct H2 as (-> & Hl & Hm').
  destruct (utf8_valid l) eqn:Hu; [| discriminate]. injection H as <- <-.
  unfold w_str, str16. change (256 ^ Z.of_nat 2) with 65536 in Hn.
  rewrite Hl, Z2Nat.id by lia. rewrite <- app_assoc. repeat split; [exact Hu | lia | exact Hm'].
Qed.

Lemma reads_blob : reads get_blob w_blob blob.
Proof.
  intros buf v rest Hb H. unfold get_blob in H.
  apply parser_bind_inv in H. destruct H as (n & mid & H1 & H2).
  apply (reads_uint 4) in H1; [| exact Hb]. destruct H1 as (-> & Hn & Hm).
  apply reads_bytes in H2; [| exact Hm]. destruct H2 as (-> & Hl & Hm').
  change (256 ^ Z.of_nat 4) with 4294967296 in Hn.
  unfold w_blob, blob. rewrite Hl, Z2Nat.id by lia. rewrite <- app_assoc.
  repeat split; [lia | exact Hm'].
Qed.

Lemma reads_status : reads get_status (fun s => [status_byte s]) (fun _ => True).
Proof.
  intros buf v rest Hb H. unfold get_status in H.
  apply parser_bind_inv in H. destruct H as (b & mid & H1 & H).
  apply reads_u8 in H1; [| exact Hb]. destruct H1 as (-> & _ & Hm).
  case_test_in H; [injection H as <- <-; subst b; auto |].
  case_test_in H; [injection H as <- <-; subst b; auto | discriminate].
Qed.

(** Inverts the next field of a successful parse in [H] with the [reads] lemma [L]. *)
Ltac read_field H L :=
  let v := fresh "v" in let mid := fresh "mid" in let H1 := fresh "H" in
  apply parser_bind_inv in H; destruct H as (v & mid & H1 & H);
  apply L in H1; [| assumption];
  let Hok := fresh "Hok" in let Hb := fresh "Hb" in destruct H1 as (-> & Hok & Hb).

Lemma reads_peers n : reads (get_peers n) (fun l => concat (w_peer <$> l))
  (fun l => Forall (fun p => str16 p.1) l /\ length l = n).
Proof.
  induction n as [| n IH]; intros buf v rest Hbuf H; cbn [get_peers] in H.
  - injection H as <- <-. auto.
  - read_field H reads_str. read_field H reads_status. read_field H IH.
    injection H as <- <-. destruct Hok1 as [Hf Hl]. csimpl.
    change (w_peer (v0, v1)) with (w_str v0 ++ [status_byte v1]).
    rewrite <- !app_assoc. auto 10.
Qed.

Lemma reads_msg t : reads (get_msg t) body_of (fun m => msg_wf m /\ type_of m = t).
Proof.
  intros buf m rest Hbuf H.
  destruct t; cbn [get_msg] in H;
    repeat first [read_field H reads_str | read_field H reads_u16 | read_field H reads_u64
                 | read_field H reads_u8 | read_field H reads_blob | read_field H reads_peers];
    injection H as <- <-; cbn [body_of msg_wf type_of]; rewrite <- ?app_assoc; auto 10.
  - destruct Hok0 as [Hf Hl]. unfold w_peers. unfold u16 in Hok. rewrite Hl, Z2Nat.id by lia.
    rewrite <- app_assoc. repeat split; auto. lia.
  - destruct v1 as [| x r]; cbn; rewrite <- ?app_assoc; auto 10.
Qed.

Lemma decode_msg_inv t body m : bytes_ok body -> decode_msg t body = Ok m ->
  body = body_of m /\ msg_wf m /\ type_of m = t.
Proof.
  intros Hb H. unfold decode_msg in H. destruct (get_msg t body) as [[m' rest] | e |] eqn:Hg;
    [| discriminate ..]. cbn [mbind outcome_bind] in H. case_test_in H; [| discriminate].
  injection H as ->. destruct (reads_msg t _ _ _ Hb Hg) as (-> & [Hwf Ht] & _).
  destruct rest; [rewrite app_nil_r; auto | discriminate].
Qed.

(** ** Framing laws *)
Definition frame_of (m : SignalingMsg) : bytes :=
  [PROTO_VERSION; MsgType.as_u8 (type_of m); 0; 0]
  ++ to_be 4 (Z.of_nat (length (body_of m))) ++ body_of m.

(** What the receiver takes: a body of at most [MAX_BODY_LEN] octets. *)
Definition frame_wf (m : SignalingMsg) : Prop :=
  msg_wf m /\ Z.of_nat (length (body_of m)) <= MAX_BODY_LEN.

Lemma from_as_u8 t : MsgType.from_u8 (MsgType.as_u8 t) = Ok t.
Proof. destruct t; reflexivity. Qed.

Lemma as_from_u8 v t : MsgType.from_u8 v = Ok t -> MsgType.as_u8 t = v.
Proof.
  intros H. unfold MsgType.from_u8 in H.
  repeat match type of H with context [match ?x with _ => _ end] => is_var x; destruct x end;
    first [discriminate | injection H as <-; reflexivity].
Qed.

Lemma write_msg_ok out m : msg_wf m -> Z.of_nat (length (body_of m)) <= 4294967295 ->
  write_msg out m = Ok (out ++ frame_of m).
Proof.
  intros Hwf Hl. unfold write_msg. rewrite encode_msg_ok by exact Hwf. simpl mbind.
  unfold write_frame. case_test; [lia | reflexivity].
Qed.

Lemma read_exact_app n l rest : length l = n -> read_exact n (l ++ rest) = Ok (l, rest).
Proof.
  intros <-. unfold read_exact. case_test; [exfalso; len |].
  rewrite take_app_length, drop_app_length. reflexivity.
Qed.

(** The header of a frame as [read_frame] sees it *)
Lemma read_frame_header t len stream max : u32 len ->
  read_frame (([PROTO_VERSION; MsgType.as_u8 t; 0; 0] ++ to_be 4 len) ++ stream) max =
    (if max <? len then Err (Proto TooLarge)
     else '(body, rest) ← read_exact (Z.to_nat len) stream; Ok (t, body, rest)).
Proof.
  intros Hlen. unfold read_frame.
  rewrite (read_exact_app 8) by len. cbn [mbind outcome_bind].
  cbn [app get_idx expect lookup list_lookup mbind outcome_bind]. cbn [Z.eqb negb PROTO_VERSION Pos.eqb].
  rewrite from_as_u8. cbn [map_err mbind outcome_bind].
  rewrite (read_be_skip 4 [PROTO_VERSION; MsgType.as_u8 t; 0; 0] (to_be 4 len)) by len.
  rewrite <- (app_nil_r (to_be 4 len)). cbn [length Nat.sub].
  rewrite read_be_here by exact Hlen. reflexivity.
Qed.

Lemma length_frame_of m : length (frame_of m) = (8 + length (body_of m))%nat.
Proof. unfold frame_of. len. Qed.

Lemma frame_of_app m rest : frame_of m ++ rest =
  ([PROTO_VERSION; MsgType.as_u8 (type_of m); 0; 0]
   ++ to_be 4 (Z.of_nat (length (body_of m)))) ++ body_of m ++ rest.
Proof. unfold frame_of. rewrite <- !app_assoc. reflexivity. Qed.

Lemma read_msg_ok m rest : frame_wf m -> read_msg (frame_of m ++ rest) = Ok (m, rest).
Proof.
  unfold frame_wf, MAX_BODY_LEN. intros [Hwf Hl]. unfold read_msg. rewrite frame_of_app.
  rewrite read_frame_header by ulia. unfold MAX_BODY_LEN. case_test; [lia |].
  rewrite Nat2Z.id, read_exact_app by reflexivity. cbn [mbind outcome_bind].
  rewrite decode_msg_ok by exact Hwf. reflexivity.
Qed.

(** ** Conversations: several messages over one stream *)
Fixpoint write_msgs (out : bytes) (ms : list SignalingMsg) : outcome FrameError bytes :=
  match ms with
  | [] => Ok out
  | m :: ms' => out ← write_msg out m; write_msgs out ms'
  end.

Fixpoint read_msgs (n : nat) (stream : bytes) : outcome FrameError (list SignalingMsg * bytes) :=
  match n with
  | O => Ok ([], stream)
  | S k => '(m, stream) ← read_msg stream; '(ms, stream) ← read_msgs k stream; Ok (m :: ms, stream)
  end.

Lemma write_msgs_ok out ms : Forall frame_wf ms ->
  write_msgs out ms = Ok (out ++ concat (frame_of <$> ms)).
Proof.
  intros H. revert out. induction H as [| m ms [Hwf Hl] _ IH]; intros out.
  - cbn. rewrite app_nil_r. reflexivity.
  - rewrite fmap_cons. cbn [concat write_msgs]. unfold MAX_BODY_LEN in Hl. rewrite write_msg_ok by (assumption || lia). simpl mbind.
    rewrite IH, <- app_assoc. reflexivity.
Qed.

Lemma read_msgs_ok ms rest : Forall frame_wf ms ->
  read_msgs (length ms) (concat (frame_of <$> ms) ++ rest) = Ok (ms, rest).
Proof.
  induction 1 as [| m ms Hm _ IH]; [reflexivity |].
  rewrite fmap_cons. cbn [concat length read_msgs]. rewrite <- app_assoc, read_msg_ok by exact Hm. cbn [mbind outcome_bind]. rewrite IH. reflexivity.
Qed.

(** Stream round trip. Well-formed messages whose bodies are at most 1 MiB, written one
    after the other to a stream, are read back by the receiver as the same messages in the
    same order, whatever follows them in the stream, which is left unread. *)
Theorem signaling_stream_roundtrip ms rest : Forall frame_wf ms ->
  exists stream, write_msgs [] ms = Ok stream /\
    read_msgs (length ms) (stream ++ rest) = Ok (ms, rest).
Proof.
  intros H. exists (concat (frame_of <$> ms)). split; [exact (write_msgs_ok [] ms H) |].
  apply read_msgs_ok, H.
Qed.

(** Canonical encoding. A body that decodes as some message is exactly what the encoder
    produces for that message, and the message is well formed: two different bodies of one
    type never decode to the same message. *)
Theorem signaling_decode_encode t body m : bytes_ok body -> decode_msg t body = Ok m ->
  encode_msg m = Ok (t, body) /\ msg_wf m.
Proof.
  intros Hb H. destruct (decode_msg_inv t body m Hb H) as (-> & Hwf & <-).
  split; [apply encode_msg_ok, Hwf | exact Hwf].
Qed.

(** A receiver that has only part of a frame reports an end of stream: no strict prefix of
    a frame is read as a message, and the error is never a protocol error. *)
Theorem signaling_partial_frame m n : frame_wf m -> (n < length (frame_of m))%nat ->
  read_msg (take n (frame_of m)) = Err Io.
Proof.
  intros [Hwf Hl] Hn. rewrite length_frame_of in Hn. unfold MAX_BODY_LEN in Hl.
  unfold read_msg. destruct (decide (n < 8)%nat) as [H8 | H8].
  - unfold read_frame, read_exact. case_test; [reflexivity |].
    rewrite length_take in *. lia.
  - rewrite <- (app_nil_r (frame_of m)), frame_of_app, app_nil_r.
    rewrite take_app_ge by len. rewrite read_frame_header by ulia.
    unfold MAX_BODY_LEN. case_test; [lia |]. rewrite Nat2Z.id. unfold read_exact.
    case_test; [reflexivity |]. rewrite length_take in *. exfalso. len.
Qed.

(** The sender does not enforce the receiver's limit: a message whose body is larger than
    [MAX_BODY_LEN] but fits the 32-bit length field is written without error, and the reader of
    that stream rejects it as too large whatever follows. *)
Theorem signaling_oversized_sent m rest : msg_wf m ->
  MAX_BODY_LEN < Z.of_nat (length (body_of m)) <= 4294967295 ->
  write_msg [] m = Ok (frame_of m) /\ read_msg (frame_of m ++ rest) = Err (Proto TooLarge).
Proof.
  intros Hwf [Hl Hh]. split; [exact (write_msg_ok [] m Hwf Hh) |].
  unfold read_msg. rewrite frame_of_app, read_frame_header by ulia.
  case_test; [reflexivity | lia].
Qed.

(** ** Reading any stream *)
Lemma from_u8_no_panic v : no_panic (MsgType.from_u8 v).
Proof.
  unfold MsgType.from_u8.
  repeat match goal with |- context [match ?x with _ => _ end] => is_var x; destruct x end;
    discriminate.
Qed.

Definition total {A} (p : parser A) : Prop := forall buf, no_panic (p buf).

Lemma total_bind {A B} (p : parser A) (k : A -> parser B) :
  total p -> (forall v, total (k v)) -> total (p ≫= k).
Proof.
  intros Hp Hk buf. unfold mbind, parser_bind. specialize (Hp buf).
  destruct (p buf) as [[v mid] | e |]; [apply Hk | discriminate | congruence].
Qed.

Lemma total_ret {A} (v : A) : total (mret v).
Proof. intros buf. discriminate. Qed.
Lemma total_fail {A} e : total (fail (A:=A) e).
Proof. intros buf. discriminate. Qed.
Lemma total_uint n : total (get_uint n).
Proof. intros buf. unfold get_uint. case_test; discriminate. Qed.
Lemma total_bytes n : total (get_bytes n).
Proof. intros buf. unfold get_bytes. case_test; discriminate. Qed.
Lemma total_u8 : total get_u8.
Proof. intros [| b buf]; discriminate. Qed.

Ltac total_step :=
  first [apply total_bind; [| intros] | apply total_ret | apply total_fail | apply total_uint
        | apply total_bytes | apply total_u8 | assumption | case_test].

Lemma total_str : total get_str16.
Proof. unfold get_str16, get_u16. repeat total_step. Qed.
Lemma total_status : total get_status.
Proof. unfold get_status. repeat total_step. Qed.
Lemma total_peers n : total (get_peers n).
Proof.
  induction n as [| n IH]; cbn [get_peers]; [total_step |].
  pose proof total_str. pose proof total_status. repeat total_step.
Qed.
Lemma total_msg t : total (get_msg t).
Proof.
  pose proof total_str. destruct t; cbn [get_msg]; unfold get_blob, get_u16, get_u32, get_u64;
    repeat first [total_step | apply total_peers].
Qed.

Lemma read_exact_no_panic n stream : no_panic (read_exact n stream).
Proof. unfold read_exact. case_test; discriminate. Qed.
Lemma read_exact_len n stream l rest : read_exact n stream = Ok (l, rest) ->
  length l = n /\ stream = l ++ rest.
Proof.
  unfold read_exact. case_test; [discriminate |]. intros [= <- <-].
  rewrite take_drop, length_take. split; [lia | reflexivity].
Qed.

Lemma map_err_no_panic {E F A} (f : E -> F) (m : outcome E A) :
  no_panic m -> no_panic (map_err f m).
Proof. destruct m; [discriminate .. | congruence]. Qed.

Lemma read_frame_no_panic stream max : no_panic (read_frame stream max).
Proof.
  unfold read_frame. apply bind_no_panic; [apply read_exact_no_panic |]. intros [h s] Hh.
  apply read_exact_len in Hh. destruct Hh as [Hl _]. np.
  - apply map_err_no_panic, from_u8_no_panic.
  - apply read_exact_no_panic.
Qed.

(** Reading a message from any stream of octets returns a message or an error: no length
    field, type, status octet or text makes the reader panic. *)
Theorem signaling_read_no_panic stream : no_panic (read_msg stream).
Proof.
  unfold read_msg. apply bind_no_panic; [apply read_frame_no_panic |].
  intros [[t body] rest] _. apply bind_no_panic; [| intros; discriminate].
  apply map_err_no_panic. unfold decode_msg. apply bind_no_panic; [apply total_msg |].
  intros [m r] _. case_test; discriminate.
Qed.

(** ** Witnesses *)
#[export] Instance str16_dec s : Decision (str16 s).
Proof. unfold str16. apply _. Defined.

#[export] Instance msg_wf_dec m : Decision (msg_wf m).
Proof.
  unfold blob, u8, u16, u64. destruct m as [| | | | | | | | | | | | | | | | | | | | f u r | |];
    try destruct r; cbn [msg_wf]; unfold blob, u8, u16, u64; apply _.
Defined.
#[export] Instance frame_wf_dec m : Decision (frame_wf m).
Proof. unfold frame_wf. apply _. Defined.

(** A short conversation: alice logs in, offers, sends a candidate, leaves. *)
Definition demo_msgs : list SignalingMsg :=
  [Login [97] [112; 119]; PeersOnline [([98], Busy); ([99], Available)];
   Offer 7 [97] [98] [118; 61; 48]; Candidate [97] [98] [48] 1 [49]; Bye [97] [98] (Some [120])].

Lemma demo_msgs_wf : Forall frame_wf demo_msgs.
Proof. apply (bool_decide_unpack _). vm_compute. exact I. Qed.

Lemma signaling_stream_roundtrip_witness :
  exists stream, write_msgs [] demo_msgs = Ok stream /\
    read_msgs (length demo_msgs) (stream ++ [1; 8]) = Ok (demo_msgs, [1; 8]).
Proof. apply (signaling_stream_roundtrip demo_msgs [1; 8]), demo_msgs_wf. Defined.

Lemma signaling_decode_encode_witness :
  encode_msg (Bye [97] [98] None) = Ok (MsgType.Bye, [0; 1; 97; 0; 1; 98; 0; 0]) /\
  msg_wf (Bye [97] [98] None).
Proof.
  apply (signaling_decode_encode MsgType.Bye [0; 1; 97; 0; 1; 98; 0; 0]); [| reflexivity].
  apply (bool_decide_unpack _). vm_compute. exact I.
Defined.

Lemma signaling_partial_frame_witness :
  read_msg (take 9 (frame_of (JoinOk [97; 98]))) = Err Io.
Proof.
  apply (signaling_partial_frame (JoinOk [97; 98]) 9); [| vm_compute; lia].
  apply (bool_decide_unpack _). vm_compute. exact I.
Defined.

(** An offer whose description is 1,048,600 octets long *)
Definition big_offer : SignalingMsg := Offer 1 [97] [98] (replicate (Z.to_nat 1048600) 10).

Lemma length_big_offer : Z.of_nat (length (body_of big_offer)) = 1048618.
Proof.
  unfold big_offer. cbn [body_of]. unfold w_str, w_blob. norm_len. lia.
Qed.

Lemma signaling_oversized_sent_witness :
  write_msg [] big_offer = Ok (frame_of big_offer) /\
  read_msg (frame_of big_offer ++ []) = Err (Proto TooLarge).
Proof.
  apply (signaling_oversized_sent big_offer []).
  - cbn [msg_wf big_offer]. unfold blob. rewrite length_replicate.
    repeat split; try (apply (bool_decide_unpack _); vm_compute; exact I); lia.
  - rewrite length_big_offer. unfold MAX_BODY_LEN. lia.
Defined.
