(* ===== verification/SigState.v ===== *)
(** * State of the signaling server (src/signaling: auth, presence.rs, sessions.rs, errors.rs)

    User names, session identifiers and codes are octet strings, clients are numbers. A
    [HashMap] is a [gmap] and a [HashSet] a [gset]; where the code iterates over one, the order
    is unspecified, and the model takes the order of [map_to_list] or [elements]. *)

From stdpp Require Import prelude gmap fin_maps.
From Stdlib Require Import ZArith Lia.
From S2P Require Import Prelude.
Local Open Scope Z_scope.

Definition ClientId : Type := Z.
Definition UserName : Type := bytes.
Definition SessionId : Type := bytes.
Definition SessionCode : Type := bytes.

(** ** Error codes *)
Module LoginErrorCode.
Inductive t : Type := AlreadyLoggedIn | NotAuthorized | InvalidCredentials | Internal.
Definition as_u16 (c : t) : Z :=
  match c with
  | AlreadyLoggedIn => 1 | NotAuthorized => 2 | InvalidCredentials => 3 | Internal => 4
  end.
End LoginErrorCode.

Module JoinErrorCode.
Inductive t : Type := NotLoggedIn | NotFound | Full.
Definition as_u16 (c : t) : Z := match c with NotLoggedIn => 10 | NotFound => 20 | Full => 21 end.
End JoinErrorCode.

(** ** Authentication *)
Module AuthError.
Inductive t : Type := InvalidCredentials | Internal.
#[export] Instance t_eq_dec : EqDecision t.
Proof. solve_decision. Defined.
End AuthError.

Module RegisterError.
Inductive t : Type := UsernameTaken | InvalidUsername | WeakPassword | Internal | Unsupported.
#[export] Instance t_eq_dec : EqDecision t.
Proof. solve_decision. Defined.
End RegisterError.

Module RegisterErrorCode.
Inductive t : Type := UsernameTaken | InvalidUsername | WeakPassword | Internal | Unsupported.
Definition as_u16 (c : t) : Z :=
  match c with
  | UsernameTaken => 1 | InvalidUsername => 2 | WeakPassword => 3 | Internal => 4
  | Unsupported => 5
  end.
Definition from (err : RegisterError.t) : t :=
  match err with
  | RegisterError.UsernameTaken => UsernameTaken
  | RegisterError.InvalidUsername => InvalidUsername
  | RegisterError.WeakPassword => WeakPassword
  | RegisterError.Internal => Internal
  | RegisterError.Unsupported => Unsupported
  end.
End RegisterErrorCode.

(** The trait: a backend state, the check of a password and the creation of an account. *)
Class AuthBackend (A : Type) : Type := {
  verify : A -> bytes -> bytes -> outcome AuthError.t ();
  register : A -> bytes -> bytes -> outcome RegisterError.t () * A
}.

(** What the server relies on: a check answers, and a new account can be used at once. *)
Class AuthLaws (A : Type) `{AuthBackend A} : Prop := {
  verify_no_panic a u p : no_panic (verify a u p);
  register_no_panic a u p : no_panic (register a u p).1;
  register_verify a u p a' : register a u p = (Ok (), a') -> verify a' u p = Ok ();
  register_other a u p r a' v q : register a u p = (r, a') -> v <> u -> verify a' v q = verify a v q
}.

(** *** In memory *)
Record InMemoryAuthBackend : Type := { users : gmap bytes bytes }.

Definition in_memory_new : InMemoryAuthBackend := {| users := ∅ |}.
Definition with_user (a : InMemoryAuthBackend) (u p : bytes) : InMemoryAuthBackend :=
  {| users := <[u := p]> (users a) |}.

Definition in_memory_verify (a : InMemoryAuthBackend) (username password : bytes)
  : outcome AuthError.t () :=
  match users a !! username with
  | Some stored => if decide (stored = password) then Ok () else Err AuthError.InvalidCredentials
  | None => Err AuthError.InvalidCredentials
  end.

Definition in_memory_register (a : InMemoryAuthBackend) (username password : bytes)
  : outcome RegisterError.t () * InMemoryAuthBackend :=
  if is_some (users a !! username) then (Err RegisterError.UsernameTaken, a)
  else if (length username =? 0)%nat then (Err RegisterError.InvalidUsername, a)
  else if (length password =? 0)%nat then (Err RegisterError.WeakPassword, a)
  else (Ok (), with_user a username password).

#[export] Instance InMemory_backend : AuthBackend InMemoryAuthBackend := {
  verify := in_memory_verify; register := in_memory_register
}.

(** *** Accept everyone *)
Definition AllowAllAuthBackend : Type := unit.
Definition allow_all_verify (a : AllowAllAuthBackend) (u p : bytes) : outcome AuthError.t () := Ok ().
Definition allow_all_register (a : AllowAllAuthBackend) (u p : bytes)
  : outcome RegisterError.t () * AllowAllAuthBackend := (Ok (), a).

#[export] Instance AllowAll_backend : AuthBackend AllowAllAuthBackend := {
  verify := allow_all_verify; register := allow_all_register
}.

#[export] Instance InMemory_laws : AuthLaws InMemoryAuthBackend.
Proof.
  split; simpl; unfold in_memory_verify, in_memory_register.
  - intros a u p. destruct (users a !! u); [case_decide |]; discriminate.
  - intros a u p. repeat case_test; discriminate.
  - intros a u p a'. repeat case_test; try discriminate. intros [= <-]. simpl.
    rewrite lookup_insert_eq, decide_True by reflexivity. reflexivity.
  - intros a u p r a' v q H Hn.
    repeat case_test_in H; injection H as _ <-; try reflexivity. simpl.
    rewrite lookup_insert_ne by congruence. reflexivity.
Qed.

#[export] Instance AllowAll_laws : AuthLaws AllowAllAuthBackend.
Proof. split; simpl; unfold allow_all_verify, allow_all_register; congruence. Qed.

(** ** Presence *)
Module Presence.
Record t : Type := {
  user_to_client : gmap UserName ClientId;
  client_to_user : gmap ClientId UserName;
  busy_users : gset UserName
}.

Definition new : t := {| user_to_client := ∅; client_to_user := ∅; busy_users := ∅ |}.

Definition login (p : t) (client_id : ClientId) (username : UserName) : t * option ClientId :=
  ({| user_to_client := <[username := client_id]> (user_to_client p);
      client_to_user := <[client_id := username]> (client_to_user p);
      busy_users := busy_users p |},
   user_to_client p !! username).

Definition logout (p : t) (client_id : ClientId) : t * option UserName :=
  match client_to_user p !! client_id with
  | Some username =>
      ({| user_to_client := delete username (user_to_client p);
          client_to_user := delete client_id (client_to_user p);
          busy_users := busy_users p ∖ {[username]} |}, Some username)
  | None => (p, None)
  end.

Definition client_id_for (p : t) (username : UserName) : option ClientId :=
  user_to_client p !! username.
Definition username_for (p : t) (client : ClientId) : option UserName :=
  client_to_user p !! client.
Definition online_usernames (p : t) : list UserName := (map_to_list (user_to_client p)).*1.
Definition all_client_ids (p : t) : list ClientId := (map_to_list (client_to_user p)).*1.

Definition set_busy (p : t) (username : UserName) (busy : bool) : t :=
  {| user_to_client := user_to_client p; client_to_user := client_to_user p;
     busy_users := if busy then busy_users p ∪ {[username]}
                   else busy_users p ∖ {[username]} |}.

Definition is_busy (p : t) (username : UserName) : bool :=
  bool_decide (username ∈ busy_users p).

(** A logged-in client is the one its user name resolves to. *)
Definition ok (p : t) : Prop :=
  forall c u, client_to_user p !! c = Some u -> user_to_client p !! u = Some c.

Lemma elem_of_online p u : u ∈ online_usernames p <-> is_Some (client_id_for p u).
Proof.
  unfold online_usernames, client_id_for. rewrite list_elem_of_fmap. split.
  - intros ([u' c] & -> & H). apply elem_of_map_to_list in H. eauto.
  - intros [c H]. exists (u, c). rewrite elem_of_map_to_list. auto.
Qed.

Lemma elem_of_clients p c : c ∈ all_client_ids p <-> is_Some (username_for p c).
Proof.
  unfold all_client_ids, username_for. rewrite list_elem_of_fmap. split.
  - intros ([c' u] & -> & H). apply elem_of_map_to_list in H. eauto.
  - intros [u H]. exists (c, u). rewrite elem_of_map_to_list. auto.
Qed.

Lemma presence_new : ok new.
Proof. intros c u H. discriminate H. Qed.

(** Two clients never share a user name. *)
Lemma presence_inj p c1 c2 u : ok p -> username_for p c1 = Some u -> username_for p c2 = Some u -> c1 = c2.
Proof. intros Hp H1 H2. apply Hp in H1, H2. congruence. Qed.

Lemma presence_login p c u : ok p -> client_id_for p u = None -> ok (login p c u).1.
Proof.
  intros Hp Hu c' u'. unfold client_id_for in Hu. simpl.
  rewrite lookup_insert_Some. intros [[<- <-] | [Hne H]]; [apply lookup_insert_eq |].
  apply Hp in H. rewrite lookup_insert_ne by congruence. exact H.
Qed.

Lemma presence_logout p c : ok p -> ok (logout p c).1.
Proof.
  intros Hp. unfold logout. destruct (client_to_user p !! c) as [u |] eqn:Hc; [| exact Hp].
  intros c' u'. simpl. rewrite lookup_delete_Some. intros [Hne H].
  rewrite lookup_delete_ne; [apply Hp, H |]. intros <-. apply Hp in H, Hc. congruence.
Qed.

Lemma presence_set_busy p u b : ok p -> ok (set_busy p u b).
Proof. intros Hp. exact Hp. Qed.
End Presence.

(** ** Sessions *)
Inductive JoinError : Type := NotFound | Full.

Module Session.
Record t : Type := {
  session_id : SessionId;
  session_code : SessionCode;
  capacity : Z;
  members : gset ClientId
}.

Definition with_members (s : t) (m : gset ClientId) : t :=
  {| session_id := session_id s; session_code := session_code s; capacity := capacity s;
     members := m |}.
End Session.

Module Sessions.
Import Session.

Record t : Type := {
  by_sess_id : gmap SessionId Session.t;
  by_sess_code : gmap SessionCode SessionId
}.

Definition new : t := {| by_sess_id := ∅; by_sess_code := ∅ |}.

Definition insert_session (s : t) (session : Session.t) : t :=
  {| by_sess_code := <[session_code session := session_id session]> (by_sess_code s);
     by_sess_id := <[session_id session := session]> (by_sess_id s) |}.

Definition get (s : t) (session_id : SessionId) : option Session.t := by_sess_id s !! session_id.

(** The [expect] on a code without session is the [Panic] branch. *)
Definition join_by_code (s : t) (session_code : SessionCode) (client_id : ClientId)
  : outcome JoinError (t * SessionId) :=
  session_id ← ok_or (by_sess_code s !! session_code) NotFound;
  session ← expect (by_sess_id s !! session_id);
  if capacity session <=? Z.of_nat (size (members session)) then Err Full
  else Ok ({| by_sess_id := <[session_id := with_members session (members session ∪ {[client_id]})]>
                              (by_sess_id s);
              by_sess_code := by_sess_code s |}, session_id).

Definition ids_of_member (s : t) (client_id : ClientId) : list SessionId :=
  (filter (fun kv => client_id ∈ members kv.2) (map_to_list (by_sess_id s))).*1.

(** The loop over the sessions the client is in: the updated map and the remaining members. *)
Fixpoint remove_from (client_id : ClientId) (ids : list SessionId) (m : gmap SessionId Session.t)
  (result : list (SessionId * list ClientId))
  : gmap SessionId Session.t * list (SessionId * list ClientId) :=
  match ids with
  | [] => (m, result)
  | sess_id :: ids' =>
      match m !! sess_id with
      | Some sess =>
          let members' := members sess ∖ {[client_id]} in
          remove_from client_id ids' (<[sess_id := with_members sess members']> m)
            (result ++ [(sess_id, elements members')])
      | None => remove_from client_id ids' m result
      end
  end.

Definition leave_all (s : t) (client_id : ClientId) : t * list (SessionId * list ClientId) :=
  let '(m, result) := remove_from client_id (ids_of_member s client_id) (by_sess_id s) [] in
  let m' := filter (fun kv => members kv.2 <> ∅) m in
  ({| by_sess_id := m';
      by_sess_code := filter (fun kv => is_Some (m' !! kv.2)) (by_sess_code s) |}, result).

Definition share_session (s : t) (a b : ClientId) : bool :=
  existsb (fun kv : SessionId * Session.t =>
             bool_decide (a ∈ members kv.2) && bool_decide (b ∈ members kv.2))
    (map_to_list (by_sess_id s)).

Definition contains_code (s : t) (code : SessionCode) : bool := is_some (by_sess_code s !! code).

(** *** Invariant *)
Record ok (s : t) : Prop := {
  (** a code leads to a session *)
  codes_live code id : by_sess_code s !! code = Some id -> is_Some (by_sess_id s !! id);
  (** nobody is in a session with more members than seats, the creator of a session with
      capacity zero apart; no session is empty *)
  seats id sess : by_sess_id s !! id = Some sess ->
    1 <= Z.of_nat (size (members sess)) <= Z.max 1 (capacity sess)
}.

(** *** Leaving *)
Lemma elem_of_ids s c id : id ∈ ids_of_member s c <->
  exists sess, by_sess_id s !! id = Some sess /\ c ∈ members sess.
Proof.
  unfold ids_of_member. rewrite list_elem_of_fmap. split.
  - intros ([id' sess] & -> & H). apply list_elem_of_filter in H. destruct H as [H1 H2].
    apply elem_of_map_to_list in H2. eauto.
  - intros (sess & H1 & H2). exists (id, sess). rewrite list_elem_of_filter, elem_of_map_to_list. auto.
Qed.

Lemma NoDup_ids s c : NoDup (ids_of_member s c).
Proof.
  unfold ids_of_member. apply NoDup_fmap_fst.
  - intros id s1 s2 H1 H2. apply list_elem_of_filter in H1, H2.
    destruct H1 as [_ H1], H2 as [_ H2]. apply elem_of_map_to_list in H1, H2. congruence.
  - apply NoDup_filter, NoDup_map_to_list.
Qed.

Lemma remove_from_spec c ids m res : NoDup ids ->
  (forall id, (remove_from c ids m res).1 !! id =
     if decide (id ∈ ids)
     then (fun sess => with_members sess (members sess ∖ {[c]})) <$> (m !! id) else m !! id) /\
  (forall id l, (id, l) ∈ (remove_from c ids m res).2 <->
     (id, l) ∈ res \/ id ∈ ids /\ exists sess, m !! id = Some sess /\
                                          l = elements (members sess ∖ {[c]})).
Proof.
  intros Hnd. revert m res. induction Hnd as [| id0 ids Hni _ IH]; intros m res; simpl.
  - split; [reflexivity | set_solver].
  - destruct (m !! id0) as [sess0 |] eqn:Hm.
    + destruct (IH (<[id0:=with_members sess0 (members sess0 ∖ {[c]})]> m)
                  (res ++ [(id0, elements (members sess0 ∖ {[c]}))])) as [IH1 IH2].
      split; intros id; [rewrite IH1 | intros l; rewrite IH2].
      * destruct (decide (id = id0)) as [-> | Hne].
        { rewrite decide_False by exact Hni. rewrite decide_True by set_solver.
          rewrite lookup_insert_eq, Hm. reflexivity. }
        rewrite lookup_insert_ne by congruence. repeat case_decide; set_solver.
      * rewrite elem_of_app, list_elem_of_singleton. split.
        { intros [[H | H] | [Hi (sess & Hs & ->)]]; [left; exact H | |].
          - right. injection H as -> ->. split; [set_solver | eauto].
          - rewrite lookup_insert_ne in Hs by (intros ->; contradiction).
            right. split; [set_solver | eauto]. }
        intros [H | [Hi (sess & Hs & ->)]]; [left; left; exact H |].
        apply elem_of_cons in Hi. destruct Hi as [-> | Hi].
        { left. right. congruence. }
        right. split; [exact Hi |]. exists sess.
        rewrite lookup_insert_ne by (intros ->; contradiction). auto.
    + destruct (IH m res) as [IH1 IH2]. split; intros id; [rewrite IH1 | intros l; rewrite IH2].
      * destruct (decide (id = id0)) as [-> | Hne].
        { rewrite decide_False by exact Hni. rewrite decide_True by set_solver.
          rewrite Hm. reflexivity. }
        repeat case_decide; set_solver.
      * split; [set_solver |]. intros [H | [Hi (sess & Hs & ->)]]; [auto |].
        apply elem_of_cons in Hi. destruct Hi as [-> | Hi]; [congruence | eauto].
Qed.

(** A session after [leave_all]: the same without the client, if anyone is left *)
Lemma leave_all_lookup s c id sess : by_sess_id (leave_all s c).1 !! id = Some sess <->
  exists sess0, by_sess_id s !! id = Some sess0 /\
    sess = with_members sess0 (members sess0 ∖ {[c]}) /\ members sess <> ∅.
Proof.
  unfold leave_all. destruct (remove_from_spec c (ids_of_member s c) (by_sess_id s) []) as [H _];
    [apply NoDup_ids |].
  destruct (remove_from c (ids_of_member s c) (by_sess_id s) []) as [m res]. simpl in *.
  rewrite map_lookup_filter_Some, H. simpl. case_decide as Hd.
  - rewrite fmap_Some. naive_solver.
  - split.
    + intros [Hs Hne]. exists sess. split; [exact Hs |]. split; [| exact Hne].
      destruct sess as [i d k ms]. unfold with_members. simpl. f_equal.
      assert (c ∉ ms); [| set_solver]. intros Hc. apply Hd, elem_of_ids. eauto.
    + intros (sess0 & Hs & -> & Hne). split; [| exact Hne]. rewrite Hs. f_equal.
      destruct sess0 as [i d k ms]. unfold with_members. simpl in *. f_equal.
      assert (c ∉ ms); [| set_solver]. intros Hc. apply Hd, elem_of_ids. eauto.
Qed.

(** The report of [leave_all]: the sessions the client was in with those who remain *)
Lemma leave_all_result s c id l : (id, l) ∈ (leave_all s c).2 <->
  exists sess, by_sess_id s !! id = Some sess /\ c ∈ members sess /\
    l = elements (members sess ∖ {[c]}).
Proof.
  unfold leave_all. destruct (remove_from_spec c (ids_of_member s c) (by_sess_id s) []) as [_ H];
    [apply NoDup_ids |].
  destruct (remove_from c (ids_of_member s c) (by_sess_id s) []) as [m res]. simpl in *.
  rewrite H, elem_of_ids. set_solver.
Qed.

Lemma sessions_new : ok new.
Proof. split; intros ? ? H; discriminate H. Qed.

Lemma sessions_insert s sess : ok s -> size (members sess) = 1%nat -> ok (insert_session s sess).
Proof.
  intros [Hc Hs] H1. split; intros k v; simpl; rewrite !lookup_insert_Some.
  - intros [[_ <-] | [_ H]]; [rewrite lookup_insert_eq; eauto |].
    destruct (decide (session_id sess = v)) as [<- | Hne];
      [rewrite lookup_insert_eq; eauto | rewrite lookup_insert_ne by exact Hne; eauto].
  - intros [[_ <-] | [_ H]]; [rewrite H1; lia | eauto].
Qed.

Lemma sessions_join s code c s' id : ok s -> join_by_code s code c = Ok (s', id) -> ok s'.
Proof.
  intros [Hc Hs] H. unfold join_by_code in H. bind_inv H. bind_inv H.
  case_test_in H; [discriminate |]. injection H as <- <-. split; intros k w; simpl.
  - intros Hk. apply lookup_insert_is_Some'. eauto.
  - rewrite lookup_insert_Some. intros [[_ <-] | [_ Hk]]; [| eauto].
    destruct (by_sess_id s !! v) as [sess |] eqn:Hsess; [| discriminate].
    injection Hv0 as ->. apply Hs in Hsess. simpl. pose proof (size_union_alt (members v0) {[c]}) as Hsz.
    assert (size ({[c]} ∖ members v0) <= 1)%nat.
    { rewrite <- (size_singleton (C := gset ClientId) c). apply subseteq_size. set_solver. }
    lia.
Qed.

(** Joining answers: the internal [expect] cannot fail. *)
Lemma join_no_panic s code c : ok s -> no_panic (join_by_code s code c).
Proof.
  intros [Hc _]. unfold join_by_code. destruct (by_sess_code s !! code) as [id |] eqn:Hcode;
    [| discriminate]. destruct (Hc _ _ Hcode) as [sess Hsess]. simpl. rewrite Hsess. simpl.
  case_test; discriminate.
Qed.

Lemma sessions_leave s c : ok s -> ok (leave_all s c).1.
Proof.
  intros [Hc Hs]. split.
  - intros code id. unfold leave_all.
    destruct (remove_from _ _ _ _) as [m res]. simpl. rewrite map_lookup_filter_Some.
    intros [_ H]. exact H.
  - intros id sess H. apply leave_all_lookup in H. destruct H as (sess0 & H0 & -> & Hne).
    apply Hs in H0. simpl in *. split.
    + assert (size (members sess0 ∖ {[c]}) <> 0%nat); [| lia].
      apply size_non_empty_iff. intros He. apply Hne, leibniz_equiv, He.
    + assert (size (members sess0 ∖ {[c]}) <= size (members sess0))%nat; [| lia].
      apply subseteq_size. set_solver.
Qed.
End Sessions.
