(* ===== verification/SigServer.v ===== *)
(** * Signaling server (src/signaling: server_engine.rs, router.rs, runtime.rs, types.rs)

    [ServerEngine] is the state machine, parametric in the authentication backend. A handler
    returns the new state and the messages to send. The random draws of a session code are an
    argument. Logging is left out. The theorems about the server are at the end. *)

From stdpp Require Import prelude gmap fin_maps.
From Stdlib Require Import ZArith Lia.
From S2P Require Import Prelude Text SigProtocol SigState.
Local Open Scope Z_scope.

(** ** Outgoing messages *)
Definition OutgoingMsg : Type := ClientId * SignalingMsg.

Module ServerEngine.
Section engine.
Context {A : Type} `{AuthBackend A}.

Record t : Type := {
  presence : Presence.t;
  sessions : Sessions.t;
  next_session_id : Z;
  auth : A
}.

Definition with_auth (auth : A) : t :=
  {| presence := Presence.new; sessions := Sessions.new; next_session_id := 1; auth := auth |}.

Definition with_presence (s : t) (p : Presence.t) : t :=
  {| presence := p; sessions := sessions s; next_session_id := next_session_id s; auth := auth s |}.
Definition with_sessions (s : t) (ss : Sessions.t) : t :=
  {| presence := presence s; sessions := ss; next_session_id := next_session_id s; auth := auth s |}.
Definition with_next (s : t) (n : Z) : t :=
  {| presence := presence s; sessions := sessions s; next_session_id := n; auth := auth s |}.
Definition set_auth (s : t) (a : A) : t :=
  {| presence := presence s; sessions := sessions s; next_session_id := next_session_id s;
     auth := a |}.

Definition require_logged_in (s : t) (client_id : ClientId) : option UserName :=
  Presence.username_for (presence s) client_id.

(** *** Session identifiers and codes *)

(** "sess-" followed by the counter; the increment is checked. *)
Definition session_name (n : Z) : SessionId := [115; 101; 115; 115; 45] ++ dec n.

Definition alloc_session_id (s : t) : outcome Empty_set (t * SessionId) :=
  let id := session_name (next_session_id s) in
  if 18446744073709551615 <=? next_session_id s then Panic
  else Ok (with_next s (next_session_id s + 1), id).

(** The random attempts: [rng i] is draw [i]. *)
Fixpoint try_random (ss : Sessions.t) (rng : nat -> Z) (i attempts : nat) : option SessionCode :=
  match attempts with
  | O => None
  | S k => let code := dec6 (rng i) in
           if negb (Sessions.contains_code ss code) then Some code
           else try_random ss rng (S i) k
  end.

(** The deterministic walk; [None] is a walk that did not end within the fuel. *)
Fixpoint walk (ss : Sessions.t) (fuel : nat) (next : Z) : option (Z * SessionCode) :=
  match fuel with
  | O => None
  | S k => let code := dec6 next in
           let next := wrap64 (next + 1) in
           if negb (Sessions.contains_code ss code) then Some (next, code)
           else walk ss k next
  end.

(** One more step than there are codes is enough fuel. *)
Definition alloc_session_code (s : t) (rng : nat -> Z) : outcome Empty_set (t * SessionCode) :=
  match try_random (sessions s) rng 0 100 with
  | Some code => Ok (s, code)
  | None =>
      '(next, code) ← expect (walk (sessions s) (S (size (Sessions.by_sess_code (sessions s))))
                                (next_session_id s));
      Ok (with_next s next, code)
  end.

(** *** Peer lists *)
Definition status_of (s : t) (u : UserName) : PeerStatus :=
  if Presence.is_busy (presence s) u then Busy else Available.

Definition peers_except (s : t) (me : UserName) : list (UserName * PeerStatus) :=
  (fun u => (u, status_of s u)) <$> filter (fun u => u <> me) (Presence.online_usernames (presence s)).

Definition broadcast_peer_list_update (s : t) : list OutgoingMsg :=
  omap (fun c => match Presence.username_for (presence s) c with
                 | Some my_username => Some (c, PeersOnline (peers_except s my_username))
                 | None => None
                 end)
    (Presence.all_client_ids (presence s)).

(** [PeerLeft] to every remaining member of every session left *)
Definition left_notices (username : UserName) (left_sessions : list (SessionId * list ClientId))
  : list OutgoingMsg :=
  concat (map (fun e : SessionId * list ClientId =>
                 map (fun member => (member, PeerLeft e.1 username)) e.2) left_sessions).

Definition handle_disconnect (s : t) (client : ClientId) : t * list OutgoingMsg :=
  let '(p, username_opt) := Presence.logout (presence s) client in
  let '(ss, left_sessions) := Sessions.leave_all (sessions s) client in
  let s' := with_sessions (with_presence s p) ss in
  (s', match username_opt with
       | Some username => left_notices username left_sessions ++ broadcast_peer_list_update s'
       | None => []
       end).

(** *** Handlers *)
Definition handle_login (s : t) (client : ClientId) (username password : bytes)
  : outcome Empty_set (t * list OutgoingMsg) :=
  match verify (auth s) username password with
  | Err err =>
      let code := match err with
                  | AuthError.InvalidCredentials => LoginErrorCode.InvalidCredentials
                  | AuthError.Internal => LoginErrorCode.Internal
                  end in
      Ok (s, [(client, LoginErr (LoginErrorCode.as_u16 code))])
  | Panic => Panic
  | Ok _ =>
      match Presence.client_id_for (presence s) username with
      | Some existing_client =>
          Ok (s, [(client, LoginErr (LoginErrorCode.as_u16 LoginErrorCode.AlreadyLoggedIn))])
      | None =>
          let s' := with_presence s (Presence.login (presence s) client username).1 in
          Ok (s', (client, LoginOk username) :: broadcast_peer_list_update s')
      end
  end.

Definition handle_register (s : t) (client_id : ClientId) (username password : bytes)
  : outcome Empty_set (t * list OutgoingMsg) :=
  let '(res, a) := register (auth s) username password in
  let s' := set_auth s a in
  match res with
  | Ok _ => Ok (s', [(client_id, RegisterOk username)])
  | Err err => Ok (s', [(client_id, RegisterErr (RegisterErrorCode.as_u16 (RegisterErrorCode.from err)))])
  | Panic => Panic
  end.

Definition handle_list_peers (s : t) (client_id : ClientId) : list OutgoingMsg :=
  match require_logged_in s client_id with
  | None => [(client_id, PeersOnline [])]
  | Some requester => [(client_id, PeersOnline (peers_except s requester))]
  end.

Definition handle_create_session (s : t) (rng : nat -> Z) (client_id : ClientId) (capacity : Z)
  : outcome Empty_set (t * list OutgoingMsg) :=
  match require_logged_in s client_id with
  | None => Ok (s, [(client_id, JoinErr (JoinErrorCode.as_u16 JoinErrorCode.NotLoggedIn))])
  | Some username =>
      '(s, id) ← alloc_session_id s;
      '(s, code) ← alloc_session_code s rng;
      let session := {| Session.session_id := id; Session.session_code := code;
                        Session.capacity := capacity; Session.members := {[client_id]} |} in
      Ok (with_sessions s (Sessions.insert_session (sessions s) session),
          [(client_id, Created id code)])
  end.

Definition handle_join (s : t) (client_id : ClientId) (session_code : bytes)
  : outcome Empty_set (t * list OutgoingMsg) :=
  match require_logged_in s client_id with
  | None => Ok (s, [(client_id, JoinErr (JoinErrorCode.as_u16 JoinErrorCode.NotLoggedIn))])
  | Some username =>
      match Sessions.join_by_code (sessions s) session_code client_id with
      | Ok (ss, session_id) =>
          let existing := match Sessions.get ss session_id with
                          | Some sess =>
                              (fun member => (member, PeerJoined session_id username)) <$>
                                filter (fun member => member <> client_id)
                                  (elements (Session.members sess))
                          | None => []
                          end in
          Ok (with_sessions s ss, (client_id, JoinOk session_id) :: existing)
      | Err NotFound =>
          Ok (s, [(client_id, JoinErr (JoinErrorCode.as_u16 JoinErrorCode.NotFound))])
      | Err Full => Ok (s, [(client_id, JoinErr (JoinErrorCode.as_u16 JoinErrorCode.Full))])
      | Panic => Panic
      end
  end.

Definition forward (s : t) (from_username : UserName) (txn_id : Z) (to_username : UserName)
  (builder : UserName -> Z -> UserName -> SignalingMsg) : list OutgoingMsg :=
  match Presence.client_id_for (presence s) to_username with
  | None => []
  | Some target_client => [(target_client, builder from_username txn_id to_username)]
  end.

Definition forward_signaling (s : t) (from : ClientId) (msg : SignalingMsg) : t * list OutgoingMsg :=
  match require_logged_in s from with
  | None => (s, [])
  | Some from_username =>
      let set_both s to busy :=
        with_presence s (Presence.set_busy (Presence.set_busy (presence s) from_username busy)
                           to busy) in
      match msg with
      | Offer txn_id _ to sdp =>
          (s, forward s from_username txn_id to (fun username txn_id to => Offer txn_id username to sdp))
      | Answer txn_id _ to sdp =>
          let s' := set_both s to true in
          (s', forward s' from_username txn_id to
                 (fun username txn_id to => Answer txn_id username to sdp)
               ++ broadcast_peer_list_update s')
      | Candidate _ to mid mline_index cand =>
          (s, forward s from_username 0 to
                (fun username _ to => Candidate username to mid mline_index cand))
      | Ack _ to txn_id =>
          (s, forward s from_username txn_id to (fun username txn_id to => Ack username to txn_id))
      | Bye _ to reason =>
          let s' := set_both s to false in
          (s', forward s' from_username 0 to (fun username _ to => Bye username to reason)
               ++ broadcast_peer_list_update s')
      | _ => (s, [])
      end
  end.

Definition handle (rng : nat -> Z) (s : t) (from_cid : ClientId) (msg : SignalingMsg)
  : outcome Empty_set (t * list OutgoingMsg) :=
  match msg with
  | Hello _ => Ok (s, [])
  | Login username password => handle_login s from_cid username password
  | Register username password => handle_register s from_cid username password
  | ListPeers => Ok (s, handle_list_peers s from_cid)
  | CreateSession capacity => handle_create_session s rng from_cid capacity
  | Join session_code => handle_join s from_cid session_code
  | Offer _ _ _ _ | Answer _ _ _ _ | Candidate _ _ _ _ _ | Ack _ _ _ | Bye _ _ _ =>
      Ok (forward_signaling s from_cid msg)
  | Ping nonce => Ok (s, [(from_cid, Pong nonce)])
  | Pong _ => Ok (s, [])
  | LoginOk _ | LoginErr _ | RegisterOk _ | RegisterErr _ | PeersOnline _ | Created _ _
  | JoinOk _ | JoinErr _ | PeerJoined _ _ | PeerLeft _ _ => Ok (s, [])
  end.

(** *** Allocation of codes *)
Lemma walk_spec ss f n next code : u64 n -> walk ss f n = Some (next, code) ->
  u64 next /\ Sessions.contains_code ss code = false.
Proof.
  revert n. induction f as [| f IH]; intros n Hn Hw; cbn [walk] in Hw; [discriminate |].
  assert (Hn' : u64 (wrap64 (n + 1))) by (unfold u64, wrap64; elia).
  destruct (Sessions.contains_code ss (dec6 n)) eqn:Hc; cbn [negb] in Hw; [eauto |].
  injection Hw as <- <-. auto.
Qed.

Lemma walk_none ss f n i : walk ss f n = None -> (i < f)%nat -> u64 n ->
  Sessions.contains_code ss (dec6 (wrap64 (n + Z.of_nat i))) = true.
Proof.
  revert n i. induction f as [| f IH]; intros n i Hw Hi Hn; [lia |]. cbn [walk] in Hw.
  destruct (Sessions.contains_code ss (dec6 n)) eqn:Hc; cbn [negb] in Hw; [| discriminate].
  destruct i as [| i].
  - replace (wrap64 (n + Z.of_nat 0)) with n by (unfold wrap64, u64 in *; elia). exact Hc.
  - assert (H' : u64 (wrap64 (n + 1))) by (unfold u64, wrap64; elia).
    replace (wrap64 (n + Z.of_nat (S i))) with (wrap64 (wrap64 (n + 1) + Z.of_nat i));
      [apply IH; [exact Hw | lia | exact H'] |].
    unfold wrap64. rewrite Zplus_mod_idemp_l. f_equal. lia.
Qed.

(** The walk ends: it meets a free code within one step more than there are codes. *)
Lemma walk_total ss n : u64 n -> Z.of_nat (size (Sessions.by_sess_code ss)) < 18446744073709551616 ->
  is_Some (walk ss (S (size (Sessions.by_sess_code ss))) n).
Proof.
  intros Hn Hsz. destruct (walk _ _ _) eqn:Hw; [eauto | exfalso].
  set (k := S (size (Sessions.by_sess_code ss))) in *.
  set (l := (fun i => dec6 (wrap64 (n + Z.of_nat i))) <$> seq 0 k).
  assert (Hnd : NoDup l).
  { apply NoDup_fmap_2_strong; [| apply NoDup_seq].
    intros i j Hi Hj Hij. apply elem_of_seq in Hi, Hj.
    apply dec6_inj in Hij; [| unfold u64, wrap64; elia ..]. unfold wrap64, u64 in *. elia. }
  assert (Hsub : (list_to_set l : gset SessionCode) ⊆ dom (Sessions.by_sess_code ss)).
  { intros code Hc. apply elem_of_list_to_set, list_elem_of_fmap in Hc. destruct Hc as (i & -> & Hi).
    apply elem_of_seq in Hi. pose proof (walk_none ss k n i Hw ltac:(lia) Hn) as Hc.
    unfold Sessions.contains_code in Hc. apply elem_of_dom.
    destruct (Sessions.by_sess_code ss !! _); [eauto | discriminate]. }
  apply subseteq_size in Hsub. rewrite size_list_to_set, size_dom in Hsub by exact Hnd.
  unfold l in Hsub. rewrite length_fmap, length_seq in Hsub. lia.
Qed.

Lemma try_random_fresh ss rng i k code : try_random ss rng i k = Some code ->
  Sessions.contains_code ss code = false.
Proof.
  revert i. induction k as [| k IH]; intros i Hr; cbn [try_random] in Hr; [discriminate |].
  destruct (Sessions.contains_code ss (dec6 (rng i))) eqn:Hc; cbn [negb] in Hr; [eauto |].
  congruence.
Qed.

(** Fewer codes in use than there are values of the counter *)
Definition codes_fit (s : t) : Prop :=
  Z.of_nat (size (Sessions.by_sess_code (sessions s))) < 18446744073709551616.

Lemma alloc_code_spec s rng : u64 (next_session_id s) ->
  codes_fit s ->
  exists next code, alloc_session_code s rng = Ok (with_next s next, code) /\ u64 next /\
    Sessions.contains_code (sessions s) code = false.
Proof.
  intros Hn Hsz. unfold alloc_session_code. destruct (try_random _ _ _ _) as [code |] eqn:Hr.
  - exists (next_session_id s), code. apply try_random_fresh in Hr. destruct s. auto.
  - destruct (walk_total (sessions s) (next_session_id s) Hn Hsz) as [[next code] Hw].
    rewrite Hw. destruct (walk_spec _ _ _ _ _ Hn Hw). eauto.
Qed.

(** *** Invariant *)
Record ok (s : t) : Prop := {
  ok_presence : Presence.ok (presence s);
  ok_sessions : Sessions.ok (sessions s);
  ok_next : u64 (next_session_id s);
  (** only logged-in clients are in sessions *)
  ok_members id sess c : Sessions.by_sess_id (sessions s) !! id = Some sess ->
    c ∈ Session.members sess -> is_Some (Presence.username_for (presence s) c)
}.

Lemma ok_with_auth a : ok (with_auth a).
Proof.
  split; simpl; [apply Presence.presence_new | apply Sessions.sessions_new | ulia |].
  intros id sess c Hid. discriminate Hid.
Qed.

Lemma ok_with_presence s p : ok s -> Presence.ok p ->
  (forall c, is_Some (Presence.username_for (presence s) c) -> is_Some (Presence.username_for p c)) ->
  ok (with_presence s p).
Proof. intros [H1 H2 H3 H4] Hp Hs. split; simpl; eauto. Qed.

Lemma engine_login s c u p s' out : ok s -> handle_login s c u p = Ok (s', out) -> ok s'.
Proof.
  intros Hs. unfold handle_login. destruct (verify _ _ _); [| congruence ..].
  destruct (Presence.client_id_for (presence s) u) eqn:Hc; [congruence |]. intros [= <- _].
  apply ok_with_presence; [exact Hs | apply Presence.presence_login; [apply Hs | exact Hc] |].
  intros c' Hc'. unfold Presence.username_for. simpl. apply lookup_insert_is_Some'. auto.
Qed.

Lemma ok_register s c u p s' out : ok s -> handle_register s c u p = Ok (s', out) -> ok s'.
Proof.
  intros [H1 H2 H3 H4]. unfold handle_register. destruct (register _ _ _) as [[| |] a];
    intros [= <- _]; split; eauto.
Qed.

Lemma ok_create s rng c cap s' out : ok s ->
  codes_fit s ->
  handle_create_session s rng c cap = Ok (s', out) -> ok s'.
Proof.
  intros [H1 H2 H3 H4] Hsz. unfold handle_create_session.
  destruct (require_logged_in s c) as [u |] eqn:Hu; [| intros [= <- _]; split; auto].
  unfold alloc_session_id. case_test; [discriminate |]. cbn [mbind outcome_bind].
  destruct (alloc_code_spec (with_next s (next_session_id s + 1)) rng) as (next & code & Ha & Hn & _);
    [simpl; ulia | exact Hsz |].
  rewrite Ha. intros [= <- _]. split; simpl; [exact H1 | | exact Hn |].
  - apply Sessions.sessions_insert; [exact H2 |]. exact (size_singleton (C := gset ClientId) c).
  - intros id sess c'. rewrite lookup_insert_Some. intros [[_ <-] | [_ Hi]]; [| eauto].
    simpl. rewrite elem_of_singleton. intros ->. unfold require_logged_in in Hu. eauto.
Qed.

Lemma ok_handle_join s c code s' out : ok s -> handle_join s c code = Ok (s', out) -> ok s'.
Proof.
  intros [H1 H2 H3 H4]. unfold handle_join.
  destruct (require_logged_in s c) as [u |] eqn:Hu; [| intros [= <- _]; split; auto].
  destruct (Sessions.join_by_code _ _ _) as [[ss id] | [|] |] eqn:Hj;
    [| intros [= <- _]; split; auto .. | discriminate].
  intros [= <- _]. split; simpl; [exact H1 | apply (Sessions.sessions_join _ _ _ _ _ H2 Hj) | exact H3 |].
  unfold Sessions.join_by_code in Hj. bind_inv Hj. bind_inv Hj. case_test_in Hj; [discriminate |].
  injection Hj as <- <-. intros id sess c'. simpl. rewrite lookup_insert_Some.
  intros [[_ <-] | [_ Hi]]; [| eauto]. simpl. rewrite elem_of_union, elem_of_singleton.
  unfold require_logged_in in Hu. intros [Hin | ->]; [| eauto].
  destruct (Sessions.by_sess_id (sessions s) !! v) eqn:Hv1; [| discriminate].
  injection Hv0 as ->. eauto.
Qed.

Lemma ok_forward s c m : ok s -> ok (forward_signaling s c m).1.
Proof.
  intros Hs. unfold forward_signaling. destruct (require_logged_in s c); [| exact Hs].
  destruct m; try exact Hs; (apply ok_with_presence; [exact Hs | apply Hs | auto]).
Qed.

Lemma ok_forward_out s c m s' out : ok s ->
  Ok (E := Empty_set) (forward_signaling s c m) = Ok (s', out) -> ok s'.
Proof.
  intros Hs [= Hf]. pose proof (ok_forward s c m Hs) as Ho. rewrite Hf in Ho. exact Ho.
Qed.

Lemma ok_disconnect s c : ok s -> ok (handle_disconnect s c).1.
Proof.
  intros [H1 H2 H3 H4]. unfold handle_disconnect.
  pose proof (Presence.presence_logout (presence s) c H1) as Hp.
  pose proof (Sessions.sessions_leave (sessions s) c H2) as Hs.
  pose proof (Sessions.leave_all_lookup (sessions s) c) as Hl.
  destruct (Presence.logout (presence s) c) as [p uo] eqn:Hlo.
  destruct (Sessions.leave_all (sessions s) c) as [ss l]. simpl in *.
  split; simpl; [exact Hp | exact Hs | exact H3 |].
  intros id sess c' Hid Hc'. apply Hl in Hid. destruct Hid as (sess0 & Hid & -> & _).
  simpl in Hc'. apply elem_of_difference in Hc'. destruct Hc' as [Hc' Hne].
  specialize (H4 _ _ _ Hid Hc'). rewrite elem_of_singleton in Hne.
  unfold Presence.logout in Hlo. unfold Presence.username_for in *.
  destruct (Presence.client_to_user (presence s) !! c); injection Hlo as <- _; [| exact H4].
  simpl. rewrite lookup_delete_ne by congruence. exact H4.
Qed.

Lemma ok_handle rng s c m s' out : ok s ->
  codes_fit s ->
  handle rng s c m = Ok (s', out) -> ok s'.
Proof.
  intros Hs Hsz. destruct m; cbn [handle]; try (intros [= <- _]; exact Hs);
    try (apply ok_forward_out, Hs).
  - apply engine_login, Hs.
  - apply ok_register, Hs.
  - apply ok_create; assumption.
  - apply ok_handle_join, Hs.
Qed.

(** *** Steps: a message or a disconnection of any client *)
Inductive step : t -> t -> Prop :=
| step_handle rng s c m s' out : codes_fit s -> handle rng s c m = Ok (s', out) -> step s s'
| step_disconnect s c : step s (handle_disconnect s c).1.

Definition reachable (s : t) : Prop := exists a, rtc step (with_auth a) s.

Lemma engine_step s s' : ok s -> step s s' -> ok s'.
Proof.
  intros Hs Hstep. destruct Hstep as [rng s c m s' out Hf Hh | s c];
    [exact (ok_handle _ _ _ _ _ _ Hs Hf Hh) | apply ok_disconnect, Hs].
Qed.

Lemma reachable_ok s : reachable s -> ok s.
Proof.
  intros [a Hr]. assert (Ha := ok_with_auth a).
  induction Hr as [s | s1 s2 s3 H12 _ IH]; [exact Ha | exact (IH (engine_step _ _ Ha H12))].
Qed.

(** *** A name nobody is logged in with, but which still resolves to a client *)
Definition stuck (u : UserName) (c : ClientId) (s : t) : Prop :=
  Presence.client_id_for (presence s) u = Some c /\
  forall c', Presence.username_for (presence s) c' <> Some u.

Lemma stuck_forward u c s c' m : stuck u c s -> stuck u c (forward_signaling s c' m).1.
Proof.
  intros Hs. unfold forward_signaling. destruct (require_logged_in s c'); [| exact Hs].
  destruct m; exact Hs.
Qed.

Lemma stuck_login u c s c' v p s' out : stuck u c s ->
  handle_login s c' v p = Ok (s', out) -> stuck u c s'.
Proof.
  intros [H1 H2]. unfold handle_login. destruct (verify _ _ _); [| | discriminate].
  2: { intros [= <- _]. split; assumption. }
  destruct (Presence.client_id_for (presence s) v) eqn:Hv; intros [= <- _]; [split; assumption |].
  assert (Hne : v <> u) by congruence. unfold stuck, Presence.client_id_for, Presence.username_for in *.
  simpl. rewrite lookup_insert_ne by exact Hne. split; [exact H1 |].
  intros c2. rewrite lookup_insert_Some. naive_solver.
Qed.

Lemma stuck_handle u c rng s c' m s' out : stuck u c s ->
  handle rng s c' m = Ok (s', out) -> stuck u c s'.
Proof.
  intros Hs. pose proof (stuck_forward u c s c' m Hs) as Hfw.
  destruct m; cbn [handle]; try (intros [= <- _]; exact Hs);
    try (intros [= Heq]; rewrite Heq in Hfw; exact Hfw).
  - apply stuck_login, Hs.
  - unfold handle_register. destruct (register _ _ _) as [[| |] a]; intros [= <- _]; exact Hs.
  - unfold handle_create_session. destruct (require_logged_in s c'); [| intros [= <- _]; exact Hs].
    unfold alloc_session_id, alloc_session_code. case_test; [discriminate |].
    cbn [mbind outcome_bind]. destruct (try_random _ _ _ _); [intros [= <- _]; exact Hs |].
    destruct (walk _ _ _) as [[n code] |]; [intros [= <- _]; exact Hs | discriminate].
  - unfold handle_join. destruct (require_logged_in s c'); [| intros [= <- _]; exact Hs].
    destruct (Sessions.join_by_code _ _ _) as [[ss id] | [|] |]; intros [= <- _]; exact Hs.
Qed.

Lemma stuck_disconnect u c s c' : stuck u c s -> stuck u c (handle_disconnect s c').1.
Proof.
  intros [H1 H2]. unfold handle_disconnect, Presence.logout.
  unfold stuck, Presence.client_id_for, Presence.username_for in *.
  destruct (Sessions.leave_all _ _) as [ss l].
  destruct (Presence.client_to_user (presence s) !! c') as [v |] eqn:Hv; simpl; [| auto].
  rewrite lookup_delete_ne by (intros ->; exact (H2 _ Hv)). split; [exact H1 |].
  intros c2. rewrite lookup_delete_Some. naive_solver.
Qed.

Lemma stuck_later u c s s' : stuck u c s -> rtc step s s' -> stuck u c s'.
Proof.
  intros Hs Hr. induction Hr as [s | s1 s2 s3 H12 _ IH]; [exact Hs | apply IH].
  destruct H12 as [rng s1 c' m s2 out _ Hh | s1 c'];
    [exact (stuck_handle _ _ _ _ _ _ _ _ Hs Hh) | apply stuck_disconnect, Hs].
Qed.

(** Every message is answered while the counter is below its maximum. *)
Lemma handle_total `{!AuthLaws A} rng s c m : ok s -> codes_fit s ->
  next_session_id s < 18446744073709551615 -> exists s' out, handle rng s c m = Ok (s', out).
Proof.
  intros Hs Hf Hn. destruct m; cbn [handle]; eauto;
    try (destruct (forward_signaling _ _ _); eauto; fail).
  - unfold handle_login. pose proof (verify_no_panic (auth s) username password).
    destruct (verify _ _ _); [destruct (Presence.client_id_for _ _); eauto | eauto | done].
  - unfold handle_register. pose proof (register_no_panic (auth s) username password).
    destruct (register _ _ _) as [[| |] a]; [eauto .. | done].
  - unfold handle_create_session. destruct (require_logged_in s c); [| eauto].
    unfold alloc_session_id. case_test; [lia |]. cbn [mbind outcome_bind].
    destruct (alloc_code_spec (with_next s (next_session_id s + 1)) rng) as (next & code & Ha & _);
      [pose proof (ok_next s Hs); simpl; ulia | exact Hf |]. rewrite Ha. eauto.
  - unfold handle_join. destruct (require_logged_in s c); [| eauto].
    pose proof (Sessions.join_no_panic (sessions s) session_code c (ok_sessions s Hs)).
    destruct (Sessions.join_by_code _ _ _) as [[ss id] | [|] |]; [eauto .. | done].
Qed.

(** *** Peer lists *)
Lemma elem_of_broadcast s c m : (c, m) ∈ broadcast_peer_list_update s <->
  exists me, Presence.username_for (presence s) c = Some me /\ m = PeersOnline (peers_except s me).
Proof.
  unfold broadcast_peer_list_update. rewrite list_elem_of_omap. split.
  - intros (c' & Hc & Hm). destruct (Presence.username_for _ c') eqn:Hu; [| discriminate].
    injection Hm as -> <-. eauto.
  - intros (me & Hu & ->). exists c. rewrite Presence.elem_of_clients, Hu. eauto.
Qed.

Lemma elem_of_peers s me u st : (u, st) ∈ peers_except s me <->
  is_Some (Presence.client_id_for (presence s) u) /\ u <> me /\ st = status_of s u.
Proof.
  unfold peers_except. rewrite list_elem_of_fmap. split.
  - intros (u' & [= -> ->] & Hu). apply list_elem_of_filter in Hu.
    rewrite Presence.elem_of_online in Hu. tauto.
  - intros (Hu & Hne & ->). exists u. rewrite list_elem_of_filter, Presence.elem_of_online. auto.
Qed.

Lemma elem_of_left_notices u l c m : (c, m) ∈ left_notices u l <->
  exists id rest, (id, rest) ∈ l /\ c ∈ rest /\ m = PeerLeft id u.
Proof.
  unfold left_notices. rewrite list_elem_of_In, in_concat. split.
  - intros (x & Hx & Hm). apply in_map_iff in Hx. destruct Hx as ([id rest] & <- & Hl).
    apply in_map_iff in Hm. destruct Hm as (c' & [= -> <-] & Hc).
    exists id, rest. rewrite !list_elem_of_In. auto.
  - intros (id & rest & Hl & Hc & ->). apply list_elem_of_In in Hl, Hc.
    exists (map (fun member => (member, PeerLeft id u)) rest).
    split; [apply (in_map (fun e : SessionId * list ClientId =>
              map (fun member => (member, PeerLeft e.1 u)) e.2) l (id, rest)), Hl |].
    apply (in_map (fun member => (member, PeerLeft id u)) rest c), Hc.
Qed.
End engine.
End ServerEngine.

(** ** Messages between peers *)
Definition is_peer_msg (m : SignalingMsg) : bool :=
  match m with
  | Offer _ _ _ _ | Answer _ _ _ _ | Candidate _ _ _ _ _ | Ack _ _ _ | Bye _ _ _ => true
  | _ => false
  end.

(** The addressee, and the message with its sender replaced *)
Definition dest (m : SignalingMsg) : UserName :=
  match m with
  | Offer _ _ to _ | Answer _ _ to _ | Candidate _ to _ _ _ | Ack _ to _ | Bye _ to _ => to
  | _ => []
  end.
Definition set_from (u : UserName) (m : SignalingMsg) : SignalingMsg :=
  match m with
  | Offer txn _ to sdp => Offer txn u to sdp
  | Answer txn _ to sdp => Answer txn u to sdp
  | Candidate _ to mid i cand => Candidate u to mid i cand
  | Ack _ to txn => Ack u to txn
  | Bye _ to reason => Bye u to reason
  | m => m
  end.

Module ServerFacts.
Import ServerEngine.
Section facts.
Context {A : Type} `{AuthBackend A}.
Implicit Types s : ServerEngine.t (A := A).

Lemma elem_of_forward s u txn to b c m : (c, m) ∈ forward s u txn to b <->
  Presence.client_id_for (presence s) to = Some c /\ m = b u txn to.
Proof.
  unfold forward. destruct (Presence.client_id_for (presence s) to) as [c' |].
  - rewrite list_elem_of_singleton. naive_solver.
  - rewrite elem_of_nil. naive_solver.
Qed.

Lemma broadcast_not_peer s c m : (c, m) ∈ broadcast_peer_list_update s -> is_peer_msg m = false.
Proof. rewrite elem_of_broadcast. intros (me & _ & ->). reflexivity. Qed.

(** What [forward_signaling] sends between peers *)
Lemma forward_signaling_peer s c msg t m : is_peer_msg msg = true -> is_peer_msg m = true ->
  (t, m) ∈ (forward_signaling s c msg).2 <->
  exists u, Presence.username_for (presence s) c = Some u /\
    Presence.client_id_for (presence s) (dest msg) = Some t /\ m = set_from u msg.
Proof.
  intros Hmsg Hm. unfold forward_signaling, require_logged_in.
  destruct (Presence.username_for (presence s) c) as [u |]; [| simpl; rewrite elem_of_nil; naive_solver].
  assert (Hb : forall s', (t, m) ∈ broadcast_peer_list_update s' -> False).
  { intros s' Hb. apply broadcast_not_peer in Hb. congruence. }
  destruct msg; try discriminate Hmsg; simpl;
    rewrite ?elem_of_app, elem_of_forward; simpl; naive_solver.
Qed.

(** Which handlers send peer messages at all *)
Lemma handle_no_peer rng s c msg s' out t m : is_peer_msg msg = false ->
  handle rng s c msg = Ok (s', out) -> (t, m) ∈ out -> is_peer_msg m = false.
Proof.
  intros Hmsg Hh Ht. destruct msg; try discriminate Hmsg; cbn [handle] in Hh;
    try (injection Hh as <- <-; set_solver).
  - unfold handle_login in Hh. destruct (verify _ _ _);
      [destruct (Presence.client_id_for _ _) |..]; try discriminate; injection Hh as <- <-; try set_solver.
    apply elem_of_cons in Ht. destruct Ht as [[= -> ->] | Ht]; [reflexivity |].
    exact (broadcast_not_peer _ _ _ Ht).
  - unfold handle_register in Hh. destruct (register _ _ _) as [[| |] a]; try discriminate;
      injection Hh as <- <-; set_solver.
  - injection Hh as <- <-. unfold handle_list_peers in Ht.
    destruct (require_logged_in s c); set_solver.
  - unfold handle_create_session in Hh. destruct (require_logged_in s c);
      [| injection Hh as <- <-; set_solver].
    bind_inv Hh. destruct v as [s1 id]. bind_inv Hh. destruct v as [s2 code].
    injection Hh as <- <-. set_solver.
  - unfold handle_join in Hh. destruct (require_logged_in s c) as [u |];
      [| injection Hh as <- <-; set_solver].
    destruct (Sessions.join_by_code _ _ _) as [[ss id] | [|] |]; try discriminate;
      injection Hh as <- <-; try set_solver.
    apply elem_of_cons in Ht. destruct Ht as [[= -> ->] | Ht]; [reflexivity |].
    destruct (Sessions.get ss id); [| set_solver].
    apply list_elem_of_fmap in Ht. destruct Ht as (x & [= -> ->] & _). reflexivity.
Qed.

Lemma handle_not_logged_in rng s c msg s' out :
  Presence.username_for (presence s) c = None ->
  (forall u p, msg <> Login u p) -> (forall u p, msg <> Register u p) ->
  handle rng s c msg = Ok (s', out) ->
  s' = s /\ forall t m, (t, m) ∈ out -> t = c /\ forall l, m = PeersOnline l -> l = [].
Proof.
  intros Hu Hl Hr. destruct msg; cbn [handle];
    try (exfalso; naive_solver);
    unfold handle_list_peers, handle_create_session, handle_join, forward_signaling, require_logged_in;
    rewrite ?Hu; intros [= <- <-]; (split; [reflexivity |]); intros t m Ht;
    first [apply elem_of_nil in Ht; contradiction
          | apply list_elem_of_singleton in Ht; injection Ht as -> ->; split; congruence].
Qed.

(** A disconnect, component by component *)
Lemma disconnect_state s c s' out : handle_disconnect s c = (s', out) ->
  sessions s' = (Sessions.leave_all (sessions s) c).1 /\
  presence s' = (Presence.logout (presence s) c).1 /\
  next_session_id s' = next_session_id s /\ auth s' = auth s.
Proof.
  unfold handle_disconnect. destruct (Presence.logout _ _) as [p uo].
  destruct (Sessions.leave_all _ _) as [ss l]. intros [= <- _]. auto.
Qed.

Lemma disconnect_notices s c s' out u t id v : handle_disconnect s c = (s', out) ->
  Presence.username_for (presence s) c = Some u ->
  (t, PeerLeft id v) ∈ out <->
  v = u /\ exists sess, Sessions.by_sess_id (sessions s) !! id = Some sess /\
    c ∈ Session.members sess /\ t ∈ Session.members sess /\ t <> c.
Proof.
  unfold handle_disconnect, Presence.logout, Presence.username_for. intros Hd Hu. rewrite Hu in Hd.
  pose proof (Sessions.leave_all_result (sessions s) c) as Hl.
  destruct (Sessions.leave_all (sessions s) c) as [ss l]. injection Hd as <- <-. simpl in Hl.
  rewrite elem_of_app, elem_of_left_notices, elem_of_broadcast. split.
  - intros [(id' & rest & Hin & Ht & [= <- <-]) | (me & _ & He)]; [| discriminate].
    apply Hl in Hin. destruct Hin as (sess & Hid & Hc & ->). split; [reflexivity |].
    exists sess. set_solver.
  - intros (-> & sess & Hid & Hc & Ht & Hne). left.
    exists id, (elements (Session.members sess ∖ {[c]})). split; [apply Hl; eauto |].
    set_solver.
Qed.
End facts.
End ServerFacts.

(** ** Router: the engine with one outbox per client *)
Module Router.
Section router.
Context {A : Type} `{AuthBackend A}.

Record t : Type := {
  server : ServerEngine.t (A := A);
  outboxes : gmap ClientId (list SignalingMsg)
}.

Definition with_auth (auth_backend : A) : t :=
  {| server := ServerEngine.with_auth auth_backend; outboxes := ∅ |}.

Definition register_client (r : t) (client_id : ClientId) : t :=
  {| server := server r;
     outboxes := <[client_id := default [] (outboxes r !! client_id)]> (outboxes r) |}.

Definition enqueue (r : t) (out_msg : OutgoingMsg) : t :=
  {| server := server r;
     outboxes := <[out_msg.1 := default [] (outboxes r !! out_msg.1) ++ [out_msg.2]]> (outboxes r) |}.

Definition with_server (r : t) (s : ServerEngine.t) : t :=
  {| server := s; outboxes := outboxes r |}.

Definition unregister_client (r : t) (client_id : ClientId) : t :=
  let r := {| server := server r; outboxes := delete client_id (outboxes r) |} in
  let '(s, out_msgs) := ServerEngine.handle_disconnect (server r) client_id in
  foldl enqueue (with_server r s) out_msgs.

Definition handle_from_client (rng : nat -> Z) (r : t) (from_cid : ClientId) (msg : SignalingMsg)
  : outcome Empty_set t :=
  '(s, out_msgs) ← ServerEngine.handle rng (server r) from_cid msg;
  Ok (foldl enqueue (with_server r s) out_msgs).

Definition take_outgoing_for (r : t) (client_id : ClientId) : t * list SignalingMsg :=
  ({| server := server r; outboxes := delete client_id (outboxes r) |},
   default [] (outboxes r !! client_id)).

Definition outgoing_for (r : t) (client_id : ClientId) : list SignalingMsg :=
  default [] (outboxes r !! client_id).

(** Every key is visited once, so every outbox is emptied. *)
Definition drain_all_outgoing (r : t) : t * list (ClientId * SignalingMsg) :=
  ({| server := server r; outboxes := ∅ |},
   concat (map (fun e : ClientId * list SignalingMsg => map (pair e.1) e.2)
             (map_to_list (outboxes r)))).

(** The messages of a list that are for [c], in order *)
Definition for_client (c : ClientId) (l : list (ClientId * SignalingMsg)) : list SignalingMsg :=
  (filter (fun e => e.1 = c) l).*2.

Lemma enqueue_all r out c :
  outgoing_for (foldl enqueue r out) c = outgoing_for r c ++ for_client c out.
Proof.
  revert r. induction out as [| [c' m] out IH]; intros r; [unfold for_client; simpl; rewrite app_nil_r; reflexivity |].
  cbn [foldl]. rewrite IH. unfold for_client, outgoing_for, enqueue. simpl.
  rewrite filter_cons. simpl. destruct (decide (c' = c)) as [-> | Hne].
  - rewrite lookup_insert_eq. simpl. rewrite <- app_assoc. reflexivity.
  - rewrite lookup_insert_ne by exact Hne. reflexivity.
Qed.

Lemma enqueue_all_server r out : server (foldl enqueue r out) = server r.
Proof.
  revert r. induction out as [| o out IH]; intros r; [reflexivity |].
  cbn [foldl]. rewrite IH. reflexivity.
Qed.

Lemma for_client_app c l1 l2 : for_client c (l1 ++ l2) = for_client c l1 ++ for_client c l2.
Proof. unfold for_client. rewrite filter_app, fmap_app. reflexivity. Qed.

Lemma for_client_same c l : for_client c (map (pair c) l) = l.
Proof.
  induction l as [| m l IH]; [reflexivity |]. unfold for_client in *. cbn [map].
  rewrite filter_cons_True by reflexivity. csimpl. f_equal. exact IH.
Qed.
Lemma for_client_other c c' l : c' <> c -> for_client c (map (pair c') l) = [].
Proof.
  intros Hne. induction l as [| m l IH]; [reflexivity |]. unfold for_client in *. cbn [map].
  rewrite filter_cons_False by exact Hne. exact IH.
Qed.

(** Draining hands every client its own outbox, in order. *)
Lemma for_client_drain r c : for_client c (drain_all_outgoing r).2 = outgoing_for r c.
Proof.
  unfold drain_all_outgoing, outgoing_for. simpl. generalize (outboxes r). intros m.
  assert (Hl : forall l : list (ClientId * list SignalingMsg), NoDup l.*1 ->
    for_client c (concat (map (fun e => map (pair e.1) e.2) l)) =
    default [] (snd <$> list_find (fun e => e.1 = c) l ≫= fun p => Some p.2)).
  { induction l as [| [c' q] l IH]; csimpl; [reflexivity |]. rewrite NoDup_cons. intros [Hni Hnd].
    rewrite for_client_app, IH by exact Hnd. case_decide as Hc; simpl.
    - subst c'. rewrite for_client_same. destruct (list_find _ l) as [[i [c' q']] |] eqn:Hf;
        simpl; [| apply app_nil_r]. apply list_find_Some in Hf. destruct Hf as (Hi & Hc & _).
      simpl in Hc. subst c'. exfalso. apply Hni. apply list_elem_of_fmap. exists (c, q').
      split; [reflexivity | eapply list_elem_of_lookup_2, Hi].
    - rewrite for_client_other by exact Hc. destruct (list_find _ l) as [[i e] |]; reflexivity. }
  rewrite Hl by apply NoDup_fst_map_to_list.
  destruct (list_find _ (map_to_list m)) as [[i [c' q]] |] eqn:Hf; simpl.
  - apply list_find_Some in Hf. destruct Hf as (Hi & Hc & _). simpl in Hc. subst c'.
    apply list_elem_of_lookup_2, elem_of_map_to_list in Hi. rewrite Hi. reflexivity.
  - apply list_find_None in Hf. destruct (m !! c) as [q |] eqn:Hm; [| reflexivity].
    apply elem_of_map_to_list in Hm. rewrite Forall_forall in Hf.
    exfalso. exact (Hf _ Hm eq_refl).
Qed.
End router.
End Router.

(** ** Properties of the server *)
Import ServerEngine ServerFacts.

(** The members of a pair other than the second *)
Lemma filter_pair_set (c1 c2 : ClientId) : c1 <> c2 ->
  filter (fun x => x <> c2) (elements ({[c1]} ∪ {[c2]} : gset ClientId)) = [c1].
Proof.
  intros Hne. set (l := filter _ _).
  assert (Hl : forall x, x ∈ l <-> x = c1).
  { intros x. unfold l. rewrite list_elem_of_filter, elem_of_elements. set_solver. }
  assert (Hnd : NoDup l) by apply NoDup_filter, NoDup_elements.
  clearbody l. destruct l as [| a [| b l]].
  - exfalso. apply (not_elem_of_nil c1), Hl. reflexivity.
  - f_equal. apply Hl. set_solver.
  - exfalso. assert (a = c1) by (apply Hl; set_solver). assert (b = c1) by (apply Hl; set_solver).
    subst. apply NoDup_cons in Hnd. set_solver.
Qed.

(** Joining a session just inserted *)
Lemma join_inserted ss sess c :
  Z.of_nat (size (Session.members sess)) < Session.capacity sess ->
  exists ss', Sessions.join_by_code (Sessions.insert_session ss sess) (Session.session_code sess) c =
    Ok (ss', Session.session_id sess) /\
  Sessions.get ss' (Session.session_id sess) =
    Some (Session.with_members sess (Session.members sess ∪ {[c]})).
Proof.
  intros Hs. unfold Sessions.join_by_code, Sessions.insert_session, Sessions.get.
  cbn [Sessions.by_sess_code Sessions.by_sess_id]. rewrite !lookup_insert_eq.
  cbn [ok_or expect mbind outcome_bind]. rewrite !lookup_insert_eq.
  cbn [ok_or expect mbind outcome_bind]. case_test; [lia |]. eexists. split; [reflexivity |].
  apply lookup_insert_eq.
Qed.

(** The first name after a second login and a disconnection *)
Lemma relogin_stuck {A} `{AuthBackend A} (s : ServerEngine.t (A := A)) c u1 u2 pw s1 out1 :
  ServerEngine.ok s -> Presence.username_for (presence s) c = Some u1 -> u1 <> u2 ->
  Presence.client_id_for (presence s) u2 = None -> verify (auth s) u2 pw = Ok () ->
  handle_login s c u2 pw = Ok (s1, out1) -> stuck u1 c (handle_disconnect s1 c).1.
Proof.
  intros Hok Hu1 Hne Hfree Hv. unfold handle_login. rewrite Hv, Hfree. intros [= <- _].
  destruct (handle_disconnect _ c) as [s2 out] eqn:Hd. apply disconnect_state in Hd.
  destruct Hd as (_ & Hp & _). cbn [fst].
  unfold stuck, Presence.client_id_for, Presence.username_for in *. rewrite Hp.
  unfold Presence.logout, Presence.login. simpl. rewrite lookup_insert_eq. simpl.
  pose proof (ok_presence s Hok) as Hpo. split.
  - rewrite lookup_delete_ne, lookup_insert_ne by congruence. apply Hpo, Hu1.
  - intros c'. rewrite lookup_delete_Some. intros [Hc Hl]. rewrite lookup_insert_ne in Hl by exact Hc.
    apply Hpo in Hl, Hu1. congruence.
Qed.

Section properties.
Context {A : Type} `{HA : AuthBackend A}.
Implicit Types s : ServerEngine.t (A := A).

(** C12 Invariant of the server. In every state reached from an empty server by messages and
    disconnections, whatever the clients send: a logged-in client is the one its user name
    resolves to; every session code leads to a session; every session has at least one member
    and no more members than seats (one, the creator, if created with no seat); only logged-in
    clients are members. And such a state, while session codes and numbers remain, answers every
    message: no handler panics, and the search for a free session code ends. *)
Theorem server_invariant `{!AuthLaws A} s : reachable s ->
  ServerEngine.ok s /\
  (codes_fit s -> next_session_id s < 18446744073709551615 ->
   forall rng c m, exists s' out, handle rng s c m = Ok (s', out)).
Proof.
  intros Hs. pose proof (reachable_ok s Hs) as Hok. split; [exact Hok |].
  intros Hf Hn rng c m. apply handle_total; assumption.
Qed.

(** C22 Forwarded messages are authentic and delivered. An offer, answer, candidate, ack or bye
    leaves the server only as the forwarded message of the client just heard, to the client the
    addressee is logged in at, with the sender's field overwritten by the name the sending client
    logged in with; and whenever both are logged in it is forwarded. *)
Theorem peer_messages_authentic rng s c msg s' out t m :
  handle rng s c msg = Ok (s', out) -> is_peer_msg m = true ->
  (t, m) ∈ out <->
  exists u, is_peer_msg msg = true /\ Presence.username_for (presence s) c = Some u /\
    Presence.client_id_for (presence s) (dest msg) = Some t /\ m = set_from u msg.
Proof.
  intros Hh Hm. destruct (is_peer_msg msg) eqn:Hp.
  - assert (out = (forward_signaling s c msg).2) as ->.
    { destruct msg; try discriminate Hp; cbn [handle] in Hh; injection Hh as Hh;
        rewrite Hh; reflexivity. }
    rewrite forward_signaling_peer by assumption. naive_solver.
  - split; [| naive_solver]. intros Ht.
    pose proof (handle_no_peer _ _ _ _ _ _ _ _ Hp Hh Ht). congruence.
Qed.

(** C40 A client that has not logged in can only log in or register: any other message leaves
    the state as it is, and is answered to that client alone, with an empty list of users if with
    one. *)
Theorem unauthenticated_powerless rng s c msg s' out :
  Presence.username_for (presence s) c = None ->
  (forall u p, msg <> Login u p) -> (forall u p, msg <> Register u p) ->
  handle rng s c msg = Ok (s', out) ->
  s' = s /\ forall t m, (t, m) ∈ out -> t = c /\ forall l, m = PeersOnline l -> l = [].
Proof. exact (handle_not_logged_in rng s c msg s' out). Qed.

(** C39 Disconnection. Afterwards the client is not logged in and in no session, its current user
    name is offline and not busy; a session survives, without the client, exactly if somebody else is in
    it; and exactly the other members of the client's sessions are told that its user left. *)
Theorem disconnect_cleans_up s c u s' out : ServerEngine.ok s ->
  Presence.username_for (presence s) c = Some u -> handle_disconnect s c = (s', out) ->
  Presence.username_for (presence s') c = None /\
  Presence.client_id_for (presence s') u = None /\ Presence.is_busy (presence s') u = false /\
  (forall id sess, Sessions.by_sess_id (sessions s') !! id = Some sess <->
     exists sess0, Sessions.by_sess_id (sessions s) !! id = Some sess0 /\
       sess = Session.with_members sess0 (Session.members sess0 ∖ {[c]}) /\
       Session.members sess <> ∅) /\
  (forall t id v, (t, PeerLeft id v) ∈ out <->
     v = u /\ exists sess, Sessions.by_sess_id (sessions s) !! id = Some sess /\
       c ∈ Session.members sess /\ t ∈ Session.members sess /\ t <> c).
Proof.
  intros Hok Hu Hd. pose proof (disconnect_state s c s' out Hd) as (Hs & Hp & _ & _).
  unfold Presence.logout, Presence.username_for in *. rewrite Hu in Hp. rewrite Hp, Hs. simpl.
  split; [apply lookup_delete_eq |]. split; [apply lookup_delete_eq |]. split.
  - apply bool_decide_eq_false. simpl. set_solver.
  - split; [apply Sessions.leave_all_lookup |]. intros t id v.
    exact (disconnect_notices s c s' out u t id v Hd Hu).
Qed.

(** A new session can be joined. Creating a session returns a code that was not in use; a
    second client that presents this code joins the session (two seats are enough), and the
    creator is told its name. *)
Theorem create_then_join rng rng' s c1 c2 u1 u2 cap s1 out1 : ServerEngine.ok s -> codes_fit s ->
  Presence.username_for (presence s) c1 = Some u1 ->
  Presence.username_for (presence s) c2 = Some u2 -> c1 <> c2 -> 2 <= cap ->
  handle rng s c1 (CreateSession cap) = Ok (s1, out1) ->
  exists id code s2, out1 = [(c1, Created id code)] /\
    Sessions.contains_code (sessions s) code = false /\
    handle rng' s1 c2 (Join code) = Ok (s2, [(c2, JoinOk id); (c1, PeerJoined id u2)]).
Proof.
  intros Hok Hf Hu1 Hu2 Hne Hcap. cbn [handle]. unfold handle_create_session, require_logged_in.
  rewrite Hu1. unfold alloc_session_id. case_test; [discriminate |]. cbn [mbind outcome_bind].
  destruct (alloc_code_spec (with_next s (next_session_id s + 1)) rng)
    as (next & code & Ha & _ & Hc); [pose proof (ok_next s Hok); simpl; ulia | exact Hf |].
  rewrite Ha. intros [= <- <-]. exists (session_name (next_session_id s)), code.
  destruct (join_inserted (sessions s) {| Session.session_id := session_name (next_session_id s);
    Session.session_code := code; Session.capacity := cap; Session.members := {[c1]} |} c2)
    as (ss' & Hj & Hg).
  { cbn [Session.members Session.capacity]. rewrite (size_singleton (C := gset ClientId) c1). lia. }
  eexists. split; [reflexivity |]. split; [exact Hc |].
  unfold handle_join, require_logged_in. cbn [with_sessions with_next presence sessions].
  cbn [Session.session_code Session.session_id] in Hj, Hg. rewrite Hu2, Hj, Hg.
  cbn [Session.members Session.with_members]. rewrite filter_pair_set by exact Hne. reflexivity.
Qed.

(** Logging in again under another name. A client logged in as [u1] that logs in as a free
    [u2] keeps [u1] occupied: after it disconnects, and whatever happens afterwards, [u1] resolves
    to the vanished client, and every login as [u1] is refused and changes nothing. *)
Theorem relogin_locks_first_name rng s c u1 u2 pw s1 out1 s3 : ServerEngine.ok s ->
  Presence.username_for (presence s) c = Some u1 -> u1 <> u2 ->
  Presence.client_id_for (presence s) u2 = None -> verify (auth s) u2 pw = Ok () ->
  handle rng s c (Login u2 pw) = Ok (s1, out1) ->
  rtc step (handle_disconnect s1 c).1 s3 ->
  Presence.client_id_for (presence s3) u1 = Some c /\
  forall rng' c' pw' s4 out, handle rng' s3 c' (Login u1 pw') = Ok (s4, out) ->
    s4 = s3 /\ exists code, out = [(c', LoginErr code)].
Proof.
  intros Hok Hu1 Hne Hfree Hv Hh Hr. apply (stuck_later u1 c) in Hr.
  - destruct Hr as [Hc3 _]. split; [exact Hc3 |]. intros rng' c' pw' s4 out. cbn [handle].
    unfold handle_login. rewrite Hc3.
    destruct (verify (auth s3) u1 pw'); [intros [= <- <-]; eauto .. | discriminate].
  - exact (relogin_stuck s c u1 u2 pw s1 out1 Hok Hu1 Hne Hfree Hv Hh).
Qed.

(** Answering somebody who is not online. The answer is not forwarded, but its addressee is
    recorded as busy, and is shown as busy to the answering client as soon as it logs in. *)
Theorem answer_marks_offline_busy rng s c u v txn f sdp s1 out1 :
  Presence.username_for (presence s) c = Some u ->
  Presence.client_id_for (presence s) v = None ->
  handle rng s c (Answer txn f v sdp) = Ok (s1, out1) ->
  (forall t m, (t, m) ∈ out1 -> is_peer_msg m = false) /\
  forall rng' c2 pw s2 out2, c2 <> c -> u <> v ->
    handle rng' s1 c2 (Login v pw) = Ok (s2, out2) -> (c2, LoginOk v) ∈ out2 ->
    exists l, (c, PeersOnline l) ∈ out2 /\ (v, Busy) ∈ l.
Proof.
  intros Hu Hv. cbn [handle]. unfold forward_signaling, require_logged_in, forward. rewrite Hu. simpl.
  unfold Presence.client_id_for in *. simpl. rewrite Hv. intros [= <- <-]. split.
  - intros t m. apply broadcast_not_peer.
  - intros rng' c2 pw s2 out2 Hc Huv. unfold handle_login. cbn [auth presence with_presence].
    destruct (verify _ _ _); [| intros [= <- <-]; set_solver | discriminate].
    unfold Presence.client_id_for. simpl. rewrite Hv. intros [= <- <-] _.
    set (s2 := with_presence _ _). exists (peers_except s2 u). split.
    + apply elem_of_cons. right. apply elem_of_broadcast. exists u.
      split; [| reflexivity]. unfold Presence.username_for in *. simpl.
      rewrite lookup_insert_ne by congruence. exact Hu.
    + apply elem_of_peers. unfold Presence.client_id_for, status_of, Presence.is_busy. simpl.
      rewrite lookup_insert_eq. split; [eauto |]. split; [congruence |].
      rewrite bool_decide_true by set_solver. reflexivity.
Qed.
End properties.

(** ** Witnesses: alice (client 1) and bob (client 2) in a session with two seats *)
Definition demo_rng : nat -> Z := fun _ => 123456.
Definition alice : UserName := [97].
Definition bob : UserName := [98].
Definition carol : UserName := [99].

Definition state_after (s : ServerEngine.t (A := AllowAllAuthBackend)) (c : ClientId)
  (m : SignalingMsg) : ServerEngine.t (A := AllowAllAuthBackend) :=
  match handle demo_rng s c m with Ok (s', _) => s' | _ => s end.

Definition demo_empty : ServerEngine.t (A := AllowAllAuthBackend) := with_auth tt.
Definition demo_two : ServerEngine.t (A := AllowAllAuthBackend) :=
  state_after (state_after demo_empty 1 (Login alice [])) 2 (Login bob []).
Definition demo_session : ServerEngine.t (A := AllowAllAuthBackend) :=
  state_after (state_after demo_two 1 (CreateSession 2)) 2 (Join (dec6 123456)).

Lemma reachable_after s c m : codes_fit s -> reachable s -> reachable (state_after s c m).
Proof.
  intros Hf [a Hs]. exists a. unfold state_after.
  destruct (handle demo_rng s c m) as [[s' out] | |] eqn:Hh; [| exact Hs ..].
  exact (rtc_r _ _ _ Hs (step_handle _ _ _ _ _ _ Hf Hh)).
Qed.

Lemma demo_empty_reachable : reachable demo_empty.
Proof. exists tt. constructor. Qed.
Lemma demo_two_reachable : reachable demo_two.
Proof. repeat apply reachable_after; try reflexivity. apply demo_empty_reachable. Qed.
Lemma demo_session_reachable : reachable demo_session.
Proof. repeat apply reachable_after; try reflexivity. apply demo_empty_reachable. Qed.

Lemma server_invariant_witness : ServerEngine.ok demo_session /\
  (codes_fit demo_session -> next_session_id demo_session < 18446744073709551615 ->
   forall rng c m, exists s' out, handle rng demo_session c m = Ok (s', out)).
Proof. exact (server_invariant demo_session demo_session_reachable). Defined.

Lemma peer_messages_authentic_witness :
  (2, Offer 7 alice bob [1]) ∈ [(2, Offer 7 alice bob [1])] <->
  exists u, is_peer_msg (Offer 7 carol bob [1]) = true /\
    Presence.username_for (presence demo_two) 1 = Some u /\
    Presence.client_id_for (presence demo_two) bob = Some 2 /\
    Offer 7 alice bob [1] = set_from u (Offer 7 carol bob [1]).
Proof.
  apply (peer_messages_authentic demo_rng demo_two 1 (Offer 7 carol bob [1]) demo_two);
    reflexivity.
Defined.

Lemma unauthenticated_powerless_witness :
  demo_two = demo_two /\ forall t m, (t, m) ∈ [(9, PeersOnline [])] ->
    t = 9 /\ forall l, m = PeersOnline l -> l = [].
Proof.
  apply (unauthenticated_powerless demo_rng demo_two 9 ListPeers demo_two);
    [reflexivity | discriminate | discriminate | reflexivity].
Defined.

Lemma disconnect_cleans_up_witness :
  Presence.username_for (presence (handle_disconnect demo_session 1).1) 1 = None /\
  (2, PeerLeft (session_name 1) alice) ∈ (handle_disconnect demo_session 1).2.
Proof.
  destruct (disconnect_cleans_up demo_session 1 alice (handle_disconnect demo_session 1).1
    (handle_disconnect demo_session 1).2) as (H1 & _ & _ & _ & H2);
    [apply reachable_ok, demo_session_reachable | reflexivity | reflexivity |].
  split; [exact H1 |]. apply H2. split; [reflexivity |].
  eexists. split; [vm_compute; reflexivity |].
  repeat split; try (apply (bool_decide_unpack _); vm_compute; exact I).
Defined.

Lemma create_then_join_witness :
  exists id code s2, [(1, Created (session_name 1) (dec6 123456))] = [(1, Created id code)] /\
    Sessions.contains_code (sessions demo_two) code = false /\
    handle demo_rng (state_after demo_two 1 (CreateSession 2)) 2 (Join code)
      = Ok (s2, [(2, JoinOk id); (1, PeerJoined id bob)]).
Proof.
  apply (create_then_join demo_rng demo_rng demo_two 1 2 alice bob 2);
    [apply reachable_ok, demo_two_reachable | reflexivity .. | discriminate | lia | reflexivity].
Defined.

(** Alice becomes carol, disconnects, and client 3 then logs in as dave. *)
Definition demo_stuck : ServerEngine.t (A := AllowAllAuthBackend) :=
  (handle_disconnect (state_after demo_two 1 (Login carol [])) 1).1.

Lemma relogin_locks_first_name_witness :
  Presence.client_id_for (presence (state_after demo_stuck 3 (Login [100] []))) alice = Some 1 /\
  forall rng' c' pw' s4 out,
    handle rng' (state_after demo_stuck 3 (Login [100] [])) c' (Login alice pw') = Ok (s4, out) ->
    s4 = state_after demo_stuck 3 (Login [100] []) /\ exists code, out = [(c', LoginErr code)].
Proof.
  eapply (relogin_locks_first_name demo_rng demo_two 1 alice carol []);
    [apply reachable_ok, demo_two_reachable | reflexivity | discriminate | reflexivity .. |].
  eapply rtc_once, (step_handle demo_rng _ 3 (Login [100] [])); reflexivity.
Defined.

Lemma answer_marks_offline_busy_witness :
  exists l, (1, PeersOnline l) ∈ broadcast_peer_list_update
      (state_after (state_after demo_two 1 (Answer 7 alice carol [])) 3 (Login carol [])) /\
    (carol, Busy) ∈ l.
Proof.
  destruct (answer_marks_offline_busy demo_rng demo_two 1 alice carol 7 alice []
    (state_after demo_two 1 (Answer 7 alice carol []))
    (broadcast_peer_list_update (state_after demo_two 1 (Answer 7 alice carol []))))
    as [_ H]; [reflexivity .. |].
  destruct (H demo_rng 3 []
    (state_after (state_after demo_two 1 (Answer 7 alice carol [])) 3 (Login carol []))
    ((3, LoginOk carol) :: broadcast_peer_list_update
      (state_after (state_after demo_two 1 (Answer 7 alice carol [])) 3 (Login carol []))))
    as (l & H1 & H2); [discriminate | discriminate | reflexivity | left |].
  apply elem_of_cons in H1. destruct H1 as [H1 | H1]; [discriminate | eauto].
Defined.
