(* ===== verification/SigLoop.v ===== *)
(** * The signaling server at work (src/signaling: runtime.rs, server_event.rs)

    The central loop that feeds connection events to the router and hands its messages to the
    clients' channels. *)

From stdpp Require Import prelude gmap fin_maps.
From Stdlib Require Import ZArith Lia.
From S2P Require Import Prelude SigProtocol SigState SigServer.
Import ServerEngine ServerFacts.
Local Open Scope Z_scope.

(** The channel of a registering client is its entry of [clients]. *)
Inductive ServerEvent : Type :=
| MsgFromClient (client_id : ClientId) (msg : SignalingMsg)
| Disconnected (client_id : ClientId)
| RegisterClient (client_id : ClientId).

Module ServerLoop.
Section serverloop.
Context {A : Type} `{AuthBackend A}.

Record t : Type := {
  router : Router.t (A := A);
  clients : gset ClientId
}.

Definition new (auth : A) : t := {| router := Router.with_auth auth; clients := ∅ |}.

(** One event: the new state and what is sent on the channels, in order *)
Definition on_event (rng : nat -> Z) (l : t) (ev : ServerEvent)
  : outcome Empty_set (t * list (ClientId * SignalingMsg)) :=
  match ev with
  | RegisterClient c =>
      Ok ({| router := Router.register_client (router l) c; clients := clients l ∪ {[c]} |}, [])
  | MsgFromClient c msg =>
      r ← Router.handle_from_client rng (router l) c msg;
      let '(r, outgoing_msgs) := Router.drain_all_outgoing r in
      Ok ({| router := r; clients := clients l |},
          filter (fun e => e.1 ∈ clients l) outgoing_msgs)
  | Disconnected c =>
      Ok ({| router := Router.unregister_client (router l) c; clients := clients l ∖ {[c]} |}, [])
  end.

(** [run_server_loop]; [rng i] are the draws available to event [i]. *)
Fixpoint run (rng : nat -> nat -> Z) (l : t) (evs : list ServerEvent)
  : outcome Empty_set (t * list (ClientId * SignalingMsg)) :=
  match evs with
  | [] => Ok (l, [])
  | ev :: evs' =>
      '(l, sent) ← on_event (rng (length evs')) l ev;
      '(l, sent') ← run rng l evs';
      Ok (l, sent ++ sent')
  end.

Lemma run_app rng l evs1 evs2 l1 sent1 l2 sent2 :
  run (fun i => rng (i + length evs2)%nat) l evs1 = Ok (l1, sent1) -> run rng l1 evs2 = Ok (l2, sent2) ->
  run rng l (evs1 ++ evs2) = Ok (l2, sent1 ++ sent2).
Proof.
  intros H1 H2. revert l l1 sent1 H1 H2.
  induction evs1 as [| ev evs1 IH]; intros l l1 sent1 H1 H2; cbn [run app] in *.
  - injection H1 as <- <-. exact H2.
  - bind_inv H1. destruct v as [la sa]. bind_inv H1. destruct v as [lb sb]. injection H1 as <- <-.
    rewrite length_app, Hv. cbn [mbind outcome_bind].
    rewrite (IH _ _ _ Hv0 H2). cbn [mbind outcome_bind]. rewrite <- app_assoc. reflexivity.
Qed.

(** A message event hands every connected client its pending messages and then its share of
    the new ones. *)
Lemma message_delivers rng l c msg s out l' sent x :
  handle rng (Router.server (router l)) c msg = Ok (s, out) ->
  on_event rng l (MsgFromClient c msg) = Ok (l', sent) -> x ∈ clients l ->
  Router.for_client x sent = Router.outgoing_for (router l) x ++ Router.for_client x out.
Proof.
  intros Hh He Hx. cbn [on_event] in He. unfold Router.handle_from_client in He. rewrite Hh in He.
  cbn [mbind outcome_bind] in He. unfold Router.drain_all_outgoing in He. injection He as <- <-.
  unfold Router.for_client at 1. rewrite list_filter_filter.
  match goal with |- context [filter ?P ?L] =>
    rewrite (list_filter_iff P (fun e => e.1 = x) L) by naive_solver end.
  change (_.*2) with (Router.for_client x (Router.drain_all_outgoing
     (foldl Router.enqueue (Router.with_server (router l) s) out)).2).
  rewrite Router.for_client_drain, Router.enqueue_all. reflexivity.
Qed.
End serverloop.
End ServerLoop.

(** ** Properties of the loop *)
Definition is_message (ev : ServerEvent) : bool :=
  match ev with MsgFromClient _ _ => true | _ => false end.

Section loop_properties.
Context {A : Type} `{HA : AuthBackend A}.
Implicit Types l : ServerLoop.t (A := A).
Implicit Types r : Router.t (A := A).
Import ServerLoop.

Lemma outgoing_unregister r c x : x <> c ->
  Router.outgoing_for (Router.unregister_client r c) x =
  Router.outgoing_for r x ++ Router.for_client x (handle_disconnect (Router.server r) c).2.
Proof.
  intros Hne. unfold Router.unregister_client. simpl.
  destruct (handle_disconnect (Router.server r) c) as [s out]. rewrite Router.enqueue_all.
  unfold Router.outgoing_for. simpl. rewrite lookup_delete_ne by congruence. reflexivity.
Qed.

Lemma outgoing_register r c x :
  Router.outgoing_for (Router.register_client r c) x = Router.outgoing_for r x.
Proof.
  unfold Router.outgoing_for, Router.register_client. simpl.
  destruct (decide (c = x)) as [-> | Hne];
    [rewrite lookup_insert_eq | rewrite lookup_insert_ne by exact Hne]; reflexivity.
Qed.

(** Without messages nothing is sent, and pending messages of the others stay pending. *)
Lemma run_quiet rng l evs l' sent : forallb (fun ev => negb (is_message ev)) evs = true ->
  run rng l evs = Ok (l', sent) ->
  sent = [] /\ forall x m, Disconnected x ∉ evs -> m ∈ Router.outgoing_for (router l) x ->
    m ∈ Router.outgoing_for (router l') x.
Proof.
  revert l l' sent. induction evs as [| ev evs IH]; intros l l' sent Hq Hr; cbn [run] in Hr.
  - injection Hr as <- <-. auto.
  - cbn [forallb] in Hq. apply andb_prop in Hq. destruct Hq as [Hev Hq].
    destruct ev as [c m | c | c]; [discriminate Hev | ..]; cbn [on_event mbind outcome_bind] in Hr;
      bind_inv Hr; destruct v as [la sa]; injection Hr as <- <-;
      destruct (IH _ _ _ Hq Hv) as [-> IH2]; (split; [reflexivity |]); intros x m Hx Hm;
      (apply IH2; [set_solver |]); simpl.
    + rewrite outgoing_unregister by set_solver. apply elem_of_app. auto.
    + rewrite outgoing_register. exact Hm.
Qed.

(** The notice that a peer left waits for somebody to speak. After a disconnection the loop
    sends nothing, and keeps sending nothing as long as clients only connect and disconnect: the
    notice stays in the outbox of each remaining session member. The next message of any client
    delivers it. *)
Theorem disconnect_notice_waits rng l c u t id sess evs l' sent rng' x msg l'' sent' :
  Presence.username_for (presence (Router.server (router l))) c = Some u ->
  Sessions.by_sess_id (sessions (Router.server (router l))) !! id = Some sess ->
  c ∈ Session.members sess -> t ∈ Session.members sess -> t <> c ->
  forallb (fun ev => negb (is_message ev)) evs = true -> Disconnected t ∉ evs ->
  run rng l (Disconnected c :: evs) = Ok (l', sent) -> t ∈ clients l' ->
  on_event rng' l' (MsgFromClient x msg) = Ok (l'', sent') ->
  sent = [] /\ (t, PeerLeft id u) ∈ sent'.
Proof.
  intros Hu Hid Hc Ht Hne Hq Hnd Hr Htc He.
  destruct (run_quiet rng l (Disconnected c :: evs) l' sent Hq Hr) as [-> _].
  split; [reflexivity |]. cbn [run on_event mbind outcome_bind] in Hr.
  bind_inv Hr. destruct v as [la sa]. injection Hr as <- _.
  destruct (run_quiet _ _ _ _ _ Hq Hv) as [_ Hp].
  specialize (Hp t (PeerLeft id u) Hnd). simpl in Hp. rewrite outgoing_unregister in Hp by exact Hne.
  pose proof He as He'. cbn [on_event] in He'. unfold Router.handle_from_client in He'.
  destruct (handle rng' (Router.server (router la)) x msg) as [[s out] | |] eqn:Hh;
    [| discriminate ..].
  pose proof (message_delivers _ _ _ _ _ _ _ _ _ Hh He Htc) as Hdel. clear He'.
  assert (Hin : PeerLeft id u ∈ Router.for_client t sent').
  { rewrite Hdel. apply elem_of_app. left. apply Hp, elem_of_app. right.
    unfold Router.for_client. apply list_elem_of_fmap. exists (t, PeerLeft id u).
    split; [reflexivity |]. apply list_elem_of_filter. split; [reflexivity |].
    destruct (handle_disconnect (Router.server (router l)) c) as [s' out'] eqn:Hd. simpl.
    apply (disconnect_notices _ _ _ _ _ _ _ _ Hd Hu). eauto 10. }
  unfold Router.for_client in Hin. apply list_elem_of_fmap in Hin.
  destruct Hin as ([t' m'] & Hm & Hin). apply list_elem_of_filter in Hin.
  simpl in *. destruct Hin as [-> Hin]. rewrite Hm. exact Hin.
Qed.
End loop_properties.

(** ** Witness *)

(** Both connected; the session members are alice and bob. *)
Definition demo_loop : ServerLoop.t (A := AllowAllAuthBackend) :=
  {| ServerLoop.router := {| Router.server := demo_session; Router.outboxes := ∅ |};
     ServerLoop.clients := {[1; 2; 5]} |}.

Definition loop_after (r : outcome Empty_set (ServerLoop.t (A := AllowAllAuthBackend)
    * list (ClientId * SignalingMsg))) : ServerLoop.t (A := AllowAllAuthBackend) :=
  match r with Ok (l, _) => l | _ => demo_loop end.
Definition sent_by (r : outcome Empty_set (ServerLoop.t (A := AllowAllAuthBackend)
    * list (ClientId * SignalingMsg))) : list (ClientId * SignalingMsg) :=
  match r with Ok (_, sent) => sent | _ => [] end.

Definition demo_quiet := ServerLoop.run (fun _ => demo_rng) demo_loop [Disconnected 1; RegisterClient 6].

Lemma disconnect_notice_waits_witness :
  sent_by demo_quiet = [] /\
  (2, PeerLeft (session_name 1) alice) ∈
    sent_by (ServerLoop.on_event demo_rng (loop_after demo_quiet) (MsgFromClient 5 (Ping 1))).
Proof.
  eapply (disconnect_notice_waits (fun _ => demo_rng) demo_loop 1 alice 2 (session_name 1) _
           [RegisterClient 6] (loop_after demo_quiet) _ demo_rng 5 (Ping 1));
    [reflexivity | vm_compute; reflexivity | ..];
    first [reflexivity | apply (bool_decide_unpack _); vm_compute; exact I | set_solver].
Defined.
