(* ===== verification/H264.v ===== *)
(** * H.264 over RTP (src/media_transport/payload/h264_packetizer.rs,
      src/media_transport/depacketizer/h264_depacketizer.rs)

    The packetizer splits an Annex-B access unit into NAL units and these into RTP payloads
    (single NAL unit or FU-A fragments); the depacketizer collects payloads into access units. *)

From stdpp Require Import prelude.
From Stdlib Require Import ZArith Lia.
From S2P Require Import Prelude Rtp RtpSession.
Local Open Scope Z_scope.

(** ** Start codes *)

(** [data[i..]] begins with [code], compared octet by octet *)
Definition code_at (data : bytes) (i : nat) (code : bytes) : bool :=
  bool_decide (take (length code) (drop i data) = code).

(** The search from [i]; [fuel] bounds the number of positions. *)
Fixpoint find_from (fuel : nat) (data : bytes) (i : nat) : option (nat * nat) :=
  match fuel with
  | O => None
  | S f =>
      if (i + 3 <=? length data)%nat then
        if (i + 4 <=? length data)%nat && code_at data i [0; 0; 0; 1] then Some (i, 4%nat)
        else if code_at data i [0; 0; 1] then Some (i, 3%nat)
        else find_from f data (S i)
      else None
  end.

Definition find_start_code (data : bytes) (from : nat) : option (nat * nat) :=
  find_from (S (length data)) data from.

(** The loop over start codes, at a start code of [sc_len] octets at [sc_pos] *)
Fixpoint split_loop (fuel : nat) (data : bytes) (sc_pos sc_len : nat) : list bytes :=
  match fuel with
  | O => []
  | S f =>
      let nal_start := (sc_pos + sc_len)%nat in
      let next := find_start_code data nal_start in
      let nal_end := match next with Some (next_sc_pos, _) => next_sc_pos | None => length data end in
      (if (nal_start <? nal_end)%nat then [take (nal_end - nal_start) (drop nal_start data)] else [])
      ++ match next with
         | Some (next_sc_pos, next_sc_len) => split_loop f data next_sc_pos next_sc_len
         | None => []
         end
  end.

Definition split_annexb_nalus (data : bytes) : list bytes :=
  match find_start_code data 0 with
  | None => if (length data =? 0)%nat then [] else [data]
  | Some (sc_pos, sc_len) => split_loop (S (length data)) data sc_pos sc_len
  end.

(** ** Packetizer *)
Module H264Packetizer.
Record t : Type := mk { mtu : nat; rtp_overhead : nat }.

Definition new (mtu : nat) : t := mk mtu 12.
Definition with_overhead (p : t) (overhead : nat) : t := mk (mtu p) overhead.
(** [saturating_sub] *)
Definition max_payload (p : t) : nat := mtu p - rtp_overhead p.

(** The FU-A fragments of [nalu] from [offset] on *)
Fixpoint fragments (fuel : nat) (nalu : bytes) (fu_indicator fu_header_base : Z)
    (frag_budget offset : nat) : list bytes :=
  match fuel with
  | O => []
  | S f =>
      if (offset <? length nalu)%nat then
        let remaining := (length nalu - offset)%nat in
        let n := Nat.min remaining frag_budget in
        let s_bit := if (offset =? 1)%nat then 128 else 0 in
        let e_bit := if (offset + n =? length nalu)%nat then 64 else 0 in
        let fu_header := Z.lor (Z.lor s_bit e_bit) fu_header_base in
        (fu_indicator :: fu_header :: take n (drop offset nalu))
        :: fragments f nalu fu_indicator fu_header_base frag_budget (offset + n)
      else []
  end.

(** The payloads of one NAL unit; [None] is [continue]. *)
Definition nalu_payloads (max_payload : nat) (nalu : bytes) : option (list bytes) :=
  match nalu with
  | [] => None
  | nalu_header :: _ =>
      if (length nalu <=? max_payload)%nat then Some [nalu]
      else
        let f_bit := Z.land nalu_header 128 in
        let nri := Z.land nalu_header 96 in
        let ntype := Z.land nalu_header 31 in
        let fu_indicator := Z.lor (Z.lor f_bit nri) 28 in
        let frag_budget := (max_payload - 2)%nat in
        if (frag_budget =? 0)%nat then None
        else Some (fragments (length nalu) nalu fu_indicator ntype frag_budget 1)
  end.

(** [last.marker = true] on the last chunk, if any *)
Fixpoint mark_last (out : list RtpPayloadChunk.t) : list RtpPayloadChunk.t :=
  match out with
  | [] => []
  | [c] => [RtpPayloadChunk.mk (RtpPayloadChunk.bytes_of c) true]
  | c :: out' => c :: mark_last out'
  end.

Fixpoint packetize_nalus (max_payload : nat) (nalus : list bytes)
    (out : list RtpPayloadChunk.t) : list RtpPayloadChunk.t :=
  match nalus with
  | [] => out
  | nalu :: nalus' =>
      match nalu_payloads max_payload nalu with
      | None => packetize_nalus max_payload nalus' out
      | Some payloads =>
          let out := out ++ ((fun b => RtpPayloadChunk.mk b false) <$> payloads) in
          let out := if (length nalus' =? 0)%nat then mark_last out else out in
          packetize_nalus max_payload nalus' out
      end
  end.

Definition packetize_annexb_to_payloads (p : t) (annexb_frame : bytes) : list RtpPayloadChunk.t :=
  packetize_nalus (max_payload p) (split_annexb_nalus annexb_frame) [].

Fixpoint number (chunks : list RtpPayloadChunk.t) (payload_type timestamp ssrc seq : Z)
  : list RtpPacket.t * Z :=
  match chunks with
  | [] => ([], seq)
  | ch :: chunks' =>
      let pkt := RtpPacket.simple payload_type (RtpPayloadChunk.marker ch) seq timestamp ssrc
                   (RtpPayloadChunk.bytes_of ch) in
      let '(packets, seq') := number chunks' payload_type timestamp ssrc (wrap16 (seq + 1)) in
      (pkt :: packets, seq')
  end.

Definition packetize_annexb_to_rtp (p : t) (annexb_frame : bytes)
    (payload_type timestamp ssrc seq_start : Z) : list RtpPacket.t * Z :=
  number (packetize_annexb_to_payloads p annexb_frame) payload_type timestamp ssrc seq_start.
End H264Packetizer.

(** ** Depacketizer *)
Record FuState : Type := { nalu_header : Z; buf : bytes }.

Module H264Depacketizer.
Record t : Type := mk {
  cur_ts : option Z;
  expected_seq : option Z;
  nalus : list bytes;
  fua : option FuState;
  frame_corrupted : bool
}.

Definition new : t := mk None None [] None false.

Definition reset_for_new_ts (d : t) (new_ts : Z) : t := mk (Some new_ts) None [] None false.

Definition corrupt (d : t) : t := mk (cur_ts d) (expected_seq d) (nalus d) (fua d) true.
Definition with_fua (d : t) (f : option FuState) : t :=
  mk (cur_ts d) (expected_seq d) (nalus d) f (frame_corrupted d).

(** [push_slice_if_new] and [push_vec_if_new] *)
Definition push_if_new (d : t) (nalu : bytes) : t :=
  if bool_decide (last (nalus d) = Some nalu) then d
  else mk (cur_ts d) (expected_seq d) (nalus d ++ [nalu]) (fua d) (frame_corrupted d).

Definition annexb (nalus : list bytes) : bytes := concat (map (app [0; 0; 0; 1]) nalus).

Definition finish_if_marker (d : t) (marker : bool) : t * option bytes :=
  if negb marker then (d, None)
  else (new, if negb (frame_corrupted d) && negb (length (nalus d) =? 0)%nat
             then Some (annexb (nalus d)) else None).

(** Timestamp and sequence number of the packet *)
Definition arrive (d : t) (timestamp seq : Z) : t :=
  let d := match cur_ts d with
           | Some ts => if negb (timestamp =? ts) then reset_for_new_ts d timestamp else d
           | None => mk (Some timestamp) (expected_seq d) (nalus d) (fua d) (frame_corrupted d)
           end in
  let corrupted := match expected_seq d with
                   | Some expect => if negb (seq =? expect) then true else frame_corrupted d
                   | None => frame_corrupted d
                   end in
  mk (cur_ts d) (Some (wrap16 (seq + 1))) (nalus d) (fua d) corrupted.

Definition push_rtp (d : t) (payload : bytes) (marker : bool) (timestamp seq : Z)
  : t * option bytes :=
  let d := arrive d timestamp seq in
  match payload with
  | [] => finish_if_marker (corrupt d) marker
  | hdr :: rest =>
      let nalu_type := Z.land hdr 31 in
      if (1 <=? nalu_type) && (nalu_type <=? 23) then
        let d := if is_some (fua d) then with_fua (corrupt d) None else d in
        finish_if_marker (push_if_new d payload) marker
      else if nalu_type =? 28 then
        match rest with
        | [] => finish_if_marker (corrupt d) marker
        | fu_header :: data =>
            let start := negb (Z.land fu_header 128 =? 0) in
            let end_ := negb (Z.land fu_header 64 =? 0) in
            let ttype := Z.land fu_header 31 in
            let orig_hdr := Z.lor (Z.land hdr 224) ttype in
            let d :=
              if start then
                with_fua d (Some {| nalu_header := orig_hdr; buf := orig_hdr :: data |})
              else match fua d with
                   | Some st => with_fua d (Some {| nalu_header := nalu_header st;
                                                    buf := buf st ++ data |})
                   | None => corrupt d
                   end in
            let d :=
              if end_ then
                match fua d with
                | Some st => push_if_new (with_fua d None) (buf st)
                | None => corrupt d
                end
              else d in
            finish_if_marker d marker
        end
      else if nalu_type =? 24 then finish_if_marker d marker
      else finish_if_marker (corrupt d) marker
  end.
End H264Depacketizer.

(** ** Start codes of a well-formed access unit *)

(** A NAL unit in which emulation prevention leaves no start code: no two zeros followed by an
    octet of at most one, and no trailing zero *)
Fixpoint clean (l : bytes) : bool :=
  match l with
  | [] => true
  | x :: l' =>
      negb ((x =? 0) && match l' with
                        | [] => true
                        | y :: l'' => (y =? 0) && match l'' with [] => true | z :: _ => z <=? 1 end
                        end)
      && clean l'
  end.

(** The search on the rest of the data *)
Fixpoint scan (l : bytes) : option (nat * nat) :=
  match l with
  | [] => None
  | _ :: l' =>
      if code_at l 0 [0; 0; 0; 1] then Some (0%nat, 4%nat)
      else if code_at l 0 [0; 0; 1] then Some (0%nat, 3%nat)
      else prod_map S id <$> scan l'
  end.

Definition shift (k : nat) (p : nat * nat) : nat * nat := ((k + p.1)%nat, p.2).

Lemma code_at_drop pre l code : code_at (pre ++ l) (length pre) code = code_at l 0 code.
Proof. unfold code_at. rewrite drop_app_length. reflexivity. Qed.

Lemma code_at_short l code : (length l < length code)%nat -> code_at l 0 code = false.
Proof.
  intros Hl. apply bool_decide_eq_false. intros He. apply (f_equal length) in He.
  rewrite length_take, drop_0 in He. lia.
Qed.

Lemma scan_short l : (length l < 3)%nat -> scan l = None.
Proof.
  intros Hl. induction l as [| x l IH]; [reflexivity |]. cbn [scan].
  rewrite !code_at_short by (simpl in *; lia). rewrite IH by (simpl in *; lia). reflexivity.
Qed.

Lemma find_from_scan f pre l : (length l < f)%nat ->
  find_from f (pre ++ l) (length pre) = shift (length pre) <$> scan l.
Proof.
  revert pre l. induction f as [| f IH]; intros pre l Hf; [lia |]. cbn [find_from].
  rewrite !code_at_drop, length_app. case_test; [| rewrite scan_short by lia; reflexivity].
  destruct l as [| x l]; [simpl in *; lia |]. cbn [scan].
  assert (H4 : (length pre + 4 <=? length pre + length (x :: l))%nat && code_at (x :: l) 0 [0; 0; 0; 1]
               = code_at (x :: l) 0 [0; 0; 0; 1]).
  { destruct (Nat.leb_spec (length pre + 4) (length pre + length (x :: l))); [reflexivity |].
    rewrite code_at_short by (simpl in *; lia). reflexivity. }
  rewrite H4. destruct (code_at (x :: l) 0 [0; 0; 0; 1]); [simpl; unfold shift; simpl; rewrite Nat.add_0_r; reflexivity |].
  destruct (code_at (x :: l) 0 [0; 0; 1]); [simpl; unfold shift; simpl; rewrite Nat.add_0_r; reflexivity |].
  rewrite (cons_middle x pre l). replace (S (length pre)) with (length (pre ++ [x])) by len.
  rewrite app_assoc, IH by (simpl in *; lia).
  destruct (scan l) as [[i k] |]; [| reflexivity]. simpl. unfold shift. simpl. do 2 f_equal. len.
Qed.

Lemma find_scan pre l : find_start_code (pre ++ l) (length pre) = shift (length pre) <$> scan l.
Proof. apply find_from_scan. len. Qed.

Lemma code_at_cons x l y code :
  code_at (x :: l) 0 (y :: code) = (x =? y) && code_at l 0 code.
Proof.
  unfold code_at. rewrite !drop_0. cbn [length take].
  destruct (Z.eqb_spec x y) as [-> | Hne]; cbn [andb].
  - apply bool_decide_ext. split; [intros [= He]; exact He | congruence].
  - apply bool_decide_eq_false. congruence.
Qed.

Lemma scan_clean n rest : clean n = true -> scan (n ++ 0 :: 0 :: 0 :: 1 :: rest) = Some (length n, 4%nat).
Proof.
  induction n as [| x n IH]; [reflexivity |]. cbn [clean].
  intros Hc. apply andb_prop in Hc. destruct Hc as [Hx Hc].
  cbn [app scan]. rewrite IH by exact Hc. rewrite !code_at_cons. simpl.
  destruct (x =? 0); [| reflexivity]. cbn [andb] in *.
  destruct n as [| y n]; [discriminate |]. cbn [app]. rewrite !code_at_cons.
  destruct (y =? 0); [| reflexivity]. cbn [andb] in *.
  destruct n as [| z n]; [discriminate |]. cbn [app]. rewrite !code_at_cons.
  destruct (Z.eqb_spec z 0), (Z.eqb_spec z 1); try reflexivity; subst; discriminate Hx.
Qed.

Lemma scan_clean_end n : clean n = true -> scan n = None.
Proof.
  induction n as [| x n IH]; [reflexivity |]. cbn [clean].
  intros Hc. apply andb_prop in Hc. destruct Hc as [Hx Hc].
  cbn [scan]. rewrite IH by exact Hc. rewrite !code_at_cons. simpl.
  destruct (x =? 0); [| reflexivity]. cbn [andb] in *.
  destruct n as [| y n]; [discriminate |]. rewrite !code_at_cons.
  destruct (y =? 0); [| reflexivity]. cbn [andb] in *.
  destruct n as [| z n]; [discriminate |]. rewrite !code_at_cons.
  destruct (Z.eqb_spec z 0), (Z.eqb_spec z 1); try reflexivity; subst; discriminate Hx.
Qed.

Definition annexb := H264Depacketizer.annexb.

Lemma annexb_cons n ns : annexb (n :: ns) = 0 :: 0 :: 0 :: 1 :: n ++ annexb ns.
Proof. reflexivity. Qed.

(** A NAL unit the encoder hands over: a header with a type of 1 to 23, no start code inside *)
Definition nal_ok (n : bytes) : Prop :=
  clean n = true /\ match n with h :: _ => u8 h /\ 1 <= Z.land h 31 <= 23 | [] => False end.

Lemma find_next pre n ns : clean n = true ->
  find_start_code (pre ++ n ++ annexb ns) (length pre) =
  match ns with [] => None | _ => Some ((length pre + length n)%nat, 4%nat) end.
Proof.
  intros Hc. rewrite find_scan. destruct ns as [| m ns].
  - rewrite app_nil_r, scan_clean_end by exact Hc. reflexivity.
  - rewrite annexb_cons, scan_clean by exact Hc. reflexivity.
Qed.

Lemma split_loop_clean ns f pre n : Forall nal_ok (n :: ns) -> (length ns < f)%nat ->
  split_loop f (pre ++ annexb (n :: ns)) (length pre) 4 = n :: ns.
Proof.
  revert f pre n. induction ns as [| m ns IH]; intros f pre n Hall Hf;
    destruct f as [| f]; try (simpl in Hf; lia); apply Forall_cons in Hall;
    destruct Hall as [[Hc Hn] Hall]; cbn [split_loop]; rewrite annexb_cons;
    replace (pre ++ 0 :: 0 :: 0 :: 1 :: n ++ annexb _) with ((pre ++ [0; 0; 0; 1]) ++ n ++ annexb ltac:(first [exact (m :: ns) | exact []]))
      by (rewrite <- app_assoc; reflexivity);
    replace (length pre + 4)%nat with (length (pre ++ [0; 0; 0; 1])) by len;
    set (p4 := pre ++ [0; 0; 0; 1]); rewrite find_next by exact Hc.
  - change (annexb []) with (@nil Z). rewrite !app_nil_r. case_test; [| destruct n; [done | len]].
    rewrite drop_app_length, firstn_all2 by len. reflexivity.
  - cbv beta iota. case_test; [| destruct n; [done | len]].
    rewrite drop_app_length.
    replace (length p4 + length n - length p4)%nat with (length n) by lia.
    rewrite take_app_length. cbn [app]. f_equal.
    rewrite app_assoc, <- length_app. apply IH; [exact Hall | simpl in Hf; lia].
Qed.

Lemma length_annexb ns : (length ns <= length (annexb ns))%nat.
Proof.
  induction ns as [| n ns IH]; [simpl; lia |]. rewrite annexb_cons. len.
Qed.

(** Splitting undoes the Annex-B format. *)
Lemma split_annexb ns : Forall nal_ok ns -> split_annexb_nalus (annexb ns) = ns.
Proof.
  intros Hall. unfold split_annexb_nalus. destruct ns as [| n ns]; [reflexivity |].
  pose proof (find_scan [] (annexb (n :: ns))) as Hf. cbn [app length] in Hf.
  pose proof (scan_clean [] (n ++ annexb ns) eq_refl) as Hs. cbn [app length] in Hs.
  rewrite <- annexb_cons in Hs. rewrite Hf, Hs. cbn [fmap option_fmap option_map shift fst snd Nat.add].
  apply (split_loop_clean ns _ [] n Hall). pose proof (length_annexb ns).
  rewrite annexb_cons. len.
Qed.

(** ** Headers of fragments *)
Lemma fu_indicator_bits h : u8 h ->
  let ind := Z.lor (Z.lor (Z.land h 128) (Z.land h 96)) 28 in
  Z.land ind 31 = 28 /\ Z.lor (Z.land ind 224) (Z.land h 31) = h.
Proof. intros Hh. cbv zeta. by_range 256%nat h. Qed.

Lemma fu_header_bits (s e : bool) h : u8 h ->
  let hdr := Z.lor (Z.lor (if s then 128 else 0) (if e then 64 else 0)) (Z.land h 31) in
  negb (Z.land hdr 128 =? 0) = s /\ negb (Z.land hdr 64 =? 0) = e /\
  Z.land hdr 31 = Z.land h 31.
Proof. intros Hh. cbv zeta. destruct s, e; by_range 256%nat h. Qed.

(** ** The depacketizer between the packets of one frame *)
Module Reassembly.
Import H264Packetizer H264Depacketizer.

(** The state after a packet without marker; the marker then ends the frame. *)
Definition absorb (d : H264Depacketizer.t) (payload : bytes) (ts seq : Z) : H264Depacketizer.t :=
  (push_rtp d payload false ts seq).1.

Lemma push_absorb d payload marker ts seq :
  push_rtp d payload marker ts seq = finish_if_marker (absorb d payload ts seq) marker.
Proof.
  unfold absorb, push_rtp. destruct payload as [| h [| fh data]];
    repeat first [reflexivity | case_test].
Qed.

(** In the middle of a frame with no loss so far *)
Definition mid (ts e : Z) (ns : list bytes) (fu : option FuState) : H264Depacketizer.t :=
  mk (Some ts) (Some e) ns fu false.

(** NAL units are collected without repeating the last one. *)
Definition add (ns : list bytes) (n : bytes) : list bytes :=
  if bool_decide (last ns = Some n) then ns else ns ++ [n].

Lemma arrive_mid ts e ns fu : arrive (mid ts e ns fu) ts e = mid ts (wrap16 (e + 1)) ns fu.
Proof. unfold arrive, mid. simpl. rewrite !Z.eqb_refl. simpl. rewrite Z.eqb_refl. reflexivity. Qed.

Lemma absorb_new payload ts seq : absorb new payload ts seq = absorb (mid ts seq [] None) payload ts seq.
Proof. unfold absorb, push_rtp. rewrite arrive_mid. reflexivity. Qed.

Lemma push_if_new_mid ts e ns fu n : push_if_new (mid ts e ns fu) n = mid ts e (add ns n) fu.
Proof. unfold push_if_new, add, mid. simpl. case_bool_decide; reflexivity. Qed.

Lemma absorb_single ts e ns n : nal_ok n ->
  absorb (mid ts e ns None) n ts e = mid ts (wrap16 (e + 1)) (add ns n) None.
Proof.
  intros [_ Hn]. unfold absorb, push_rtp. rewrite arrive_mid.
  destruct n as [| h n]; [done |]. destruct Hn as [_ Ht].
  rewrite (proj2 (Z.leb_le _ _)), (proj2 (Z.leb_le _ _)) by lia. simpl is_some. cbn [andb fst finish_if_marker negb].
  apply push_if_new_mid.
Qed.

(** A fragment: [acc] is what has been put together before it. *)
Lemma absorb_fragment ts e ns h data (s en : bool) acc : u8 h -> 
  (if s then acc = None else is_Some acc) ->
  absorb (mid ts e ns acc)
    (Z.lor (Z.lor (Z.land h 128) (Z.land h 96)) 28
     :: Z.lor (Z.lor (if s then 128 else 0) (if en then 64 else 0)) (Z.land h 31) :: data) ts e
  = let whole := if s then h :: data else default [] (buf <$> acc) ++ data in
    if en then mid ts (wrap16 (e + 1)) (add ns whole) None
    else mid ts (wrap16 (e + 1)) ns
           (Some {| nalu_header := if s then h else default 0 (nalu_header <$> acc); buf := whole |}).
Proof.
  intros Hh Hacc. destruct (fu_indicator_bits h Hh) as [Hi1 Hi2].
  destruct (fu_header_bits s en h Hh) as (Hf1 & Hf2 & Hf3).
  unfold absorb, push_rtp. rewrite arrive_mid, Hi1, Hf1, Hf2, Hf3, Hi2.
  cbn [Z.leb Z.compare andb Z.eqb Pos.eqb Pos.compare Pos.compare_cont].
  destruct s; [subst acc | destruct Hacc as [st ->]]; destruct en; cbn;
    rewrite ?push_if_new_mid; try reflexivity;
    match goal with |- push_if_new ?d ?n = _ => exact (push_if_new_mid ts (wrap16 (e + 1)) ns None n) end.
Qed.

(** Consecutive packets without marker: the state and the next sequence number *)
Fixpoint absorb_all (d : H264Depacketizer.t) (ps : list bytes) (ts seq : Z)
  : H264Depacketizer.t * Z :=
  match ps with
  | [] => (d, seq)
  | p :: ps' => absorb_all (absorb d p ts seq) ps' ts (wrap16 (seq + 1))
  end.

Lemma absorb_all_app d ps1 ps2 ts seq :
  absorb_all d (ps1 ++ ps2) ts seq =
  let '(d', seq') := absorb_all d ps1 ts seq in absorb_all d' ps2 ts seq'.
Proof.
  revert d seq. induction ps1 as [| p ps1 IH]; intros d seq; [reflexivity | apply IH].
Qed.

(** The fragments of a NAL unit from [offset] on complete it. *)
Lemma absorb_fragments f h body budget offset ts e ns acc :
  u8 h -> (0 < budget)%nat -> (1 <= offset < length (h :: body))%nat ->
  (length (h :: body) - offset <= f)%nat ->
  (if (offset =? 1)%nat then acc = None
   else exists nh, acc = Some {| nalu_header := nh; buf := take offset (h :: body) |}) ->
  exists e', absorb_all (mid ts e ns acc)
    (fragments f (h :: body) (Z.lor (Z.lor (Z.land h 128) (Z.land h 96)) 28) (Z.land h 31)
       budget offset) ts e
    = (mid ts e' (add ns (h :: body)) None, e').
Proof.
  intros Hh Hb. revert offset e acc. set (nalu := h :: body).
  induction f as [| f IH]; intros offset e acc Ho Hf Hacc; [lia |].
  cbn [fragments]. case_test; [| lia]. cbn [absorb_all]. rewrite absorb_fragment; [| exact Hh |].
  2: { case_test; [exact Hacc | destruct Hacc as [nh ->]; eauto]. }
  set (n := Nat.min (length nalu - offset) budget). cbv zeta.
  assert (Hwhole : (if (offset =? 1)%nat then h :: take n (drop offset nalu)
                    else default [] (buf <$> acc) ++ take n (drop offset nalu)) = take (offset + n) nalu).
  { destruct (Nat.eqb_spec offset 1) as [-> | H1]; [reflexivity |].
    destruct Hacc as [nh ->]. simpl. apply take_take_drop. }
  rewrite Hwhole. destruct (Nat.eqb_spec (offset + n) (length nalu)) as [He | He].
  - rewrite firstn_all2 by lia.
    destruct f as [| f]; cbn [fragments absorb_all]; [eauto |].
    case_test; [lia |]. cbn [absorb_all]. eauto.
  - apply IH; [lia | lia |]. destruct (Nat.eqb_spec (offset + n) 1); [lia |]. eauto.
Qed.

Lemma absorb_nalu max n ts e ns : (3 <= max)%nat -> nal_ok n ->
  exists ps e', nalu_payloads max n = Some ps /\ ps <> [] /\
    absorb_all (mid ts e ns None) ps ts e = (mid ts e' (add ns n) None, e').
Proof.
  intros Hmax Hn. pose proof Hn as [_ Hh]. destruct n as [| h body]; [done |].
  destruct Hh as [Hh Ht]. cbn [nalu_payloads]. case_test.
  - exists [h :: body]. eexists. split; [reflexivity |]. split; [done |]. cbn [absorb_all].
    rewrite absorb_single by exact Hn. reflexivity.
  - case_test; [lia |].
    destruct (absorb_fragments (length (h :: body)) h body (max - 2) 1 ts e ns None)
      as [e' He]; [exact Hh | lia | simpl in *; lia | simpl; lia | reflexivity |].
    eexists. exists e'. split; [reflexivity |]. split; [| exact He].
    cbn [length fragments]. case_test; [done | simpl in *; lia].
Qed.

(** What the packetizer sends for a list of NAL units *)
Definition payloads_of (max : nat) (ns : list bytes) : list bytes :=
  concat (map (fun n => default [] (nalu_payloads max n)) ns).

Lemma absorb_nalus max ns ts e acc : (3 <= max)%nat -> Forall nal_ok ns ->
  exists e', absorb_all (mid ts e acc None) (payloads_of max ns) ts e
    = (mid ts e' (foldl add acc ns) None, e').
Proof.
  intros Hmax Hall. revert e acc. induction Hall as [| n ns Hn _ IH]; intros e acc; [eexists; reflexivity |].
  unfold payloads_of. cbn [map concat foldl].
  destruct (absorb_nalu max n ts e acc Hmax Hn) as (ps & e' & Hps & _ & Ha).
  rewrite Hps. change (default [] (Some ps)) with ps. rewrite absorb_all_app, Ha. apply IH.
Qed.

Definition unmarked (b : bytes) : RtpPayloadChunk.t := RtpPayloadChunk.mk b false.

Lemma packetize_nalus_spec max ns out : (3 <= max)%nat -> Forall (fun n => n <> []) ns -> ns <> [] ->
  packetize_nalus max ns out = mark_last (out ++ (unmarked <$> payloads_of max ns)).
Proof.
  intros Hmax Hall Hne. revert out. induction Hall as [| n ns Hn Hall IH]; intros out; [done |].
  cbn [packetize_nalus]. assert (Hs : is_Some (nalu_payloads max n)).
  { destruct n as [| h body]; [done |]. cbn [nalu_payloads]. repeat case_test; eauto. lia. }
  destruct Hs as [ps Hps]. rewrite Hps. unfold payloads_of. cbn [map concat].
  rewrite Hps. change (default [] (Some ps)) with ps. rewrite fmap_app, app_assoc.
  destruct ns as [| m ns]; cbn [length Nat.eqb packetize_nalus].
  - simpl. rewrite app_nil_r. reflexivity.
  - apply IH. done.
Qed.

(** Packets into the depacketizer, as the worker does *)
Fixpoint push_all (d : H264Depacketizer.t) (pkts : list RtpPacket.t)
  : H264Depacketizer.t * list (option bytes) :=
  match pkts with
  | [] => (d, [])
  | p :: pkts' =>
      let h := RtpPacket.header p in
      let '(d, o) := push_rtp d (RtpPacket.payload p) (RtpHeader.marker h)
                       (RtpHeader.timestamp h) (RtpHeader.sequence_number h) in
      let '(d, os) := push_all d pkts' in (d, o :: os)
  end.

Lemma mark_last_cons c c' l : mark_last (c :: c' :: l) = c :: mark_last (c' :: l).
Proof. reflexivity. Qed.

(** The packets of a frame, the last one marked *)
Lemma push_all_frame d ps pt ts ssrc seq : ps <> [] ->
  push_all d (number (mark_last (unmarked <$> ps)) pt ts ssrc seq).1 =
  let '(d', out) := finish_if_marker (absorb_all d ps ts seq).1 true in
  (d', replicate (length ps - 1) None ++ [out]).
Proof.
  revert d seq. induction ps as [| p ps IH]; intros d seq Hne; [done |].
  destruct ps as [| q ps].
  - cbn. rewrite push_absorb. reflexivity.
  - specialize (IH (absorb d p ts seq) (wrap16 (seq + 1))).
    rewrite !fmap_cons in *. rewrite mark_last_cons.
    set (chunks := mark_last (unmarked q :: (unmarked <$> ps))) in *.
    cbn [number RtpPayloadChunk.marker unmarked].
    destruct (number chunks pt ts ssrc (wrap16 (seq + 1))) as [pkts seq'].
    cbn [push_all fst] in *. rewrite push_absorb.
    match goal with |- context [finish_if_marker ?a (RtpHeader.marker _)] =>
      change (finish_if_marker a _) with (absorb d p ts seq, @None bytes) end.
    cbv beta iota. rewrite IH by done. cbn [absorb_all]. destruct (finish_if_marker _ true) as [d' out].
    cbn [length]. replace (S (S (length ps)) - 1)%nat with (S (S (length ps) - 1)) by lia.
    reflexivity.
Qed.
End Reassembly.

(** ** Properties *)
Import H264Packetizer H264Depacketizer Reassembly.

Lemma push_all_new ps pt ts ssrc seq :
  push_all new (number (mark_last (unmarked <$> ps)) pt ts ssrc seq).1 =
  push_all (mid ts seq [] None) (number (mark_last (unmarked <$> ps)) pt ts ssrc seq).1 \/ ps = [].
Proof.
  destruct ps as [| p ps]; [auto |]. left. rewrite !push_all_frame by done. cbn [absorb_all].
  rewrite absorb_new. reflexivity.
Qed.

Lemma payloads_of_nonempty max ns : (3 <= max)%nat -> Forall nal_ok ns -> ns <> [] ->
  payloads_of max ns <> [].
Proof.
  intros Hmax Hall Hne. destruct Hall as [| n ns Hn _]; [done |]. unfold payloads_of. cbn [map concat].
  destruct (absorb_nalu max n 0 0 [] Hmax Hn) as (ps & e' & Hps & Hnz & _). rewrite Hps.
  simpl. destruct ps; [done | discriminate].
Qed.

(** The frame the depacketizer returns for the packets of [ns] *)
Lemma frame_received p ns pt ts ssrc seq : (3 <= max_payload p)%nat -> Forall nal_ok ns -> ns <> [] ->
  push_all new (number (mark_last (unmarked <$> payloads_of (max_payload p) ns)) pt ts ssrc seq).1 =
  (new, replicate (length (payloads_of (max_payload p) ns) - 1) None
        ++ [Some (annexb (foldl add [] ns))]).
Proof.
  intros Hmax Hall Hne. pose proof (payloads_of_nonempty _ _ Hmax Hall Hne) as Hps.
  destruct (push_all_new (payloads_of (max_payload p) ns) pt ts ssrc seq) as [-> |]; [| done].
  rewrite push_all_frame by exact Hps.
  destruct (absorb_nalus (max_payload p) ns ts seq [] Hmax Hall) as [e' ->].
  unfold finish_if_marker. simpl. destruct (foldl add [] ns) as [| n l] eqn:Hf; [| reflexivity].
  exfalso. destruct Hall as [| n ns Hn Hall]; [done |]. simpl in Hf. clear - Hf.
  assert (Hnz : add [] n <> []) by (unfold add; simpl; discriminate).
  revert Hf Hnz. generalize (add [] n). induction ns as [| m ns IH]; intros acc Hf Hnz; [done |].
  simpl in Hf. apply (IH (add acc m) Hf). unfold add. case_bool_decide; [done |].
  intros Ha. apply app_eq_nil in Ha. destruct Ha. discriminate.
Qed.

Lemma length_number chunks pt ts ssrc seq : length (number chunks pt ts ssrc seq).1 = length chunks.
Proof.
  revert seq. induction chunks as [| c chunks IH]; intros seq; [reflexivity |]. cbn [number].
  specialize (IH (wrap16 (seq + 1))). destruct (number chunks _ _ _ _). simpl in *. lia.
Qed.

Lemma length_mark_last l : length (mark_last l) = length l.
Proof.
  induction l as [| c l IH]; [reflexivity |]. destruct l; [reflexivity |].
  rewrite mark_last_cons. cbn [length] in *. lia.
Qed.

(** No NAL unit equal to the one before it *)
Fixpoint no_repeat (prev : option bytes) (ns : list bytes) : bool :=
  match ns with
  | [] => true
  | n :: ns' => bool_decide (prev <> Some n) && no_repeat (Some n) ns'
  end.

Lemma add_no_repeat ns acc : no_repeat (last acc) ns = true -> foldl add acc ns = acc ++ ns.
Proof.
  revert acc. induction ns as [| n ns IH]; intros acc Hr; [rewrite app_nil_r; reflexivity |].
  cbn [no_repeat] in Hr. apply andb_prop in Hr. destruct Hr as [Hn Hr].
  apply bool_decide_eq_true in Hn. cbn [foldl]. unfold add at 2.
  rewrite bool_decide_false by exact Hn. rewrite IH, <- app_assoc by (rewrite last_snoc; exact Hr).
  reflexivity.
Qed.

Lemma packetize_annexb p ns : (3 <= max_payload p)%nat -> Forall nal_ok ns -> ns <> [] ->
  packetize_annexb_to_payloads p (annexb ns)
  = mark_last (unmarked <$> payloads_of (max_payload p) ns).
Proof.
  intros Hmax Hall Hne. unfold packetize_annexb_to_payloads. rewrite split_annexb by exact Hall.
  rewrite packetize_nalus_spec; [reflexivity | exact Hmax | | exact Hne].
  eapply Forall_impl; [exact Hall |]. intros [|] [_ Hn]; [contradiction | discriminate].
Qed.

(** C13 Access units survive RTP. An Annex-B access unit of NAL units of the types 1 to 23 that
    contain no start code, none equal to the one before it, is packetized into RTP packets from
    any sequence number on; a fresh depacketizer that gets these packets returns nothing until
    the last one and then exactly the access unit, and is ready for the next one. *)
Theorem h264_roundtrip p ns pt ts ssrc seq : (3 <= max_payload p)%nat ->
  Forall nal_ok ns -> ns <> [] -> no_repeat None ns = true ->
  let pkts := (packetize_annexb_to_rtp p (annexb ns) pt ts ssrc seq).1 in
  push_all new pkts = (new, replicate (length pkts - 1) None ++ [Some (annexb ns)]).
Proof.
  intros Hmax Hall Hne Hr. unfold packetize_annexb_to_rtp.
  rewrite packetize_annexb, frame_received by assumption.
  rewrite (add_no_repeat ns [] Hr), length_number, length_mark_last, length_fmap. reflexivity.
Qed.

(** Repeated NAL units are lost. If a NAL unit of the access unit equals the one before it,
    the depacketizer returns, without any packet missing, a frame without the repetition, which
    differs from what was sent. *)
Theorem h264_repeated_nalu_dropped p ns1 n ns2 pt ts ssrc seq : (3 <= max_payload p)%nat ->
  Forall nal_ok (ns1 ++ n :: ns2) -> no_repeat None (ns1 ++ n :: ns2) = true ->
  let sent := annexb (ns1 ++ n :: n :: ns2) in
  let pkts := (packetize_annexb_to_rtp p sent pt ts ssrc seq).1 in
  push_all new pkts = (new, replicate (length pkts - 1) None ++ [Some (annexb (ns1 ++ n :: ns2))])
  /\ annexb (ns1 ++ n :: ns2) <> sent.
Proof.
  intros Hmax Hall Hr. cbv zeta. split.
  - assert (Hall' : Forall nal_ok (ns1 ++ n :: n :: ns2)).
    { apply Forall_app in Hall. destruct Hall as [H1 H2]. apply Forall_app. split; [exact H1 |].
      apply Forall_cons in H2. destruct H2. auto. }
    unfold packetize_annexb_to_rtp.
    rewrite packetize_annexb, frame_received by (assumption || (destruct ns1; discriminate)).
    rewrite length_number, length_mark_last, length_fmap. do 5 f_equal.
    pose proof (add_no_repeat _ [] Hr) as Hadd. cbn [app] in Hadd. rewrite <- Hadd, !foldl_app.
    cbn [foldl]. f_equal. unfold add at 1.
    rewrite bool_decide_true; [reflexivity |]. unfold add. case_bool_decide; [assumption | apply last_snoc].
  - intros He. apply (f_equal length) in He. revert He. unfold annexb, H264Depacketizer.annexb.
    rewrite !map_app, !concat_app. cbn [map concat]. len.
Qed.

(** ** Sizes and markers *)
Lemma find_from_bounds f data i j k : find_from f data i = Some (j, k) ->
  (i <= j /\ j + 3 <= length data)%nat.
Proof.
  revert i. induction f as [| f IH]; intros i Hf; cbn [find_from] in Hf; [discriminate |].
  repeat case_test_in Hf; try (injection Hf as <- <-; lia); [| discriminate].
  apply IH in Hf. lia.
Qed.

Lemma split_loop_nonempty f data pos len : Forall (fun n => n <> []) (split_loop f data pos len).
Proof.
  revert pos len. induction f as [| f IH]; intros pos len; cbn [split_loop]; [constructor |].
  destruct (find_start_code data (pos + len)) as [[j k] |] eqn:Hf; apply Forall_app; (split; [| auto]).
  - apply find_from_bounds in Hf. case_test; repeat constructor.
    intros Hn. apply (f_equal length) in Hn. revert Hn. len.
  - case_test; repeat constructor. intros Hn. apply (f_equal length) in Hn. revert Hn. len.
Qed.

Lemma split_nonempty data : Forall (fun n => n <> []) (split_annexb_nalus data).
Proof.
  unfold split_annexb_nalus. destruct (find_start_code data 0) as [[pos len] |];
    [apply split_loop_nonempty |]. case_test; repeat constructor. destruct data; done.
Qed.

Lemma fragments_sizes f nalu ind base budget offset : (0 < budget)%nat ->
  Forall (fun b => (3 <= length b <= budget + 2)%nat) (fragments f nalu ind base budget offset).
Proof.
  intros Hb. revert offset. induction f as [| f IH]; intros offset; cbn [fragments]; [constructor |].
  case_test; [| constructor]. constructor; [| apply IH]. len.
Qed.

Lemma nalu_payloads_sizes max n ps : (3 <= max)%nat -> nalu_payloads max n = Some ps ->
  Forall (fun b => (1 <= length b <= max)%nat) ps.
Proof.
  intros Hmax. destruct n as [| h body]; [discriminate |]. cbn [nalu_payloads].
  repeat case_test; try discriminate; intros He; apply (inj Some) in He; rewrite <- He.
  - apply Forall_singleton. simpl in *. lia.
  - eapply Forall_impl; [apply fragments_sizes; lia |]. simpl. lia.
Qed.

Lemma payloads_of_sizes max ns : (3 <= max)%nat ->
  Forall (fun b => (1 <= length b <= max)%nat) (payloads_of max ns).
Proof.
  intros Hmax. unfold payloads_of. induction ns as [| n ns IH]; cbn [map concat]; [constructor |].
  apply Forall_app. split; [| exact IH].
  destruct (nalu_payloads max n) as [ps |] eqn:Hps; [exact (nalu_payloads_sizes _ _ _ Hmax Hps) | constructor].
Qed.

Lemma mark_last_bytes l : RtpPayloadChunk.bytes_of <$> mark_last l = RtpPayloadChunk.bytes_of <$> l.
Proof.
  induction l as [| c l IH]; [reflexivity |]. destruct l; [reflexivity |].
  rewrite mark_last_cons, !fmap_cons, IH. reflexivity.
Qed.

Lemma mark_last_markers ps : ps <> [] ->
  RtpPayloadChunk.marker <$> mark_last (unmarked <$> ps) = replicate (length ps - 1) false ++ [true].
Proof.
  induction ps as [| p ps IH]; [done |]. intros _. destruct ps as [| q ps]; [reflexivity |].
  rewrite !fmap_cons, mark_last_cons, fmap_cons. rewrite fmap_cons in IH. rewrite IH by done.
  cbn [length]. replace (S (S (length ps)) - 1)%nat with (S (S (length ps) - 1)) by lia. reflexivity.
Qed.

(** Payload sizes and marker. For every access unit, whatever its octets, every payload has at
    least one octet and at most the room the MTU leaves, and the marker is on the last payload
    and on no other. *)
Theorem h264_payloads_fit p frame : (3 <= max_payload p)%nat ->
  let chunks := packetize_annexb_to_payloads p frame in
  Forall (fun c => (1 <= length (RtpPayloadChunk.bytes_of c) <= mtu p - rtp_overhead p)%nat) chunks /\
  (chunks = [] \/
   RtpPayloadChunk.marker <$> chunks = replicate (length chunks - 1) false ++ [true]).
Proof.
  intros Hmax. cbv zeta. unfold packetize_annexb_to_payloads.
  destruct (split_annexb_nalus frame) as [| n ns] eqn:Hs; [split; [constructor | left; reflexivity] |].
  pose proof (split_nonempty frame) as Hne. rewrite Hs in Hne.
  rewrite packetize_nalus_spec by done. cbn [app]. set (ps := payloads_of _ _).
  assert (Hb : RtpPayloadChunk.bytes_of <$> mark_last (unmarked <$> ps) = ps).
  { rewrite mark_last_bytes, <- list_fmap_compose. apply list_fmap_id. }
  split.
  - pose proof (payloads_of_sizes (max_payload p) (n :: ns) Hmax) as Hf. fold ps in Hf.
    rewrite <- Hb in Hf. apply Forall_fmap in Hf. exact Hf.
  - rewrite length_mark_last, length_fmap. destruct (decide (ps = [])) as [-> | Hps]; [left; reflexivity |].
    right. apply mark_last_markers, Hps.
Qed.

(** ** Loss *)
Lemma absorb_corrupted d payload ts seq : cur_ts d = Some ts ->
  frame_corrupted d = true \/ (exists e, expected_seq d = Some e /\ seq <> e) ->
  cur_ts (absorb d payload ts seq) = Some ts /\ frame_corrupted (absorb d payload ts seq) = true.
Proof.
  intros Hts Hc. assert (Ha : cur_ts (arrive d ts seq) = Some ts /\ frame_corrupted (arrive d ts seq) = true).
  { unfold arrive. rewrite Hts, Z.eqb_refl. simpl. split; [exact Hts |].
    destruct Hc as [Hc | (e & He & Hne)].
    - rewrite Hc. destruct (expected_seq d); [case_test |]; reflexivity.
    - rewrite He. case_test; [congruence | reflexivity]. }
  revert Ha. unfold absorb, push_rtp. generalize (arrive d ts seq). intros d1 [H1 H2].
  assert (Hpush : forall d n, cur_ts (push_if_new d n) = cur_ts d /\
                              frame_corrupted (push_if_new d n) = frame_corrupted d).
  { intros d2 n. unfold push_if_new. case_bool_decide; auto. }
  destruct payload as [| h [| fh data]]; cbn [finish_if_marker negb fst];
    repeat (case_test; cbn [finish_if_marker negb fst]); rewrite ?(proj1 (Hpush _ _)), ?(proj2 (Hpush _ _));
    simpl; auto;
    repeat (destruct (fua d1); simpl; rewrite ?(proj1 (Hpush _ _)), ?(proj2 (Hpush _ _)); simpl; auto).
Qed.

Lemma push_all_cons d p pkts : push_all d (p :: pkts) =
  let h := RtpPacket.header p in
  let '(d, o) := push_rtp d (RtpPacket.payload p) (RtpHeader.marker h) (RtpHeader.timestamp h)
                   (RtpHeader.sequence_number h) in
  let '(d, os) := push_all d pkts in (d, o :: os).
Proof. reflexivity. Qed.

(** A frame with a gap is not delivered. Once a packet of a frame arrives whose sequence number
    does not follow the one before it, no packet of that frame, up to its marker, makes the
    depacketizer return anything. *)
Theorem h264_gap_not_delivered d ts e p pkts : cur_ts d = Some ts -> expected_seq d = Some e ->
  RtpHeader.sequence_number (RtpPacket.header p) <> e ->
  Forall (fun q => RtpHeader.timestamp (RtpPacket.header q) = ts) (p :: pkts) ->
  Forall (fun q => RtpHeader.marker (RtpPacket.header q) = false) (removelast (p :: pkts)) ->
  Forall (fun o => o = None) (push_all d (p :: pkts)).2.
Proof.
  intros Hts He Hne Hall Hm.
  assert (Hc : frame_corrupted d = true \/
    (exists e, expected_seq d = Some e /\ RtpHeader.sequence_number (RtpPacket.header p) <> e)) by eauto.
  clear He Hne e. revert d p Hts Hall Hm Hc.
  induction pkts as [| q pkts IH]; intros d p Hts Hall Hm Hc;
    apply Forall_cons in Hall; destruct Hall as [Hp Hall]; rewrite push_all_cons; cbv zeta; rewrite Hp, push_absorb;
    destruct (absorb_corrupted d (RtpPacket.payload p) ts _ Hts Hc) as [Hts' Hc'].
  - destruct (RtpHeader.marker _); cbn [finish_if_marker negb push_all snd].
    + rewrite Hc'. repeat constructor.
    + repeat constructor.
  - change (removelast (p :: q :: pkts)) with (p :: removelast (q :: pkts)) in Hm.
    apply Forall_cons in Hm. destruct Hm as [Hmp Hm]. rewrite Hmp. cbn [finish_if_marker negb].
    specialize (IH _ q Hts' Hall Hm (or_introl Hc')).
    destruct (push_all (absorb d _ ts _) (q :: pkts)) as [d' os]. constructor; auto.
Qed.

Lemma mark_last_app l1 l2 : l2 <> [] -> mark_last (l1 ++ l2) = l1 ++ mark_last l2.
Proof.
  intros Hne. induction l1 as [| c l1 IH]; [reflexivity |]. cbn [app]. rewrite <- IH.
  destruct (l1 ++ l2) eqn:He; [apply app_eq_nil in He; destruct He; done | reflexivity].
Qed.

Lemma drop_number l1 l2 pt ts ssrc seq : exists seq',
  drop (length l1) (number (l1 ++ l2) pt ts ssrc seq).1 = (number l2 pt ts ssrc seq').1.
Proof.
  revert seq. induction l1 as [| c l1 IH]; intros seq; [exists seq; apply drop_0 |].
  cbn [app length number]. destruct (IH (wrap16 (seq + 1))) as [seq' Hs]. exists seq'.
  destruct (number (l1 ++ l2) _ _ _ _). exact Hs.
Qed.

(** A lost beginning is not noticed. If all packets of the first NAL unit of an access unit
    are lost and the others arrive, the depacketizer returns the access unit without its first
    NAL unit, as if it were complete. *)
Theorem h264_lost_head_undetected p n ns pt ts ssrc seq k : (3 <= max_payload p)%nat ->
  Forall nal_ok (n :: ns) -> ns <> [] -> no_repeat None ns = true ->
  nalu_payloads (max_payload p) n = Some k ->
  let received := drop (length k) (packetize_annexb_to_rtp p (annexb (n :: ns)) pt ts ssrc seq).1 in
  push_all new received = (new, replicate (length received - 1) None ++ [Some (annexb ns)]).
Proof.
  intros Hmax Hall Hne Hr Hk. cbv zeta. unfold packetize_annexb_to_rtp.
  rewrite packetize_annexb by done. apply Forall_cons in Hall. destruct Hall as [_ Hall].
  pose proof (payloads_of_nonempty _ _ Hmax Hall Hne) as Hps.
  unfold payloads_of at 1 2. cbn [map concat]. rewrite Hk. change (default [] (Some k)) with k.
  rewrite fmap_app, mark_last_app by (intros He; apply fmap_nil_inv in He; exact (Hps He)).
  destruct (drop_number (unmarked <$> k) (mark_last (unmarked <$> payloads_of (max_payload p) ns))
              pt ts ssrc seq) as [seq' Hd]. rewrite length_fmap in Hd. fold (payloads_of (max_payload p) ns).
  rewrite Hd, frame_received by assumption.
  rewrite (add_no_repeat ns [] Hr), length_number, length_mark_last, length_fmap. reflexivity.
Qed.

(** ** Witnesses *)
#[export] Instance nal_ok_dec n : Decision (nal_ok n).
Proof. unfold nal_ok, u8. destruct n; apply _. Defined.

(** A parameter set and a slice, sent with eight octets per payload *)
Definition demo_packetizer : H264Packetizer.t := H264Packetizer.new 20.
Definition demo_sps : bytes := [103; 66; 0; 31].
Definition demo_slice : bytes := [101; 136; 1; 2; 3; 4; 5; 6; 7; 8; 9; 10; 11; 12].

Lemma h264_roundtrip_witness :
  let pkts := (packetize_annexb_to_rtp demo_packetizer (annexb [demo_sps; demo_slice]) 96 5 7 65535).1 in
  push_all new pkts = (new, replicate (length pkts - 1) None ++ [Some (annexb [demo_sps; demo_slice])]).
Proof.
  apply (h264_roundtrip demo_packetizer [demo_sps; demo_slice] 96 5 7 65535);
    [vm_compute; lia | apply (bool_decide_unpack _); vm_compute; exact I | discriminate | reflexivity].
Defined.

Lemma h264_repeated_nalu_dropped_witness :
  let sent := annexb [demo_sps; demo_slice; demo_slice] in
  let pkts := (packetize_annexb_to_rtp demo_packetizer sent 96 5 7 1).1 in
  push_all new pkts = (new, replicate (length pkts - 1) None ++ [Some (annexb [demo_sps; demo_slice])])
  /\ annexb [demo_sps; demo_slice] <> sent.
Proof.
  apply (h264_repeated_nalu_dropped demo_packetizer [demo_sps] demo_slice [] 96 5 7 1);
    [vm_compute; lia | apply (bool_decide_unpack _); vm_compute; exact I | reflexivity].
Defined.

Lemma h264_payloads_fit_witness :
  let chunks := packetize_annexb_to_payloads demo_packetizer demo_slice in
  Forall (fun c => (1 <= length (RtpPayloadChunk.bytes_of c) <= 20 - 12)%nat) chunks /\
  (chunks = [] \/ RtpPayloadChunk.marker <$> chunks = replicate (length chunks - 1) false ++ [true]).
Proof. apply (h264_payloads_fit demo_packetizer demo_slice). vm_compute. lia. Defined.

(** The third of four packets is missing. *)
Definition demo_packets : list RtpPacket.t :=
  (packetize_annexb_to_rtp demo_packetizer (annexb [demo_sps; demo_slice]) 96 5 7 10).1.

Lemma h264_gap_not_delivered_witness :
  length demo_packets = 4%nat /\
  Forall (fun o => o = None) (push_all (push_all new (take 2 demo_packets)).1 (drop 3 demo_packets)).2.
Proof.
  split; [reflexivity |].
  apply (h264_gap_not_delivered (push_all new (take 2 demo_packets)).1 5 12
           (RtpPacket.simple 96 true 13 5 7 [124; 69; 12]) []).
  - reflexivity.
  - reflexivity.
  - discriminate.
  - apply Forall_singleton. reflexivity.
  - apply Forall_nil_2.
Defined.

Lemma h264_lost_head_undetected_witness :
  let received := drop 1 (packetize_annexb_to_rtp demo_packetizer (annexb [demo_sps; demo_slice]) 96 5 7 10).1 in
  push_all new received = (new, replicate (length received - 1) None ++ [Some (annexb [demo_slice])]).
Proof.
  apply (h264_lost_head_undetected demo_packetizer demo_sps [demo_slice] 96 5 7 10 [demo_sps]);
    [vm_compute; lia | apply (bool_decide_unpack _); vm_compute; exact I | discriminate
    | reflexivity | reflexivity].
Defined.
