(* ===== verification/G711.v ===== *)
(** * Audio codec (media_agent/audio_codec.rs)

    G.711 u-law. The companding of 16-bit samples is integer arithmetic at its width; the
    conversions from and to floating point use the binary32 operations of [SpecFloat]. *)

From stdpp Require Import prelude.
From Stdlib Require Import ZArith Lia SpecFloat.
From S2P Require Import Prelude.
Local Open Scope Z_scope.

Definition BIAS : Z := 132.
Definition CLIP : Z := 32635.

(** [while (s & mask) == 0 && exp > 0]: the exponent bounds the turns. *)
Fixpoint exponent (exp : nat) (s mask : Z) : Z :=
  match exp with
  | O => 0
  | S e => if Z.land s mask =? 0 then exponent e s (Z.shiftr mask 1) else Z.of_nat exp
  end.

Definition linear_to_ulaw (sample : Z) : Z :=
  let sign := Z.land (Z.shiftr sample 8) 128 in
  let s := if sample <? 0 then - sample else sample in
  let s := if CLIP <? s then CLIP else s in
  let s := s + BIAS in
  let exp := exponent 7 s 16384 in
  let mantissa := Z.land (Z.shiftr s (exp + 3)) 15 in
  let ulaw_byte := Z.lor (Z.lor sign (wrap8 (Z.shiftl exp 4))) mantissa in
  Z.lxor 255 ulaw_byte.

(** [as i16] *)
Definition as_i16 (v : Z) : Z := let m := v mod 65536 in if m <? 32768 then m else m - 65536.
Definition ulaw_to_linear (ulaw_byte : Z) : Z :=
  let ulaw_byte := Z.lxor 255 ulaw_byte in
  let sign := Z.land ulaw_byte 128 in
  let exponent := Z.land (Z.shiftr ulaw_byte 4) 7 in
  let mantissa := Z.land ulaw_byte 15 in
  let sample := Z.shiftl (Z.shiftl mantissa 3 + 132) exponent - BIAS in
  as_i16 (if sign =? 0 then sample else - sample).

(** [as i32] of a binary32: towards zero, saturating, zero for NaN *)
Definition f32_as_i32 (f : spec_float) : Z :=
  match f with
  | S754_finite s m e =>
      let v := if e <? 0 then Z.shiftr (Zpos m) (- e) else Z.shiftl (Zpos m) e in
      if s then Z.max (-2147483648) (- v) else Z.min 2147483647 v
  | S754_infinity s => if s then -2147483648 else 2147483647
  | S754_zero _ | S754_nan => 0
  end.
Definition f32_of_Z (v : Z) : spec_float := binary_normalize 24 128 v 0 false.

Definition encode_sample (sample : spec_float) : Z :=
  let s := f32_as_i32 (SFmul 24 128 sample (f32_of_Z 32767)) in
  linear_to_ulaw (Z.max (-32768) (Z.min 32767 s)).
Definition encode (pcm_samples : list spec_float) : bytes := encode_sample <$> pcm_samples.
Definition decode_sample (byte : Z) : spec_float := SFdiv 24 128 (f32_of_Z (ulaw_to_linear byte)) (f32_of_Z 32767).
Definition decode (ulaw_bytes : bytes) : list spec_float := decode_sample <$> ulaw_bytes.

(** ** Companding *)
Definition i16 (s : Z) : Prop := -32768 <= s < 32768.

(** The octet of a sample from its sign and its biased magnitude. It depends on the magnitude in
    blocks of eight. *)
Definition ulaw_of (negative : bool) (s : Z) : Z :=
  let exp := exponent 7 s 16384 in
  Z.lxor 255 (Z.lor (Z.lor (if negative then 128 else 0) (wrap8 (Z.shiftl exp 4))) (Z.land (Z.shiftr s (exp + 3)) 15)).

Lemma sign_bit s : i16 s -> Z.land (Z.shiftr s 8) 128 = if s <? 0 then 128 else 0.
Proof.
  intros [H1 H2]. change 128 with (2 ^ 7) at 1. rewrite Z.shiftr_div_pow2 by lia. change (2 ^ 8) with 256.
  assert (H : -128 <= s / 256 < 128) by elia. case_test.
  - assert (Hn : s / 256 < 0) by elia. generalize dependent (s / 256). intros q Hq Hn.
    replace q with (- (1 + (- q - 1))) by lia. assert (Hr : 0 <= - q - 1 < 128) by lia.
    clear -Hr. generalize dependent (- q - 1). intros r Hr. by_range 128%nat r.
  - assert (Hn : 0 <= s / 256 < 128) by elia. clear -Hn. generalize dependent (s / 256). intros r Hr. by_range 128%nat r.
Qed.

Lemma linear_to_ulaw_of s : i16 s -> linear_to_ulaw s = ulaw_of (s <? 0) (Z.min CLIP (Z.abs s) + BIAS).
Proof.
  intros Hs. unfold linear_to_ulaw, ulaw_of. rewrite sign_bit by exact Hs.
  replace (if CLIP <? (if s <? 0 then - s else s) then CLIP else if s <? 0 then - s else s)
    with (Z.min CLIP (Z.abs s)) by (destruct (Z.ltb_spec s 0), (Z.ltb_spec CLIP (- s)), (Z.ltb_spec CLIP s); lia).
  reflexivity.
Qed.

Lemma land_pow2_block s k : 0 <= s -> 0 <= k -> (Z.land s (2 ^ (k + 3)) =? 0) = (Z.land (8 * (s / 8)) (2 ^ (k + 3)) =? 0).
Proof.
  intros Hs Hk. f_equal. apply Z.bits_inj'. intros n Hn. rewrite !Z.land_spec, Z.pow2_bits_eqb by lia.
  destruct (Z.eqb_spec (k + 3) n) as [<- | _]; [| rewrite !andb_false_r; reflexivity]. rewrite !andb_true_r.
  change 8 with (2 ^ 3). rewrite (Z.mul_comm (2 ^ 3)), Z.mul_pow2_bits by lia. rewrite Z.div_pow2_bits by lia. f_equal. lia.
Qed.

Lemma exponent_block e s : 0 <= s ->
  exponent e s (2 ^ (Z.of_nat e + 4 + 3)) = exponent e (8 * (s / 8)) (2 ^ (Z.of_nat e + 4 + 3)).
Proof.
  intros Hs. induction e as [| e IH]; [reflexivity |]. cbn [exponent].
  rewrite land_pow2_block by lia. rewrite Z.shiftr_div_pow2, <- Z.pow_sub_r by lia.
  replace (Z.of_nat (S e) + 4 + 3 - 1) with (Z.of_nat e + 4 + 3) by lia. rewrite IH. reflexivity.
Qed.

Lemma exponent_range e s m : 0 <= exponent e s m.
Proof. revert m. induction e as [| e IH]; intros m; cbn [exponent]; [lia |]. case_test; [apply IH | lia]. Qed.

Lemma ulaw_of_block neg s : 0 <= s -> ulaw_of neg s = ulaw_of neg (8 * (s / 8)).
Proof.
  intros Hs. unfold ulaw_of. change 16384 with (2 ^ (Z.of_nat 7 + 4 + 3)). rewrite <- exponent_block by exact Hs.
  pose proof (exponent_range 7 s (2 ^ (Z.of_nat 7 + 4 + 3))) as He. set (e := exponent 7 s _) in *.
  do 2 f_equal. rewrite (Z.add_comm e 3), <- !Z.shiftr_shiftr by lia. rewrite !(Z.shiftr_div_pow2 _ 3) by lia.
  change (2 ^ 3) with 8. rewrite Z.mul_comm, Z.div_mul by lia. reflexivity.
Qed.

(** The error over a block: half a step of the segment, which is a 32nd of the biased magnitude. It
    is largest at the ends of the block. *)
Definition block_ok (neg : bool) (q : Z) : bool :=
  let b := ulaw_of neg (8 * q) in
  let d := ulaw_to_linear b in
  (0 <=? b) && (b <? 256) && (32 * (Z.abs d + BIAS - 8 * q) <=? 8 * q) &&
  (32 * (8 * q + 7 - (Z.abs d + BIAS)) <=? 8 * q + 7) && (if neg then d <=? 0 else 0 <=? d).

Lemma block_forall (P : Z -> bool) :
  forallb (fun h => forallb (fun l => P (256 * h + l)) (Z.of_nat <$> seq 0 256)) (Z.of_nat <$> seq 0 16) = true ->
  forall q, 0 <= q < 4096 -> P q = true.
Proof.
  intros H q Hq. rewrite forallb_forall in H.
  assert (Hin : forall z n, 0 <= z < Z.of_nat n -> In z (Z.of_nat <$> seq 0 n)).
  { intros z n Hz. apply list_elem_of_In, list_elem_of_fmap. exists (Z.to_nat z). rewrite elem_of_seq. lia. }
  specialize (H (q / 256) ltac:(apply Hin; elia)). rewrite forallb_forall in H.
  specialize (H (q mod 256) ltac:(apply Hin; elia)).
  replace (256 * (q / 256) + q mod 256) with q in H by elia. exact H.
Qed.
Lemma blocks_ok neg q : 16 <= q < 4096 -> block_ok neg q = true.
Proof.
  intros Hq. assert (H : (q <? 16) || block_ok neg q = true).
  { apply (block_forall (fun q => (q <? 16) || block_ok neg q)); [destruct neg; vm_compute; reflexivity | lia]. }
  destruct (Z.ltb_spec q 16); [lia | exact H].
Qed.

Lemma ulaw_error s : i16 s ->
  let b := linear_to_ulaw s in
  let m := Z.min CLIP (Z.abs s) in
  u8 b /\ 32 * Z.abs (Z.abs (ulaw_to_linear b) - m) <= m + BIAS /\
  (if s <? 0 then ulaw_to_linear b <= 0 else 0 <= ulaw_to_linear b).
Proof.
  intros Hs. cbv zeta. rewrite linear_to_ulaw_of by exact Hs.
  assert (Hm : 0 <= Z.min CLIP (Z.abs s) <= CLIP) by (unfold CLIP; lia).
  generalize dependent (Z.min CLIP (Z.abs s)). intros m Hm. unfold CLIP in Hm.
  rewrite ulaw_of_block by (unfold BIAS; lia).
  pose proof (blocks_ok (s <? 0) ((m + BIAS) / 8) ltac:(unfold BIAS; elia)) as H. unfold block_ok in H.
  set (d := ulaw_to_linear _) in *. rewrite !andb_true_iff, !Z.leb_le, Z.ltb_lt in H. destruct H as [[[[H1 H2] H3] H4] H5].
  split; [split; assumption |]. split; [unfold BIAS in *; elia |]. destruct (s <? 0); apply Z.leb_le, H5.
Qed.

Definition ulaw_exact (b : Z) : bool :=
  let s := ulaw_to_linear b in
  (-32768 <=? s) && (s <? 32768) && ((linear_to_ulaw s =? b) || (b =? 127)).
Lemma ulaw_octets b : u8 b -> ulaw_exact b = true.
Proof. intros Hb. by_range 256%nat b. Qed.

(** Companding keeps speech. Every 16-bit sample is coded as one octet, keeps its sign, and comes
    back within a 32nd of its magnitude plus the bias (clipped at 32635); and decoding then coding
    again returns the same octet for every octet but 127, the negative zero, so that a second pass
    through the codec changes nothing. *)
Theorem ulaw_companding :
  (forall s, i16 s ->
     let b := linear_to_ulaw s in
     let m := Z.min CLIP (Z.abs s) in
     u8 b /\ 32 * Z.abs (Z.abs (ulaw_to_linear b) - m) <= m + BIAS /\
     (s < 0 -> ulaw_to_linear b <= 0) /\ (0 <= s -> 0 <= ulaw_to_linear b)) /\
  (forall b, u8 b -> i16 (ulaw_to_linear b) /\ (b <> 127 -> linear_to_ulaw (ulaw_to_linear b) = b)) /\
  linear_to_ulaw (ulaw_to_linear 127) = 255.
Proof.
  split; [| split; [| reflexivity]].
  - intros s Hs. destruct (ulaw_error s Hs) as (H1 & H2 & H3). split_and!; [exact H1 | exact H2 | |];
      intros; destruct (Z.ltb_spec s 0); lia.
  - intros b Hb. pose proof (ulaw_octets b Hb) as H. unfold ulaw_exact in H. cbv zeta in H.
    rewrite !andb_true_iff, orb_true_iff, Z.leb_le, Z.ltb_lt, !Z.eqb_eq in H. unfold i16. intuition lia.
Qed.
