(* ===== verification/Congestion.v ===== *)
(** * Congestion controller (src/congestion_controller)

    The bitrate of the encoder follows the metrics of receiver reports: down by 15% on loss or
    delay, up by 10% after a quiet second. Floating-point arithmetic is modelled exactly: a
    binary64 product is rounded to 53 bits, ties to even; the loss test uses the binary32
    operations of [SpecFloat]. Times are in nanoseconds, clock readings are arguments. *)

From stdpp Require Import prelude.
From Stdlib Require Import ZArith Lia SpecFloat.
From S2P Require Import Prelude RtpSession.
Local Open Scope Z_scope.

(** ** Constants *)

(** The binary32 number nearest to 0.1 *)
Definition LOSS_THRESHOLD : spec_float := S754_finite false 13421773 (-27).
Definition RTT_THRESHOLD_MILLIS : Z := 200.
Definition INCREASE_INTERVAL : Z := 1.
(** The binary64 numbers nearest to 1.1 and 0.85, in units of 2^-53 *)
Definition INCREASE_FACTOR : Z := 9907919180215092.
Definition DECREASE_FACTOR : Z := 7656119366529843.

(** ** Floating point *)

(** [v] rounded to 53 significant bits, ties to even *)
Definition round53 (v : Z) : Z :=
  let k := Z.log2 v - 52 in
  if k <=? 0 then v
  else
    let q := v / 2 ^ k in
    let r := v mod 2 ^ k in
    let up := (2 ^ (k - 1) <? r) || ((r =? 2 ^ (k - 1)) && Z.odd q) in
    (if up then q + 1 else q) * 2 ^ k.

(** [(n as f64 * factor) as u32]: the product in units of 2^-53, truncated and saturated *)
Definition scale (n factor : Z) : Z :=
  Z.min 4294967295 (round53 (n * factor) / 2 ^ 53).

(** [x as f32 / 255.0] *)
Definition fraction_lost_float (x : Z) : spec_float :=
  SFdiv 24 128 (binary_normalize 24 128 x 0 false) (binary_normalize 24 128 255 0 false).

(** [u32::clamp], which asserts that the bounds are in order *)
Definition clamp (v lo hi : Z) : outcome Empty_set Z :=
  if hi <? lo then Panic else Ok (if v <? lo then lo else if hi <? v then hi else v).

(** ** Controller *)
Module CongestionController.
Record t : Type := mk {
  current_bitrate_bps : Z;
  min_bitrate_bps : Z;
  max_bitrate_bps : Z;
  last_update : Z;
  loss_threshold : spec_float;
  rtt_threshold : Z;      (* milliseconds *)
  increase_interval : Z;  (* nanoseconds *)
  increase_factor : Z;
  decrease_factor : Z
}.

Definition new (initial_bitrate min_bitrate max_bitrate now : Z) : t * list EngineEvent :=
  (mk initial_bitrate min_bitrate max_bitrate now LOSS_THRESHOLD RTT_THRESHOLD_MILLIS
      (INCREASE_INTERVAL * 1000000000) INCREASE_FACTOR DECREASE_FACTOR,
   [EvUpdateBitrate initial_bitrate]).

Definition with_bitrate (c : t) (bps now : Z) : t :=
  mk bps (min_bitrate_bps c) (max_bitrate_bps c) now (loss_threshold c) (rtt_threshold c)
     (increase_interval c) (increase_factor c) (decrease_factor c).

Definition on_network_metrics (c : t) (metrics : NetworkMetrics.t) (now : Z)
  : outcome Empty_set (t * list EngineEvent) :=
  let cur := current_bitrate_bps c in
  let new_bitrate :=
    if SFltb (loss_threshold c) (fraction_lost_float (NetworkMetrics.fraction_lost metrics))
    then scale cur (decrease_factor c)
    else if rtt_threshold c <? NetworkMetrics.round_trip_time metrics
    then scale cur (decrease_factor c)
    else if increase_interval c <? Z.max 0 (now - last_update c)
    then scale cur (increase_factor c)
    else cur in
  new_bitrate ← clamp new_bitrate (min_bitrate_bps c) (max_bitrate_bps c);
  Ok (if negb (new_bitrate =? cur)
      then (with_bitrate c new_bitrate now, [EvUpdateBitrate new_bitrate])
      else (c, [])).
End CongestionController.

(** ** Rounding *)
Lemma round53_bounds v : 0 <= v ->
  v * (2 ^ 53 - 1) <= round53 v * 2 ^ 53 <= v * (2 ^ 53 + 1).
Proof.
  intros Hv. unfold round53. case_test; [lia |]. set (k := Z.log2 v - 52) in *.
  destruct (Z.eq_dec v 0) as [-> | Hv0]; [simpl in k; lia |].
  pose proof (Z.log2_spec v ltac:(lia)) as [Hlo _].
  assert (Hk : 2 ^ Z.log2 v = 2 * 2 ^ (k - 1) * 2 ^ 52).
  { replace (Z.log2 v) with ((1 + (k - 1)) + 52) by lia. rewrite !Z.pow_add_r by lia. reflexivity. }
  assert (H2 : 2 ^ k = 2 * 2 ^ (k - 1)).
  { replace k with (1 + (k - 1)) at 1 by lia. rewrite Z.pow_add_r by lia. reflexivity. }
  assert (Hp : 0 < 2 ^ (k - 1)) by (apply Z.pow_pos_nonneg; lia).
  set (h := 2 ^ (k - 1)) in *. pose proof (Z.div_mod v (2 ^ k) ltac:(lia)) as Hdm.
  pose proof (Z.mod_pos_bound v (2 ^ k) ltac:(lia)) as Hmod.
  set (q := v / 2 ^ k) in *. set (r := v mod 2 ^ k) in *. rewrite H2 in *.
  destruct (Z.ltb_spec h r), (Z.eqb_spec r h), (Z.odd q); cbn [orb andb]; lia.
Qed.

(** The two factors on a 32-bit bitrate: 85% and 110% of it, rounded down and at most one below. *)
Lemma scale_decrease n : 0 <= n < 4294967296 ->
  0 <= scale n DECREASE_FACTOR /\ 17 * n - 20 <= 20 * scale n DECREASE_FACTOR <= 17 * n.
Proof.
  intros Hn. unfold scale, DECREASE_FACTOR.
  pose proof (round53_bounds (n * 7656119366529843) ltac:(lia)) as Hr.
  set (v := round53 _) in *. split; [| elia]. apply Z.min_glb; [lia | apply Z.div_pos; lia].
Qed.

Lemma scale_increase n : 0 <= n < 4294967296 ->
  n <= scale n INCREASE_FACTOR /\
  Z.min (10 * 4294967295) (11 * n - 10) <= 10 * scale n INCREASE_FACTOR <= 11 * n.
Proof.
  intros Hn. unfold scale, INCREASE_FACTOR.
  pose proof (round53_bounds (n * 9907919180215092) ltac:(lia)) as Hr.
  set (v := round53 _) in *. elia.
Qed.

(** ** The response to a report *)
Import CongestionController.

(** More than a tenth of the packets lost, as the eighth-bit fraction of a report block *)
Lemma loss_test x : u8 x -> SFltb LOSS_THRESHOLD (fraction_lost_float x) = (26 <=? x).
Proof. intros Hx. by_range 256%nat x. Qed.

(** A controller as [new] builds it, at any time *)
Record controller_ok (c : t) : Prop := {
  ok_bitrate : 0 <= min_bitrate_bps c <= current_bitrate_bps c;
  ok_max : current_bitrate_bps c <= max_bitrate_bps c < 4294967296;
  ok_loss : loss_threshold c = LOSS_THRESHOLD;
  ok_rtt : rtt_threshold c = 200;
  ok_interval : increase_interval c = 1000000000;
  ok_increase : increase_factor c = INCREASE_FACTOR;
  ok_decrease : decrease_factor c = DECREASE_FACTOR
}.

(** A report of more than a tenth of the packets lost, or of a delay above 200 ms *)
Definition congested (m : NetworkMetrics.t) : bool :=
  (26 <=? NetworkMetrics.fraction_lost m) || (200 <? NetworkMetrics.round_trip_time m).

Lemma controller_new initial lo hi now : 0 <= lo <= initial -> initial <= hi < 4294967296 ->
  controller_ok (new initial lo hi now).1.
Proof. intros H1 H2. split; auto. Qed.

Lemma metrics_step c m now : controller_ok c -> u8 (NetworkMetrics.fraction_lost m) ->
  let cur := current_bitrate_bps c in
  let next :=
    if congested m then Z.max (min_bitrate_bps c) (scale cur DECREASE_FACTOR)
    else if 1000000000 <? Z.max 0 (now - last_update c)
    then Z.min (max_bitrate_bps c) (scale cur INCREASE_FACTOR) else cur in
  on_network_metrics c m now =
    Ok (if next =? cur then (c, []) else (with_bitrate c next now, [EvUpdateBitrate next])).
Proof.
  intros Hc Hm. destruct Hc as [H1 H2 H3 H4 H5 H6 H7]. cbv zeta. unfold on_network_metrics, congested.
  rewrite H3, H4, H5, H6, H7, loss_test by exact Hm.
  pose proof (scale_decrease (current_bitrate_bps c) ltac:(lia)).
  pose proof (scale_increase (current_bitrate_bps c) ltac:(lia)).
  assert (Hcl : forall v, clamp v (min_bitrate_bps c) (max_bitrate_bps c) =
    Ok (Z.min (max_bitrate_bps c) (Z.max (min_bitrate_bps c) v))).
  { intros v. unfold clamp. case_test; [lia |]. repeat case_test; f_equal; lia. }
  rewrite Hcl. cbn [mbind outcome_bind]. f_equal.
  match goal with |- (if negb (?a =? _) then _ else _) = (if ?b =? _ then _ else _) =>
    assert (a = b) as -> end.
  { destruct (26 <=? _), (200 <? _); cbn [orb]; [lia | lia | lia |]. case_test; lia. }
  case_test; reflexivity.
Qed.

Lemma ok_with_bitrate c bps now : controller_ok c ->
  min_bitrate_bps c <= bps <= max_bitrate_bps c -> controller_ok (with_bitrate c bps now).
Proof. intros [H1 H2 H3 H4 H5 H6 H7] Hb. split; simpl; auto; lia. Qed.

Lemma metrics_total c m now : controller_ok c -> u8 (NetworkMetrics.fraction_lost m) ->
  exists c' evts, on_network_metrics c m now = Ok (c', evts) /\ controller_ok c'.
Proof.
  intros Hc Hm. pose proof (ok_bitrate c Hc). pose proof (ok_max c Hc).
  pose proof (scale_decrease (current_bitrate_bps c) ltac:(lia)).
  pose proof (scale_increase (current_bitrate_bps c) ltac:(lia)).
  rewrite (metrics_step c m now Hc Hm). cbv zeta. set (next := if congested m then _ else _).
  assert (min_bitrate_bps c <= next <= max_bitrate_bps c) by (unfold next; repeat case_test; lia).
  destruct (next =? current_bitrate_bps c); do 2 eexists; (split; [reflexivity |]); auto using ok_with_bitrate.
Qed.

(** ** A series of reports *)
Fixpoint run (c : t) (reports : list (NetworkMetrics.t * Z)) : outcome Empty_set t :=
  match reports with
  | [] => Ok c
  | (m, now) :: reports' => '(c, _) ← on_network_metrics c m now; run c reports'
  end.

(** Reports that neither tell of congestion nor come more than a second after the last change leave
    the controller alone. *)
Lemma quiet_run l c : controller_ok c ->
  Forall (fun r => u8 (NetworkMetrics.fraction_lost r.1) /\ congested r.1 = false /\
                   r.2 - last_update c <= 1000000000) l ->
  run c l = Ok c.
Proof.
  intros Hc Hl. induction Hl as [| [m now] l (Hm & Hg & Ht) _ IH]; [reflexivity |]. cbn [run].
  rewrite (metrics_step c m now Hc Hm). cbv zeta. cbn [fst snd] in *. rewrite Hg.
  rewrite (proj2 (Z.ltb_ge _ _)) by lia. rewrite Z.eqb_refl. exact IH.
Qed.

(** The bitrate after a report: within the limits, and 85%, 110% or all of the one before. *)
Lemma next_bitrate c m now next : controller_ok c ->
  next = (if congested m then Z.max (min_bitrate_bps c) (scale (current_bitrate_bps c) DECREASE_FACTOR)
          else if 1000000000 <? Z.max 0 (now - last_update c)
          then Z.min (max_bitrate_bps c) (scale (current_bitrate_bps c) INCREASE_FACTOR)
          else current_bitrate_bps c) ->
  min_bitrate_bps c <= next <= max_bitrate_bps c /\
  (congested m = true -> next = min_bitrate_bps c \/
     17 * current_bitrate_bps c - 20 <= 20 * next <= 17 * current_bitrate_bps c) /\
  (congested m = false -> 1000000000 < now - last_update c -> next = max_bitrate_bps c \/
     11 * current_bitrate_bps c - 10 <= 10 * next <= 11 * current_bitrate_bps c) /\
  (congested m = false -> now - last_update c <= 1000000000 -> next = current_bitrate_bps c).
Proof.
  intros Hc ->. pose proof (ok_bitrate c Hc) as Hb. pose proof (ok_max c Hc) as Hx.
  pose proof (scale_decrease (current_bitrate_bps c) ltac:(lia)) as Hd.
  pose proof (scale_increase (current_bitrate_bps c) ltac:(lia)) as Hi.
  destruct (congested m); repeat split; intros; try discriminate; try case_test; lia.
Qed.

(** C28 The response to a report. The controller never fails and keeps the bitrate within its
    unchanged limits. A report of more than 10% loss or of more than 200 ms round trip sets it to
    85% of what it was, rounded down and at most one bit per second less, or to the minimum; any
    other report sets it to 110%, rounded the same way, or to the maximum, when the last change is
    more than a second ago, and leaves it alone otherwise. The encoder is told exactly when the
    bitrate changes, and every report without congestion of the second after a change, however many
    there are, is without effect. *)
Theorem congestion_response c m now : controller_ok c -> u8 (NetworkMetrics.fraction_lost m) ->
  exists c' evts, on_network_metrics c m now = Ok (c', evts) /\ controller_ok c' /\
    min_bitrate_bps c' = min_bitrate_bps c /\ max_bitrate_bps c' = max_bitrate_bps c /\
    let cur := current_bitrate_bps c in
    let cur' := current_bitrate_bps c' in
    (congested m = true -> cur' = min_bitrate_bps c \/ 17 * cur - 20 <= 20 * cur' <= 17 * cur) /\
    (congested m = false -> 1000000000 < now - last_update c ->
       cur' = max_bitrate_bps c \/ 11 * cur - 10 <= 10 * cur' <= 11 * cur) /\
    (congested m = false -> now - last_update c <= 1000000000 -> cur' = cur) /\
    evts = (if cur' =? cur then [] else [EvUpdateBitrate cur']) /\
    (cur' <> cur -> forall l,
       Forall (fun r => u8 (NetworkMetrics.fraction_lost r.1) /\ congested r.1 = false /\
                        r.2 - now <= 1000000000) l ->
       run c' l = Ok c').
Proof.
  intros Hc Hm. pose proof (metrics_step c m now Hc Hm) as Hs. cbv zeta in Hs.
  set (next := if congested m then _ else _) in Hs.
  destruct (next_bitrate c m now next Hc eq_refl) as (Hn & H1 & H2 & H3).
  destruct (Z.eqb_spec next (current_bitrate_bps c)) as [He | He]; rewrite Hs; do 2 eexists;
    (split; [reflexivity |]).
  - split; [exact Hc |]. cbv zeta. rewrite He in H1, H2, H3. rewrite Z.eqb_refl. tauto.
  - split; [apply ok_with_bitrate; assumption |]. cbn. rewrite (proj2 (Z.eqb_neq _ _) He).
    do 6 (split; [auto |]). intros _ l Hl. apply quiet_run; [apply ok_with_bitrate; assumption | exact Hl].
Qed.

Lemma congested_step c m now : controller_ok c -> u8 (NetworkMetrics.fraction_lost m) ->
  congested m = true ->
  exists c' evts, on_network_metrics c m now = Ok (c', evts) /\ controller_ok c' /\
    min_bitrate_bps c' = min_bitrate_bps c /\
    current_bitrate_bps c' = Z.max (min_bitrate_bps c) (scale (current_bitrate_bps c) DECREASE_FACTOR).
Proof.
  intros Hc Hm Hg. pose proof (metrics_step c m now Hc Hm) as Hs. cbv zeta in Hs. rewrite Hg in Hs.
  pose proof (ok_bitrate c Hc) as Hb. pose proof (ok_max c Hc) as Hx.
  pose proof (scale_decrease (current_bitrate_bps c) ltac:(lia)) as Hd.
  rewrite Hs. case_test; do 2 eexists; (split; [reflexivity |]).
  - auto.
  - split; [apply ok_with_bitrate; [exact Hc | lia] | auto].
Qed.

Lemma congested_run l c : controller_ok c ->
  Forall (fun r => u8 (NetworkMetrics.fraction_lost r.1) /\ congested r.1 = true) l ->
  exists c', run c l = Ok c' /\ controller_ok c' /\ min_bitrate_bps c' = min_bitrate_bps c /\
    (current_bitrate_bps c' = min_bitrate_bps c \/
     current_bitrate_bps c' * 8 ^ Z.of_nat (length l) <= current_bitrate_bps c * 7 ^ Z.of_nat (length l)).
Proof.
  intros Hc Hl. revert c Hc. induction Hl as [| [m now] l [Hm Hg] _ IH]; intros c Hc.
  { exists c. simpl. repeat split; auto; [apply Hc .. | right; lia]. }
  cbn [run]. destruct (congested_step c m now Hc Hm Hg) as (c1 & evts & -> & Hc1 & Hmin & Hcur).
  cbn [mbind outcome_bind]. destruct (IH c1 Hc1) as (c' & Hr & Hc' & Hmin' & Hor).
  exists c'. split; [exact Hr |]. split; [exact Hc' |]. split; [lia |].
  pose proof (ok_bitrate c Hc) as Hb. pose proof (ok_max c Hc) as Hx.
  pose proof (scale_decrease (current_bitrate_bps c) ltac:(lia)) as Hd.
  pose proof (ok_bitrate c' Hc') as Hb'.
  destruct Hor as [Hor | Hor]; [left; lia |].
  cbn [length]. rewrite Nat2Z.inj_succ, !Z.pow_succ_r by lia.
  assert (H8 : 0 < 8 ^ Z.of_nat (length l)) by (apply Z.pow_pos_nonneg; lia).
  assert (H7 : 0 < 7 ^ Z.of_nat (length l)) by (apply Z.pow_pos_nonneg; lia).
  assert (H87 : 7 ^ Z.of_nat (length l) <= 8 ^ Z.of_nat (length l)) by (apply Z.pow_le_mono_l; lia).
  destruct (Z.max_spec (min_bitrate_bps c) (scale (current_bitrate_bps c) DECREASE_FACTOR))
    as [[_ He] | [_ He]]; rewrite He in Hcur; rewrite Hcur in Hor; [right; nia | left; nia].
Qed.

(** Under persistent congestion the bitrate reaches its minimum: whatever the bitrate was, 167
    consecutive congested reports, and any further ones, leave it there. *)
Theorem congestion_reaches_minimum c l : controller_ok c ->
  Forall (fun r => u8 (NetworkMetrics.fraction_lost r.1) /\ congested r.1 = true) l ->
  (167 <= length l)%nat ->
  exists c', run c l = Ok c' /\ current_bitrate_bps c' = min_bitrate_bps c.
Proof.
  intros Hc Hl Hn. destruct (congested_run l c Hc Hl) as (c' & Hr & Hc' & Hmin & Hor).
  exists c'. split; [exact Hr |]. destruct Hor as [Hor | Hor]; [exact Hor |].
  pose proof (ok_bitrate c' Hc') as Hb. pose proof (ok_max c Hc) as Hx.
  assert (Hsmall : forall k, (167 <= k)%nat -> 4294967296 * 7 ^ Z.of_nat k < 8 ^ Z.of_nat k).
  { intros k Hk. induction Hk as [| k Hk IH]; [reflexivity |].
    rewrite Nat2Z.inj_succ, !Z.pow_succ_r by lia.
    assert (0 < 7 ^ Z.of_nat k) by (apply Z.pow_pos_nonneg; lia). lia. }
  specialize (Hsmall _ Hn).
  assert (0 < 7 ^ Z.of_nat (length l)) by (apply Z.pow_pos_nonneg; lia).
  assert (current_bitrate_bps c' < 1) by nia. lia.
Qed.

(** ** Witnesses *)
Definition demo_controller : t := (new 1000000 100000 3000000 0).1.
Definition demo_loss : NetworkMetrics.t := NetworkMetrics.mk 20 64 10 1000.

Lemma congestion_response_witness :
  exists c' evts, on_network_metrics demo_controller demo_loss 5 = Ok (c', evts) /\
    evts = [EvUpdateBitrate (current_bitrate_bps c')] /\
    17 * 1000000 - 20 <= 20 * current_bitrate_bps c' <= 17 * 1000000 /\
    run c' [(NetworkMetrics.mk 20 0 0 1000, 6); (NetworkMetrics.mk 20 0 0 1001, 1000000005)] = Ok c'.
Proof.
  destruct (congestion_response demo_controller demo_loss 5) as (c' & evts & Hr & _ & _ & _ & H1 & _ & _ & He & Hq);
    [apply controller_new; lia | vm_compute; split; congruence |].
  exists c', evts. cbv zeta in *. change (current_bitrate_bps demo_controller) with 1000000 in *.
  assert (Hc : current_bitrate_bps c' = 850000).
  { vm_compute in Hr. injection Hr as <- <-. reflexivity. }
  rewrite Hc in *. split; [exact Hr |]. split; [exact He |]. split; [lia |]. apply Hq; [lia |].
  repeat constructor; cbn; unfold u8; try lia.
Defined.

Lemma congestion_reaches_minimum_witness :
  exists c', run demo_controller (replicate 167 (demo_loss, 7)) = Ok c' /\ current_bitrate_bps c' = 100000.
Proof.
  apply (congestion_reaches_minimum demo_controller (replicate 167 (demo_loss, 7)));
    [apply controller_new; lia | | reflexivity].
  apply Forall_replicate. split; [vm_compute; split; congruence | reflexivity].
Defined.
