(* ===== verification/AppSession.v ===== *)
(** * The application session (src/core/protocol.rs, src/core/session.rs)

    [AppMsg] holds the handshake and close messages and their text codec. [Session] holds the
    flags a session shares between its threads, and one definition per thread body: the
    receiver ([on_packet], [on_batch]), the handshake driver ([hs_iteration]) and the close
    driver ([close_iteration]); [start] and [request_close] are the calls of the engine. Clock
    readings (milliseconds), random tokens and received datagrams are arguments; what the
    session sends, reports or passes on is the list of its effects. Locks are not poisoned: no
    code that holds one panics. *)

From stdpp Require Import prelude gmap strings.
From Stdlib Require Import ZArith Lia.
From S2P Require Import Prelude Utf8 Text Srtp RecvStream RtpSession.
Local Open Scope Z_scope.

Module AppMsg.
Inductive t : Type :=
| Syn (token : Z)
| SynAck (your mine : Z)
| Ack (your : Z)
| Fin (token : Z)
| FinAck (your mine : Z)
| FinAck2 (your : Z).

#[export] Instance t_eq_dec : EqDecision t.
Proof. solve_decision. Defined.

Definition hex16 (v : Z) : bytes := hex_fixed 16 v.
Definition encode_syn (token : Z) : bytes := lit "SYN " ++ hex16 token.
Definition encode_synack (your mine : Z) : bytes :=
  lit "SYN-ACK " ++ hex16 your ++ lit " " ++ hex16 mine.
Definition encode_ack (your : Z) : bytes := lit "ACK " ++ hex16 your.
Definition encode_fin (token : Z) : bytes := lit "FIN " ++ hex16 token.
Definition encode_finack (your mine : Z) : bytes :=
  lit "FIN-ACK " ++ hex16 your ++ lit " " ++ hex16 mine.
Definition encode_finack2 (your : Z) : bytes := lit "FIN-ACK2 " ++ hex16 your.

Definition parse_hex (t : bytes) : option Z :=
  match from_str_radix 16 u64_max t with Ok v => Some v | _ => None end.

Definition parse_app_msg (bs : bytes) : option t :=
  match split_whitespace (trim (from_utf8_lossy bs)) with
  | [] => None
  | kind :: it =>
    let first := head it ≫= parse_hex in
    let second := head (tail it) ≫= parse_hex in
    if decide (kind = lit "SYN") then Syn <$> first
    else if decide (kind = lit "SYN-ACK") then
      match first, second with Some your, Some mine => Some (SynAck your mine) | _, _ => None end
    else if decide (kind = lit "ACK") then Ack <$> first
    else if decide (kind = lit "FIN") then Fin <$> first
    else if decide (kind = lit "FIN-ACK") then
      match first, second with Some your, Some mine => Some (FinAck your mine) | _, _ => None end
    else if decide (kind = lit "FIN-ACK2") then FinAck2 <$> first
    else None
  end.

(** The encoder of a message, and the range of its fields *)
Definition encode (m : t) : bytes :=
  match m with
  | Syn token => encode_syn token
  | SynAck your mine => encode_synack your mine
  | Ack your => encode_ack your
  | Fin token => encode_fin token
  | FinAck your mine => encode_finack your mine
  | FinAck2 your => encode_finack2 your
  end.
Definition ok (m : t) : Prop :=
  match m with
  | Syn v | Ack v | Fin v | FinAck2 v => u64 v
  | SynAck v w | FinAck v w => u64 v /\ u64 w
  end.

Lemma parse_hex16 v : u64 v -> parse_hex (hex16 v) = Some v.
Proof.
  intros Hv. unfold parse_hex, hex16. rewrite parse_hex_fixed; [reflexivity | lia |..].
  - unfold u64 in Hv. simpl. lia.
  - unfold u64, u64_max in *. lia.
Qed.

Lemma parse_fields kw vs : printable kw = true ->
  split_whitespace (trim (from_utf8_lossy (join [32] (kw :: (hex16 <$> vs))))) = kw :: (hex16 <$> vs).
Proof.
  intros Hk. apply ascii_line; [discriminate |]. cbn [forallb]. rewrite Hk. simpl.
  induction vs as [| v vs IH]; [reflexivity |]. cbn [fmap list_fmap forallb].
  unfold hex16 at 1. rewrite hex_fixed_printable by lia. exact IH.
Qed.

Lemma parse_encode m : ok m -> parse_app_msg (encode m) = Some m.
Proof.
  intros H. unfold parse_app_msg.
  destruct m as [v | v w | v | v | v w | v]; simpl in H;
    [ change (encode _) with (join [32] (lit "SYN" :: (hex16 <$> [v])))
    | change (encode _) with (join [32] (lit "SYN-ACK" :: (hex16 <$> [v; w])))
    | change (encode _) with (join [32] (lit "ACK" :: (hex16 <$> [v])))
    | change (encode _) with (join [32] (lit "FIN" :: (hex16 <$> [v])))
    | change (encode _) with (join [32] (lit "FIN-ACK" :: (hex16 <$> [v; w])))
    | change (encode _) with (join [32] (lit "FIN-ACK2" :: (hex16 <$> [v]))) ];
    rewrite parse_fields by reflexivity; cbn [head tail fmap list_fmap mbind option_bind];
    rewrite ?parse_hex16 by tauto; reflexivity.
Qed.

(** Whatever the octets, the fields of a parsed message are [u64] values. *)
Lemma parse_app_msg_ok bs m : parse_app_msg bs = Some m -> ok m.
Proof.
  assert (Hp : forall t v, parse_hex t = Some v -> u64 v).
  { intros s v. unfold parse_hex. destruct (from_str_radix 16 u64_max s) eqn:E; [| discriminate..].
    intros [= <-]. apply from_str_radix_range in E; unfold u64_max in *; [unfold u64 |..]; lia. }
  unfold parse_app_msg. intros H.
  repeat (case_match; simplify_eq); simpl;
    repeat match goal with
    | E : _ <$> _ = Some _ |- _ => apply fmap_Some in E as (? & E & ->)
    | E : _ ≫= parse_hex = Some _ |- _ => apply bind_Some in E as (? & _ & E); apply Hp in E
    end; auto.
Qed.
End AppMsg.

Module SessionConfig.
Record t : Type := mk {
  handshake_timeout : Z; resend_every : Z; close_timeout : Z; close_resend_every : Z }.
End SessionConfig.

Module Session.
Import AppMsg.

(** The events a session reports to the engine *)
Inductive EngineEvent : Type :=
| EvEstablished
| EvClosing (graceful : bool)
| EvClosed
| EvError (msg : bytes).

Inductive effect : Type :=
| Send (datagram : bytes)            (* on the socket of the session *)
| Emit (e : EngineEvent)
| ToSctp (pkt : bytes)               (* SctpSession::handle_sctp_packet *)
| ToMedia (pkt : bytes)              (* the media channel of the RTP session *)
| StopRtp (rtp : RtpSession.t).      (* the RTP session, its run flag cleared *)


Record t : Type := mk {
  remote_codecs : list RtpCodec.t;
  run_flag : bool;
  established : bool;
  token_local : Z;
  token_peer : Z;
  we_initiated_close : bool;
  peer_initiated_close : bool;
  close_done : bool;
  rtp_session : option RtpSession.t;
  rtp_media_tx : bool;                (* a sender of the media channel is held *)
  hs_got_syn : bool;
  hs_sent_synack : bool }.

Definition new (codecs : list RtpCodec.t) : t :=
  mk codecs false false 0 0 false false false None false false false.

Definition set_run (s : t) (b : bool) : t :=
  mk (remote_codecs s) b (established s) (token_local s) (token_peer s) (we_initiated_close s)
     (peer_initiated_close s) (close_done s) (rtp_session s) (rtp_media_tx s) (hs_got_syn s)
     (hs_sent_synack s).
Definition set_est (s : t) (b : bool) : t :=
  mk (remote_codecs s) (run_flag s) b (token_local s) (token_peer s) (we_initiated_close s)
     (peer_initiated_close s) (close_done s) (rtp_session s) (rtp_media_tx s) (hs_got_syn s)
     (hs_sent_synack s).
Definition set_peer (s : t) (v : Z) : t :=
  mk (remote_codecs s) (run_flag s) (established s) (token_local s) v (we_initiated_close s)
     (peer_initiated_close s) (close_done s) (rtp_session s) (rtp_media_tx s) (hs_got_syn s)
     (hs_sent_synack s).
Definition set_hs (s : t) (got sent : bool) : t :=
  mk (remote_codecs s) (run_flag s) (established s) (token_local s) (token_peer s)
     (we_initiated_close s) (peer_initiated_close s) (close_done s) (rtp_session s)
     (rtp_media_tx s) got sent.
Definition set_close (s : t) (we peer done : bool) : t :=
  mk (remote_codecs s) (run_flag s) (established s) (token_local s) (token_peer s) we peer done
     (rtp_session s) (rtp_media_tx s) (hs_got_syn s) (hs_sent_synack s).
Definition set_rtp (s : t) (r : option RtpSession.t) (tx : bool) : t :=
  mk (remote_codecs s) (run_flag s) (established s) (token_local s) (token_peer s)
     (we_initiated_close s) (peer_initiated_close s) (close_done s) r tx (hs_got_syn s)
     (hs_sent_synack s).

Definition stop_rtp_session (s : t) : t * list effect :=
  (set_rtp s None false,
   match rtp_session s with Some rtp => [StopRtp (RtpSession.stop rtp)] | None => [] end).

(** [token] is the random local token; the RTP session is built from the codecs of the peer and
    the SRTP contexts. [display] is the text of an error. *)
Definition start (display : RtpSessionError -> bytes) (s : t) (token random_ssrc : Z)
    (srtp : option (SrtpContext.t * SrtpContext.t)) (e : readings) : t * list effect :=
  let s := mk (remote_codecs s) true false token 0 false false false (rtp_session s)
              (rtp_media_tx s) false false in
  let '(s, stopped) := stop_rtp_session s in
  let initial_recv := (fun codec => RtpRecvConfig.new codec None) <$> remote_codecs s in
  let '(rtp, res) := RtpSession.start (RtpSession.new initial_recv [] random_ssrc srtp e) in
  match res with
  | Err err =>
      (s, stopped ++ [Emit (EvError (lit "Failed to start RTP session: " ++ display err))])
  | _ => (set_rtp s (Some rtp) true, stopped)
  end.

(** Marks the session established; the event is sent only on a change. *)
Definition establish (s : t) : t * list effect :=
  (set_hs (set_est s true) false false,
   if established s then [] else [Emit EvEstablished]).

Definition handle_app_msg (s : t) (msg : AppMsg.t) : t * list effect :=
  match msg with
  | Syn their =>
      if established s then (s, [])
      else
        let s := set_peer s their in
        if token_local s <? their then
          (set_hs s true true, [Send (encode_synack their (token_local s))])
        else if their <? token_local s then (set_hs s true (hs_sent_synack s), [])
        else (set_hs s true true, [Send (encode_synack their (token_local s))])
  | SynAck your mine =>
      if established s then (s, [])
      else if your =? token_local s then
        let s := set_peer s mine in
        let '(s, evs) := establish s in
        (s, Send (encode_ack mine) :: evs)
      else (s, [])
  | Ack your =>
      if established s then (s, [])
      else if your =? token_local s then establish s
      else (s, [])
  | Fin their =>
      let s := set_close s (we_initiated_close s) true (close_done s) in
      let s := set_peer (set_est s false) their in
      let '(s, stopped) := stop_rtp_session s in
      (s, Send (encode_finack their (token_local s)) :: stopped)
  | FinAck your mine =>
      if your =? token_local s then (s, [Send (encode_finack2 mine)])
      else (s, [])
  | FinAck2 your =>
      if your =? token_local s then
        let s := set_est s false in
        let s := set_close s (we_initiated_close s) (peer_initiated_close s) true in
        let '(s, stopped) := stop_rtp_session s in
        (s, [Emit (EvClosing true); Emit EvClosed] ++ stopped)
      else (s, [])
  end.

(** The receiver thread on one datagram; the batch holds no empty datagram, so that [pkt[0]]
    does not panic. *)
Definition on_packet (s : t) (pkt : bytes) : outcome Empty_set (t * list effect) :=
  match pkt with
  | [] => Panic
  | first_byte :: _ =>
      Ok (if in_range 20 63 first_byte then (s, [ToSctp pkt])
          else if in_range 128 191 first_byte then
            (s, if established s && rtp_media_tx s then [ToMedia pkt] else [])
          else match parse_app_msg pkt with
               | Some msg => handle_app_msg s msg
               | None => (s, [])
               end)
  end.

(** What [recv] returns: a datagram, nothing for now, or an error with its text *)
Inductive recv : Type := Datagram (pkt : bytes) | WouldBlock | RecvFailed (e : bytes).
(** The burst drain: at most 64 results, the datagrams that are not empty, and the error that ended it *)
Fixpoint burst (n : nat) (recvs : list recv) : list bytes * option bytes :=
  match n, recvs with
  | S n, Datagram pkt :: recvs =>
      let '(batch, e) := burst n recvs in ((if bool_decide (pkt = []) then [] else [pkt]) ++ batch, e)
  | S n, RecvFailed e :: _ => ([], Some e)
  | _, _ => ([], None)
  end.
Fixpoint on_batch (s : t) (batch : list bytes) : outcome Empty_set (t * list effect) :=
  match batch with
  | [] => Ok (s, [])
  | pkt :: batch =>
      '(s, evs) ← on_packet s pkt; '(s, evs') ← on_batch s batch; Ok (s, evs ++ evs')
  end.
(** One turn of the receiver, and whether it goes on: an error ends it before the batch is handled. *)
Definition receiver_turn (s : t) (recvs : list recv) : outcome Empty_set (t * list effect * bool) :=
  if run_flag s then
    match burst 64 recvs with
    | (batch, None) => '(s, evs) ← on_batch s batch; Ok (s, evs, true)
    | (_, Some e) => Ok (s, [Emit (EvError (lit "recv error: " ++ e))], false)
    end
  else Ok (s, [], false).

(** The driver threads: the state of a driver is the instant it started and the instant of its
    last transmission. *)
Definition elapsed (now since : Z) : Z := Z.max 0 (now - since).
Record driver : Type := Driver { started_at : Z; last_tx : Z }.
Inductive iteration : Type := Continue (d : driver) | Done.

Definition hs_start (cfg : SessionConfig.t) (now : Z) : driver :=
  Driver now (now - SessionConfig.resend_every cfg).

(** One iteration of the handshake driver, at the instant [now] *)
Definition hs_iteration (cfg : SessionConfig.t) (s : t) (d : driver) (now : Z) : iteration * list effect :=
  if negb (run_flag s) || established s then (Done, [])
  else if SessionConfig.handshake_timeout cfg <=? elapsed now (started_at d) then
    (Done, [Emit (EvError (lit "handshake timeout"))])
  else if SessionConfig.resend_every cfg <=? elapsed now (last_tx d) then
    (Continue (Driver (started_at d) now),
     Send (encode_syn (token_local s)) ::
     (if hs_got_syn s && hs_sent_synack s && negb (token_peer s =? 0) then
        [Send (encode_synack (token_peer s) (token_local s)); Send (encode_ack (token_peer s))]
      else []))
  else (Continue d, []).

Definition request_close (s : t) : t * list effect :=
  stop_rtp_session (set_est (set_close s true (peer_initiated_close s) (close_done s)) false).

Definition close_start (cfg : SessionConfig.t) (now : Z) : driver :=
  Driver now (now - SessionConfig.close_resend_every cfg).

(** One iteration of the close driver; when it ends it stops the receiver. *)
Definition close_iteration (cfg : SessionConfig.t) (s : t) (d : driver) (now : Z)
  : t * iteration * list effect :=
  if negb (run_flag s) || close_done s then (set_run s false, Done, [Emit EvClosed])
  else if SessionConfig.close_timeout cfg <=? elapsed now (started_at d) then
    (set_run s false, Done, [Emit EvClosed])
  else if SessionConfig.close_resend_every cfg <=? elapsed now (last_tx d) then
    (s, Continue (Driver (started_at d) now),
     Send (encode_fin (token_local s)) ::
     (if negb (token_peer s =? 0) then [Send (encode_finack (token_peer s) (token_local s))]
      else []))
  else (s, Continue d, []).

Definition register_outbound_track (s : t) (codec : RtpCodec.t) (random_ssrc : Z) (rnd : Z * Z)
    (e : readings) : t * outcome bytes OutboundTrackHandle.t :=
  match rtp_session s with
  | None => (s, Err (lit "rtp session not running"))
  | Some rtp =>
      let '(rtp, h) := RtpSession.register_outbound_track rtp codec random_ssrc rnd e in
      (set_rtp s (Some rtp) (rtp_media_tx s), Ok h)
  end.

Definition send_rtp_chunks_for_frame (keystream : bytes -> bytes -> nat -> bytes)
    (hmac_sha1 : bytes -> bytes -> bytes) (display : RtpSessionError -> bytes) (s : t)
    (local_ssrc : Z) (chunks : list (RtpPayloadChunk.t * bool)) (ts : Z) (e : readings)
  : t * list bytes * outcome bytes unit :=
  match rtp_session s with
  | None => (s, [], Err (lit "rtp session not running"))
  | Some rtp =>
      let '(rtp, dgs, res) :=
        RtpSession.send_rtp_chunks_for_frame keystream hmac_sha1 rtp local_ssrc chunks ts e in
      (set_rtp s (Some rtp) (rtp_media_tx s), dgs, map_err display res)
  end.
End Session.

(** Handshake and close messages survive the text encoding, for every value of the tokens. *)
Theorem app_msg_roundtrip m : AppMsg.ok m -> AppMsg.parse_app_msg (AppMsg.encode m) = Some m.
Proof. apply AppMsg.parse_encode. Qed.

Lemma app_msg_roundtrip_witness :
  AppMsg.parse_app_msg (AppMsg.encode (AppMsg.SynAck 18446744073709551615 0))
  = Some (AppMsg.SynAck 18446744073709551615 0).
Proof. apply (app_msg_roundtrip (AppMsg.SynAck 18446744073709551615 0)). split; ulia. Defined.

(** Whatever octets arrive, a message that is accepted carries tokens of type [u64]. *)
Theorem parsed_tokens_are_u64 bs m : AppMsg.parse_app_msg bs = Some m -> AppMsg.ok m.
Proof. apply AppMsg.parse_app_msg_ok. Qed.

Lemma parsed_tokens_are_u64_witness : AppMsg.ok (AppMsg.Ack 255).
Proof. apply (parsed_tokens_are_u64 (lit "  ACK +fF trailing")). reflexivity. Defined.
