(* ===== verification/Handshake.v ===== *)
(** * Two sessions over a lossy network

    The sessions of two peers exchange datagrams over a network that may lose, duplicate and
    reorder them. [step] interleaves the bodies of the threads of both sessions in any order and
    at any time; the theorems are about every reachable state. *)

From stdpp Require Import prelude gmap strings.
From Stdlib Require Import ZArith Lia.
From S2P Require Import Prelude Utf8 Text Rtp Rtcp Srtp RecvStream RtpSession AppSession.
Local Open Scope Z_scope.
Import AppMsg Session.

(** ** What the sessions do *)

(** The datagrams and the events among the effects *)
Definition sent (evs : list effect) : list bytes :=
  omap (fun e => match e with Send d => Some d | _ => None end) evs.
Definition events (evs : list effect) : list EngineEvent :=
  omap (fun e => match e with Emit e => Some e | _ => None end) evs.

(** One action of a session with the datagrams [inbox] in flight towards it *)
Inductive act (s : Session.t) (inbox : list bytes) : Session.t -> list effect -> Prop :=
| act_recv pkt s' evs : pkt ∈ inbox -> on_packet s pkt = Ok (s', evs) -> act s inbox s' evs
| act_handshake cfg d now : act s inbox s (hs_iteration cfg s d now).2
| act_request_close : act s inbox (request_close s).1 (request_close s).2
| act_close cfg d now s' it evs : we_initiated_close s = true ->
    close_iteration cfg s d now = (s', it, evs) -> act s inbox s' evs.

Record sys : Type := Sys { left : Session.t; right : Session.t; to_left : list bytes; to_right : list bytes }.

Inductive step_by (A : Session.t -> list bytes -> Session.t -> list effect -> Prop) : sys -> sys -> Prop :=
| step_left a b ia ib a' evs : A a ia a' evs -> step_by A (Sys a b ia ib) (Sys a' b ia (ib ++ sent evs))
| step_right a b ia ib b' evs : A b ib b' evs -> step_by A (Sys a b ia ib) (Sys a b' (ia ++ sent evs) ib)
| step_lose a b ia ib ia' ib' : ia' ⊆ ia -> ib' ⊆ ib -> step_by A (Sys a b ia ib) (Sys a b ia' ib').
Definition step : sys -> sys -> Prop := step_by act.

(** The same without the closing threads *)
Inductive opening_act (s : Session.t) (inbox : list bytes) : Session.t -> list effect -> Prop :=
| open_recv pkt s' evs : pkt ∈ inbox -> on_packet s pkt = Ok (s', evs) -> opening_act s inbox s' evs
| open_handshake cfg d now : opening_act s inbox s (hs_iteration cfg s d now).2.
Definition opening_step : sys -> sys -> Prop := step_by opening_act.

(** A session that has just started *)
Definition fresh (token : Z) (s : Session.t) : Prop :=
  token_local s = token /\ token_peer s = 0 /\ established s = false /\ run_flag s = true /\
  we_initiated_close s = false /\ peer_initiated_close s = false /\ close_done s = false /\
  hs_got_syn s = false /\ hs_sent_synack s = false.

(** ** Agreement *)

(** Messages on the way from the session with token [src] to the one with token [dst] *)
Definition from_to (src dst : Z) (m : AppMsg.t) : Prop :=
  match m with
  | Syn t | Fin t => t = src
  | SynAck your mine | FinAck your mine => your = dst /\ mine = src
  | Ack your | FinAck2 your => your = dst
  end.
(** Messages that a session sends only when it knows the token of its peer *)
Definition echoes (m : AppMsg.t) : bool :=
  match m with SynAck _ _ | Ack _ | FinAck _ _ => true | _ => false end.

(** Session [s] with token [mine]; its peer has token [theirs] and knows [known] as the token
    of [s]; [inbox] is in flight from the peer. *)
Record side (mine theirs : Z) (s : Session.t) (known : Z) (inbox : list bytes) : Prop := {
  side_token : token_local s = mine;
  side_peer : token_peer s = 0 \/ token_peer s = theirs;
  side_inbox : Forall (fun d => exists m, d = encode m /\ from_to theirs mine m /\
                                          (echoes m = true -> known = mine)) inbox;
  side_est : established s = true -> known = mine }.

Lemma app_encode_head m : exists b r, encode m = b :: r /\ in_range 20 63 b = false /\ in_range 128 191 b = false.
Proof. destruct m; repeat eexists. Qed.

Lemma on_packet_encode s m : AppMsg.ok m -> on_packet s (encode m) = Ok (handle_app_msg s m).
Proof.
  intros Hm. destruct (app_encode_head m) as (b & r & E & H1 & H2). pose proof (parse_encode m Hm) as Hp.
  rewrite E in *. unfold on_packet. rewrite H1, H2, Hp. reflexivity.
Qed.

Lemma from_to_ok src dst m : u64 src -> u64 dst -> from_to src dst m -> AppMsg.ok m.
Proof. destruct m; simpl; intros; destruct_and?; subst; auto. Qed.

Definition outbox_ok (mine theirs : Z) (s' : Session.t) (ds : list bytes) : Prop :=
  Forall (fun d => exists m, d = encode m /\ from_to mine theirs m /\
                             (echoes m = true -> token_peer s' = theirs)) ds.

Lemma outbox_nil mine theirs s' : outbox_ok mine theirs s' [].
Proof. constructor. Qed.
Lemma outbox_cons mine theirs s' m ds : from_to mine theirs m ->
  (echoes m = true -> token_peer s' = theirs) -> outbox_ok mine theirs s' ds ->
  outbox_ok mine theirs s' (encode m :: ds).
Proof. intros H1 H2 H3. constructor; [eauto | exact H3]. Qed.

Ltac outbox :=
  repeat first
    [ apply outbox_nil
    | apply (outbox_cons _ _ _ (Syn _)) | apply (outbox_cons _ _ _ (SynAck _ _))
    | apply (outbox_cons _ _ _ (Ack _)) | apply (outbox_cons _ _ _ (Fin _))
    | apply (outbox_cons _ _ _ (FinAck _ _)) | apply (outbox_cons _ _ _ (FinAck2 _)) ];
  simpl; auto; try discriminate.

(** The step of a side: it stays consistent, and what it sends is from it to its peer. *)
Lemma handle_side mine theirs s known inbox m s' evs :
  side mine theirs s known inbox -> from_to theirs mine m -> (echoes m = true -> known = mine) ->
  handle_app_msg s m = (s', evs) ->
  side mine theirs s' known inbox /\ outbox_ok mine theirs s' (sent evs) /\
  (token_peer s = theirs -> token_peer s' = theirs).
Proof.
  intros [Ht Hp Hi He] Hm Hk H. unfold handle_app_msg, establish, stop_rtp_session in H.
  destruct m; simpl in Hm, Hk, H; repeat case_match; destruct_and?; simplify_eq; simpl.
  all: split; [split; simpl; auto; try discriminate; try (intuition congruence) |].
  all: split; [outbox | try first [reflexivity | auto]].
Qed.

Lemma act_side mine theirs s known inbox s' evs : u64 mine -> u64 theirs ->
  side mine theirs s known inbox -> act s inbox s' evs ->
  side mine theirs s' known inbox /\ outbox_ok mine theirs s' (sent evs) /\
  (token_peer s = theirs -> token_peer s' = theirs).
Proof.
  intros Hu1 Hu2 Hs [pkt s1 evs1 Hin H | cfg d now | | cfg d now s1 it evs1 _ H].
  - destruct (side_inbox _ _ _ _ _ Hs) as [| ]; [inversion Hin |].
    destruct (proj1 (Forall_forall _ _) (side_inbox _ _ _ _ _ Hs) pkt Hin) as (m & -> & Hm & Hk).
    rewrite on_packet_encode in H by (eapply from_to_ok; [exact Hu2 | exact Hu1 | exact Hm]).
    destruct (handle_app_msg s m) as [s2 evs2] eqn:E. simplify_eq.
    eapply handle_side; eassumption.
  - split; [exact Hs |]. split; [| auto]. destruct Hs as [Ht Hp _ _]. unfold hs_iteration.
    destruct (Z.eqb_spec (token_peer s) 0) as [| Hne]; rewrite ?andb_false_r;
      repeat case_match; simpl; outbox; destruct Hp; (contradiction || auto).
  - destruct Hs as [Ht Hp Hi He]. unfold request_close, stop_rtp_session. simpl.
    split; [split; simpl; auto; discriminate |]. split; [| auto].
    destruct (rtp_session s); outbox.
  - destruct Hs as [Ht Hp Hi He]. unfold close_iteration in H.
    destruct (Z.eqb_spec (token_peer s) 0) as [| Hne];
    repeat case_match; simplify_eq; simpl; (split; [split; simpl; auto |]); (split; [| auto]);
      simpl; outbox; destruct Hp; (contradiction || auto).
Qed.

(** Both sides of a system *)
Definition agree (ta tb : Z) (x : sys) : Prop :=
  side ta tb (left x) (token_peer (right x)) (to_left x) /\
  side tb ta (right x) (token_peer (left x)) (to_right x).

(** New datagrams, and what the peer has learned meanwhile *)
Lemma side_peer_acts mine theirs s known known' inbox ds :
  side mine theirs s known inbox -> (known = mine -> known' = mine) ->
  Forall (fun d => exists m, d = encode m /\ from_to theirs mine m /\
                             (echoes m = true -> known' = mine)) ds ->
  side mine theirs s known' (inbox ++ ds).
Proof.
  intros [Ht Hp Hi He] Hk Hd. split; auto. apply Forall_app. split; [| exact Hd].
  eapply Forall_impl; [exact Hi |]. intros d (m & E & Hf & He'). eauto 6.
Qed.

Lemma side_lose mine theirs s known inbox inbox' :
  side mine theirs s known inbox -> inbox' ⊆ inbox -> side mine theirs s known inbox'.
Proof.
  intros [Ht Hp Hi He] Hsub. split; auto. rewrite Forall_forall in *. auto.
Qed.

Lemma step_agree ta tb x y : u64 ta -> u64 tb -> step x y -> agree ta tb x -> agree ta tb y.
Proof.
  intros Hua Hub H [Ha Hb].
  destruct H as [a b ia ib a' evs H | a b ia ib b' evs H | a b ia ib ia' ib' H1 H2]; simpl in *.
  - destruct (act_side _ _ _ _ _ _ _ Hua Hub Ha H) as (Ha' & Ho & Hk).
    split; [exact Ha' |]. eapply side_peer_acts; eassumption.
  - destruct (act_side _ _ _ _ _ _ _ Hub Hua Hb H) as (Hb' & Ho & Hk).
    split; [| exact Hb']. eapply side_peer_acts; eassumption.
  - split; eapply side_lose; eassumption.
Qed.

Lemma fresh_agree ta tb a b : fresh ta a -> fresh tb b -> agree ta tb (Sys a b [] []).
Proof.
  intros (Ha & Hpa & Hea & _) (Hb & Hpb & Heb & _).
  split; split; simpl; auto; intros; congruence.
Qed.

Lemma reachable_agree ta tb a b x : u64 ta -> u64 tb -> fresh ta a -> fresh tb b ->
  rtc step (Sys a b [] []) x -> agree ta tb x.
Proof.
  intros Hua Hub Ha Hb H.
  assert (Hi : agree ta tb (Sys a b [] [])) by (apply fresh_agree; assumption).
  induction H as [| x y z Hxy _ IH]; [exact Hi |]. eapply IH, step_agree; eassumption.
Qed.

(** C6 In every state two sessions reach over a network that loses, repeats and reorders their
    datagrams (but makes up none), also while they close: a session never takes a token for its
    peer's that is not, and a session that is established is known to its peer by its token, so that
    the peer has received one of its datagrams. The converse does not hold: see
    [ack_establishes_unknowing]. *)
Theorem handshake_agreement ta tb a b x :
  u64 ta -> u64 tb -> fresh ta a -> fresh tb b -> rtc step (Sys a b [] []) x ->
  (token_peer (left x) = 0 \/ token_peer (left x) = tb) /\
  (token_peer (right x) = 0 \/ token_peer (right x) = ta) /\
  (established (left x) = true -> token_peer (right x) = ta) /\
  (established (right x) = true -> token_peer (left x) = tb).
Proof.
  intros Hua Hub Ha Hb H. destruct (reachable_agree _ _ _ _ _ Hua Hub Ha Hb H) as [[] []]. auto.
Qed.

(** ** Progress *)
Lemma start_fresh display s token ssrc srtp e : fresh token (start display s token ssrc srtp e).1.
Proof. unfold start. simpl. destruct (RtpSession.rx_media _); repeat split. Qed.

(** The messages of a batch, in order *)
Fixpoint handle_all (s : Session.t) (ms : list AppMsg.t) : Session.t * list effect :=
  match ms with
  | [] => (s, [])
  | m :: ms => let '(s, evs) := handle_app_msg s m in
               let '(s, evs') := handle_all s ms in (s, evs ++ evs')
  end.

Lemma on_batch_encode s ms : Forall AppMsg.ok ms ->
  on_batch s (encode <$> ms) = Ok (handle_all s ms).
Proof.
  intros H. revert s. induction H as [| m ms Hm _ IH]; intros s; [reflexivity |].
  cbn [fmap list_fmap on_batch handle_all]. rewrite on_packet_encode by exact Hm.
  destruct (handle_app_msg s m) as [s1 e1]. simpl. rewrite IH.
  destruct (handle_all s1 ms) as [s2 e2]. reflexivity.
Qed.

(** One delivery: every datagram in flight reaches its receiver, in order; the answers are in flight. *)
Definition round (x : sys) : outcome Empty_set sys :=
  '(a, ea) ← on_batch (left x) (to_left x);
  '(b, eb) ← on_batch (right x) (to_right x);
  Ok (Sys a b (sent eb) (sent ea)).

Lemma round_encode ma mb a b ia ib : ia = encode <$> ma -> ib = encode <$> mb ->
  Forall AppMsg.ok ma -> Forall AppMsg.ok mb ->
  round (Sys a b ia ib) =
  Ok (Sys (handle_all a ma).1 (handle_all b mb).1
          (sent (handle_all b mb).2) (sent (handle_all a ma).2)).
Proof.
  intros -> -> Ha Hb. unfold round. simpl. rewrite !on_batch_encode by assumption. simpl.
  destruct (handle_all a ma), (handle_all b mb). reflexivity.
Qed.

Lemma hs_first_syn cfg s now : run_flag s = true -> established s = false ->
  hs_got_syn s = false -> 0 < SessionConfig.handshake_timeout cfg -> 0 <= SessionConfig.resend_every cfg ->
  sent (hs_iteration cfg s (hs_start cfg now) now).2 = [encode (Syn (token_local s))].
Proof.
  intros Hr He Hg Ht Hs. unfold hs_iteration, hs_start, elapsed. rewrite Hr, He, Hg. simpl.
  case_test; [lia |]. case_test; [reflexivity | lia].
Qed.

Ltac ok_msgs := repeat (constructor; simpl; auto).

(** C21 If no datagram is lost, the handshake completes: two sessions that have just started each send
    their SYN; delivering these, then the answers to them and then the answers to those, three
    deliveries in all, leaves both established, for every pair of tokens (the greater wins; equal ones
    as well), and each knows the other's. *)
Theorem handshake_completes ta tb a b cfg now :
  u64 ta -> u64 tb -> fresh ta a -> fresh tb b ->
  0 < SessionConfig.handshake_timeout cfg -> 0 <= SessionConfig.resend_every cfg ->
  exists y,
    (y1 ← round (Sys a b (sent (hs_iteration cfg b (hs_start cfg now) now).2)
                         (sent (hs_iteration cfg a (hs_start cfg now) now).2));
     y2 ← round y1; round y2) = Ok y /\
    established (left y) = true /\ established (right y) = true /\
    token_peer (left y) = tb /\ token_peer (right y) = ta.
Proof.
  intros Hua Hub (Ha & Hpa & Hea & Hra & _ & _ & _ & Hga & Hsa) (Hb & Hpb & Heb & Hrb & _ & _ & _ & Hgb & Hsb) Ht Hs.
  rewrite !hs_first_syn by assumption. rewrite Ha, Hb.
  rewrite (round_encode [Syn tb] [Syn ta]) by (reflexivity || ok_msgs).
  cbn [handle_all handle_app_msg]. rewrite Hea, Heb. simpl. rewrite Ha, Hb.
  destruct (Z.lt_trichotomy ta tb) as [H | [<- | H]].
  - rewrite (proj2 (Z.ltb_lt ta tb) H), (proj2 (Z.ltb_ge tb ta)) by lia. simpl.
    rewrite (round_encode [] [SynAck tb ta]) by (reflexivity || ok_msgs). simpl. rewrite Hb, Z.eqb_refl, Heb. simpl.
    rewrite (round_encode [Ack ta] []) by (reflexivity || ok_msgs). simpl. rewrite Hea, Ha, Z.eqb_refl. simpl.
    eexists. split; [reflexivity |]. simpl. auto.
  - rewrite Z.ltb_irrefl. simpl.
    rewrite (round_encode [SynAck ta ta] [SynAck ta ta]) by (reflexivity || ok_msgs). simpl.
    rewrite Hea, Heb, Ha, Hb, Z.eqb_refl. simpl.
    rewrite (round_encode [Ack ta] [Ack ta]) by (reflexivity || ok_msgs). simpl.
    eexists. split; [reflexivity |]. simpl. auto.
  - rewrite (proj2 (Z.ltb_lt tb ta) H), (proj2 (Z.ltb_ge ta tb)) by lia. simpl.
    rewrite (round_encode [SynAck ta tb] []) by (reflexivity || ok_msgs). simpl. rewrite Ha, Z.eqb_refl, Hea. simpl.
    rewrite (round_encode [] [Ack tb]) by (reflexivity || ok_msgs). simpl. rewrite Heb, Hb, Z.eqb_refl. simpl.
    eexists. split; [reflexivity |]. simpl. auto.
Qed.

(** ** The end of a handshake *)
Definition opening (m : AppMsg.t) : bool :=
  match m with Syn _ | SynAck _ _ | Ack _ => true | _ => false end.

#[export] Instance EngineEvent_eq_dec : EqDecision EngineEvent.
Proof. solve_decision. Defined.
Definition times_established (evs : list effect) : nat :=
  length (filter (fun e => e = EvEstablished) (events evs)).

Lemma times_established_app e1 e2 :
  times_established (e1 ++ e2) = (times_established e1 + times_established e2)%nat.
Proof. unfold times_established, events. rewrite omap_app, filter_app, length_app. reflexivity. Qed.

Lemma opening_ignored s m : established s = true -> opening m = true -> handle_app_msg s m = (s, []).
Proof. intros Hs Hm. unfold handle_app_msg. destruct m; try discriminate; rewrite Hs; reflexivity. Qed.

Lemma openings_ignored s ms : established s = true -> forallb opening ms = true ->
  handle_all s ms = (s, []).
Proof.
  intros Hs. induction ms as [| m ms IH]; [reflexivity |]. cbn [forallb handle_all].
  intros [Hm Hms]%andb_prop. rewrite opening_ignored, IH by assumption. reflexivity.
Qed.

Lemma opening_reported s m s' evs : established s = false -> opening m = true ->
  handle_app_msg s m = (s', evs) -> times_established evs = (if established s' then 1 else 0)%nat.
Proof.
  intros Hs Hm H. unfold handle_app_msg, establish in H.
  destruct m; try discriminate Hm; rewrite Hs in H; simpl in H; rewrite ?Hs in H;
    repeat case_match; simplify_eq; simpl in *; congruence || reflexivity.
Qed.

(** Until a close begins, the engine hears of the connection at most once: over any sequence
    of handshake messages, duplicates included, a session reports [Established] once if it
    ends up established and never otherwise. *)
Theorem established_reported_once s ms s' evs :
  established s = false -> forallb opening ms = true -> handle_all s ms = (s', evs) ->
  times_established evs = (if established s' then 1 else 0)%nat.
Proof.
  revert s evs. induction ms as [| m ms IH]; intros s evs Hs Hms H; cbn [handle_all forallb] in *.
  - simplify_eq. rewrite Hs. reflexivity.
  - apply andb_prop in Hms as [Hm Hms].
    destruct (handle_app_msg s m) as [s1 e1] eqn:E1. destruct (handle_all s1 ms) as [s2 e2] eqn:E2.
    simplify_eq. rewrite times_established_app, (opening_reported _ _ _ _ Hs Hm E1).
    destruct (established s1) eqn:Es1.
    + rewrite openings_ignored in E2 by assumption. simplify_eq. rewrite Es1. reflexivity.
    + rewrite (IH _ _ Es1 Hms E2). reflexivity.
Qed.

(** A close does not end the handshake for good: a session that has handled a [Fin] still
    answers a late copy of the [SynAck] (or [Ack]) that established it, reports the connection
    a second time, and is established again, with its RTP session gone. *)
Theorem late_synack_reestablishes s mine s1 e1 s2 e2 s3 e3 :
  established s = false ->
  handle_app_msg s (SynAck (token_local s) mine) = (s1, e1) ->
  handle_app_msg s1 (Fin mine) = (s2, e2) ->
  handle_app_msg s2 (SynAck (token_local s) mine) = (s3, e3) ->
  established s2 = false /\ peer_initiated_close s3 = true /\ established s3 = true /\
  rtp_session s3 = None /\ times_established (e1 ++ e2 ++ e3) = 2%nat.
Proof.
  intros Hs H1 H2 H3. unfold handle_app_msg, establish, stop_rtp_session in *.
  rewrite Hs in H1. simpl in H1. rewrite Z.eqb_refl, Hs in H1. simplify_eq. simpl in *.
  rewrite Z.eqb_refl in H3. simplify_eq. simpl.
  destruct (rtp_session s); repeat split; reflexivity.
Qed.

(** *** A lost final [Ack]

    The winner of the handshake is established and ignores everything the handshake sends it;
    the other side waits for an answer that never comes. *)
Definition carries (P : AppMsg.t -> Prop) (ds : list bytes) : Prop :=
  Forall (fun d => exists m, d = encode m /\ AppMsg.ok m /\ P m) ds.
Definition is_syn (m : AppMsg.t) : bool := match m with Syn _ => true | _ => false end.

Record stranded (x : sys) : Prop := {
  str_left : established (left x) = true;
  str_right : established (right x) = false;
  str_tokens : u64 (token_local (right x)) /\ u64 (token_peer (right x));
  str_to_left : carries (fun m => opening m = true) (to_left x);
  str_to_right : carries (fun m => is_syn m = true) (to_right x) }.

Lemma carries_app P d1 d2 : carries P d1 -> carries P d2 -> carries P (d1 ++ d2).
Proof. intros. apply Forall_app. auto. Qed.
Lemma carries_incl P d1 d2 : carries P d1 -> d2 ⊆ d1 -> carries P d2.
Proof. unfold carries. rewrite !Forall_forall. auto. Qed.
Lemma carries_cons (P : AppMsg.t -> Prop) m ds : AppMsg.ok m -> P m -> carries P ds -> carries P (encode m :: ds).
Proof. intros. constructor; eauto. Qed.

Lemma opening_act_established s inbox s' evs : established s = true ->
  carries (fun m => opening m = true) inbox -> opening_act s inbox s' evs -> s' = s /\ evs = [].
Proof.
  intros Hs Hi [pkt s1 e1 Hin H | cfg d now].
  - destruct (proj1 (Forall_forall _ _) Hi pkt Hin) as (m & -> & Hok & Hm).
    rewrite on_packet_encode, opening_ignored in H by assumption. simplify_eq. auto.
  - unfold hs_iteration. rewrite Hs, orb_true_r. auto.
Qed.

Lemma opening_act_waiting s inbox s' evs : established s = false ->
  u64 (token_local s) -> u64 (token_peer s) ->
  carries (fun m => is_syn m = true) inbox -> opening_act s inbox s' evs ->
  established s' = false /\ token_local s' = token_local s /\ u64 (token_peer s') /\
  carries (fun m => opening m = true) (sent evs).
Proof.
  intros Hs Ht Hp Hi [pkt s1 e1 Hin H | cfg d now].
  - destruct (proj1 (Forall_forall _ _) Hi pkt Hin) as (m & -> & Hok & Hm).
    rewrite on_packet_encode in H by assumption. destruct m as [their | | | | |]; try discriminate Hm.
    simpl in Hok, H. rewrite Hs in H. simpl in H. repeat case_match; simplify_eq; simpl;
      repeat split; auto; try apply Hok;
      try (apply (carries_cons _ (SynAck _ _)); [split | |]; auto); constructor.
  - repeat split; auto; try apply Hp. unfold hs_iteration. repeat case_match; simpl; try constructor.
    all: try (exists (Syn (token_local s)); simpl; auto; fail).
    all: try (apply (carries_cons _ (SynAck _ _)); [split | reflexivity |]; auto;
              apply (carries_cons _ (Ack _)); auto).
    all: constructor.
Qed.

Lemma stranded_step x y : stranded x -> opening_step x y -> stranded y.
Proof.
  intros [Ha Hb [Ht Hp] Hl Hr] H.
  destruct H as [a b ia ib a' evs H | a b ia ib b' evs H | a b ia ib ia' ib' H1 H2]; simpl in *.
  - destruct (opening_act_established _ _ _ _ Ha Hl H) as [-> ->]. simpl.
    rewrite app_nil_r. split; auto.
  - destruct (opening_act_waiting _ _ _ _ Hb Ht Hp Hr H) as (He & Htl & Htp & Hs).
    split; simpl; auto; [rewrite Htl; auto | apply carries_app; assumption].
  - split; simpl; auto; eapply carries_incl; eassumption.
Qed.

Lemma stranded_steps x y : stranded x -> rtc opening_step x y -> stranded y.
Proof. intros Hx H. induction H as [| x y z Hxy _ IH]; eauto using stranded_step. Qed.

(** One lost datagram can leave the two sides apart for good: whenever the left token is the
    greater, losing the [Ack] that answers the [SynAck] leads to a state in which the left side
    is established and, whatever the handshake threads and the network do from then on, the
    right side never is (until its handshake times out). *)
Theorem lost_ack_strands_peer ta tb a b :
  u64 ta -> u64 tb -> tb < ta -> fresh ta a -> fresh tb b ->
  exists x, rtc opening_step (Sys a b [] []) x /\
    forall y, rtc opening_step x y -> established (left y) = true /\ established (right y) = false.
Proof.
  intros Hua Hub Hlt (Ha & Hpa & Hea & Hra & _ & _ & _ & Hga & Hsa) (Hb & Hpb & Heb & _).
  pose (cfg := SessionConfig.mk 1 0 0 0).
  assert (S1 : opening_step (Sys a b [] []) (Sys a b [] [encode (Syn ta)])).
  { rewrite <- Ha, <- (hs_first_syn cfg a 0) by (assumption || (simpl; lia)).
    apply (step_left _ a b [] []), open_handshake. }
  set (b1 := set_hs (set_peer b ta) true true).
  assert (S2 : opening_step (Sys a b [] [encode (Syn ta)]) (Sys a b1 [encode (SynAck ta tb)] [encode (Syn ta)])).
  { apply (step_right _ a b [] [encode (Syn ta)] b1 [Send (encode_synack ta tb)]).
    apply (open_recv _ _ (encode (Syn ta))); [apply list_elem_of_here |].
    rewrite on_packet_encode by exact Hua. simpl. rewrite Heb, Hb.
    rewrite (proj2 (Z.ltb_lt tb ta) Hlt). reflexivity. }
  set (a1 := set_hs (set_est (set_peer a tb) true) false false).
  assert (S3 : opening_step (Sys a b1 [encode (SynAck ta tb)] [encode (Syn ta)])
                 (Sys a1 b1 [encode (SynAck ta tb)] [encode (Syn ta); encode (Ack tb)])).
  { apply (step_left _ a b1 [encode (SynAck ta tb)] [encode (Syn ta)] a1 [Send (encode_ack tb); Emit EvEstablished]).
    apply (open_recv _ _ (encode (SynAck ta tb))); [apply list_elem_of_here |].
    rewrite on_packet_encode by (split; assumption). simpl. rewrite Hea, Ha, Z.eqb_refl.
    unfold establish. simpl. rewrite ?Hea. reflexivity. }
  assert (S4 : opening_step (Sys a1 b1 [encode (SynAck ta tb)] [encode (Syn ta); encode (Ack tb)])
                 (Sys a1 b1 [encode (SynAck ta tb)] [encode (Syn ta)])).
  { apply step_lose; set_solver. }
  exists (Sys a1 b1 [encode (SynAck ta tb)] [encode (Syn ta)]). split.
  { eapply rtc_l; [exact S1 |]. eapply rtc_l; [exact S2 |]. eapply rtc_l; [exact S3 |].
    apply rtc_once, S4. }
  assert (H0 : stranded (Sys a1 b1 [encode (SynAck ta tb)] [encode (Syn ta)])).
  { split; simpl; [reflexivity | exact Heb | rewrite Hb; auto | |].
    - apply (carries_cons _ (SynAck ta tb)); [split; assumption | reflexivity | constructor].
    - apply (carries_cons _ (Syn ta)); [assumption | reflexivity | constructor]. }
  intros y Hy. destruct (stranded_steps _ _ H0 Hy). auto.
Qed.

(** ** Closing *)

(** A graceful close completes: when both sides know each other's token, one iteration of the
    close driver at the closing side and three rounds of deliveries set [close_done] at both
    ends; both engines hear [Closing] and [Closed], and the next iteration of the driver stops
    the receiver of the closing side (and reports [Closed] again). The receiver of the other
    side is never stopped. *)
Theorem close_completes ta tb a b cfg now :
  u64 ta -> u64 tb -> ta <> 0 -> tb <> 0 ->
  token_local a = ta -> token_peer a = tb -> token_local b = tb -> token_peer b = ta ->
  run_flag a = true -> run_flag b = true -> close_done a = false -> close_done b = false ->
  0 < SessionConfig.close_timeout cfg -> 0 <= SessionConfig.close_resend_every cfg ->
  let a0 := (request_close a).1 in
  let '(a1, _, evs) := close_iteration cfg a0 (close_start cfg now) now in
  exists y,
    (y1 ← round (Sys a1 b [] (sent evs)); y2 ← round y1; round y2) = Ok y /\
    close_done (left y) = true /\ close_done (right y) = true /\
    established (left y) = false /\ established (right y) = false /\
    (forall d now', close_iteration cfg (left y) d now' = (set_run (left y) false, Done, [Emit EvClosed])) /\
    run_flag (right y) = true.
Proof.
  intros Hua Hub Hza Hzb Hla Hpa Hlb Hpb Hra Hrb Hda Hdb Ht Hr. cbv zeta.
  unfold close_iteration at 1, close_start, elapsed, request_close, stop_rtp_session. simpl.
  rewrite Hra, Hda. simpl. case_test; [lia |]. case_test; [| lia].
  rewrite Hpa, Hla. rewrite (proj2 (Z.eqb_neq tb 0) Hzb). simpl.
  rewrite (round_encode [] [Fin ta; FinAck tb ta]) by (reflexivity || ok_msgs).
  simpl. rewrite Hlb, Z.eqb_refl. simpl.
  assert (Hs : sent (Send (encode_finack ta tb) ::
                 match rtp_session b with Some rtp => [StopRtp (RtpSession.stop rtp)] | None => [] end
                 ++ [Send (encode_finack2 ta)]) = encode <$> [FinAck ta tb; FinAck2 ta])
    by (destruct (rtp_session b); reflexivity).
  rewrite (round_encode [FinAck ta tb; FinAck2 ta] []) by (exact Hs || reflexivity || ok_msgs).
  simpl. rewrite Hla, Z.eqb_refl. simpl. rewrite Hla, Z.eqb_refl. simpl.
  rewrite (round_encode [] [FinAck2 tb]) by (reflexivity || ok_msgs).
  simpl. rewrite Hlb, Z.eqb_refl. simpl.
  eexists. split; [reflexivity |]. simpl. repeat split; auto.
  intros d now'. unfold close_iteration. simpl. rewrite orb_true_r. reflexivity.
Qed.

(** ** Demultiplexing *)
Lemma burst_not_empty n recvs : Forall (fun pkt => pkt <> []) (burst n recvs).1.
Proof.
  revert recvs. induction n as [| n IH]; intros recvs; [constructor |].
  destruct recvs as [| [pkt | | e] recvs]; cbn [burst]; try constructor.
  specialize (IH recvs). destruct (burst n recvs) as [batch e]. cbn in *. case_bool_decide; [exact IH | constructor; assumption].
Qed.

Lemma on_batch_no_panic s batch : Forall (fun pkt => pkt <> []) batch -> no_panic (on_batch s batch).
Proof.
  intros H. revert s. induction H as [| pkt batch Hp _ IH]; intros s; [discriminate |].
  cbn [on_batch]. destruct pkt as [| b r]; [congruence |]. unfold on_packet.
  set (r1 := if in_range 20 63 b then _ else _). destruct r1 as [s1 e1]. simpl.
  specialize (IH s1). destruct (on_batch s1 batch) as [[s2 e2] | |]; simpl; congruence.
Qed.

(** Whatever the socket returns, a turn of the receiver does not panic. *)
Theorem receiver_turn_no_panic s recvs : no_panic (receiver_turn s recvs).
Proof.
  unfold receiver_turn. case_test; [| discriminate]. pose proof (burst_not_empty 64 recvs) as Hb.
  destruct (burst 64 recvs) as [batch [e |]]; [discriminate |]. apply (on_batch_no_panic s) in Hb. cbn in Hb.
  destruct (on_batch s batch) as [[] | |]; cbn; congruence.
Qed.

(** An error of the socket, such as the refusal that a connected socket reports when the peer's port is
    closed, ends the receiver for good: the datagrams of the burst are lost, and the session stays
    established and running. *)
Lemma failed_recv_deafens s pkts e : run_flag s = true -> (length pkts < 64)%nat ->
  receiver_turn s ((Datagram <$> pkts) ++ [RecvFailed e]) = Ok (s, [Emit (EvError (lit "recv error: " ++ e))], false).
Proof.
  intros Hr Hl. unfold receiver_turn. rewrite Hr.
  assert (Hb : forall k, (length pkts < k)%nat -> exists batch, burst k ((Datagram <$> pkts) ++ [RecvFailed e]) = (batch, Some e)).
  { clear. induction pkts as [| p pkts IH]; intros [| k] Hk; cbn in Hk; try lia; [eexists; reflexivity |].
    destruct (IH k) as [batch Hb]; [lia |]. cbn [fmap list_fmap app burst]. rewrite Hb. eauto. }
  destruct (Hb 64%nat Hl) as [batch ->]. reflexivity.
Qed.

Lemma on_packet_version2 s b r : Z.shiftr b 6 = 2 ->
  on_packet s (b :: r) = Ok (s, if established s && rtp_media_tx s then [ToMedia (b :: r)] else []).
Proof.
  intros Hb. rewrite Z.shiftr_div_pow2 in Hb by lia. change (2 ^ 6) with 64 in Hb.
  assert (in_range 20 63 b = false) as E1 by (unfold in_range; elia).
  assert (in_range 128 191 b = true) as E2 by (apply in_range_spec; elia).
  unfold on_packet. rewrite E1, E2. reflexivity.
Qed.

(** The first octet tells the three protocols of the socket apart: an encoded handshake
    message reaches the handshake, an encoded RTP packet and an RTCP compound reach the media
    channel (once the session is established), a DTLS record reaches the data channel. *)
Theorem session_demultiplexing s :
  (forall m, AppMsg.ok m -> on_packet s (encode m) = Ok (handle_app_msg s m)) /\
  (forall p bs, RtpPacket.wire_ok p -> RtpPacket.encode p = Ok bs ->
     on_packet s bs = Ok (s, if established s && rtp_media_tx s then [ToMedia bs] else [])) /\
  (forall bs pkts, decode_compound bs = Ok pkts ->
     on_packet s bs = Ok (s, if established s && rtp_media_tx s then [ToMedia bs] else [])) /\
  (forall ct r, 20 <= ct <= 63 -> on_packet s (ct :: r) = Ok (s, [ToSctp (ct :: r)])).
Proof.
  split; [| split; [| split]].
  - intros m. apply on_packet_encode.
  - intros p bs Hp He. destruct (encode_head p bs Hp He) as (a & rest & -> & _ & _ & Ha).
    apply on_packet_version2, Ha.
  - intros bs pkts Hd. apply is_rtcp_compound in Hd. unfold is_rtcp in Hd.
    case_test_in Hd; [discriminate |]. destruct bs as [| a [| b rest]]; try discriminate.
    destruct (Z.eqb_spec (Z.shiftr a 6) 2) as [Ha |]; [| discriminate].
    apply on_packet_version2, Ha.
  - intros ct r Hc. unfold on_packet. rewrite (proj2 (in_range_spec 20 63 ct) Hc). reflexivity.
Qed.

(** ** Concrete runs *)
Definition started (token : Z) : Session.t :=
  Session.mk [] true false token 0 false false false None false false false.
Definition default_cfg : SessionConfig.t := SessionConfig.mk 5000 250 5000 250.

(** The greater token waits, the other answers its SYN, and the SYN-ACK establishes the greater. *)
Lemma handshake_agreement_witness :
  exists x, rtc step (Sys (started 9) (started 7) [] []) x /\ established (left x) = true /\ established (right x) = false /\ token_peer (right x) = 9.
Proof.
  assert (S1 : step (Sys (started 9) (started 7) [] []) (Sys (started 9) (started 7) [] [encode (Syn 9)])).
  { apply (step_left _ _ _ [] [] _ (hs_iteration default_cfg (started 9) (hs_start default_cfg 0) 0).2), act_handshake. }
  assert (S2 : exists b, step (Sys (started 9) (started 7) [] [encode (Syn 9)])
                              (Sys (started 9) b [encode (SynAck 9 7)] [encode (Syn 9)]) /\ established b = false).
  { eexists. split; [eapply (step_right _ _ _ [] _ _ [Send (encode (SynAck 9 7))]), (act_recv _ _ (encode (Syn 9))) |];
      [apply list_elem_of_here | reflexivity | reflexivity]. }
  destruct S2 as (b & S2 & Hb).
  assert (S3 : exists a, step (Sys (started 9) b [encode (SynAck 9 7)] [encode (Syn 9)])
                              (Sys a b [encode (SynAck 9 7)] [encode (Syn 9); encode (Ack 7)]) /\ established a = true).
  { eexists. split; [eapply (step_left _ _ _ _ [encode (Syn 9)] _ [Send (encode (Ack 7)); Emit EvEstablished]), (act_recv _ _ (encode (SynAck 9 7))) |];
      [apply list_elem_of_here | reflexivity | reflexivity]. }
  destruct S3 as (a & S3 & Ha).
  assert (H : rtc step (Sys (started 9) (started 7) [] []) (Sys a b [encode (SynAck 9 7)] [encode (Syn 9); encode (Ack 7)])).
  { eapply rtc_l; [exact S1 |]. eapply rtc_l; [exact S2 |]. apply rtc_once, S3. }
  exists (Sys a b [encode (SynAck 9 7)] [encode (Syn 9); encode (Ack 7)]). cbn [left right].
  split; [exact H |]. split; [exact Ha |]. split; [exact Hb |].
  apply (handshake_agreement 9 7 (started 9) (started 7) _ ltac:(ulia) ltac:(ulia)
           ltac:(repeat split) ltac:(repeat split) H). exact Ha.
Defined.

(** An ACK that overtakes the SYN-ACK sent with it establishes a session that does not know the token of
    its peer. *)
Lemma ack_establishes_unknowing :
  exists x, rtc step (Sys (started 9) (started 7) [] []) x /\ established (left x) = true /\ token_peer (left x) = 0.
Proof.
  set (b := set_hs (set_peer (started 7) 9) true true).
  assert (S1 : step (Sys (started 9) (started 7) [] []) (Sys (started 9) (started 7) [] [encode (Syn 9)])).
  { apply (step_left _ _ _ [] [] _ (hs_iteration default_cfg (started 9) (hs_start default_cfg 0) 0).2), act_handshake. }
  assert (S2 : step (Sys (started 9) (started 7) [] [encode (Syn 9)]) (Sys (started 9) b [encode (SynAck 9 7)] [encode (Syn 9)])).
  { apply (step_right _ _ _ [] _ _ [Send (encode (SynAck 9 7))]), (act_recv _ _ (encode (Syn 9)));
      [apply list_elem_of_here | reflexivity]. }
  assert (S3 : step (Sys (started 9) b [encode (SynAck 9 7)] [encode (Syn 9)])
                    (Sys (started 9) b [encode (SynAck 9 7); encode (Syn 7); encode (SynAck 9 7); encode (Ack 9)] [encode (Syn 9)])).
  { apply (step_right _ _ _ [encode (SynAck 9 7)] _ _ (hs_iteration default_cfg b (hs_start default_cfg 0) 0).2), act_handshake. }
  set (ia := [encode (SynAck 9 7); encode (Syn 7); encode (SynAck 9 7); encode (Ack 9)]) in *.
  set (a := (handle_app_msg (started 9) (Ack 9)).1).
  assert (S4 : step (Sys (started 9) b ia [encode (Syn 9)]) (Sys a b ia [encode (Syn 9)])).
  { apply (step_left _ (started 9) b ia [encode (Syn 9)] a [Emit EvEstablished]), (act_recv _ _ (encode (Ack 9))); [| reflexivity].
    do 3 right. left. }
  exists (Sys a b ia [encode (Syn 9)]). split; [| split; reflexivity].
  eapply rtc_l; [exact S1 |]. eapply rtc_l; [exact S2 |]. eapply rtc_l; [exact S3 | apply rtc_once, S4].
Qed.

Lemma handshake_completes_witness : exists y,
  (y1 ← round (Sys (started 7) (started 9)
                 (sent (hs_iteration default_cfg (started 9) (hs_start default_cfg 0) 0).2)
                 (sent (hs_iteration default_cfg (started 7) (hs_start default_cfg 0) 0).2));
   y2 ← round y1; round y2) = Ok y /\
  established (left y) = true /\ established (right y) = true /\
  token_peer (left y) = 9 /\ token_peer (right y) = 7.
Proof.
  apply (handshake_completes 7 9 (started 7) (started 9) default_cfg 0 ltac:(ulia) ltac:(ulia)
           ltac:(repeat split) ltac:(repeat split)); simpl; lia.
Defined.

Definition opened_twice : Session.t * list effect := handle_all (started 7) [SynAck 7 9; SynAck 7 9; Ack 7].
Lemma established_reported_once_witness :
  times_established opened_twice.2 = (if established opened_twice.1 then 1 else 0)%nat.
Proof.
  apply (established_reported_once (started 7) [SynAck 7 9; SynAck 7 9; Ack 7]); reflexivity.
Defined.

Definition reopened1 := handle_app_msg (started 7) (SynAck 7 9).
Definition reopened2 := handle_app_msg reopened1.1 (Fin 9).
Definition reopened3 := handle_app_msg reopened2.1 (SynAck 7 9).
Lemma late_synack_reestablishes_witness :
  established reopened2.1 = false /\ peer_initiated_close reopened3.1 = true /\
  established reopened3.1 = true /\ rtp_session reopened3.1 = None /\
  times_established (reopened1.2 ++ reopened2.2 ++ reopened3.2) = 2%nat.
Proof.
  exact (late_synack_reestablishes (started 7) 9 reopened1.1 reopened1.2 reopened2.1 reopened2.2
           reopened3.1 reopened3.2 eq_refl (surjective_pairing _) (surjective_pairing _)
           (surjective_pairing _)).
Defined.

Lemma lost_ack_strands_peer_witness :
  exists x, rtc opening_step (Sys (started 9) (started 7) [] []) x /\
    forall y, rtc opening_step x y -> established (left y) = true /\ established (right y) = false.
Proof.
  apply (lost_ack_strands_peer 9 7); first [ulia | repeat split].
Defined.

Definition open_session (mine theirs : Z) : Session.t :=
  Session.mk [] true true mine theirs false false false None true false false.
Lemma close_completes_witness :
  exists y,
    (y1 ← round (Sys (request_close (open_session 7 9)).1 (open_session 9 7) []
                   [encode_fin 7; encode_finack 9 7]);
     y2 ← round y1; round y2) = Ok y /\
    close_done (left y) = true /\ close_done (right y) = true.
Proof.
  destruct (close_completes 7 9 (open_session 7 9) (open_session 9 7) default_cfg 0
              ltac:(ulia) ltac:(ulia) ltac:(lia) ltac:(lia) eq_refl eq_refl eq_refl eq_refl
              eq_refl eq_refl eq_refl eq_refl ltac:(simpl; lia) ltac:(simpl; lia))
    as (y & H & Hl & Hr & _).
  exists y. split; [exact H |]. split; [exact Hl | exact Hr].
Defined.
