(* ===== verification/Sdp.v ===== *)
(** * Session descriptions (src/sdp)

    One module per type of the source, with its constructors, setters, [from_str] and printer;
    [Sdp.parse] and [Sdp.encode] are the entry points. Text is a list of UTF-8 octets. Getters
    are the projections of the records. *)

From stdpp Require Import prelude strings.
From Stdlib Require Import ZArith Lia.
From S2P Require Import Prelude Utf8 Text.
Local Open Scope Z_scope.

Module SdpError.
Inductive t : Type :=
| Missing (what : bytes)
| Invalid (what : bytes)
| ParseInt (e : ParseIntError.t)
| AddrType.
#[export] Instance t_eq_dec : EqDecision t.
Proof. solve_decision. Defined.

(** [int_error] is the text of a [ParseIntError]. *)
Definition to_string (int_error : ParseIntError.t -> bytes) (e : t) : bytes :=
  match e with
  | Missing msg => lit "Missing field: " ++ msg
  | Invalid msg => lit "Invalid field: " ++ msg
  | ParseInt e => lit "Parse int error: " ++ int_error e
  | AddrType => lit "Invalid address type"
  end.
End SdpError.

(** [s.parse::<uN>()?] in a function that returns [SdpError] *)
Definition parse_uint (max : Z) (s : bytes) : outcome SdpError.t Z :=
  map_err SdpError.ParseInt (from_str_radix 10 max s).

Definition push_crlf (out line : bytes) : bytes := (out ++ line) ++ [13; 10].

Module AddrType.
Inductive t : Type := IP4 | IP6.
#[export] Instance t_eq_dec : EqDecision t.
Proof. solve_decision. Defined.
Definition to_string (a : t) : bytes := match a with IP4 => lit "IP4" | IP6 => lit "IP6" end.
Definition from_str (s : bytes) : outcome unit t :=
  if decide (s = lit "IP4") then Ok IP4 else if decide (s = lit "IP6") then Ok IP6 else Err ().
End AddrType.

Module Attribute.
Record t : Type := mk { key : bytes; value : option bytes }.
Definition new (key : bytes) (value : option bytes) : t := mk key value.
Definition new_blank : t := mk [] None.
Definition set_key (a : t) (k : bytes) : t := mk k (value a).
Definition set_value (a : t) (v : option bytes) : t := mk (key a) v.
Definition from_str (s : bytes) : outcome SdpError.t t :=
  let '(k, v) := match split_once 58 s with
                 | Some (k, v) => (trim k, Some (trim v))
                 | None => (trim s, None)
                 end in
  Ok (new k v).
Definition to_string (a : t) : bytes :=
  match value a with Some v => key a ++ lit ":" ++ v | None => key a end.
End Attribute.

Module Bandwidth.
Record t : Type := mk { bwtype : bytes; bandwidth : Z }.
Definition new (bwtype : bytes) (bandwidth : Z) : t := mk bwtype bandwidth.
Definition new_blank : t := mk (lit "AS") 0.
Definition set_bwtype (b : t) (v : bytes) : t := mk v (bandwidth b).
Definition set_bandwidth (b : t) (v : Z) : t := mk (bwtype b) v.
Definition from_str (s : bytes) : outcome SdpError.t t :=
  '(typ, val) ← ok_or (split_once 58 s) (SdpError.Invalid (lit "b="));
  n ← parse_uint u64_max val;
  Ok (new typ n).
Definition to_string (b : t) : bytes := bwtype b ++ lit ":" ++ dec (bandwidth b).
End Bandwidth.

Module Connection.
Record t : Type := mk { net_type : bytes; addr_type : AddrType.t; conn_address : bytes }.
Definition new (net_type : bytes) (addr_type : AddrType.t) (address : bytes) : t :=
  mk net_type addr_type address.
Definition new_blank : t := mk (lit "IN") AddrType.IP4 (lit "127.0.0.1").
Definition set_net_type (c : t) (v : bytes) : t := mk v (addr_type c) (conn_address c).
Definition set_addr_type (c : t) (v : AddrType.t) : t := mk (net_type c) v (conn_address c).
Definition set_connection_address (c : t) (v : bytes) : t := mk (net_type c) (addr_type c) v.
Definition from_str (s : bytes) : outcome SdpError.t t :=
  let parts := split_whitespace s in
  if negb (length parts =? 3)%nat then Err (SdpError.Invalid (lit "c="))
  else
    net ← expect (parts !! 0%nat);
    p1 ← expect (parts !! 1%nat);
    addr ← map_err (fun _ => SdpError.AddrType) (AddrType.from_str p1);
    p2 ← expect (parts !! 2%nat);
    Ok (new net addr p2).
Definition to_string (c : t) : bytes :=
  net_type c ++ lit " " ++ AddrType.to_string (addr_type c) ++ lit " " ++ conn_address c.
End Connection.

Module PortSpec.
Record t : Type := mk { base : Z; num : option Z }.
Definition new (base : Z) (num : option Z) : t := mk base num.
Definition new_blank : t := mk 0 None.
Definition set_base (p : t) (v : Z) : t := mk v (num p).
Definition set_num (p : t) (v : option Z) : t := mk (base p) v.
Definition from_str (s : bytes) : outcome SdpError.t t :=
  match split_once 47 s with
  | Some (a, b) => x ← parse_uint u16_max a; y ← parse_uint u16_max b; Ok (new x (Some y))
  | None => x ← parse_uint u16_max s; Ok (new x None)
  end.
Definition to_string (p : t) : bytes :=
  match num p with Some n => dec (base p) ++ lit "/" ++ dec n | None => dec (base p) end.
End PortSpec.

Module MediaKind.
Inductive t : Type := Audio | Video | Text | Application | Message | Other (s : bytes).
Definition to_string (k : t) : bytes :=
  match k with
  | Audio => lit "audio" | Video => lit "video" | Text => lit "text"
  | Application => lit "application" | Message => lit "message" | Other s => s
  end.
Definition from (s : bytes) : t :=
  if decide (s = lit "audio") then Audio
  else if decide (s = lit "video") then Video
  else if decide (s = lit "text") then Text
  else if decide (s = lit "application") then Application
  else if decide (s = lit "message") then Message
  else Other s.
Definition from_str (s : bytes) : outcome SdpError.t t := Ok (from s).
End MediaKind.

Module Media.
Record t : Type := mk {
  kind : MediaKind.t; port : PortSpec.t; proto : bytes; fmts : list bytes; title : option bytes;
  connection : option Connection.t; bandwidth : list Bandwidth.t; attrs : list Attribute.t;
  extra_lines : list bytes }.
Definition new (kind : MediaKind.t) (port : PortSpec.t) (proto : bytes) (fmts : list bytes)
    (title : option bytes) (connection : option Connection.t) (bandwidth : list Bandwidth.t)
    (attrs : list Attribute.t) (extra_lines : list bytes) : t :=
  mk kind port proto fmts title connection bandwidth attrs extra_lines.
Definition new_blank : t := mk MediaKind.Audio PortSpec.new_blank [] [] None None [] [] [].
Definition set_kind (m : t) (v : MediaKind.t) : t :=
  mk v (port m) (proto m) (fmts m) (title m) (connection m) (bandwidth m) (attrs m) (extra_lines m).
Definition set_port (m : t) (v : PortSpec.t) : t :=
  mk (kind m) v (proto m) (fmts m) (title m) (connection m) (bandwidth m) (attrs m) (extra_lines m).
Definition set_proto (m : t) (v : bytes) : t :=
  mk (kind m) (port m) v (fmts m) (title m) (connection m) (bandwidth m) (attrs m) (extra_lines m).
Definition set_fmts (m : t) (v : list bytes) : t :=
  mk (kind m) (port m) (proto m) v (title m) (connection m) (bandwidth m) (attrs m) (extra_lines m).
Definition set_title (m : t) (v : option bytes) : t :=
  mk (kind m) (port m) (proto m) (fmts m) v (connection m) (bandwidth m) (attrs m) (extra_lines m).
Definition set_connection (m : t) (v : option Connection.t) : t :=
  mk (kind m) (port m) (proto m) (fmts m) (title m) v (bandwidth m) (attrs m) (extra_lines m).
Definition set_bandwidth (m : t) (v : list Bandwidth.t) : t :=
  mk (kind m) (port m) (proto m) (fmts m) (title m) (connection m) v (attrs m) (extra_lines m).
Definition set_attrs (m : t) (v : list Attribute.t) : t :=
  mk (kind m) (port m) (proto m) (fmts m) (title m) (connection m) (bandwidth m) v (extra_lines m).
Definition set_extra_lines (m : t) (v : list bytes) : t :=
  mk (kind m) (port m) (proto m) (fmts m) (title m) (connection m) (bandwidth m) (attrs m) v.
Definition add_fmt (m : t) (f : bytes) : t := set_fmts m (fmts m ++ [f]).
Definition add_attr (m : t) (a : Attribute.t) : t := set_attrs m (attrs m ++ [a]).
Definition add_bandwidth (m : t) (b : Bandwidth.t) : t := set_bandwidth m (bandwidth m ++ [b]).
Definition add_extra_line (m : t) (l : bytes) : t := set_extra_lines m (extra_lines m ++ [l]).

(** The [m=] line *)
Definition from_str (s : bytes) : outcome SdpError.t t :=
  let p := split_whitespace s in
  w0 ← ok_or (p !! 0%nat) (SdpError.Invalid (lit "m="));
  kind ← MediaKind.from_str w0;
  w1 ← ok_or (p !! 1%nat) (SdpError.Invalid (lit "m= port"));
  port ← PortSpec.from_str w1;
  proto ← ok_or (p !! 2%nat) (SdpError.Invalid (lit "m= proto"));
  Ok (new kind port proto (drop 3 p) None None [] [] []).

Definition fmt_lines (m : t) (out : bytes) : bytes :=
  let fs := match fmts m with [] => [] | _ => lit " " ++ join (lit " ") (fmts m) end in
  let out := push_crlf out (lit "m=" ++ MediaKind.to_string (kind m) ++ lit " " ++
               PortSpec.to_string (port m) ++ lit " " ++ proto m ++ fs) in
  let out := match title m with Some t => push_crlf out (lit "i=" ++ t) | None => out end in
  let out := match connection m with
             | Some c => push_crlf out (lit "c=" ++ Connection.to_string c)
             | None => out
             end in
  let out := foldl (fun out b => push_crlf out (lit "b=" ++ Bandwidth.to_string b)) out (bandwidth m) in
  let out := foldl (fun out a => push_crlf out (lit "a=" ++ Attribute.to_string a)) out (attrs m) in
  foldl (fun out x => push_crlf out x) out (extra_lines m).
End Media.

Module Origin.
Record t : Type := mk {
  username : bytes; session_id : Z; session_version : Z; net_type : bytes;
  addr_type : AddrType.t; unicast_address : option bytes }.

(** [unix] is the result of [SystemTime::now().duration_since(UNIX_EPOCH)] in seconds. *)
Definition NTP_UNIX_DIFF : Z := 2208988800.
Definition ntp_seconds (unix : option Z) : outcome Empty_set Z :=
  let v := default 0 unix + NTP_UNIX_DIFF in
  if u64_max <? v then Panic else Ok v.

Definition new (username : bytes) (session_id session_version : Z) (net_type : bytes)
    (addr_type : AddrType.t) (unicast_address : option bytes) : t :=
  mk username session_id session_version net_type addr_type unicast_address.
Definition new_blank (unix : option Z) : outcome Empty_set t :=
  session_id ← ntp_seconds unix;
  Ok (mk (lit "-") session_id session_id (lit "IN") AddrType.IP4 None).
Definition set_username (o : t) (v : bytes) : t :=
  mk v (session_id o) (session_version o) (net_type o) (addr_type o) (unicast_address o).
Definition set_session_id (o : t) (v : Z) : t :=
  mk (username o) v (session_version o) (net_type o) (addr_type o) (unicast_address o).
Definition set_session_version (o : t) (v : Z) : t :=
  mk (username o) (session_id o) v (net_type o) (addr_type o) (unicast_address o).
Definition set_net_type (o : t) (v : bytes) : t :=
  mk (username o) (session_id o) (session_version o) v (addr_type o) (unicast_address o).
Definition set_addr_type (o : t) (v : AddrType.t) : t :=
  mk (username o) (session_id o) (session_version o) (net_type o) v (unicast_address o).
Definition set_unicast_address (o : t) (v : bytes) : t :=
  mk (username o) (session_id o) (session_version o) (net_type o) (addr_type o) (Some v).

Definition from_str (s : bytes) : outcome SdpError.t t :=
  let parts := split_whitespace s in
  if (length parts <? 5)%nat then Err (SdpError.Invalid (lit "o="))
  else
    username ← expect (parts !! 0%nat);
    p1 ← expect (parts !! 1%nat);
    session_id ← parse_uint u64_max p1;
    p2 ← expect (parts !! 2%nat);
    session_version ← parse_uint u64_max p2;
    net_type ← expect (parts !! 3%nat);
    p4 ← expect (parts !! 4%nat);
    addr_type ← map_err (fun _ => SdpError.AddrType) (AddrType.from_str p4);
    unicast ← (if (6 <=? length parts)%nat then a ← expect (parts !! 5%nat); Ok (Some a) else Ok None);
    Ok (mk username session_id session_version net_type addr_type unicast).

Definition to_string (o : t) : bytes :=
  username o ++ lit " " ++ dec (session_id o) ++ lit " " ++ dec (session_version o) ++ lit " " ++
  net_type o ++ lit " " ++ AddrType.to_string (addr_type o) ++ lit " " ++
  match unicast_address o with Some s => lit " " ++ s | None => [] end.
End Origin.

Module TimeDesc.
Record t : Type := mk { start : Z; stop : Z; repeats : list bytes; zone : option bytes }.
Definition new (start stop : Z) (repeats : list bytes) (zone : option bytes) : t :=
  mk start stop repeats zone.
Definition new_blank : t := mk 0 0 [] None.
Definition set_start (d : t) (v : Z) : t := mk v (stop d) (repeats d) (zone d).
Definition set_stop (d : t) (v : Z) : t := mk (start d) v (repeats d) (zone d).
Definition set_repeats (d : t) (v : list bytes) : t := mk (start d) (stop d) v (zone d).
Definition set_zone (d : t) (v : option bytes) : t := mk (start d) (stop d) (repeats d) v.
Definition add_repeat (d : t) (r : bytes) : t := set_repeats d (repeats d ++ [r]).
Definition from_str (s : bytes) : outcome SdpError.t t :=
  match split_whitespace s with
  | st :: et :: _ => x ← parse_uint u64_max st; y ← parse_uint u64_max et; Ok (new x y [] None)
  | _ => Err (SdpError.Invalid (lit "t="))
  end.
Definition fmt_lines (d : t) (out : bytes) : bytes :=
  let out := push_crlf out (lit "t=" ++ dec (start d) ++ lit " " ++ dec (stop d)) in
  let out := foldl (fun out r => push_crlf out (lit "r=" ++ r)) out (repeats d) in
  match zone d with Some z => push_crlf out (lit "z=" ++ z) | None => out end.
End TimeDesc.

Module Sdp.
Record t : Type := mk {
  version : Z; origin : Origin.t; session_name : bytes; session_info : option bytes;
  uri : option bytes; emails : list bytes; phones : list bytes;
  connection : option Connection.t; bandwidth : list Bandwidth.t; times : list TimeDesc.t;
  attrs : list Attribute.t; media : list Media.t; extra_lines : list bytes }.
Definition new (version : Z) (origin : Origin.t) (session_name : bytes)
    (session_info uri : option bytes) (emails phones : list bytes)
    (connection : option Connection.t) (bandwidth : list Bandwidth.t) (times : list TimeDesc.t)
    (attrs : list Attribute.t) (media : list Media.t) (extra_lines : list bytes) : t :=
  mk version origin session_name session_info uri emails phones connection bandwidth times attrs
     media extra_lines.

(** The local variables of [parse] *)
Record state : Type := State {
  p_version : option Z; p_origin : option Origin.t; p_name : option bytes;
  p_info : option bytes; p_uri : option bytes; p_emails : list bytes; p_phones : list bytes;
  p_connection : option Connection.t; p_bandwidth : list Bandwidth.t; p_times : list TimeDesc.t;
  p_attrs : list Attribute.t; p_media : list Media.t; p_extra : list bytes; in_media : bool }.

Definition set_last {A} (f : A -> A) (l : list A) : list A :=
  match last l with Some x => take (length l - 1) l ++ [f x] | None => l end.

Definition split_line (line : bytes) : option (bytes * bytes) := split_once 61 line.

(** The arm of [parse] for a line with this prefix *)
Definition dispatch (s : state) (line prefix rest : bytes) : outcome SdpError.t state :=
  let 'State v o n i u e p c b ti a m x inm := s in
  if decide (prefix = lit "v") then
    ver ← parse_uint u8_max rest; Ok (State (Some ver) o n i u e p c b ti a m x false)
  else if decide (prefix = lit "o") then
    og ← Origin.from_str rest; Ok (State v (Some og) n i u e p c b ti a m x false)
  else if decide (prefix = lit "s") then
    Ok (State v o (Some rest) i u e p c b ti a m x false)
  else if decide (prefix = lit "i") then
    if inm then Ok (State v o n i u e p c b ti a (set_last (fun md => Media.set_title md (Some rest)) m) x inm)
    else Ok (State v o n (Some rest) u e p c b ti a m x inm)
  else if decide (prefix = lit "u") then
    Ok (State v o n i (Some rest) e p c b ti a m x false)
  else if decide (prefix = lit "e") then Ok (State v o n i u (e ++ [rest]) p c b ti a m x inm)
  else if decide (prefix = lit "p") then Ok (State v o n i u e (p ++ [rest]) c b ti a m x inm)
  else if decide (prefix = lit "c") then
    cn ← Connection.from_str rest;
    if inm then Ok (State v o n i u e p c b ti a (set_last (fun md => Media.set_connection md (Some cn)) m) x inm)
    else Ok (State v o n i u e p (Some cn) b ti a m x inm)
  else if decide (prefix = lit "b") then
    bw ← Bandwidth.from_str rest;
    if inm then Ok (State v o n i u e p c b ti a (set_last (fun md => Media.add_bandwidth md bw) m) x inm)
    else Ok (State v o n i u e p c (b ++ [bw]) ti a m x inm)
  else if decide (prefix = lit "t") then
    td ← TimeDesc.from_str rest; Ok (State v o n i u e p c b (ti ++ [td]) a m x false)
  else if decide (prefix = lit "r") then
    match ti with
    | [] => Err (SdpError.Invalid (lit "r= without t="))
    | _ => Ok (State v o n i u e p c b (set_last (fun td => TimeDesc.add_repeat td rest) ti) a m x inm)
    end
  else if decide (prefix = lit "z") then
    match ti with
    | [] => Err (SdpError.Invalid (lit "z= without t="))
    | _ => Ok (State v o n i u e p c b (set_last (fun td => TimeDesc.set_zone td (Some rest)) ti) a m x inm)
    end
  else if decide (prefix = lit "m") then
    md ← Media.from_str rest; Ok (State v o n i u e p c b ti a (m ++ [md]) x true)
  else if decide (prefix = lit "a") then
    at_ ← Attribute.from_str rest;
    if inm then Ok (State v o n i u e p c b ti a (set_last (fun md => Media.add_attr md at_) m) x inm)
    else Ok (State v o n i u e p c b ti (a ++ [at_]) m x inm)
  else
    if inm then Ok (State v o n i u e p c b ti a (set_last (fun md => Media.add_extra_line md line) m) x inm)
    else Ok (State v o n i u e p c b ti a m (x ++ [line]) inm).

(** One turn of the loop *)
Definition parse_line (s : state) (raw : bytes) : outcome SdpError.t state :=
  let line := trim_end_matches 13 raw in
  match line with
  | [] => Ok s
  | _ => match split_line line with
         | None => Ok s
         | Some (prefix, rest) => dispatch s line prefix rest
         end
  end.
Fixpoint parse_lines (s : state) (l : list bytes) : outcome SdpError.t state :=
  match l with
  | [] => Ok s
  | raw :: l => s ← parse_line s raw; parse_lines s l
  end.

Definition init : state := State None None None None None [] [] None [] [] [] [] [] false.
Definition finish (s : state) : outcome SdpError.t t :=
  version ← ok_or (p_version s) (SdpError.Missing (lit "v="));
  origin ← ok_or (p_origin s) (SdpError.Missing (lit "o="));
  name ← ok_or (p_name s) (SdpError.Missing (lit "s="));
  Ok (mk version origin name (p_info s) (p_uri s) (p_emails s) (p_phones s) (p_connection s)
         (p_bandwidth s) (p_times s) (p_attrs s) (p_media s) (p_extra s)).
Definition parse (input : bytes) : outcome SdpError.t t :=
  s ← parse_lines init (split_char 10 input); finish s.

Definition encode (s : t) : bytes :=
  let out := push_crlf [] (lit "v=" ++ dec (version s)) in
  let out := push_crlf out (lit "o=" ++ Origin.to_string (origin s)) in
  let out := push_crlf out (lit "s=" ++ session_name s) in
  let out := match session_info s with Some i => push_crlf out (lit "i=" ++ i) | None => out end in
  let out := match uri s with Some u => push_crlf out (lit "u=" ++ u) | None => out end in
  let out := foldl (fun out e => push_crlf out (lit "e=" ++ e)) out (emails s) in
  let out := foldl (fun out p => push_crlf out (lit "p=" ++ p)) out (phones s) in
  let out := match connection s with
             | Some c => push_crlf out (lit "c=" ++ Connection.to_string c)
             | None => out
             end in
  let out := foldl (fun out b => push_crlf out (lit "b=" ++ Bandwidth.to_string b)) out (bandwidth s) in
  let out := match times s with
             | [] => push_crlf out (lit "t=0 0")
             | _ => foldl (fun out t => TimeDesc.fmt_lines t out) out (times s)
             end in
  let out := foldl (fun out a => push_crlf out (lit "a=" ++ Attribute.to_string a)) out (attrs s) in
  let out := foldl (fun out x => push_crlf out x) out (extra_lines s) in
  foldl (fun out m => Media.fmt_lines m out) out (media s).
End Sdp.
