(* ===== verification/SdpCodec.v ===== *)
(** * Session descriptions: printing and parsing

    [sdp_ok] says what a description must be like to survive [Sdp.encode] followed by
    [Sdp.parse] (no line break inside a field, separators where the syntax needs them); every
    description that [Sdp.parse] returns is like that. *)

From stdpp Require Import prelude strings.
From Stdlib Require Import ZArith Lia.
From S2P Require Import Prelude Utf8 Text Sdp.
Local Open Scope Z_scope.

(** ** Well-formed descriptions *)
Definition lacks (c : Z) (s : bytes) : bool := negb (bool_decide (c ∈ s)).
(** Free text: no line feed inside, no carriage return at the end *)
Definition text_ok (s : bytes) : bool := lacks 10 s && negb (bool_decide (last s = Some 13)).
Definition opt_ok {A} (f : A -> bool) (o : option A) : bool := match o with Some x => f x | None => true end.

Definition attr_ok (a : Attribute.t) : bool :=
  lacks 58 (Attribute.key a) && bool_decide (trim (Attribute.key a) = Attribute.key a) &&
  text_ok (Attribute.key a) &&
  opt_ok (fun v => bool_decide (trim v = v) && text_ok v) (Attribute.value a).
Definition bw_ok (b : Bandwidth.t) : bool :=
  lacks 58 (Bandwidth.bwtype b) && lacks 10 (Bandwidth.bwtype b) &&
  in_range 0 u64_max (Bandwidth.bandwidth b).
Definition conn_ok (c : Connection.t) : bool :=
  word (Connection.net_type c) && word (Connection.conn_address c).
Definition port_ok (p : PortSpec.t) : bool :=
  in_range 0 u16_max (PortSpec.base p) && opt_ok (in_range 0 u16_max) (PortSpec.num p).
Definition kind_ok (k : MediaKind.t) : bool :=
  match k with
  | MediaKind.Other s => word s && match MediaKind.from s with MediaKind.Other _ => true | _ => false end
  | _ => true
  end.
Definition known : list bytes :=
  [lit "v"; lit "o"; lit "s"; lit "i"; lit "u"; lit "e"; lit "p"; lit "c"; lit "b"; lit "t";
   lit "r"; lit "z"; lit "m"; lit "a"].
Definition extra_ok (l : bytes) : bool :=
  text_ok l && match Sdp.split_line l with Some (p, _) => negb (bool_decide (p ∈ known)) | None => false end.
Definition media_ok (m : Media.t) : bool :=
  kind_ok (Media.kind m) && port_ok (Media.port m) && word (Media.proto m) &&
  forallb word (Media.fmts m) && opt_ok text_ok (Media.title m) &&
  opt_ok conn_ok (Media.connection m) && forallb bw_ok (Media.bandwidth m) &&
  forallb attr_ok (Media.attrs m) && forallb extra_ok (Media.extra_lines m).
Definition origin_ok (o : Origin.t) : bool :=
  word (Origin.username o) && in_range 0 u64_max (Origin.session_id o) &&
  in_range 0 u64_max (Origin.session_version o) && word (Origin.net_type o) &&
  opt_ok word (Origin.unicast_address o).
Definition time_ok (d : TimeDesc.t) : bool :=
  in_range 0 u64_max (TimeDesc.start d) && in_range 0 u64_max (TimeDesc.stop d) &&
  forallb text_ok (TimeDesc.repeats d) && opt_ok text_ok (TimeDesc.zone d).
Definition sdp_ok (s : Sdp.t) : bool :=
  in_range 0 u8_max (Sdp.version s) && origin_ok (Sdp.origin s) && text_ok (Sdp.session_name s) &&
  opt_ok text_ok (Sdp.session_info s) && opt_ok text_ok (Sdp.uri s) &&
  forallb text_ok (Sdp.emails s) && forallb text_ok (Sdp.phones s) &&
  opt_ok conn_ok (Sdp.connection s) && forallb bw_ok (Sdp.bandwidth s) &&
  forallb time_ok (Sdp.times s) && forallb attr_ok (Sdp.attrs s) &&
  forallb media_ok (Sdp.media s) && forallb extra_ok (Sdp.extra_lines s).

(** [encode] writes [t=0 0] when there is no time description. *)
Definition canonical (s : Sdp.t) : Sdp.t :=
  Sdp.mk (Sdp.version s) (Sdp.origin s) (Sdp.session_name s) (Sdp.session_info s) (Sdp.uri s)
    (Sdp.emails s) (Sdp.phones s) (Sdp.connection s) (Sdp.bandwidth s)
    match Sdp.times s with [] => [TimeDesc.new_blank] | ts => ts end
    (Sdp.attrs s) (Sdp.media s) (Sdp.extra_lines s).

(** Split a conjunction of boolean conditions. *)
Ltac conds := repeat match goal with
  | H : _ && _ = true |- _ => apply andb_prop in H as [? H]
  | H : (_ && _) = true |- _ => apply andb_prop in H as [? H]
  end.

Lemma lacks_spec c s : lacks c s = true <-> c ∉ s.
Proof. unfold lacks. rewrite negb_true_iff. apply bool_decide_eq_false. Qed.
Lemma u64_in_range n : in_range 0 u64_max n = true -> u64 n.
Proof. rewrite in_range_spec. unfold u64_max. ulia. Qed.
Lemma u16_in_range n : in_range 0 u16_max n = true -> u64 n /\ n <= u16_max.
Proof. rewrite in_range_spec. unfold u16_max. ulia. Qed.

Lemma parse_uint_dec max n : in_range 0 max n = true -> max <= u64_max -> parse_uint max (dec n) = Ok n.
Proof.
  rewrite in_range_spec. intros Hn Hm. unfold parse_uint.
  rewrite parse_dec; [reflexivity | unfold u64_max in *; ulia | lia].
Qed.

(** ** Lines *)
Definition crlf (l : bytes) : bytes := l ++ [13; 10].
Definition text (ls : list bytes) : bytes := mjoin (crlf <$> ls).

Lemma text_app l1 l2 : text (l1 ++ l2) = text l1 ++ text l2.
Proof. unfold text. rewrite fmap_app, join_app. reflexivity. Qed.
Lemma push_text ls l : push_crlf (text ls) l = text (ls ++ [l]).
Proof.
  rewrite text_app. unfold push_crlf. rewrite <- app_assoc. f_equal.
  unfold text, crlf. simpl. rewrite app_nil_r. reflexivity.
Qed.
Lemma fold_text {A} (f : A -> bytes) ls xs :
  foldl (fun out x => push_crlf out (f x)) (text ls) xs = text (ls ++ (f <$> xs)).
Proof.
  revert ls. induction xs as [| x xs IH]; intros ls; simpl; [rewrite app_nil_r; reflexivity |].
  rewrite push_text, IH, <- app_assoc. reflexivity.
Qed.
Lemma fold_texts {A} (f : A -> bytes -> bytes) (g : A -> list bytes) ls xs :
  (forall x l, f x (text l) = text (l ++ g x)) ->
  foldl (fun out x => f x out) (text ls) xs = text (ls ++ mjoin (g <$> xs)).
Proof.
  intros Hf. revert ls. induction xs as [| x xs IH]; intros ls; simpl; [rewrite app_nil_r; reflexivity |].
  rewrite Hf, IH, <- app_assoc. reflexivity.
Qed.
Definition opt_line {A} (f : A -> bytes) (o : option A) : list bytes :=
  match o with Some x => [f x] | None => [] end.
Lemma opt_text {A} (f : A -> bytes) ls o :
  match o with Some x => push_crlf (text ls) (f x) | None => text ls end = text (ls ++ opt_line f o).
Proof. destruct o; simpl; [apply push_text | rewrite app_nil_r; reflexivity]. Qed.

Definition media_line (m : Media.t) : bytes :=
  join [32] (MediaKind.to_string (Media.kind m) :: PortSpec.to_string (Media.port m) ::
             Media.proto m :: Media.fmts m).
Definition media_lines (m : Media.t) : list bytes :=
  [lit "m=" ++ media_line m] ++ opt_line (fun t => lit "i=" ++ t) (Media.title m) ++
  opt_line (fun c => lit "c=" ++ Connection.to_string c) (Media.connection m) ++
  ((fun b => lit "b=" ++ Bandwidth.to_string b) <$> Media.bandwidth m) ++
  ((fun a => lit "a=" ++ Attribute.to_string a) <$> Media.attrs m) ++ Media.extra_lines m.
Definition time_lines (d : TimeDesc.t) : list bytes :=
  [lit "t=" ++ dec (TimeDesc.start d) ++ lit " " ++ dec (TimeDesc.stop d)] ++
  ((fun r => lit "r=" ++ r) <$> TimeDesc.repeats d) ++ opt_line (fun z => lit "z=" ++ z) (TimeDesc.zone d).
Definition lines (s : Sdp.t) : list bytes :=
  [lit "v=" ++ dec (Sdp.version s); lit "o=" ++ Origin.to_string (Sdp.origin s);
   lit "s=" ++ Sdp.session_name s] ++
  opt_line (fun i => lit "i=" ++ i) (Sdp.session_info s) ++ opt_line (fun u => lit "u=" ++ u) (Sdp.uri s) ++
  ((fun e => lit "e=" ++ e) <$> Sdp.emails s) ++ ((fun p => lit "p=" ++ p) <$> Sdp.phones s) ++
  opt_line (fun c => lit "c=" ++ Connection.to_string c) (Sdp.connection s) ++
  ((fun b => lit "b=" ++ Bandwidth.to_string b) <$> Sdp.bandwidth s) ++
  mjoin (time_lines <$> Sdp.times (canonical s)) ++
  ((fun a => lit "a=" ++ Attribute.to_string a) <$> Sdp.attrs s) ++ Sdp.extra_lines s ++
  mjoin (media_lines <$> Sdp.media s).

Lemma media_line_eq m :
  MediaKind.to_string (Media.kind m) ++ lit " " ++ PortSpec.to_string (Media.port m) ++ lit " " ++
  Media.proto m ++ match Media.fmts m with [] => [] | _ => lit " " ++ join (lit " ") (Media.fmts m) end
  = media_line m.
Proof.
  unfold media_line. cbn [join]. destruct (Media.fmts m); [| reflexivity].
  rewrite app_nil_r. reflexivity.
Qed.

Lemma fold_text_id ls xs : foldl (fun out x => push_crlf out x) (text ls) xs = text (ls ++ xs).
Proof. rewrite (fold_text id), list_fmap_id. reflexivity. Qed.

Lemma media_fmt m ls : Media.fmt_lines m (text ls) = text (ls ++ media_lines m).
Proof.
  unfold Media.fmt_lines. cbv zeta. rewrite media_line_eq, push_text, !opt_text, 2!fold_text, fold_text_id.
  unfold media_lines. rewrite <- !app_assoc. reflexivity.
Qed.

Lemma time_fmt d ls : TimeDesc.fmt_lines d (text ls) = text (ls ++ time_lines d).
Proof.
  unfold TimeDesc.fmt_lines. cbv zeta. rewrite push_text, fold_text, opt_text.
  unfold time_lines. rewrite <- !app_assoc. reflexivity.
Qed.

Lemma encode_text s : Sdp.encode s = text (lines s).
Proof.
  unfold Sdp.encode. cbv zeta. change (push_crlf []) with (push_crlf (text [])).
  rewrite !push_text, !opt_text, !fold_text, !opt_text, !fold_text.
  assert (Ht : forall ls, match Sdp.times s with
      | [] => push_crlf (text ls) (lit "t=0 0")
      | _ :: _ => foldl (fun out t => TimeDesc.fmt_lines t out) (text ls) (Sdp.times s)
      end = text (ls ++ mjoin (time_lines <$> Sdp.times (canonical s)))).
  { intros ls. unfold canonical. simpl. destruct (Sdp.times s).
    - apply push_text.
    - apply (fold_texts TimeDesc.fmt_lines time_lines), time_fmt. }
  rewrite Ht, fold_text, fold_text_id, (fold_texts Media.fmt_lines media_lines) by apply media_fmt.
  unfold lines. rewrite <- !app_assoc. reflexivity.
Qed.

(** ** Reading the lines back *)
Definition line_ok (l : bytes) : Prop := (10 ∉ l) /\ last l <> Some 13 /\ l <> [].

(** The lines one by one, the ends of line gone *)
Fixpoint feed (s : Sdp.state) (ls : list bytes) : outcome SdpError.t Sdp.state :=
  match ls with
  | [] => Ok s
  | l :: ls => s ← match Sdp.split_line l with
                   | None => Ok s
                   | Some (prefix, rest) => Sdp.dispatch s l prefix rest
                   end; feed s ls
  end.

Lemma bind_assoc {E A B C} (m : outcome E A) (f : A -> outcome E B) (g : B -> outcome E C) :
  (mbind g (m ≫= f)) = (m ≫= (fun x => f x ≫= g)).
Proof. destruct m; reflexivity. Qed.
Lemma bind_ext {E A B} (m : outcome E A) (f g : A -> outcome E B) :
  (forall x, f x = g x) -> (m ≫= f) = (m ≫= g).
Proof. intros H. destruct m; simpl; auto. Qed.

Lemma feed_app s l1 l2 : feed s (l1 ++ l2) = (feed s l1 ≫= (fun s => feed s l2)).
Proof.
  revert s. induction l1 as [| l l1 IH]; intros s; [reflexivity |].
  cbn [app feed]. rewrite bind_assoc. apply bind_ext. intros s'. apply IH.
Qed.

Lemma parse_line_ok s l : line_ok l -> Sdp.parse_line s (l ++ [13]) =
  match Sdp.split_line l with None => Ok s | Some (p, r) => Sdp.dispatch s l p r end.
Proof.
  intros (_ & H13 & Hne). unfold Sdp.parse_line.
  assert (trim_end_matches 13 (l ++ [13]) = l) as ->.
  { unfold trim_end_matches. rewrite reverse_snoc. cbn [drop_while_eq]. rewrite Z.eqb_refl.
    destruct (exists_last Hne) as (l' & b & ->). rewrite reverse_snoc. cbn [drop_while_eq].
    rewrite last_snoc in H13. destruct (Z.eqb_spec b 13); [congruence |].
    rewrite reverse_cons, reverse_involutive. reflexivity. }
  destruct l; [congruence | reflexivity].
Qed.

Lemma parse_text s ls : Forall line_ok ls -> Sdp.parse_lines s (split_char 10 (text ls)) = feed s ls.
Proof.
  intros H. revert s. induction H as [| l ls Hl _ IH]; intros s; [reflexivity |].
  change (text (l :: ls)) with (crlf l ++ text ls). unfold crlf.
  replace ((l ++ [13; 10]) ++ text ls) with ((l ++ [13]) ++ 10 :: text ls) by (rewrite <- !app_assoc; reflexivity).
  rewrite split_char_line.
  - cbn [Sdp.parse_lines feed]. rewrite parse_line_ok by exact Hl. apply bind_ext, IH.
  - destruct Hl as [H10 _]. rewrite elem_of_app, list_elem_of_singleton. intros [H | H]; [auto | lia].
Qed.

(** *** The components *)
Lemma attr_roundtrip a : attr_ok a = true -> Attribute.from_str (Attribute.to_string a) = Ok a.
Proof.
  unfold attr_ok, Attribute.from_str, Attribute.to_string. destruct a as [k v]; simpl. intros H. conds.
  repeat match goal with H : bool_decide _ = true |- _ => apply bool_decide_eq_true in H end.
  match goal with H : lacks 58 k = true |- _ => apply lacks_spec in H end.
  destruct v as [v |]; simpl in *.
  - conds. repeat match goal with H : bool_decide _ = true |- _ => apply bool_decide_eq_true in H end.
    rewrite split_once_app by assumption. unfold Attribute.new. congruence.
  - rewrite split_once_none by assumption. unfold Attribute.new. congruence.
Qed.

Lemma bw_roundtrip b : bw_ok b = true -> Bandwidth.from_str (Bandwidth.to_string b) = Ok b.
Proof.
  unfold bw_ok, Bandwidth.from_str, Bandwidth.to_string. destruct b as [ty n]; simpl. intros H. conds.
  match goal with H : lacks 58 ty = true |- _ => apply lacks_spec in H end.
  rewrite split_once_app by assumption. simpl. rewrite parse_uint_dec by (assumption || lia). reflexivity.
Qed.

Lemma addr_word a : word (AddrType.to_string a) = true.
Proof. destruct a; reflexivity. Qed.
Lemma addr_roundtrip a : AddrType.from_str (AddrType.to_string a) = Ok a.
Proof. destruct a; reflexivity. Qed.

Lemma conn_words c : conn_ok c = true ->
  split_whitespace (Connection.to_string c) =
  [Connection.net_type c; AddrType.to_string (Connection.addr_type c); Connection.conn_address c].
Proof.
  unfold conn_ok, Connection.to_string. intros H. conds. simpl.
  rewrite !split_whitespace_cons, split_whitespace_one by (assumption || apply addr_word). reflexivity.
Qed.

Lemma conn_roundtrip c : conn_ok c = true -> Connection.from_str (Connection.to_string c) = Ok c.
Proof.
  intros H. unfold Connection.from_str. rewrite conn_words by exact H. simpl.
  rewrite addr_roundtrip. destruct c; reflexivity.
Qed.

Lemma dec_lacks c n : u64 n -> ~ (48 <= c <= 57) -> c ∉ dec n.
Proof.
  intros Hn Hc Hin. pose proof (dec_digits n Hn) as H. rewrite Forall_forall in H.
  specialize (H c Hin). simpl in H. lia.
Qed.

Lemma port_roundtrip p : port_ok p = true -> PortSpec.from_str (PortSpec.to_string p) = Ok p.
Proof.
  unfold port_ok, PortSpec.from_str, PortSpec.to_string. destruct p as [b n]; simpl. intros H. conds.
  assert (47 ∉ dec b) by (apply dec_lacks; [eapply u16_in_range; eassumption | lia]).
  destruct n as [n |]; simpl in *.
  - rewrite split_once_app by assumption. rewrite !parse_uint_dec by (assumption || (unfold u16_max, u64_max; lia)).
    reflexivity.
  - rewrite split_once_none by assumption. rewrite parse_uint_dec by (assumption || (unfold u16_max, u64_max; lia)).
    reflexivity.
Qed.

Lemma kind_roundtrip k : kind_ok k = true ->
  MediaKind.from (MediaKind.to_string k) = k /\ word (MediaKind.to_string k) = true.
Proof.
  destruct k as [| | | | | s]; try (split; reflexivity). simpl. intros H. conds. split; [| assumption].
  unfold MediaKind.from in *. repeat case_decide; congruence.
Qed.

Lemma no_ws_app a b : no_ws a = true -> no_ws b = true -> ascii_head b -> no_ws (a ++ b) = true.
Proof.
  intros Ha Hb Hh. induction a as [| x a IH]; [exact Hb |]. rewrite <- app_comm_cons. cbn [no_ws] in *.
  apply andb_prop in Ha as [Hx Ha]. rewrite IH by exact Ha.
  change (x :: a ++ b) with ((x :: a) ++ b). rewrite (ws_at_app x a b Hh), Hx. reflexivity.
Qed.

Lemma dec_ascii_head n r : u64 n -> ascii_head (dec n ++ r).
Proof.
  intros Hn. pose proof (dec_digits n Hn) as H. pose proof (dec_ne n).
  destruct (dec n) as [| d l]; [congruence |]. apply Forall_cons in H as [H _]. simpl. lia.
Qed.

Lemma port_word p : port_ok p = true -> word (PortSpec.to_string p) = true.
Proof.
  unfold port_ok, PortSpec.to_string. intros H. conds.
  match goal with H : in_range 0 u16_max _ = true |- _ => apply u16_in_range in H as [Hb _] end.
  destruct (PortSpec.num p) as [n |]; [| apply dec_word, Hb]. simpl in H.
  apply u16_in_range in H as [Hn _].
  pose proof (dec_word _ Hb) as [Hb0 Hb1]%word_inv. pose proof (dec_word _ Hn) as [_ Hn1]%word_inv.
  unfold word. rewrite bool_decide_false by (intros E; apply app_nil in E as [? _]; contradiction).
  apply no_ws_app; [exact Hb1 | | simpl; lia].
  apply (no_ws_app [47]); [reflexivity | exact Hn1 |]. rewrite <- (app_nil_r (dec n)). apply dec_ascii_head, Hn.
Qed.

Definition header (m : Media.t) : Media.t :=
  Media.mk (Media.kind m) (Media.port m) (Media.proto m) (Media.fmts m) None None [] [] [].

Lemma media_roundtrip m : media_ok m = true -> Media.from_str (media_line m) = Ok (header m).
Proof.
  unfold media_ok, media_line. intros H. conds.
  match goal with H : kind_ok _ = true |- _ => apply kind_roundtrip in H as [Hk Hkw] end.
  unfold Media.from_str. rewrite split_whitespace_join.
  - simpl. rewrite Hk, port_roundtrip by assumption. reflexivity.
  - cbn [forallb]. rewrite Hkw, port_word by assumption. simpl. apply andb_true_intro; auto.
Qed.

Lemma origin_roundtrip o : origin_ok o = true -> Origin.from_str (Origin.to_string o) = Ok o.
Proof.
  unfold origin_ok, Origin.to_string. intros H. conds.
  assert (Hu : forall n, in_range 0 u64_max n = true -> word (dec n) = true)
    by (intros; apply dec_word, u64_in_range; assumption).
  unfold Origin.from_str. destruct o as [un si sv nt at_ [ua |]]; simpl in *;
    rewrite !split_whitespace_cons by (auto || apply addr_word);
    rewrite ?split_whitespace_space, ?split_whitespace_one by assumption; simpl;
    rewrite !parse_uint_dec by (assumption || lia); simpl; rewrite addr_roundtrip; reflexivity.
Qed.

Lemma time_roundtrip a b : in_range 0 u64_max a = true -> in_range 0 u64_max b = true ->
  TimeDesc.from_str (dec a ++ lit " " ++ dec b) = Ok (TimeDesc.mk a b [] None).
Proof.
  intros Ha Hb. unfold TimeDesc.from_str. simpl.
  rewrite split_whitespace_cons, split_whitespace_one by (apply dec_word, u64_in_range; assumption).
  rewrite !parse_uint_dec by (assumption || lia). reflexivity.
Qed.

(** *** The lines are lines *)
Lemma text_ok_spec s : text_ok s = true <-> (10 ∉ s) /\ last s <> Some 13.
Proof. unfold text_ok. rewrite andb_true_iff, lacks_spec, negb_true_iff, bool_decide_eq_false. tauto. Qed.

Lemma ws1_lacks c w : ws1 c = true -> no_ws w = true -> c ∉ w.
Proof.
  intros Hc. induction w as [| b w IH]; intros Hw; [apply not_elem_of_nil |].
  cbn [no_ws] in Hw. apply andb_prop in Hw as [Hb Hw]. apply not_elem_of_cons. split; [| auto].
  intros <-. unfold ws_at in Hb. rewrite Hc in Hb. discriminate.
Qed.

Lemma word_text w : word w = true -> text_ok w = true.
Proof.
  intros [_ Hw]%word_inv. apply text_ok_spec. split; [apply ws1_lacks; auto |].
  intros H. apply last_Some_elem_of in H. revert H. apply ws1_lacks; auto.
Qed.

Lemma dec_text n : in_range 0 u64_max n = true -> text_ok (dec n) = true.
Proof. intros H. apply word_text, dec_word, u64_in_range, H. Qed.

(** Text followed by text *)
Lemma text_ok_app a b : 10 ∉ a -> last a <> Some 13 -> text_ok b = true -> text_ok (a ++ b) = true.
Proof.
  rewrite !text_ok_spec. intros Ha1 Ha2 [Hb1 Hb2]. split; [rewrite elem_of_app; tauto |].
  rewrite last_app. destruct (last b); [exact Hb2 | exact Ha2].
Qed.

Lemma line_prefix c s : c <> 10 -> text_ok s = true -> line_ok (c :: 61 :: s).
Proof.
  intros Hc H%(text_ok_app [c; 61]).
  - apply text_ok_spec in H as [H1 H2]. repeat split; [exact H1 | exact H2 | discriminate].
  - set_solver.
  - discriminate.
Qed.

Lemma text_words a c b : word a = true -> text_ok b = true -> c <> 10 -> c <> 13 -> text_ok (a ++ c :: b) = true.
Proof.
  intros Ha Hb H10 H13. apply word_text, text_ok_spec in Ha as [Ha _].
  change (c :: b) with ([c] ++ b). rewrite app_assoc. apply text_ok_app; [| | exact Hb].
  - rewrite elem_of_app, list_elem_of_singleton. intros [H | H]; auto.
  - rewrite last_snoc. congruence.
Qed.

Lemma join_text ws : forallb word ws = true -> text_ok (join [32] ws) = true.
Proof.
  induction ws as [| w ws IH]; [reflexivity |]. cbn [forallb join]. intros [Hw Hws]%andb_prop.
  destruct ws; [apply word_text, Hw |]. apply text_words; auto; lia.
Qed.

Lemma attr_text a : attr_ok a = true -> text_ok (Attribute.to_string a) = true.
Proof.
  unfold attr_ok, Attribute.to_string. intros H. conds. destruct (Attribute.value a) as [v |]; [| assumption].
  simpl in H. conds. match goal with H : text_ok (Attribute.key a) = true |- _ => apply text_ok_spec in H as [Hk _] end.
  change (lit ":") with [58]. rewrite app_assoc. apply text_ok_app; [| | assumption].
  - rewrite elem_of_app, list_elem_of_singleton. intros [? | ?]; [auto | lia].
  - rewrite last_snoc. congruence.
Qed.

Lemma bw_text b : bw_ok b = true -> text_ok (Bandwidth.to_string b) = true.
Proof.
  unfold bw_ok, Bandwidth.to_string. intros H. conds.
  match goal with H : lacks 10 _ = true |- _ => apply lacks_spec in H end.
  change (lit ":") with [58]. rewrite app_assoc. apply text_ok_app; [| | apply dec_text; assumption].
  - rewrite elem_of_app, list_elem_of_singleton. intros [? | ?]; [auto | lia].
  - rewrite last_snoc. congruence.
Qed.

Lemma conn_text c : conn_ok c = true -> text_ok (Connection.to_string c) = true.
Proof.
  unfold conn_ok, Connection.to_string. intros H. conds. change (lit " ") with [32]. cbn [app].
  repeat (apply text_words; [assumption || apply addr_word | | lia | lia]). apply word_text. assumption.
Qed.

Lemma media_line_text m : media_ok m = true -> text_ok (media_line m) = true.
Proof.
  unfold media_ok, media_line. intros H. conds. apply join_text. cbn [forallb].
  match goal with H : kind_ok _ = true |- _ => apply kind_roundtrip in H as [_ ->] end.
  rewrite port_word by assumption. simpl. apply andb_true_intro; auto.
Qed.

Lemma origin_text o : origin_ok o = true -> text_ok (Origin.to_string o) = true.
Proof.
  unfold origin_ok, Origin.to_string. intros H. conds. change (lit " ") with [32]. cbn [app].
  repeat (apply text_words; [assumption || apply addr_word ||
            (apply dec_word, u64_in_range; assumption) | | lia | lia]).
  destruct (Origin.unicast_address o) as [a |]; [| reflexivity].
  apply (text_ok_app [32]); [set_solver | discriminate | apply word_text; assumption].
Qed.

Lemma extra_line l : extra_ok l = true -> line_ok l /\
  exists p r, Sdp.split_line l = Some (p, r) /\ p ∉ known.
Proof.
  unfold extra_ok. intros [Ht H]%andb_prop. apply text_ok_spec in Ht as [H1 H2].
  destruct (Sdp.split_line l) as [[p r] |] eqn:E; [| discriminate].
  apply negb_true_iff, bool_decide_eq_false in H. split; [| eauto].
  repeat split; auto. intros ->. discriminate.
Qed.

Lemma lines_map {A} (f : A -> bytes) (P : A -> bool) xs :
  (forall x, P x = true -> line_ok (f x)) -> forallb P xs = true -> Forall line_ok (f <$> xs).
Proof.
  intros Hf Hx. rewrite forallb_forall in Hx. apply Forall_fmap, Forall_forall. intros x Hin.
  apply Hf, Hx, list_elem_of_In, Hin.
Qed.
Lemma lines_opt {A} (f : A -> bytes) (P : A -> bool) o :
  (forall x, P x = true -> line_ok (f x)) -> opt_ok P o = true -> Forall line_ok (opt_line f o).
Proof. destruct o; simpl; intros; repeat constructor; auto; apply H; assumption. Qed.
Lemma lines_join {A} (f : A -> list bytes) (P : A -> bool) xs :
  (forall x, P x = true -> Forall line_ok (f x)) -> forallb P xs = true -> Forall line_ok (mjoin (f <$> xs)).
Proof.
  intros Hf. induction xs as [| x xs IH]; [constructor |]. cbn [forallb]. intros [Hx Hxs]%andb_prop.
  simpl. apply Forall_app. auto.
Qed.

(** The part of [lines_ok] for each kind of line *)
Ltac line_case :=
  first [ eapply lines_map; [| eassumption] | eapply lines_opt; [| eassumption]
        | eapply lines_join; [| eassumption] ]; cbn beta.
Ltac text_line := intros; apply line_prefix; [discriminate |];
  first [ assumption | apply conn_text; assumption | apply bw_text; assumption | apply attr_text; assumption ].

Lemma media_lines_ok m : media_ok m = true -> Forall line_ok (media_lines m).
Proof.
  intros Hm. pose proof (media_line_text m Hm) as Ht. unfold media_ok in Hm. conds. unfold media_lines.
  rewrite !Forall_app. repeat split; try (line_case; text_line).
  - repeat constructor; apply line_prefix; auto; discriminate.
  - rewrite <- (list_fmap_id (Media.extra_lines m)). line_case. intros x Hx. apply extra_line, Hx.
Qed.

Lemma time_lines_ok d : time_ok d = true -> Forall line_ok (time_lines d).
Proof.
  unfold time_ok, time_lines. intros H. conds. rewrite !Forall_app. repeat split; try (line_case; text_line).
  constructor; [| constructor]. apply line_prefix; [discriminate |]. change (lit " ") with [32]. cbn [app].
  apply text_words; [apply dec_word, u64_in_range; assumption | apply dec_text; assumption | lia | lia].
Qed.

Lemma canonical_times s : forallb time_ok (Sdp.times s) = true -> forallb time_ok (Sdp.times (canonical s)) = true.
Proof. unfold canonical. simpl. destruct (Sdp.times s); auto. Qed.

Lemma lines_ok s : sdp_ok s = true -> Forall line_ok (lines s).
Proof.
  unfold sdp_ok, lines. intros H. conds.
  match goal with H : forallb time_ok _ = true |- _ => apply canonical_times in H end.
  rewrite !Forall_app. repeat split; try (line_case; text_line).
  - assert (in_range 0 u64_max (Sdp.version s) = true)
      by (rewrite in_range_spec in *; unfold u8_max, u64_max in *; lia).
    repeat constructor; apply line_prefix; try discriminate; auto using dec_text, origin_text.
  - line_case. apply time_lines_ok.
  - rewrite <- (list_fmap_id (Sdp.extra_lines s)). line_case. intros x Hx. apply extra_line, Hx.
  - line_case. apply media_lines_ok.
Qed.

(** *** One line *)
Definition one (s : Sdp.state) (l : bytes) : outcome SdpError.t Sdp.state :=
  match Sdp.split_line l with None => Ok s | Some (prefix, rest) => Sdp.dispatch s l prefix rest end.
Lemma feed_cons s l ls : feed s (l :: ls) = (one s l ≫= (fun s => feed s ls)).
Proof. reflexivity. Qed.

Lemma set_last_snoc {A} (f : A -> A) l x : Sdp.set_last f (l ++ [x]) = l ++ [f x].
Proof.
  unfold Sdp.set_last. rewrite last_snoc, length_app. simpl.
  replace (length l + 1 - 1)%nat with (length l) by lia. rewrite take_app_length. reflexivity.
Qed.

Lemma one_extra s l : extra_ok l = true ->
  one s l = let 'Sdp.State v o n i u e p c b ti a m x inm := s in
    if inm then Ok (Sdp.State v o n i u e p c b ti a (Sdp.set_last (fun md => Media.add_extra_line md l) m) x inm)
    else Ok (Sdp.State v o n i u e p c b ti a m (x ++ [l]) inm).
Proof.
  intros H. apply extra_line in H as (_ & q & r & E & Hq). unfold one. rewrite E.
  destruct s. unfold known in Hq. unfold Sdp.dispatch.
  repeat (apply not_elem_of_cons in Hq as [? Hq]; rewrite decide_False by assumption). reflexivity.
Qed.

(** Sections of lines that fill one field *)
Section sections.
Context (v : option Z) (o : option Origin.t) (n i u : option bytes) (e p : list bytes)
  (c : option Connection.t) (b : list Bandwidth.t) (ti : list TimeDesc.t) (a : list Attribute.t)
  (m : list Media.t) (x : list bytes).

Lemma feed_emails es inm : feed (Sdp.State v o n i u e p c b ti a m x inm) ((fun r => lit "e=" ++ r) <$> es)
  = Ok (Sdp.State v o n i u (e ++ es) p c b ti a m x inm).
Proof.
  revert e. induction es as [| r es IH]; intros e; [rewrite app_nil_r; reflexivity |].
  cbn [fmap list_fmap]. rewrite feed_cons.
  change (one _ _) with (@Ok SdpError.t _ (Sdp.State v o n i u (e ++ [r]) p c b ti a m x inm)).
  cbn [mbind outcome_bind]. rewrite IH, <- app_assoc. reflexivity.
Qed.

Lemma feed_phones ps inm : feed (Sdp.State v o n i u e p c b ti a m x inm) ((fun r => lit "p=" ++ r) <$> ps)
  = Ok (Sdp.State v o n i u e (p ++ ps) c b ti a m x inm).
Proof.
  revert p. induction ps as [| r ps IH]; intros p; [rewrite app_nil_r; reflexivity |].
  cbn [fmap list_fmap]. rewrite feed_cons.
  change (one _ _) with (@Ok SdpError.t _ (Sdp.State v o n i u e (p ++ [r]) c b ti a m x inm)).
  cbn [mbind outcome_bind]. rewrite IH, <- app_assoc. reflexivity.
Qed.

Lemma feed_bandwidth bs : forallb bw_ok bs = true ->
  feed (Sdp.State v o n i u e p c b ti a m x false) ((fun r => lit "b=" ++ Bandwidth.to_string r) <$> bs)
  = Ok (Sdp.State v o n i u e p c (b ++ bs) ti a m x false).
Proof.
  revert b. induction bs as [| r bs IH]; intros b; [rewrite app_nil_r; reflexivity |].
  cbn [forallb fmap list_fmap]. intros [Hr Hb]%andb_prop. rewrite feed_cons.
  change (one _ _) with (bw ← Bandwidth.from_str (Bandwidth.to_string r);
    @Ok SdpError.t _ (Sdp.State v o n i u e p c (b ++ [bw]) ti a m x false)).
  rewrite bw_roundtrip by exact Hr. cbn [mbind outcome_bind]. rewrite IH, <- app_assoc by exact Hb. reflexivity.
Qed.

Lemma feed_attrs ats : forallb attr_ok ats = true ->
  feed (Sdp.State v o n i u e p c b ti a m x false) ((fun r => lit "a=" ++ Attribute.to_string r) <$> ats)
  = Ok (Sdp.State v o n i u e p c b ti (a ++ ats) m x false).
Proof.
  revert a. induction ats as [| r ats IH]; intros a; [rewrite app_nil_r; reflexivity |].
  cbn [forallb fmap list_fmap]. intros [Hr Hb]%andb_prop. rewrite feed_cons.
  change (one _ _) with (at_ ← Attribute.from_str (Attribute.to_string r);
    @Ok SdpError.t _ (Sdp.State v o n i u e p c b ti (a ++ [at_]) m x false)).
  rewrite attr_roundtrip by exact Hr. cbn [mbind outcome_bind]. rewrite IH, <- app_assoc by exact Hb. reflexivity.
Qed.

Lemma feed_extra xs : forallb extra_ok xs = true ->
  feed (Sdp.State v o n i u e p c b ti a m x false) xs
  = Ok (Sdp.State v o n i u e p c b ti a m (x ++ xs) false).
Proof.
  revert x. induction xs as [| r xs IH]; intros x; [rewrite app_nil_r; reflexivity |].
  cbn [forallb]. intros [Hr Hb]%andb_prop. rewrite feed_cons, one_extra by exact Hr.
  cbn [mbind outcome_bind]. rewrite IH, <- app_assoc by exact Hb. reflexivity.
Qed.

Lemma feed_repeats d rs inm :
  feed (Sdp.State v o n i u e p c b (ti ++ [d]) a m x inm) ((fun r => lit "r=" ++ r) <$> rs)
  = Ok (Sdp.State v o n i u e p c b
          (ti ++ [TimeDesc.set_repeats d (TimeDesc.repeats d ++ rs)]) a m x inm).
Proof.
  revert d. induction rs as [| r rs IH]; intros d; [rewrite app_nil_r; destruct d; reflexivity |].
  cbn [fmap list_fmap]. rewrite feed_cons.
  assert (one (Sdp.State v o n i u e p c b (ti ++ [d]) a m x inm) (lit "r=" ++ r)
    = Ok (Sdp.State v o n i u e p c b (ti ++ [TimeDesc.add_repeat d r]) a m x inm)) as ->.
  { rewrite <- (set_last_snoc (fun td => TimeDesc.add_repeat td r)).
    destruct ti; reflexivity. }
  cbn [mbind outcome_bind]. rewrite IH. unfold TimeDesc.add_repeat, TimeDesc.set_repeats. simpl.
  rewrite <- app_assoc. reflexivity.
Qed.

Lemma feed_zone d z inm :
  feed (Sdp.State v o n i u e p c b (ti ++ [d]) a m x inm) (opt_line (fun z => lit "z=" ++ z) z)
  = Ok (Sdp.State v o n i u e p c b
          (ti ++ [match z with Some z => TimeDesc.set_zone d (Some z) | None => d end]) a m x inm).
Proof.
  destruct z as [z |]; [| reflexivity]. cbn [opt_line]. rewrite feed_cons.
  rewrite <- (set_last_snoc (fun td => TimeDesc.set_zone td (Some z))). destruct ti; reflexivity.
Qed.

Lemma feed_time d inm : time_ok d = true ->
  feed (Sdp.State v o n i u e p c b ti a m x inm) (time_lines d)
  = Ok (Sdp.State v o n i u e p c b (ti ++ [d]) a m x false).
Proof.
  unfold time_ok, time_lines. intros H. conds. cbn [app]. rewrite feed_cons.
  change (one _ _) with (td ← TimeDesc.from_str (dec (TimeDesc.start d) ++ lit " " ++ dec (TimeDesc.stop d));
    @Ok SdpError.t _ (Sdp.State v o n i u e p c b (ti ++ [td]) a m x false)).
  rewrite time_roundtrip by assumption. cbn [mbind outcome_bind]. rewrite feed_app, feed_repeats.
  cbn [mbind outcome_bind]. rewrite feed_zone. destruct d as [st en rs [z |]]; reflexivity.
Qed.

Lemma feed_media_bandwidth md bs : forallb bw_ok bs = true ->
  feed (Sdp.State v o n i u e p c b ti a (m ++ [md]) x true) ((fun r => lit "b=" ++ Bandwidth.to_string r) <$> bs)
  = Ok (Sdp.State v o n i u e p c b ti a (m ++ [Media.set_bandwidth md (Media.bandwidth md ++ bs)]) x true).
Proof.
  revert md. induction bs as [| r bs IH]; intros md; [rewrite app_nil_r; destruct md; reflexivity |].
  cbn [forallb fmap list_fmap]. intros [Hr Hb]%andb_prop. rewrite feed_cons.
  change (one _ _) with (bw ← Bandwidth.from_str (Bandwidth.to_string r);
    @Ok SdpError.t _ (Sdp.State v o n i u e p c b ti a
      (Sdp.set_last (fun md => Media.add_bandwidth md bw) (m ++ [md])) x true)).
  rewrite bw_roundtrip by exact Hr. cbn [mbind outcome_bind]. rewrite set_last_snoc, IH by exact Hb.
  unfold Media.add_bandwidth, Media.set_bandwidth. simpl. rewrite <- app_assoc. reflexivity.
Qed.

Lemma feed_media_attrs md ats : forallb attr_ok ats = true ->
  feed (Sdp.State v o n i u e p c b ti a (m ++ [md]) x true) ((fun r => lit "a=" ++ Attribute.to_string r) <$> ats)
  = Ok (Sdp.State v o n i u e p c b ti a (m ++ [Media.set_attrs md (Media.attrs md ++ ats)]) x true).
Proof.
  revert md. induction ats as [| r ats IH]; intros md; [rewrite app_nil_r; destruct md; reflexivity |].
  cbn [forallb fmap list_fmap]. intros [Hr Hb]%andb_prop. rewrite feed_cons.
  change (one _ _) with (at_ ← Attribute.from_str (Attribute.to_string r);
    @Ok SdpError.t _ (Sdp.State v o n i u e p c b ti a
      (Sdp.set_last (fun md => Media.add_attr md at_) (m ++ [md])) x true)).
  rewrite attr_roundtrip by exact Hr. cbn [mbind outcome_bind]. rewrite set_last_snoc, IH by exact Hb.
  unfold Media.add_attr, Media.set_attrs. simpl. rewrite <- app_assoc. reflexivity.
Qed.

Lemma feed_media_extra md xs : forallb extra_ok xs = true ->
  feed (Sdp.State v o n i u e p c b ti a (m ++ [md]) x true) xs
  = Ok (Sdp.State v o n i u e p c b ti a (m ++ [Media.set_extra_lines md (Media.extra_lines md ++ xs)]) x true).
Proof.
  revert md. induction xs as [| r xs IH]; intros md; [rewrite app_nil_r; destruct md; reflexivity |].
  cbn [forallb]. intros [Hr Hb]%andb_prop. rewrite feed_cons, one_extra by exact Hr.
  cbn [mbind outcome_bind]. rewrite set_last_snoc, IH by exact Hb.
  unfold Media.add_extra_line, Media.set_extra_lines. simpl. rewrite <- app_assoc. reflexivity.
Qed.

Lemma feed_media_title md t :
  feed (Sdp.State v o n i u e p c b ti a (m ++ [md]) x true) (opt_line (fun t => lit "i=" ++ t) t)
  = Ok (Sdp.State v o n i u e p c b ti a
          (m ++ [match t with Some t => Media.set_title md (Some t) | None => md end]) x true).
Proof.
  destruct t as [t |]; [| reflexivity]. cbn [opt_line]. rewrite feed_cons.
  rewrite <- (set_last_snoc (fun md => Media.set_title md (Some t))). reflexivity.
Qed.

Lemma feed_media_connection md cn : opt_ok conn_ok cn = true ->
  feed (Sdp.State v o n i u e p c b ti a (m ++ [md]) x true)
    (opt_line (fun c => lit "c=" ++ Connection.to_string c) cn)
  = Ok (Sdp.State v o n i u e p c b ti a
          (m ++ [match cn with Some c => Media.set_connection md (Some c) | None => md end]) x true).
Proof.
  destruct cn as [cn |]; [| reflexivity]. cbn [opt_line opt_ok]. intros Hc. rewrite feed_cons.
  change (one _ _) with (cn ← Connection.from_str (Connection.to_string cn);
    @Ok SdpError.t _ (Sdp.State v o n i u e p c b ti a
      (Sdp.set_last (fun md => Media.set_connection md (Some cn)) (m ++ [md])) x true)).
  rewrite conn_roundtrip by exact Hc. cbn [mbind outcome_bind]. rewrite set_last_snoc. reflexivity.
Qed.

Lemma feed_media md inm : media_ok md = true ->
  feed (Sdp.State v o n i u e p c b ti a m x inm) (media_lines md)
  = Ok (Sdp.State v o n i u e p c b ti a (m ++ [md]) x true).
Proof.
  intros H. pose proof (media_roundtrip md H) as Hr. unfold media_ok in H. conds.
  unfold media_lines. cbn [app]. rewrite feed_cons.
  change (one _ _) with (md ← Media.from_str (media_line md);
    @Ok SdpError.t _ (Sdp.State v o n i u e p c b ti a (m ++ [md]) x true)).
  rewrite Hr. cbn [mbind outcome_bind].
  rewrite feed_app, feed_media_title. cbn [mbind outcome_bind].
  rewrite feed_app, feed_media_connection by assumption. cbn [mbind outcome_bind].
  rewrite feed_app, feed_media_bandwidth by assumption. cbn [mbind outcome_bind].
  rewrite feed_app, feed_media_attrs by assumption. cbn [mbind outcome_bind].
  rewrite feed_media_extra by assumption.
  destruct md as [k po pr fm [ti' |] [cn |] bw at_ ex]; reflexivity.
Qed.

Lemma feed_info t :
  feed (Sdp.State v o n None u e p c b ti a m x false) (opt_line (fun t => lit "i=" ++ t) t)
  = Ok (Sdp.State v o n t u e p c b ti a m x false).
Proof. destruct t; reflexivity. Qed.
Lemma feed_uri t :
  feed (Sdp.State v o n i None e p c b ti a m x false) (opt_line (fun t => lit "u=" ++ t) t)
  = Ok (Sdp.State v o n i t e p c b ti a m x false).
Proof. destruct t; reflexivity. Qed.
Lemma feed_connection cn : opt_ok conn_ok cn = true ->
  feed (Sdp.State v o n i u e p None b ti a m x false)
    (opt_line (fun c => lit "c=" ++ Connection.to_string c) cn)
  = Ok (Sdp.State v o n i u e p cn b ti a m x false).
Proof.
  destruct cn as [cn |]; [| reflexivity]. cbn [opt_line opt_ok]. intros Hc. rewrite feed_cons.
  change (one _ _) with (cn ← Connection.from_str (Connection.to_string cn);
    @Ok SdpError.t _ (Sdp.State v o n i u e p (Some cn) b ti a m x false)).
  rewrite conn_roundtrip by exact Hc. reflexivity.
Qed.
End sections.

Lemma feed_times v o n i u e p c b ti a m x ds : forallb time_ok ds = true ->
  feed (Sdp.State v o n i u e p c b ti a m x false) (mjoin (time_lines <$> ds))
  = Ok (Sdp.State v o n i u e p c b (ti ++ ds) a m x false).
Proof.
  revert ti. induction ds as [| d ds IH]; intros ti; [rewrite app_nil_r; reflexivity |].
  cbn [forallb]. intros [Hd Hds]%andb_prop.
  change (mjoin (time_lines <$> d :: ds)) with (time_lines d ++ mjoin (time_lines <$> ds)).
  rewrite feed_app, feed_time by exact Hd. cbn [mbind outcome_bind].
  rewrite IH, <- app_assoc by exact Hds. reflexivity.
Qed.

Lemma feed_medias v o n i u e p c b ti a m x ds inm : forallb media_ok ds = true ->
  exists inm', feed (Sdp.State v o n i u e p c b ti a m x inm) (mjoin (media_lines <$> ds))
  = Ok (Sdp.State v o n i u e p c b ti a (m ++ ds) x inm').
Proof.
  revert m inm. induction ds as [| d ds IH]; intros m inm; [rewrite app_nil_r; eexists; reflexivity |].
  cbn [forallb]. intros [Hd Hds]%andb_prop.
  change (mjoin (media_lines <$> d :: ds)) with (media_lines d ++ mjoin (media_lines <$> ds)).
  rewrite feed_app, feed_media by exact Hd. cbn [mbind outcome_bind].
  destruct (IH (m ++ [d]) true Hds) as [inm' ->]. rewrite <- app_assoc. eexists. reflexivity.
Qed.

Lemma encode_parse s : sdp_ok s = true -> Sdp.parse (Sdp.encode s) = Ok (canonical s).
Proof.
  intros H. unfold Sdp.parse. rewrite encode_text, parse_text by apply lines_ok, H.
  unfold sdp_ok in H. conds.
  match goal with H : forallb time_ok _ = true |- _ => apply canonical_times in H end.
  unfold lines. cbn [app]. unfold Sdp.init. rewrite feed_cons.
  change (one _ _) with (ver ← parse_uint u8_max (dec (Sdp.version s));
    @Ok SdpError.t _ (Sdp.State (Some ver) None None None None [] [] None [] [] [] [] [] false)).
  rewrite parse_uint_dec by (assumption || discriminate). cbn [mbind outcome_bind]. rewrite feed_cons.
  change (one _ _) with (og ← Origin.from_str (Origin.to_string (Sdp.origin s));
    @Ok SdpError.t _ (Sdp.State (Some (Sdp.version s)) (Some og) None None None [] [] None [] [] [] [] [] false)).
  rewrite origin_roundtrip by assumption. cbn [mbind outcome_bind]. rewrite feed_cons.
  change (one _ _) with (@Ok SdpError.t _ (Sdp.State (Some (Sdp.version s)) (Some (Sdp.origin s))
    (Some (Sdp.session_name s)) None None [] [] None [] [] [] [] [] false)).
  cbn [mbind outcome_bind]. rewrite feed_app, feed_info. cbn [mbind outcome_bind].
  rewrite feed_app, feed_uri. cbn [mbind outcome_bind].
  rewrite feed_app, feed_emails. cbn [mbind outcome_bind].
  rewrite feed_app, feed_phones. cbn [mbind outcome_bind].
  rewrite feed_app, feed_connection by assumption. cbn [mbind outcome_bind].
  rewrite feed_app, feed_bandwidth by assumption. cbn [mbind outcome_bind].
  rewrite feed_app, feed_times by assumption. cbn [mbind outcome_bind].
  rewrite feed_app, feed_attrs by assumption. cbn [mbind outcome_bind].
  rewrite feed_app, feed_extra by assumption. cbn [mbind outcome_bind app].
  edestruct feed_medias as [inm' ->]; [eassumption |]. reflexivity.
Qed.

(** ** What [parse] returns is well-formed *)
Lemma parse_uint_range max s n : 0 <= max -> parse_uint max s = Ok n -> in_range 0 max n = true.
Proof.
  unfold parse_uint. intros Hm H. destruct (from_str_radix 10 max s) eqn:E; simplify_eq/=.
  apply in_range_spec. eapply from_str_radix_range; [exact Hm | | exact E]. lia.
Qed.

Lemma nth_word s k w : split_whitespace s !! k = Some w -> word w = true.
Proof.
  intros H. pose proof (split_whitespace_words s) as Hw. rewrite forallb_forall in Hw.
  apply Hw, list_elem_of_In. eapply list_elem_of_lookup_2, H.
Qed.

Lemma trim_text s : 10 ∉ s -> text_ok (trim s) = true.
Proof.
  intros H. apply text_ok_spec. split; [apply trim_lacks, H |]. intros E%trim_last. discriminate.
Qed.

Ltac inv_ok H :=
  repeat match type of H with
  | mbind _ _ = Ok _ => bind_inv H
  | (if ?c then _ else _) = Ok _ => case_bool c; try discriminate H
  | (match ?c with _ => _ end) = Ok _ => destruct c eqn:?; try discriminate H
  end;
  repeat match goal with
  | E : expect ?o = Ok _ |- _ => destruct o eqn:?; [injection E as <- | discriminate E]
  | E : ok_or ?o _ = Ok _ |- _ => destruct o eqn:?; [injection E as <- | discriminate E]
  end.

Lemma attr_parsed s a : 10 ∉ s -> Attribute.from_str s = Ok a -> attr_ok a = true.
Proof.
  unfold Attribute.from_str. intros Hs H. destruct (split_once 58 s) as [[k v] |] eqn:E.
  - injection H as <-. apply split_once_inv in E as [-> Hk]. unfold attr_ok, Attribute.new. simpl.
    assert ((10 ∉ k) /\ (10 ∉ v)) as [Hk10 Hv10] by (split; intros Hin; apply Hs; set_solver).
    rewrite (proj2 (lacks_spec 58 (trim k)) (trim_lacks _ _ Hk)), !trim_idempotent, !trim_text by assumption.
    rewrite !bool_decide_true by reflexivity. reflexivity.
  - injection H as <-. unfold attr_ok, Attribute.new. simpl.
    assert (58 ∉ s).
    { intros Hin. apply list_elem_of_split in Hin as (l1 & l2 & ->).
      clear - E. induction l1 as [| b l1 IH]; cbn [app split_once] in E; [discriminate |].
      destruct (b =? 58); [discriminate |]. destruct (split_once 58 (l1 ++ 58 :: l2)) as [[? ?] |]; [discriminate | auto]. }
    rewrite (proj2 (lacks_spec 58 (trim s))) by (apply trim_lacks; assumption).
    rewrite trim_idempotent, trim_text, bool_decide_true by auto. reflexivity.
Qed.

Lemma bw_parsed s b : 10 ∉ s -> Bandwidth.from_str s = Ok b -> bw_ok b = true.
Proof.
  unfold Bandwidth.from_str. intros Hs H. bind_inv H. destruct v as [typ val]. bind_inv H. simplify_eq.
  destruct (split_once 58 s) as [[k w] |] eqn:E; [| discriminate]. injection Hv as -> ->.
  apply split_once_inv in E as [-> Hk]. unfold bw_ok, Bandwidth.new. simpl.
  rewrite (proj2 (lacks_spec 58 typ) Hk), (proj2 (lacks_spec 10 typ)) by (intros Hin; apply Hs; set_solver).
  apply parse_uint_range in Hv0; [exact Hv0 | unfold u64_max; lia].
Qed.

Lemma conn_parsed s c : Connection.from_str s = Ok c -> conn_ok c = true.
Proof.
  unfold Connection.from_str. intros H. case_bool (length (split_whitespace s) =? 3)%nat; [| discriminate].
  inv_ok H. simplify_eq. unfold conn_ok. simpl.
  repeat match goal with E : split_whitespace _ !! _ = Some _ |- _ => apply nth_word in E; rewrite ?E; clear E end.
  reflexivity.
Qed.

Lemma port_parsed s p : PortSpec.from_str s = Ok p -> port_ok p = true.
Proof.
  unfold PortSpec.from_str. intros H.
  destruct (split_once 47 s) as [[k v] |]; repeat bind_inv H; simplify_eq; unfold port_ok; simpl;
    repeat match goal with E : parse_uint _ _ = Ok _ |- _ =>
      apply parse_uint_range in E; [rewrite E; clear E | unfold u16_max; lia] end; reflexivity.
Qed.

Lemma kind_parsed w : word w = true -> kind_ok (MediaKind.from w) = true.
Proof.
  intros Hw. unfold MediaKind.from. repeat case_decide; try reflexivity. simpl. rewrite Hw.
  unfold MediaKind.from. repeat (case_decide; [contradiction |]). reflexivity.
Qed.

Lemma forallb_drop {A} (f : A -> bool) k l : forallb f l = true -> forallb f (drop k l) = true.
Proof.
  rewrite !forallb_forall. intros H x Hx. apply H. apply list_elem_of_In in Hx. apply list_elem_of_In.
  apply list_elem_of_lookup in Hx as [i Hi]. rewrite lookup_drop in Hi. eapply list_elem_of_lookup_2, Hi.
Qed.

Lemma media_parsed s m : Media.from_str s = Ok m -> media_ok m = true.
Proof.
  unfold Media.from_str, MediaKind.from_str. intros H. repeat bind_inv H. simplify_eq.
  inv_ok H. unfold media_ok. simpl.
  match goal with E : split_whitespace s !! 0%nat = Some _ |- _ => apply nth_word, kind_parsed in E; rewrite E end.
  match goal with E : split_whitespace s !! 2%nat = Some _ |- _ => apply nth_word in E; rewrite E end.
  match goal with E : PortSpec.from_str _ = Ok _ |- _ => apply port_parsed in E; rewrite E end.
  rewrite (forallb_drop word 3 (split_whitespace s)) by apply split_whitespace_words. reflexivity.
Qed.

Lemma origin_parsed s o : Origin.from_str s = Ok o -> origin_ok o = true.
Proof.
  unfold Origin.from_str. intros H. case_test_in H; [discriminate |]. inv_ok H. simplify_eq.
  unfold origin_ok. simpl.
  repeat match goal with E : parse_uint _ _ = Ok _ |- _ =>
    apply parse_uint_range in E; [rewrite E; clear E | unfold u64_max; lia] end.
  assert (opt_ok word v7 = true) as ->.
  { case_test_in Hv7; [| injection Hv7 as <-; reflexivity].
    destruct (split_whitespace s !! 5%nat) eqn:E; [| discriminate].
    injection Hv7 as <-. apply nth_word in E. exact E. }
  rewrite (nth_word s 0 l3), (nth_word s 3 l0) by assumption. reflexivity.
Qed.

Lemma time_parsed s d : TimeDesc.from_str s = Ok d -> time_ok d = true.
Proof.
  unfold TimeDesc.from_str. intros H. destruct (split_whitespace s) as [| st [| et r]]; try discriminate.
  repeat bind_inv H. simplify_eq. unfold time_ok. simpl.
  repeat match goal with E : parse_uint _ _ = Ok _ |- _ =>
    apply parse_uint_range in E; [rewrite E; clear E | unfold u64_max; lia] end. reflexivity.
Qed.

Lemma match_nonempty {A E B} (l : list A) (err : E) (r s : B) :
  match l with [] => Err err | _ :: _ => Ok r end = Ok s -> r = s.
Proof. destruct l; congruence. Qed.

(** The variables of [parse] *)
Definition state_ok (s : Sdp.state) : bool :=
  opt_ok (in_range 0 u8_max) (Sdp.p_version s) && opt_ok origin_ok (Sdp.p_origin s) &&
  opt_ok text_ok (Sdp.p_name s) && opt_ok text_ok (Sdp.p_info s) && opt_ok text_ok (Sdp.p_uri s) &&
  forallb text_ok (Sdp.p_emails s) && forallb text_ok (Sdp.p_phones s) &&
  opt_ok conn_ok (Sdp.p_connection s) && forallb bw_ok (Sdp.p_bandwidth s) &&
  forallb time_ok (Sdp.p_times s) && forallb attr_ok (Sdp.p_attrs s) &&
  forallb media_ok (Sdp.p_media s) && forallb extra_ok (Sdp.p_extra s).

Lemma forallb_set_last {A} (P : A -> bool) (f : A -> A) l :
  (forall y, P y = true -> P (f y) = true) -> forallb P l = true -> forallb P (Sdp.set_last f l) = true.
Proof.
  intros Hf. destruct (decide (l = [])) as [-> | Hne]; [auto |].
  destruct (exists_last Hne) as (l' & y & ->). rewrite set_last_snoc, !forallb_app. simpl.
  rewrite !andb_true_r, !andb_true_iff. intuition.
Qed.

Lemma forallb_snoc {A} (P : A -> bool) l y : forallb P l = true -> P y = true -> forallb P (l ++ [y]) = true.
Proof. intros Hl Hy. rewrite forallb_app, Hl. simpl. rewrite Hy. reflexivity. Qed.

(** A field is set to a good value; the other conditions stay. *)
Ltac field_ok := unfold state_ok in *; simpl in *; conds;
  repeat (first [assumption | apply andb_true_intro; split]); auto using forallb_snoc.

Ltac media_field := apply forallb_set_last; [| assumption];
  let y := fresh "y" in let Hy := fresh "Hy" in
  intros y Hy; unfold media_ok in *; simpl; conds;
  repeat (first [assumption | apply andb_true_intro; split]); simpl; auto using forallb_snoc.

Ltac time_field := apply forallb_set_last; [| assumption];
  let y := fresh "y" in let Hy := fresh "Hy" in
  intros y Hy; unfold time_ok in *; simpl; conds;
  repeat (first [assumption | apply andb_true_intro; split]); simpl; auto using forallb_snoc.

Lemma dispatch_ok s line prefix rest s' :
  text_ok line = true -> Sdp.split_line line = Some (prefix, rest) -> state_ok s = true ->
  Sdp.dispatch s line prefix rest = Ok s' -> state_ok s' = true.
Proof.
  intros Hl Hsp Hs H.
  assert (Hr : text_ok rest = true).
  { apply split_once_inv in Hsp as [-> _]. apply text_ok_spec in Hl as [H1 H2]. apply text_ok_spec.
    split; [set_solver |]. rewrite last_app in H2. rewrite last_cons in H2.
    destruct (last rest); [exact H2 | discriminate]. }
  assert (Hr10 : 10 ∉ rest) by (apply text_ok_spec in Hr; tauto).
  destruct s as [v o n i u e p c b ti a m x inm]. unfold Sdp.dispatch in H.
  case_decide; [bind_inv H; simplify_eq; apply parse_uint_range in Hv; [field_ok | discriminate] |].
  case_decide; [bind_inv H; simplify_eq; apply origin_parsed in Hv; field_ok |].
  case_decide; [simplify_eq; field_ok |].
  case_decide; [destruct inm; simplify_eq; field_ok; media_field |].
  case_decide; [simplify_eq; field_ok |].
  case_decide; [simplify_eq; field_ok |].
  case_decide; [simplify_eq; field_ok |].
  case_decide; [bind_inv H; apply conn_parsed in Hv; destruct inm; simplify_eq; field_ok; media_field |].
  case_decide; [bind_inv H; apply bw_parsed in Hv; [| exact Hr10]; destruct inm; simplify_eq; field_ok; media_field |].
  case_decide; [bind_inv H; simplify_eq; apply time_parsed in Hv; field_ok |].
  case_decide; [apply match_nonempty in H; subst s'; field_ok; time_field |].
  case_decide; [apply match_nonempty in H; subst s'; field_ok; time_field |].
  case_decide; [bind_inv H; simplify_eq; apply media_parsed in Hv; field_ok |].
  case_decide; [bind_inv H; apply attr_parsed in Hv; [| exact Hr10]; destruct inm; simplify_eq; field_ok; media_field |].
  assert (Hx : extra_ok line = true).
  { unfold extra_ok. rewrite Hl, Hsp, bool_decide_false; [reflexivity |]. unfold known.
    repeat (apply not_elem_of_cons; split; [assumption |]). apply not_elem_of_nil. }
  destruct inm; simplify_eq; field_ok; media_field.
Qed.

Lemma parse_line_state_ok s raw s' : 10 ∉ raw -> state_ok s = true -> Sdp.parse_line s raw = Ok s' ->
  state_ok s' = true.
Proof.
  intros Hraw Hs. unfold Sdp.parse_line. destruct (trim_end_matches_spec 13 raw) as [[q Hq] Hlast].
  destruct (trim_end_matches 13 raw) as [| b l] eqn:E; [intros [= <-]; exact Hs |].
  destruct (Sdp.split_line (b :: l)) as [[p r] |] eqn:Esp; [| intros [= <-]; exact Hs].
  apply dispatch_ok; [| exact Esp | exact Hs]. apply text_ok_spec. split; [| exact Hlast].
  intros Hin. apply Hraw. rewrite Hq. apply elem_of_app. left. exact Hin.
Qed.

Lemma parse_lines_state_ok ls s s' : Forall (fun l => 10 ∉ l) ls -> state_ok s = true ->
  Sdp.parse_lines s ls = Ok s' -> state_ok s' = true.
Proof.
  intros Hl. revert s. induction Hl as [| raw ls Hraw _ IH]; intros s Hs H; cbn [Sdp.parse_lines] in H.
  - injection H as <-. exact Hs.
  - bind_inv H. eapply IH, H. eapply parse_line_state_ok; eassumption.
Qed.

Lemma parse_ok input s : Sdp.parse input = Ok s -> sdp_ok s = true.
Proof.
  unfold Sdp.parse. intros H. bind_inv H. apply parse_lines_state_ok in Hv; [| apply split_char_lacks | reflexivity].
  unfold Sdp.finish in H. repeat bind_inv H. simplify_eq.
  unfold ok_or in *. unfold state_ok in Hv. repeat case_match; simplify_eq. simpl in Hv. conds.
  unfold sdp_ok. simpl. repeat (first [assumption | apply andb_true_intro; split]).
Qed.

(** *** Errors *)
Lemma parse_uint_np max s : no_panic (parse_uint max s).
Proof.
  unfold parse_uint. pose proof (from_str_radix_np 10 max s). destruct (from_str_radix 10 max s); simpl; congruence.
Qed.

Lemma addr_np s : no_panic (map_err (fun _ => SdpError.AddrType) (AddrType.from_str s)).
Proof. unfold AddrType.from_str. repeat case_decide; discriminate. Qed.

Lemma expect_np {E A} (l : list A) k : (k < length l)%nat -> no_panic (@expect E A (l !! k)).
Proof. intros Hk. destruct (lookup_lt_is_Some_2 l k Hk) as [x ->]. discriminate. Qed.

Lemma ok_or_np {E A} (o : option A) (e : E) : no_panic (ok_or o e).
Proof. destruct o; discriminate. Qed.

Ltac no_panic_bind := repeat (apply bind_no_panic; [| intros]);
  first [ apply parse_uint_np | apply addr_np | apply ok_or_np | discriminate | idtac ].

Lemma connection_np s : no_panic (Connection.from_str s).
Proof.
  unfold Connection.from_str. case_bool (length (split_whitespace s) =? 3)%nat; [| discriminate].
  no_panic_bind; apply expect_np; lia.
Qed.

Lemma origin_np s : no_panic (Origin.from_str s).
Proof.
  unfold Origin.from_str. case_test; [discriminate |]. no_panic_bind; try (apply expect_np; lia).
  case_test; [| discriminate]. no_panic_bind. apply expect_np. lia.
Qed.

Lemma port_np s : no_panic (PortSpec.from_str s).
Proof. unfold PortSpec.from_str. destruct (split_once 47 s) as [[a b] |]; no_panic_bind. Qed.

Lemma bandwidth_np s : no_panic (Bandwidth.from_str s).
Proof.
  unfold Bandwidth.from_str. apply bind_no_panic; [apply ok_or_np |]. intros [typ val] _. no_panic_bind.
Qed.

Lemma time_np s : no_panic (TimeDesc.from_str s).
Proof. unfold TimeDesc.from_str. repeat case_match; no_panic_bind. Qed.

Lemma media_np s : no_panic (Media.from_str s).
Proof. unfold Media.from_str, MediaKind.from_str. no_panic_bind. apply port_np. Qed.

Lemma attribute_np s : no_panic (Attribute.from_str s).
Proof. unfold Attribute.from_str. case_match; discriminate. Qed.

Create HintDb sdp_np.
#[export] Hint Resolve parse_uint_np origin_np connection_np bandwidth_np time_np media_np attribute_np : sdp_np.

Lemma dispatch_np s line prefix rest : no_panic (Sdp.dispatch s line prefix rest).
Proof.
  destruct s as [v o n i u e p c b ti a m x inm]. unfold Sdp.dispatch.
  repeat (case_decide;
    [ first [ apply bind_no_panic; [solve [auto with sdp_np] | intros; repeat case_match; discriminate]
            | repeat case_match; discriminate ] |]).
  case_match; discriminate.
Qed.

Lemma parse_lines_np ls s : no_panic (Sdp.parse_lines s ls).
Proof.
  revert s. induction ls as [| raw ls IH]; intros s; [discriminate |]. cbn [Sdp.parse_lines].
  apply bind_no_panic; [| intros; apply IH]. unfold Sdp.parse_line.
  repeat case_match; try discriminate. apply dispatch_np.
Qed.

Lemma parse_np input : no_panic (Sdp.parse input).
Proof.
  unfold Sdp.parse. apply bind_no_panic; [apply parse_lines_np |]. intros s _. unfold Sdp.finish. no_panic_bind.
Qed.

(** The required fields are set by their own lines only. *)
Lemma dispatch_required s line prefix rest s' : Sdp.dispatch s line prefix rest = Ok s' ->
  (prefix <> lit "v" -> Sdp.p_version s' = Sdp.p_version s) /\
  (prefix <> lit "o" -> Sdp.p_origin s' = Sdp.p_origin s) /\
  (prefix <> lit "s" -> Sdp.p_name s' = Sdp.p_name s).
Proof.
  destruct s as [v o n i u e p c b ti a m x inm]. unfold Sdp.dispatch. intros H.
  repeat (case_decide; [try bind_inv H; repeat case_match; simplify_eq; simpl; repeat split; (reflexivity || congruence) |]).
  case_match; simplify_eq; repeat split.
Qed.

(** Some line of the input has this prefix. *)
Definition has_line (prefix : bytes) (input : bytes) : Prop :=
  exists raw rest, raw ∈ split_char 10 input /\
    Sdp.split_line (trim_end_matches 13 raw) = Some (prefix, rest).

Lemma parse_lines_required ls s s' : Sdp.parse_lines s ls = Ok s' ->
  let absent p := forall raw rest, raw ∈ ls -> Sdp.split_line (trim_end_matches 13 raw) <> Some (p, rest) in
  (absent (lit "v") -> Sdp.p_version s' = Sdp.p_version s) /\
  (absent (lit "o") -> Sdp.p_origin s' = Sdp.p_origin s) /\
  (absent (lit "s") -> Sdp.p_name s' = Sdp.p_name s).
Proof.
  cbv zeta. revert s. induction ls as [| raw ls IH]; intros s H; cbn [Sdp.parse_lines] in H.
  - injection H as <-. auto.
  - bind_inv H. apply IH in H as (H1 & H2 & H3).
    assert (Hd : (v = s) \/ exists p r l, Sdp.split_line (trim_end_matches 13 raw) = Some (p, r) /\
                   Sdp.dispatch s l p r = Ok v).
    { unfold Sdp.parse_line in Hv. destruct (trim_end_matches 13 raw) as [| b l]; [left; congruence |].
      destruct (Sdp.split_line (b :: l)) as [[p r] |]; [right; eauto 6 | left; congruence]. }
    destruct Hd as [-> | (p & r & l & Esp & Hd)].
    + split; [| split]; intros Ha; [apply H1 | apply H2 | apply H3]; intros raw' r' Hin; apply Ha; right; exact Hin.
    + apply dispatch_required in Hd as (D1 & D2 & D3).
      assert (Hp : forall q, (forall raw' r', raw' ∈ raw :: ls ->
                Sdp.split_line (trim_end_matches 13 raw') <> Some (q, r')) -> p <> q).
      { intros q Ha ->. apply (Ha raw r); [left | exact Esp]. }
      split; [| split]; intros Ha; pose proof (Hp _ Ha);
        [rewrite H1, D1 | rewrite H2, D2 | rewrite H3, D3]; auto; intros raw' r' Hin; apply Ha; right; exact Hin.
Qed.

(** C16 A session description survives being printed and parsed: every field of every line, for
    every description whose fields contain no line break and whose words are words. *)
Theorem sdp_roundtrip s : sdp_ok s = true -> Sdp.parse (Sdp.encode s) = Ok (canonical s).
Proof. apply encode_parse. Qed.

(** C35 Whatever the peer sends: a description that is accepted has values of the declared integer
    types and fields that can be printed; printed and parsed again it is the same description
    (with the default time line), and prints the same. *)
Theorem sdp_parsed_reparses input s : Sdp.parse input = Ok s ->
  sdp_ok s = true /\ Sdp.parse (Sdp.encode s) = Ok (canonical s) /\
  Sdp.encode (canonical s) = Sdp.encode s.
Proof.
  intros H. apply parse_ok in H. split; [exact H |]. split; [apply encode_parse, H |].
  rewrite !encode_text. unfold lines, canonical. simpl. destruct (Sdp.times s); reflexivity.
Qed.

(** Parsing never panics, and a description without one of the lines [v=], [o=], [s=] is an
    error whatever else it contains. *)
Theorem sdp_parse_errors input :
  no_panic (Sdp.parse input) /\
  forall p, p ∈ [lit "v"; lit "o"; lit "s"] -> ~ has_line p input -> exists e, Sdp.parse input = Err e.
Proof.
  split; [apply parse_np |]. intros p Hp Hno.
  destruct (Sdp.parse input) as [s | e |] eqn:E; [exfalso | eauto | destruct (parse_np input E)].
  assert (Ha : forall raw rest, raw ∈ split_char 10 input ->
            Sdp.split_line (trim_end_matches 13 raw) <> Some (p, rest)).
  { intros raw rest Hin Hs. apply Hno. exists raw, rest. auto. }
  unfold Sdp.parse in E. bind_inv E. apply parse_lines_required in Hv as (H1 & H2 & H3).
  unfold Sdp.finish in E. repeat bind_inv E. unfold ok_or in *. repeat case_match; simplify_eq.
  repeat (apply elem_of_cons in Hp as [-> | Hp]); [| | | inversion Hp].
  - pose proof (H1 Ha). simpl in *. congruence.
  - pose proof (H2 Ha). simpl in *. congruence.
  - pose proof (H3 Ha). simpl in *. congruence.
Qed.

(** ** A concrete description *)
Definition sample : Sdp.t :=
  Sdp.mk 0 (Origin.mk (lit "-") 123 18446744073709551615 (lit "IN") AddrType.IP4 (Some (lit "203.0.113.1")))
    (lit "Example call") None (Some (lit "http://x/?a=b")) [lit "a@b"] []
    (Some (Connection.new (lit "IN") AddrType.IP6 (lit "::1"))) [Bandwidth.new (lit "AS") 512] []
    [Attribute.new (lit "group") (Some (lit "BUNDLE 0"))]
    [Media.mk MediaKind.Video (PortSpec.new 9 (Some 2)) (lit "UDP/TLS/RTP/SAVPF") [lit "96"; lit "97"]
       (Some (lit "camera")) None [] [Attribute.new (lit "rtcp-mux") None;
       Attribute.new (lit "rtpmap") (Some (lit "96 H264/90000"))] [lit "x-note=hello"];
     Media.mk (MediaKind.Other (lit "data")) (PortSpec.new 0 None) (lit "UDP") [] None None [] [] []]
    [lit "k=clear"].

Lemma sdp_roundtrip_witness : Sdp.parse (Sdp.encode sample) = Ok (canonical sample).
Proof. apply (sdp_roundtrip sample). vm_compute. reflexivity. Defined.

Definition wire : bytes :=
  lit "v=0" ++ [13; 10] ++ lit "o=- 1 +1 IN IP4 203.0.113.1 junk" ++ [13; 10] ++ lit "s=Example" ++ [10] ++
  lit "nonsense" ++ [10] ++ lit "m=audio 49170 RTP/AVP 0" ++ [13; 10] ++ lit "a= rtpmap :0 PCMU/8000 " ++ [13; 13; 10].
Lemma sdp_parsed_reparses_witness : exists s,
  Sdp.parse wire = Ok s /\ Sdp.parse (Sdp.encode s) = Ok (canonical s).
Proof.
  destruct (Sdp.parse wire) as [s | |] eqn:E; [| vm_compute in E; discriminate..].
  exists s. split; [reflexivity |]. apply (sdp_parsed_reparses wire s E).
Defined.

Lemma sdp_parse_errors_witness : exists e, Sdp.parse (lit "v=0") = Err e.
Proof.
  apply (proj2 (sdp_parse_errors (lit "v=0")) (lit "o")); [set_solver |].
  intros (raw & rest & Hin & H). vm_compute in Hin. apply list_elem_of_singleton in Hin. subst raw.
  vm_compute in H. discriminate.
Defined.
