(* ===== verification/Net.v ===== *)
(** * Internet addresses and their text ([std::net])

    What the connection code uses of [IpAddr] and [SocketAddr]: the text of an address
    ([Display]) and its parser ([FromStr]), for both families. A socket is known by a number. *)

From stdpp Require Import prelude strings.
From Stdlib Require Import ZArith Lia.
From S2P Require Import Prelude Utf8 Text.
Local Open Scope Z_scope.

Inductive IpAddr : Type :=
| V4 (a b c d : Z)             (* octets *)
| V6 (segments : list Z).      (* eight 16-bit segments *)
#[export] Instance IpAddr_eq_dec : EqDecision IpAddr.
Proof. solve_decision. Defined.

Module SocketAddr.
Record t : Type := mk { ip : IpAddr; port : Z }.
#[export] Instance t_eq_dec : EqDecision t.
Proof. solve_decision. Defined.
Definition is_ipv4 (a : t) : bool := match ip a with V4 _ _ _ _ => true | V6 _ => false end.
End SocketAddr.
#[export] Existing Instance SocketAddr.t_eq_dec.

Definition is_ipv4 (i : IpAddr) : bool := match i with V4 _ _ _ _ => true | V6 _ => false end.
Definition is_loopback (i : IpAddr) : bool :=
  match i with V4 a _ _ _ => a =? 127 | V6 s => bool_decide (s = [0; 0; 0; 0; 0; 0; 0; 1]) end.

(** ** Display *)
Definition print_v4 (a b c d : Z) : bytes := join (lit ".") [dec a; dec b; dec c; dec d].

(** [{:x}]: no leading zeros *)
Fixpoint hex_aux (fuel : nat) (n : Z) (acc : bytes) : bytes :=
  match fuel with
  | O => acc
  | S f => let acc := hex_digit (n mod 16) :: acc in
           if n / 16 =? 0 then acc else hex_aux f (n / 16) acc
  end.
(** A [u64] has at most 16 hexadecimal digits. *)
Definition hex (n : Z) : bytes := hex_aux 16 n [].

(** The longest run of zero segments, the first one of that length: start and length *)
Fixpoint zero_runs (i : nat) (cur : nat * nat) (best : nat * nat) (s : list Z) : nat * nat :=
  match s with
  | [] => best
  | x :: s =>
      if x =? 0 then
        let cur := if (cur.2 =? 0)%nat then (i, 1%nat) else (cur.1, S cur.2) in
        zero_runs (S i) cur (if (best.2 <? cur.2)%nat then cur else best) s
      else zero_runs (S i) (0%nat, 0%nat) best s
  end.
Definition print_segments (s : list Z) : bytes := join (lit ":") (hex <$> s).
Definition print_v6 (s : list Z) : bytes :=
  match s with
  | [0; 0; 0; 0; 0; 65535; x; y] =>
      lit "::ffff:" ++ print_v4 (x / 256) (x mod 256) (y / 256) (y mod 256)
  | _ =>
      let '(start, len) := zero_runs 0 (0%nat, 0%nat) (0%nat, 0%nat) s in
      if (1 <? len)%nat then
        print_segments (take start s) ++ lit "::" ++ print_segments (drop (start + len) s)
      else print_segments s
  end.
Definition print_ip (i : IpAddr) : bytes :=
  match i with V4 a b c d => print_v4 a b c d | V6 s => print_v6 s end.
Definition print_addr (a : SocketAddr.t) : bytes :=
  match SocketAddr.ip a with
  | V4 _ _ _ _ => print_ip (SocketAddr.ip a) ++ lit ":" ++ dec (SocketAddr.port a)
  | V6 _ => lit "[" ++ print_ip (SocketAddr.ip a) ++ lit "]:" ++ dec (SocketAddr.port a)
  end.

(** ** Parsing: a reader consumes a prefix of the text or leaves it as it was. *)
Definition reader (A : Type) : Type := bytes -> option (A * bytes).

Fixpoint digits_prefix (radix : Z) (s : bytes) : list Z * bytes :=
  match s with
  | [] => ([], [])
  | c :: r => match to_digit radix c with
              | Some d => let '(ds, r) := digits_prefix radix r in (d :: ds, r)
              | None => ([], s)
              end
  end.
Definition digits_value (radix : Z) (ds : list Z) : Z := foldl (fun a d => a * radix + d) 0 ds.

Definition read_number (radix : Z) (max_digits : nat) (max : Z) (allow_zero_prefix : bool) : reader Z :=
  fun s =>
    let '(ds, r) := digits_prefix radix s in
    if (max_digits <? length ds)%nat then None
    else if max <? digits_value radix ds then None
    else if (length ds =? 0)%nat then None
    else if negb allow_zero_prefix && bool_decide (head s = Some 48) && (1 <? length ds)%nat then None
    else Some (digits_value radix ds, r).

Definition read_given_char (c : Z) : reader unit :=
  fun s => match s with b :: r => if b =? c then Some ((), r) else None | [] => None end.

(** [read_separator]: the separator is read before every group but the first. *)
Definition read_separator {A} (sep : Z) (index : nat) (inner : reader A) : reader A :=
  fun s => match index with
           | O => inner s
           | S _ => match read_given_char sep s with Some (_, r) => inner r | None => None end
           end.

Definition read_octet (i : nat) : reader Z := read_separator 46 i (read_number 10 3 255 false).
Definition read_v4 : reader IpAddr := fun s =>
  '(a, s) ← read_octet 0 s; '(b, s) ← read_octet 1 s; '(c, s) ← read_octet 2 s;
  '(d, s) ← read_octet 3 s; Some (V4 a b c d, s).

(** Up to [limit] groups from index [i]; an IPv4 address may stand for the last two. *)
Fixpoint read_groups (fuel i limit : nat) (s : bytes) : list Z * bool * bytes :=
  match fuel with
  | O => ([], false, s)
  | S f =>
      if negb (i <? limit)%nat then ([], false, s)
      else
        match (if (i <? limit - 1)%nat then read_separator 58 i read_v4 s else None) with
        | Some (V4 a b c d, r) => ([a * 256 + b; c * 256 + d], true, r)
        | _ =>
            match read_separator 58 i (read_number 16 4 65535 true) s with
            | Some (g, r) => let '(gs, v4, r) := read_groups f (S i) limit r in (g :: gs, v4, r)
            | None => ([], false, s)
            end
        end
  end.
Definition read_v6 : reader IpAddr := fun s =>
  let '(hd, hd4, r) := read_groups 8 0 8 s in
  if (length hd =? 8)%nat then Some (V6 hd, r)
  else if hd4 then None
  else
    '(_, r) ← read_given_char 58 r;
    '(_, r) ← read_given_char 58 r;
    let '(tl, _, r) := read_groups 7 0 (8 - (length hd + 1)) r in
    Some (V6 (hd ++ replicate (8 - length hd - length tl) 0 ++ tl), r).

(** [str::parse::<IpAddr>()] *)
Definition parse_ip (s : bytes) : option IpAddr :=
  match (match read_v4 s with Some x => Some x | None => read_v6 s end) with
  | Some (i, []) => Some i
  | _ => None
  end.

(** ** IPv4 addresses survive *)
Definition v4_ok (i : IpAddr) : Prop :=
  match i with V4 a b c d => u8 a /\ u8 b /\ u8 c /\ u8 d | V6 _ => False end.

Lemma digits_prefix_app l r : Forall (fun d => 48 <= d <= 57) l ->
  (match r with [] => True | c :: _ => to_digit 10 c = None end) ->
  digits_prefix 10 (l ++ r) = ((fun d => d - 48) <$> l, r).
Proof.
  intros Hl Hr. induction Hl as [| d l Hd _ IH].
  - destruct r as [| c r]; simpl; [reflexivity |]. rewrite Hr. reflexivity.
  - cbn [app digits_prefix fmap list_fmap]. rewrite to_digit_dec, IH by exact Hd. reflexivity.
Qed.

Lemma dec_octet x : u8 x ->
  digits_value 10 ((fun d => d - 48) <$> dec x) = x /\ (0 < length (dec x) <= 3)%nat /\
  (head (dec x) = Some 48 -> length (dec x) = 1%nat).
Proof. intros Hx. by_range 256%nat x. Qed.

Lemma read_number_octet x r : u8 x -> (match r with [] => True | c :: _ => to_digit 10 c = None end) ->
  read_number 10 3 255 false (dec x ++ r) = Some (x, r).
Proof.
  intros Hx Hr. destruct (dec_octet x Hx) as (Hv & Hl & Hz). unfold read_number.
  rewrite digits_prefix_app by (exact Hr || (apply dec_digits; ulia)).
  rewrite length_fmap, Hv. destruct (Nat.ltb_spec 3 (length (dec x))); [lia |].
  destruct (Z.ltb_spec 255 x); [ulia |]. destruct (Nat.eqb_spec (length (dec x)) 0); [lia |].
  match goal with |- (if ?c then _ else _) = _ => destruct c eqn:E end; [exfalso | reflexivity].
  apply andb_prop in E as [[_ E]%andb_prop Hlt%Nat.ltb_lt]. apply bool_decide_eq_true in E.
  assert (head (dec x) = Some 48) by (destruct (dec x); [simpl in *; lia | exact E]). lia.
Qed.

Lemma parse_print_v4 i : v4_ok i -> parse_ip (print_ip i) = Some i.
Proof.
  destruct i as [a b c d | s]; [| intros []]. intros (Ha & Hb & Hc & Hd).
  unfold parse_ip. simpl print_ip. unfold print_v4, read_v4, read_octet, read_separator. cbn [join].
  change (lit ".") with [46]. cbn [app].
  rewrite read_number_octet by (assumption || reflexivity).
  cbn [mbind option_bind read_given_char]. rewrite Z.eqb_refl.
  rewrite read_number_octet by (assumption || reflexivity).
  cbn [mbind option_bind read_given_char]. rewrite Z.eqb_refl.
  rewrite read_number_octet by (assumption || reflexivity).
  cbn [mbind option_bind read_given_char]. rewrite Z.eqb_refl.
  rewrite <- (app_nil_r (dec d)), read_number_octet by (assumption || exact I). reflexivity.
Qed.

Lemma print_v4_printable i : v4_ok i -> printable (print_ip i) = true.
Proof.
  destruct i as [a b c d | s]; [| intros []]. intros (Ha & Hb & Hc & Hd).
  assert (H : forall x, u8 x -> forallb (in_range 33 126) (dec x) = true).
  { intros x Hx. apply forallb_forall. intros y Hy. apply in_range_spec.
    pose proof (dec_digits x ltac:(ulia)) as Hf. rewrite Forall_forall in Hf.
    specialize (Hf y (proj2 (list_elem_of_In _ _) Hy)). simpl in Hf. lia. }
  unfold printable, print_ip, print_v4. cbn [join]. rewrite bool_decide_false.
  - rewrite !forallb_app, !H by assumption. reflexivity.
  - intros E. apply app_nil in E as [E _]. exact (dec_ne a E).
Qed.

Lemma hex_aux_printable f n acc : forallb (in_range 33 126) acc = true ->
  forallb (in_range 33 126) (hex_aux f n acc) = true.
Proof.
  revert n acc. induction f as [| f IH]; intros n acc Ha; cbn [hex_aux]; [exact Ha |].
  assert (forallb (in_range 33 126) (hex_digit (n mod 16) :: acc) = true).
  { cbn [forallb]. rewrite Ha, andb_true_r. apply in_range_spec.
    pose proof (hex_digit_spec (n mod 16) ltac:(apply Z.mod_pos_bound; lia)). lia. }
  case_test; auto.
Qed.

Lemma hex_aux_ne f n acc : (0 < f)%nat \/ acc <> [] -> hex_aux f n acc <> [].
Proof.
  revert n acc. induction f as [| f IH]; intros n acc Ha; cbn [hex_aux].
  - destruct Ha; [lia | assumption].
  - case_test; [discriminate | apply IH; right; discriminate].
Qed.

Lemma hex_printable n : printable (hex n) = true.
Proof.
  unfold printable, hex. rewrite hex_aux_printable by reflexivity. rewrite bool_decide_false; [reflexivity |].
  apply hex_aux_ne. lia.
Qed.
