(* ===== verification/Config.v ===== *)
(** * Configuration files (src/config.rs)

    An INI reader: comments, [[section]] headers, [key = value] pairs, the later pair wins. The
    text of the file is an argument ([fs::read_to_string]). *)

From stdpp Require Import prelude gmap strings.
From Stdlib Require Import ZArith Lia.
From S2P Require Import Prelude Utf8 Text.
Local Open Scope Z_scope.

Module Config.
Record t : Type := mk {
  globals : gmap bytes bytes;
  sections : gmap bytes (gmap bytes bytes) }.

(** [str::lines]: no empty line after the last line feed, one carriage return removed *)
Definition strip_cr (l : bytes) : bytes :=
  match last l with Some 13 => take (length l - 1) l | _ => l end.
Definition lines (s : bytes) : list bytes :=
  let ps := split_char 10 s in
  strip_cr <$> match last ps with Some [] => take (length ps - 1) ps | _ => ps end.

(** [trim_matches] of the double quote *)
Definition trim_quotes (s : bytes) : bytes := trim_end_matches 34 (drop_while_eq 34 s).

Record loader : Type := Loader {
  l_globals : gmap bytes bytes;
  l_sections : gmap bytes (gmap bytes bytes);
  current_section : option bytes }.

Definition load_line (st : loader) (raw : bytes) : loader :=
  let line := trim raw in
  if bool_decide (line = []) || bool_decide (head line = Some 35) then st
  else if bool_decide (head line = Some 91) && bool_decide (last line = Some 93) then
    Loader (l_globals st) (l_sections st) (Some (take (length line - 2) (drop 1 line)))
  else
    match split_once 61 line with
    | None => st
    | Some (k, v) =>
        let key := trim k in
        let value := trim_quotes (trim v) in
        match current_section st with
        | None => Loader (<[key := value]> (l_globals st)) (l_sections st) None
        | Some sec =>
            Loader (l_globals st)
              (<[sec := <[key := value]> (default ∅ (l_sections st !! sec))]> (l_sections st))
              (Some sec)
        end
    end.

Definition parse (content : bytes) : t :=
  let st := foldl load_line (Loader ∅ ∅ None) (lines content) in
  mk (l_globals st) (l_sections st).

(** [content] is the result of [fs::read_to_string], with the text of its error. *)
Definition load (path : bytes) (content : outcome bytes bytes) : outcome bytes t :=
  content ← map_err (fun e => lit "Error reading file " ++ path ++ lit ": " ++ e) content;
  Ok (parse content).

Definition empty : t := mk ∅ ∅.
Definition get (c : t) (section key : bytes) : option bytes :=
  sec ← sections c !! section; sec !! key.
Definition not_empty (o : option bytes) : option bytes :=
  match o with Some [] => None | _ => o end.
Definition get_non_empty (c : t) (section key : bytes) : option bytes := not_empty (get c section key).
Definition get_global (c : t) (key : bytes) : option bytes := globals c !! key.
Definition or_else (a b : option bytes) : option bytes := match a with Some _ => a | None => b end.
Definition get_or_default (c : t) (section key dflt : bytes) : bytes :=
  default dflt (or_else (get c section key) (get_global c key)).
Definition get_non_empty_or_default (c : t) (section key dflt : bytes) : bytes :=
  default dflt (or_else (get_non_empty c section key) (not_empty (get_global c key))).

(** ** A file that sets keys of sections *)
Record entry : Type := Entry { e_section : bytes; e_key : bytes; e_value : bytes }.
Definition entry_line (e : entry) : bytes := e_key e ++ lit "=" ++ e_value e.
Definition header_line (e : entry) : bytes := lit "[" ++ e_section e ++ lit "]".
Definition render (es : list entry) : bytes :=
  mjoin ((fun e => header_line e ++ [10] ++ entry_line e ++ [10]) <$> es).
Definition lacks (c : Z) (s : bytes) : bool := negb (bool_decide (c ∈ s)).
Definition entry_ok (e : entry) : bool :=
  lacks 10 (e_section e) && lacks 10 (e_key e) && lacks 10 (e_value e) && lacks 61 (e_key e) &&
  negb (bool_decide (head (e_key e) = Some 35)) && negb (bool_decide (head (e_key e) = Some 91)) &&
  bool_decide (trim (entry_line e) = entry_line e) && bool_decide (trim (e_key e) = e_key e) &&
  bool_decide (trim (e_value e) = e_value e) && bool_decide (trim_quotes (e_value e) = e_value e).

(** The value set last *)
Definition last_value (section key : bytes) (es : list entry) : option bytes :=
  foldl (fun acc e => if decide (e_section e = section /\ e_key e = key) then Some (e_value e) else acc) None es.

Lemma lacks_true c s : lacks c s = true <-> c ∉ s.
Proof. unfold lacks. rewrite negb_true_iff. apply bool_decide_eq_false. Qed.

Lemma strip_cr_id l : last l <> Some 13 -> strip_cr l = l.
Proof.
  unfold strip_cr. intros H. destruct (last l) as [b |]; [| reflexivity].
  destruct (decide (b = 13)) as [-> | Hb]; [congruence |]. repeat case_match; congruence.
Qed.

Lemma split_render es : forallb entry_ok es = true ->
  split_char 10 (render es) = mjoin ((fun e => [header_line e; entry_line e]) <$> es) ++ [[]].
Proof.
  induction es as [| e es IH]; [reflexivity |]. cbn [forallb]. intros [He Hes]%andb_prop.
  change (render (e :: es)) with ((header_line e ++ [10] ++ entry_line e ++ [10]) ++ render es).
  unfold entry_ok in He. repeat (apply andb_prop in He as [He ?]).
  repeat match goal with H : lacks _ _ = true |- _ => apply lacks_true in H end.
  rewrite <- !app_assoc. cbn [app]. rewrite split_char_line.
  - rewrite split_char_line; [rewrite IH by exact Hes; reflexivity |].
    unfold entry_line. set_solver.
  - unfold header_line. set_solver.
Qed.

Lemma entry_trimmed e : entry_ok e = true -> trim (entry_line e) = entry_line e.
Proof.
  unfold entry_ok. intros H. repeat (apply andb_prop in H as [H ?]).
  eapply bool_decide_eq_true_1. eassumption.
Qed.

Lemma lines_render es : forallb entry_ok es = true ->
  lines (render es) = mjoin ((fun e => [header_line e; entry_line e]) <$> es).
Proof.
  intros H. unfold lines. rewrite split_render by exact H.
  rewrite last_snoc, length_app. simpl. rewrite Nat.add_sub, take_app_length.
  induction es as [| e es IH]; [reflexivity |]. cbn [forallb] in H. apply andb_prop in H as [He Hes].
  change (strip_cr (header_line e) :: strip_cr (entry_line e) ::
          (strip_cr <$> mjoin ((fun e => [header_line e; entry_line e]) <$> es))
          = [header_line e; entry_line e] ++ mjoin ((fun e => [header_line e; entry_line e]) <$> es)).
  rewrite IH by exact Hes. rewrite !strip_cr_id; [reflexivity |..].
  - intros E. rewrite <- (entry_trimmed e He) in E. apply trim_last in E. discriminate.
  - unfold header_line. change (lit "]") with [93]. rewrite app_assoc, last_snoc. discriminate.
Qed.

Definition upd (m : gmap bytes (gmap bytes bytes)) (e : entry) : gmap bytes (gmap bytes bytes) :=
  <[e_section e := <[e_key e := e_value e]> (default ∅ (m !! e_section e))]> m.

Lemma load_header st e :
  load_line st (header_line e) = Loader (l_globals st) (l_sections st) (Some (e_section e)).
Proof.
  change (header_line e) with (91 :: e_section e ++ [93]). unfold load_line.
  assert (trim (91 :: e_section e ++ [93]) = 91 :: e_section e ++ [93]) as ->.
  { unfold trim. rewrite trim_start_ascii by (lia || reflexivity). rewrite app_comm_cons.
    apply trim_end_ascii; [lia | reflexivity]. }
  assert (last (91 :: e_section e ++ [93]) = Some 93) as -> by (rewrite app_comm_cons; apply last_snoc).
  cbn [head]. rewrite !bool_decide_false by discriminate. rewrite !bool_decide_true by reflexivity.
  cbn [orb andb drop length]. rewrite length_app.
  rewrite drop_0, take_app_length' by (simpl; lia). reflexivity.
Qed.

Lemma load_entry st e sec : entry_ok e = true -> current_section st = Some sec -> sec = e_section e ->
  load_line st (entry_line e) = Loader (l_globals st) (upd (l_sections st) e) (Some sec).
Proof.
  intros He Hs ->. unfold load_line. rewrite entry_trimmed by exact He.
  unfold entry_ok in He. repeat (apply andb_prop in He as [He ?]).
  repeat match goal with
  | H : lacks _ _ = true |- _ => apply lacks_true in H
  | H : negb _ = true |- _ => apply negb_true_iff, bool_decide_eq_false in H
  | H : bool_decide _ = true |- _ => apply bool_decide_eq_true in H
  end.
  assert (Hh : forall c, c <> 61 -> head (e_key e) <> Some c -> head (entry_line e) <> Some c).
  { intros c Hc Hk. unfold entry_line. destruct (e_key e); [cbn; intros [= E]; apply Hc; symmetry; exact E | exact Hk]. }
  rewrite (bool_decide_false (entry_line e = [])) by (unfold entry_line; destruct (e_key e); discriminate).
  rewrite !bool_decide_false by (apply Hh; [lia | assumption]). cbn [orb andb].
  change (entry_line e) with (e_key e ++ 61 :: e_value e). rewrite split_once_app by assumption. rewrite Hs.
  repeat match goal with H : trim (e_key e) = _ |- _ => rewrite H; clear H
                    | H : trim (e_value e) = _ |- _ => rewrite H; clear H
                    | H : trim_quotes _ = _ |- _ => rewrite H; clear H end.
  reflexivity.
Qed.

Lemma load_entries es st : forallb entry_ok es = true ->
  l_sections (foldl load_line st (mjoin ((fun e => [header_line e; entry_line e]) <$> es)))
  = foldl upd (l_sections st) es.
Proof.
  revert st. induction es as [| e es IH]; intros st; [reflexivity |]. cbn [forallb]. intros [He Hes]%andb_prop.
  change (l_sections (foldl load_line (load_line (load_line st (header_line e)) (entry_line e))
            (mjoin ((fun e => [header_line e; entry_line e]) <$> es))) = foldl upd (upd (l_sections st) e) es).
  rewrite load_header.
  rewrite (load_entry _ e (e_section e)) by (assumption || reflexivity). apply IH, Hes.
Qed.

Lemma lookup_upd m e s k :
  (sec ← upd m e !! s; sec !! k) =
  if decide (e_section e = s /\ e_key e = k) then Some (e_value e) else (sec ← m !! s; sec !! k).
Proof.
  unfold upd. destruct (decide (e_section e = s)) as [<- | Hs].
  - rewrite lookup_insert_eq. simpl. destruct (decide (e_key e = k)) as [<- | Hk].
    + rewrite lookup_insert_eq, decide_True by auto. reflexivity.
    + rewrite lookup_insert_ne, decide_False by tauto.
      destruct (m !! e_section e); [reflexivity | apply lookup_empty].
  - rewrite lookup_insert_ne, decide_False by tauto. reflexivity.
Qed.

(** Reading a configuration file: for a file that sets any number of keys, in any order and
    with repetitions, [get] returns the value set last for that key of that section, and nothing
    for a key that is not set. *)
Theorem config_last_value_wins es s k : forallb entry_ok es = true ->
  get (parse (render es)) s k = last_value s k es.
Proof.
  intros H. unfold get, parse, last_value. simpl. rewrite lines_render, load_entries by exact H. simpl.
  assert (Hg : forall m acc, (sec ← m !! s; sec !! k) = acc ->
    (sec ← foldl upd m es !! s; sec !! k)
    = foldl (fun acc e => if decide (e_section e = s /\ e_key e = k) then Some (e_value e) else acc) acc es).
  { clear H. induction es as [| e es IH]; intros m acc Hm; [exact Hm |]. cbn [foldl]. apply IH.
    rewrite lookup_upd, Hm. reflexivity. }
  apply Hg. rewrite lookup_empty. reflexivity.
Qed.

Definition sample : list entry :=
  [Entry (lit "ICE") (lit "stun_server") (lit "a:1"); Entry (lit "TLS") (lit "x") (lit "y=z");
   Entry (lit "ICE") (lit "stun_server") (lit "b:2")].
Lemma config_last_value_wins_witness :
  get (parse (render sample)) (lit "ICE") (lit "stun_server") = Some (lit "b:2").
Proof.
  rewrite (config_last_value_wins sample (lit "ICE") (lit "stun_server")); vm_compute; reflexivity.
Defined.
End Config.
