(* ===== verification/UserStore.v ===== *)
(** * User accounts in a file (src/signaling/auth/file_user_store.rs)

    The third implementation of [AuthBackend]: salted hashes, one account per line of a text
    file. SHA-256 and the order in which a [HashMap] is iterated are parameters; what the file
    system and the random generator answer is an argument of the operations. *)

From stdpp Require Import prelude gmap fin_maps strings.
From Stdlib Require Import ZArith Lia.
From S2P Require Import Prelude Utf8 Text Config SigState.
Local Open Scope Z_scope.

(** ** Hexadecimal *)
Definition HEX : bytes := lit "0123456789abcdef".
Definition to_hex (bs : bytes) : bytes :=
  mjoin ((fun b => [nth (Z.to_nat (Z.shiftr b 4)) HEX 0; nth (Z.to_nat (Z.land b 15)) HEX 0]) <$> bs).

Definition hex_val (c : Z) : option Z :=
  if in_range 48 57 c then Some (c - 48)
  else if in_range 97 102 c then Some (10 + c - 97)
  else if in_range 65 70 c then Some (10 + c - 65)
  else None.
(** The octets two by two; the number of them is even. *)
Fixpoint hex_pairs (chars : bytes) : option bytes :=
  match chars with
  | hi :: lo :: r =>
      h ← hex_val hi; l ← hex_val lo; rest ← hex_pairs r;
      Some (Z.lor (Z.shiftl h 4) l :: rest)
  | _ => Some []
  end.
Definition from_hex (input : bytes) (expected_len : nat) : option bytes :=
  if negb (length input =? expected_len * 2)%nat then None else hex_pairs input.

Module UserEntry.
Record t : Type := mk { salt : bytes; hash : bytes }.
#[export] Instance t_eq_dec : EqDecision t.
Proof. solve_decision. Defined.
End UserEntry.

(** ** The store *)
Module FileUserStore.
Record t : Type := mk { path : bytes; users : gmap bytes UserEntry.t }.

Definition load_line (users : gmap bytes UserEntry.t) (line : bytes) : gmap bytes UserEntry.t :=
  let line := trim line in
  if bool_decide (line = []) || bool_decide (head line = Some 35) then users
  else
    match split_char 58 line with
    | [username; salt_hex; hash_hex] =>
        match from_hex salt_hex 16, from_hex hash_hex 32 with
        | Some salt, Some hash => <[username := UserEntry.mk salt hash]> users
        | _, _ => users
        end
    | _ => users
    end.
(** [contents]: nothing when the path does not exist, else the result of opening the file and of
    [read_to_string] *)
Definition open (path : bytes) (contents : option (outcome bytes bytes)) : outcome bytes t :=
  match contents with
  | None => Ok (mk path ∅)
  | Some r => contents ← r; Ok (mk path (foldl load_line ∅ (Config.lines contents)))
  end.

Section store.
Context (sha256 : bytes -> bytes).
(** The order of the iteration over the table *)
Context (iter : gmap bytes UserEntry.t -> list (bytes * UserEntry.t)).

Definition hash_password (password salt : bytes) : bytes := sha256 (salt ++ password).

Definition user_line (e : bytes * UserEntry.t) : bytes :=
  e.1 ++ 58 :: to_hex (UserEntry.salt e.2) ++ 58 :: to_hex (UserEntry.hash e.2).
Definition render (users : gmap bytes UserEntry.t) : bytes := mjoin ((fun e => user_line e ++ [10]) <$> iter users).

(** What the file system and the random generator answer to a registration: whether the temporary
    file could be created, written, flushed and renamed, and the salt drawn. The temporary file is the
    path with the extension [tmp]: [same_file] says whether that is the database itself, as for a path
    that ends in [.tmp]; [left]: how many octets a write that fails leaves. *)
Record env : Type := Env {
  created : bool; written : bool; flushed : bool; renamed : bool; drawn : bytes; same_file : bool; left : nat }.

(** Whether it succeeds, and the new contents of the file if they change: creating a file empties it,
    and the old file stays until the rename when the temporary file is another. *)
Definition persist (s : t) (e : env) : bool * option bytes :=
  let buf := render (users s) in
  if negb (created e) then (false, None)
  else if written e && flushed e && renamed e then (true, Some buf)
  else (false, if same_file e then Some (if written e then buf else take (left e) buf) else None).

Definition verify (s : t) (username password : bytes) : outcome AuthError.t () :=
  match users s !! username with
  | Some entry =>
      if decide (hash_password password (UserEntry.salt entry) = UserEntry.hash entry) then Ok ()
      else Err AuthError.InvalidCredentials
  | None => Err AuthError.InvalidCredentials
  end.

(** The result, the store, and the new contents of the file if they change *)
Definition register (s : t) (username password : bytes) (e : env)
  : outcome RegisterError.t () * t * option bytes :=
  if (length username =? 0)%nat then (Err RegisterError.InvalidUsername, s, None)
  else if bool_decide (58 ∈ username) then (Err RegisterError.InvalidUsername, s, None)
  else if (length password <? 6)%nat then (Err RegisterError.WeakPassword, s, None)
  else if is_some (users s !! username) then (Err RegisterError.UsernameTaken, s, None)
  else
    let hash := hash_password password (drawn e) in
    let s' := mk (path s) (<[username := UserEntry.mk (drawn e) hash]> (users s)) in
    match persist s' e with
    | (false, contents) => (Err RegisterError.Internal, mk (path s') (delete username (users s')), contents)
    | (true, contents) => (Ok (), s', contents)
    end.
End store.
End FileUserStore.
Import FileUserStore.

(** ** Hexadecimal is read back *)
Lemma hex_octet b : u8 b ->
  let hi := nth (Z.to_nat (Z.shiftr b 4)) HEX 0 in
  let lo := nth (Z.to_nat (Z.land b 15)) HEX 0 in
  (h ← hex_val hi; l ← hex_val lo; Some (Z.lor (Z.shiftl h 4) l)) = Some b /\
  48 <= hi <= 102 /\ 48 <= lo <= 102 /\ hi <> 58 /\ lo <> 58 /\ ws1 lo = false.
Proof. intros Hb. by_range 256%nat b. Qed.

Lemma to_hex_cons b bs : to_hex (b :: bs)
  = nth (Z.to_nat (Z.shiftr b 4)) HEX 0 :: nth (Z.to_nat (Z.land b 15)) HEX 0 :: to_hex bs.
Proof. reflexivity. Qed.
Lemma length_to_hex bs : length (to_hex bs) = (2 * length bs)%nat.
Proof. induction bs as [| b bs IH]; [reflexivity |]. rewrite to_hex_cons. cbn [length]. lia. Qed.
Lemma hex_pairs_to_hex bs : bytes_ok bs -> hex_pairs (to_hex bs) = Some bs.
Proof.
  induction 1 as [| b bs Hb _ IH]; [reflexivity |]. rewrite to_hex_cons. cbn [hex_pairs]. rewrite IH.
  destruct (hex_octet b Hb) as [H _]. cbv zeta in H.
  destruct (hex_val (nth (Z.to_nat (Z.shiftr b 4)) HEX 0)); [| discriminate H].
  destruct (hex_val (nth (Z.to_nat (Z.land b 15)) HEX 0)); [| discriminate H].
  injection H as H. cbn [mbind option_bind]. rewrite H. reflexivity.
Qed.
Lemma from_to_hex bs n : bytes_ok bs -> length bs = n -> from_hex (to_hex bs) n = Some bs.
Proof.
  intros H <-. unfold from_hex. rewrite length_to_hex, Nat.mul_comm, Nat.eqb_refl. apply hex_pairs_to_hex, H.
Qed.
Lemma to_hex_chars bs : bytes_ok bs -> Forall (fun c => 48 <= c <= 102 /\ c <> 58) (to_hex bs).
Proof.
  induction 1 as [| b bs Hb _ IH]; [constructor |]. rewrite to_hex_cons.
  destruct (hex_octet b Hb) as (_ & H). cbv zeta in H. constructor; [tauto |]. constructor; [tauto | exact IH].
Qed.
Lemma to_hex_lacks c bs : bytes_ok bs -> c = 58 \/ c < 48 -> c ∉ to_hex bs.
Proof.
  intros H Hc Hin. pose proof (to_hex_chars bs H) as Hf. rewrite Forall_forall in Hf.
  specialize (Hf c Hin). lia.
Qed.
Lemma to_hex_last bs : bytes_ok bs -> bs <> [] -> exists l c, to_hex bs = l ++ [c] /\ c < 128 /\ ws1 c = false /\ c <> 13.
Proof.
  intros H Hne. destruct (exists_last Hne) as (l & b & ->). apply Forall_app in H as [_ Hb].
  apply Forall_cons in Hb as [Hb _]. destruct (hex_octet b Hb) as (_ & H). cbv zeta in H.
  exists (to_hex l ++ [nth (Z.to_nat (Z.shiftr b 4)) HEX 0]). eexists.
  split; [unfold to_hex; rewrite fmap_app, join_app, <- app_assoc; reflexivity |]. split_and!; [lia | tauto | lia].
Qed.
Lemma hex_val_range c v : hex_val c = Some v -> 0 <= v < 16.
Proof.
  unfold hex_val. destruct (in_range 48 57 c) eqn:E1; [intros [= <-]; apply in_range_spec in E1; lia |].
  destruct (in_range 97 102 c) eqn:E2; [intros [= <-]; apply in_range_spec in E2; lia |].
  destruct (in_range 65 70 c) eqn:E3; [intros [= <-]; apply in_range_spec in E3; lia | discriminate].
Qed.
Lemma hex_pairs_octets n : forall l v, length l = (2 * n)%nat -> hex_pairs l = Some v -> length v = n /\ bytes_ok v.
Proof.
  induction n as [| n IH]; intros l v Hl H.
  - destruct l; [| discriminate Hl]. injection H as <-. split; [reflexivity | constructor].
  - destruct l as [| hi [| lo l]]; [cbn [length] in Hl; lia .. |]. cbn [hex_pairs] in H.
    destruct (hex_val hi) as [h |] eqn:Eh; [| discriminate H].
    cbn [mbind option_bind] in H. destruct (hex_val lo) as [w |] eqn:Ew; [| discriminate H].
    cbn [mbind option_bind] in H. destruct (hex_pairs l) as [r |] eqn:Er; [| discriminate H]. injection H as <-.
    destruct (IH l r ltac:(cbn [length] in Hl; lia) Er) as [Hr Hb]. split; [cbn [length]; lia |].
    constructor; [| exact Hb]. apply hex_val_range in Eh, Ew. rewrite Z.shiftl_mul_pow2 by lia.
    clear -Eh Ew. assert (H : Forall (fun h => Forall (fun w => 0 <= Z.lor (h * 2 ^ 4) w < 256) (Z.of_nat <$> seq 0 16)) (Z.of_nat <$> seq 0 16)).
    { apply (bool_decide_unpack _). vm_compute. exact I. }
    rewrite Forall_forall in H. specialize (H h ltac:(apply list_elem_of_fmap; exists (Z.to_nat h); rewrite elem_of_seq; lia)).
    rewrite Forall_forall in H. apply H, list_elem_of_fmap. exists (Z.to_nat w). rewrite elem_of_seq. lia.
Qed.
Lemma from_hex_octets l n v : from_hex l n = Some v -> length v = n /\ bytes_ok v.
Proof.
  unfold from_hex. destruct (Nat.eqb_spec (length l) (n * 2)) as [E |]; [| discriminate]. simpl.
  apply hex_pairs_octets. lia.
Qed.

(** ** Splitting *)
Lemma split_at_char_none c s cur : c ∉ s -> split_at_char c cur s = [cur ++ s].
Proof.
  revert cur. induction s as [| b s IH]; intros cur H; cbn [split_at_char]; [rewrite app_nil_r; reflexivity |].
  apply not_elem_of_cons in H as [Hb H]. destruct (Z.eqb_spec b c); [congruence |].
  rewrite IH by exact H. rewrite <- app_assoc. reflexivity.
Qed.
Lemma split_char_one c s : c ∉ s -> split_char c s = [s].
Proof. apply (split_at_char_none c s []). Qed.
Lemma split_at_char_first c s cur n l : split_at_char c cur s = n :: l -> l <> [] -> exists r, cur ++ s = n ++ c :: r.
Proof.
  revert cur. induction s as [| b s IH]; intros cur; cbn [split_at_char]; [intros [= <- <-] []; reflexivity |].
  destruct (Z.eqb_spec b c) as [-> |]; [intros [= <- _] _; eauto |].
  intros H Hl. destruct (IH _ H Hl) as [r Hr]. exists r. rewrite <- Hr, <- app_assoc. reflexivity.
Qed.

(** ** Lines and accounts *)

(** A name that a line can hold: no colon, no line feed, not a comment, no white space at the start *)
Definition name_ok (n : bytes) : bool :=
  negb (bool_decide (58 ∈ n)) && negb (bool_decide (10 ∈ n)) && negb (bool_decide (head n = Some 35)) && negb (ws_at n).
Lemma name_ok_iff n : name_ok n = true <-> (58 ∉ n) /\ (10 ∉ n) /\ head n <> Some 35 /\ ws_at n = false.
Proof. unfold name_ok. rewrite !andb_true_iff, !negb_true_iff, !bool_decide_eq_false. tauto. Qed.
Record entry_ok (e : UserEntry.t) : Prop := {
  salt_octets : bytes_ok (UserEntry.salt e); salt_length : length (UserEntry.salt e) = 16%nat;
  hash_octets : bytes_ok (UserEntry.hash e); hash_length : length (UserEntry.hash e) = 32%nat }.
Definition users_ok (m : gmap bytes UserEntry.t) : Prop := map_Forall (fun n e => name_ok n = true /\ entry_ok e) m.

Lemma user_line_last n e : entry_ok e ->
  exists l c, user_line (n, e) = l ++ [c] /\ c < 128 /\ ws1 c = false /\ c <> 13.
Proof.
  intros [_ _ Ho Hl]. destruct (to_hex_last (UserEntry.hash e) Ho) as (l & c & E & Hc); [intros E; rewrite E in Hl; discriminate |].
  exists (n ++ 58 :: to_hex (UserEntry.salt e) ++ 58 :: l), c. split; [| exact Hc].
  unfold user_line. cbn [fst snd]. rewrite E, <- !app_assoc. cbn [app]. rewrite <- !app_assoc. reflexivity.
Qed.
Lemma user_line_head n e : name_ok n = true -> ws_at (user_line (n, e)) = false /\ head (user_line (n, e)) <> Some 35.
Proof.
  rewrite name_ok_iff. intros (_ & _ & Hh & Hw). unfold user_line. cbn [fst snd]. destruct n as [| b n].
  - destruct (to_hex (UserEntry.salt e) ++ 58 :: to_hex (UserEntry.hash e)) as [| b1 [| b2 r]] eqn:E; split; try discriminate;
      try reflexivity.
  - rewrite ws_at_app by (cbn; lia). split; [exact Hw | exact Hh].
Qed.
Lemma trim_line n e : name_ok n = true -> entry_ok e -> trim (user_line (n, e)) = user_line (n, e).
Proof.
  intros Hn He. unfold trim. rewrite trim_start_id by apply user_line_head, Hn.
  destruct (user_line_last n e He) as (l & c & -> & Hc & Hw & _). apply trim_end_ascii; assumption.
Qed.
Lemma split_user_line n e : name_ok n = true -> entry_ok e ->
  split_char 58 (user_line (n, e)) = [n; to_hex (UserEntry.salt e); to_hex (UserEntry.hash e)].
Proof.
  intros Hn [Hs _ Hh _]. apply name_ok_iff in Hn as [Hn _]. unfold user_line. cbn [fst snd].
  rewrite !split_char_line; [| apply to_hex_lacks; auto | exact Hn]. do 2 f_equal.
  apply split_char_one, to_hex_lacks; auto.
Qed.
Lemma load_user_line m n e : name_ok n = true -> entry_ok e -> load_line m (user_line (n, e)) = <[n := e]> m.
Proof.
  intros Hn He. unfold load_line. rewrite trim_line, split_user_line by assumption.
  destruct (user_line_head n e Hn) as [_ Hh]. rewrite (bool_decide_eq_false_2 _ Hh).
  rewrite bool_decide_eq_false_2; [| intros E; destruct (user_line_last n e He) as (l & c & E' & _); rewrite E in E'; destruct l; discriminate].
  cbn [orb]. destruct He as [Hs Hsl Hh' Hhl]. rewrite !from_to_hex by assumption. destruct e. reflexivity.
Qed.

Lemma lines_terminated (ls : list bytes) : Forall (fun l => (10 ∉ l) /\ last l <> Some 13) ls ->
  Config.lines (mjoin ((fun l => l ++ [10]) <$> ls)) = ls.
Proof.
  intros H. unfold Config.lines. assert (E : split_char 10 (mjoin ((fun l => l ++ [10]) <$> ls)) = ls ++ [[]]).
  { induction H as [| l ls [Hl _] _ IH]; [reflexivity |].
    cbn [fmap list_fmap mjoin list_join]. rewrite <- app_assoc. cbn [app].
    rewrite split_char_line by exact Hl. f_equal. exact IH. }
  rewrite E, last_snoc, length_app. cbn [length]. rewrite Nat.add_sub, take_app_length.
  clear E. induction H as [| l ls [_ Hl] _ IH]; [reflexivity |]. rewrite fmap_cons, IH, Config.strip_cr_id by exact Hl. reflexivity.
Qed.
Lemma strip_cr_prefix l : exists r, l = Config.strip_cr l ++ r.
Proof.
  unfold Config.strip_cr. assert (H : exists r, l = l ++ r) by (exists []; rewrite app_nil_r; reflexivity).
  assert (H' : exists r, l = take (length l - 1) l ++ r) by (exists (drop (length l - 1) l); rewrite take_drop; reflexivity).
  repeat case_match; first [exact H | exact H'].
Qed.
Lemma lines_lack s : Forall (fun l => 10 ∉ l) (Config.lines s).
Proof.
  unfold Config.lines. assert (H : Forall (fun l => 10 ∉ l) (split_char 10 s)) by apply split_char_lacks.
  apply Forall_fmap. eapply (Forall_impl (fun l => 10 ∉ l)).
  - destruct (last (split_char 10 s)) as [[|] |]; [apply Forall_take |..]; exact H.
  - intros l Hl Hin. apply Hl. destruct (strip_cr_prefix l) as [r E]. rewrite E. apply elem_of_app. left. exact Hin.
Qed.

(** ** What is written is read back *)
Lemma users_ok_insert m n e : users_ok m -> name_ok n = true -> entry_ok e -> users_ok (<[n := e]> m).
Proof. intros Hm Hn He. apply map_Forall_insert_2; auto. Qed.

(** Whatever the line, the table holds names that a line can hold. *)
Lemma load_line_ok m l : users_ok m -> 10 ∉ l -> users_ok (load_line m l).
Proof.
  intros Hm Hl. unfold load_line. case_bool_decide as E1; [exact Hm |]. case_bool_decide as E2; [exact Hm |]. cbn [orb].
  destruct (split_char 58 (trim l)) as [| n [| sh [| hh [|]]]] eqn:E; try exact Hm.
  destruct (from_hex sh 16) as [salt |] eqn:Es; [| exact Hm]. destruct (from_hex hh 32) as [hash |] eqn:Eh; [| exact Hm].
  apply from_hex_octets in Es as [Es1 Es2], Eh as [Eh1 Eh2].
  apply users_ok_insert; [exact Hm | | split; assumption]. apply name_ok_iff.
  assert (Hc : 58 ∉ n) by (pose proof (split_char_lacks 58 (trim l)) as H; rewrite E in H; apply Forall_cons in H; tauto).
  destruct (split_at_char_first 58 (trim l) [] n _ E ltac:(discriminate)) as [r Hr]. cbn [app] in Hr.
  split; [exact Hc |]. split; [| split].
  - intros Hin. apply (trim_lacks 10 l Hl). rewrite Hr. apply elem_of_app. left. exact Hin.
  - intros Hh. apply E2. rewrite Hr. destruct n; [discriminate Hh | exact Hh].
  - apply (ws_at_prefix n (58 :: r)). rewrite <- Hr. destruct (trim_end_prefix (trim_start l)) as [q Hq].
    apply (ws_at_prefix _ q). unfold trim. rewrite <- Hq. apply trim_start_spec.
Qed.
Lemma open_ok path c s : open path c = Ok s -> users_ok (users s).
Proof.
  unfold open. destruct c as [r |]; [| intros [= <-]; apply map_Forall_empty].
  intros H. bind_inv H. injection H as <-. cbn [users].
  pose proof (lines_lack v) as Hl. assert (Hm : users_ok ∅) by apply map_Forall_empty. revert Hm.
  generalize (∅ : gmap bytes UserEntry.t). induction Hl as [| l ls Hl _ IH]; intros m Hm; [exact Hm |].
  cbn [foldl]. apply IH, load_line_ok; assumption.
Qed.

Section store.
Context (sha256 : bytes -> bytes) (iter : gmap bytes UserEntry.t -> list (bytes * UserEntry.t)).
Hypothesis sha256_length : forall m, length (sha256 m) = 32%nat.
Hypothesis sha256_octets : forall m, bytes_ok (sha256 m).
Hypothesis iter_all : forall m, iter m ≡ₚ map_to_list m.

Lemma load_rendered l : Forall (fun e => name_ok e.1 = true /\ entry_ok e.2) l -> forall m,
  foldl load_line m (user_line <$> l) = foldl (fun m e => <[e.1 := e.2]> m) m l.
Proof.
  induction 1 as [| [n e] l [Hn He] _ IH]; intros m; [reflexivity |]. cbn [fmap list_fmap foldl].
  rewrite load_user_line by assumption. apply IH.
Qed.
Lemma foldl_insert {A} (l : list (bytes * A)) : NoDup l.*1 ->
  foldl (fun m e => <[e.1 := e.2]> m) (∅ : gmap bytes A) l = list_to_map l.
Proof.
  intros Hd. transitivity (list_to_map (reverse l) : gmap bytes A).
  - rewrite <- (reverse_involutive l) at 1. generalize (reverse l). clear. intros l.
    induction l as [| [k v] l IH]; [reflexivity |]. rewrite reverse_cons, foldl_snoc, IH. reflexivity.
  - apply list_to_map_proper; [rewrite reverse_Permutation; exact Hd | apply reverse_Permutation].
Qed.

Lemma open_render path m : users_ok m -> open path (Some (Ok (render iter m))) = Ok (mk path m).
Proof.
  intros Hm. unfold open, render. cbn [mbind outcome_bind]. do 2 f_equal.
  assert (Hf : Forall (fun e => name_ok e.1 = true /\ entry_ok e.2) (iter m)).
  { rewrite iter_all. apply map_Forall_to_list in Hm. eapply Forall_impl; [exact Hm |]. intros [n e] H. exact H. }
  replace ((fun e => user_line e ++ [10]) <$> iter m) with ((fun l => l ++ [10]) <$> (user_line <$> iter m))
    by (rewrite <- list_fmap_compose; reflexivity).
  rewrite lines_terminated.
  - rewrite load_rendered by exact Hf. rewrite foldl_insert.
    + rewrite <- (list_to_map_to_list m) at 2. apply list_to_map_proper; [| apply iter_all].
      rewrite iter_all. apply NoDup_fst_map_to_list.
    + rewrite iter_all. apply NoDup_fst_map_to_list.
  - apply Forall_fmap. eapply Forall_impl; [exact Hf |]. intros [n e] [Hn He]. cbn [fst snd] in *. split.
    + apply name_ok_iff in Hn as (_ & Hn & _). destruct He as [Hs _ Hh _]. unfold user_line. cbn [fst snd].
      rewrite !elem_of_app, elem_of_cons, elem_of_app, elem_of_cons.
      intros [? | [? | [Hi | [? | Hi]]]]; [tauto | lia | | lia |]; revert Hi; apply to_hex_lacks; auto; right; lia.
    + destruct (user_line_last n e He) as (l & c & E & _ & _ & Hc).
      change (last (user_line (n, e)) <> Some 13). rewrite E, last_snoc. congruence.
Qed.

(** ** A server and its file *)

(** The store in memory, the contents of its file, and what the environment will answer to the
    registrations to come *)
Record node : Type := Node { store : t; disk : option bytes; answers : nat -> env }.
Definition start (path : bytes) (disk : option bytes) (answers : nat -> env) : outcome bytes node :=
  s ← open path (Ok <$> disk); Ok (Node s disk answers).
Definition restart (n : node) : outcome bytes node := start (path (store n)) (disk n) (answers n).
Definition node_register (n : node) (username password : bytes) : outcome RegisterError.t () * node :=
  let '(r, s, contents) := register sha256 iter (store n) username password (answers n 0%nat) in
  (r, Node s (match contents with Some c => Some c | None => disk n end) (fun i => answers n (S i))).

#[export] Instance FileUserStore_backend : AuthBackend node := {
  SigState.verify n := verify sha256 (store n); SigState.register := node_register }.
#[export] Instance FileUserStore_laws : AuthLaws node.
Proof.
  split; cbn; unfold verify, node_register, register.
  - intros n u p. destruct (users (store n) !! u); [case_decide |]; discriminate.
  - intros n u p. repeat case_match; simplify_eq/=; discriminate.
  - intros n u p n'. repeat case_match; intros; simplify_eq/=; rewrite ?lookup_insert_eq in *; simplify_eq/=;
      rewrite ?decide_True in * by reflexivity; congruence.
  - intros n u p r n' v q H Hn. replace (users (store n') !! v) with (users (store n) !! v); [reflexivity |].
    repeat case_match; simplify_eq/=; try reflexivity; rewrite ?lookup_delete_ne, lookup_insert_ne by congruence; reflexivity.
Qed.

(** Registrations, whatever their results *)
Fixpoint registrations (n : node) (l : list (bytes * bytes)) : node :=
  match l with [] => n | (u, p) :: l => registrations (node_register n u p).2 l end.
Definition salts_ok (answers : nat -> env) : Prop := forall i, length (drawn (answers i)) = 16%nat /\ bytes_ok (drawn (answers i)).

(** The temporary file is a file of its own. *)
Definition separate (answers : nat -> env) : Prop := forall i, same_file (answers i) = false.

(** The file holds the accounts in memory. *)
Definition mirrored (n : node) : Prop :=
  users_ok (users (store n)) /\ open (path (store n)) (Ok <$> disk n) = Ok (store n).

Lemma register_mirrored n u p : mirrored n -> name_ok u = true -> salts_ok (answers n) -> separate (answers n) ->
  mirrored (node_register n u p).2.
Proof.
  intros [Hok Hd] Hu Hs Hsep. unfold node_register, register.
  destruct (length u =? 0)%nat; [split; assumption |]. case_bool_decide; [split; assumption |].
  destruct (length p <? 6)%nat; [split; assumption |].
  destruct (users (store n) !! u) eqn:Eu; [split; assumption |]. cbn [is_some].
  destruct (Hs 0%nat) as [Hl Ho]. unfold persist. rewrite (Hsep 0%nat).
  destruct (created _); [destruct (written _ && flushed _ && renamed _) |]; cbn [negb snd store disk path users];
    [| rewrite delete_insert_id by exact Eu; unfold mirrored; cbn; destruct (store n); split; assumption ..].
  - assert (Hm : users_ok (<[u := UserEntry.mk (drawn (answers n 0%nat)) (hash_password sha256 p (drawn (answers n 0%nat)))]> (users (store n)))).
    { apply users_ok_insert; [exact Hok | exact Hu |]. split; cbn; [exact Ho | exact Hl | apply sha256_octets | apply sha256_length]. }
    split; [exact Hm | apply open_render, Hm].
Qed.
Lemma registrations_mirrored l : forall n, Forall (fun r => name_ok r.1 = true) l -> salts_ok (answers n) ->
  separate (answers n) -> mirrored n -> mirrored (registrations n l).
Proof.
  induction l as [| [u p] l IH]; intros n Hl Hs Hsep Hn; [exact Hn |]. apply Forall_cons in Hl as [Hu Hl]. cbn [registrations].
  apply IH; [exact Hl | | | apply register_mirrored; assumption];
    intros i; unfold node_register; destruct (register _ _ _ _ _ _) as [[]]; [apply (Hs (S i)) | apply (Hsep (S i))].
Qed.

(** A restart loses nothing. Whatever the file held when the server started, and whichever
    registrations of names that fit a line then succeeded or failed, in the checks or in the file
    system at any point: starting again from the file gives the accounts in memory, so that the same
    passwords are accepted and refused; as long as the temporary file is not the database itself. *)
Theorem restart_keeps_accounts where_ saved tape n l :
  start where_ saved tape = Ok n -> salts_ok tape -> separate tape -> Forall (fun r => name_ok r.1 = true) l ->
  exists n', restart (registrations n l) = Ok n' /\
    forall u p, SigState.verify n' u p = SigState.verify (registrations n l) u p.
Proof.
  intros Hn Hs Hsep Hl. unfold start in Hn. bind_inv Hn. injection Hn as <-.
  destruct (registrations_mirrored l (Node v saved tape) Hl Hs Hsep) as [_ H].
  { split; [apply open_ok in Hv; exact Hv |]. cbn. replace (path v) with where_; [exact Hv |].
    unfold open in Hv. destruct saved; cbn in Hv; injection Hv as <-; reflexivity. }
  unfold restart, start. rewrite H. eexists. split; reflexivity.
Qed.
End store.

(** ** Examples *)
Module Demo.
(** A stand-in for SHA-256: 32 octets that depend on the whole message *)
Definition sha256 (m : bytes) : bytes := replicate 31 0 ++ [foldl (fun a b => (31 * a + b) mod 256) 7 m].
Definition iter : gmap bytes UserEntry.t -> list (bytes * UserEntry.t) := fun m => reverse (map_to_list m).
Definition disk_works (_ : nat) : env := Env true true true true (replicate 16 9) false 0.
Lemma sha256_length m : length (sha256 m) = 32%nat.
Proof. unfold sha256. rewrite length_app, length_replicate. reflexivity. Qed.
Lemma sha256_octets m : bytes_ok (sha256 m).
Proof.
  apply Forall_app. split; [apply Forall_replicate; ulia |]. apply Forall_singleton.
  destruct (reverse m) as [| b l] eqn:E.
  - apply (f_equal reverse) in E. rewrite reverse_involutive in E. subst m. cbn. ulia.
  - apply (f_equal reverse) in E. rewrite reverse_involutive, reverse_cons in E. subst m. rewrite foldl_snoc.
    apply Z.mod_pos_bound. lia.
Qed.
Definition fresh : node := Node (mk (lit "users.db") ∅) None disk_works.
Definition after (l : list (bytes * bytes)) : node := registrations sha256 iter fresh l.
Definition reopened (l : list (bytes * bytes)) : node := default fresh (match restart (after l) with Ok n => Some n | _ => None end).
End Demo.

Lemma restart_keeps_accounts_witness :
  exists n', restart (Demo.after [(lit "alice", lit "secret1"); (lit "bob", lit "short")]) = Ok n' /\
    verify Demo.sha256 (store n') (lit "alice") (lit "secret1") = Ok ().
Proof.
  destruct (restart_keeps_accounts Demo.sha256 Demo.iter Demo.sha256_length Demo.sha256_octets (fun m => reverse_Permutation _)
    (lit "users.db") None Demo.disk_works Demo.fresh [(lit "alice", lit "secret1"); (lit "bob", lit "short")])
    as (n' & H & Hv).
  - reflexivity.
  - intros i. split; [reflexivity | apply Forall_replicate; ulia].
  - intros i. reflexivity.
  - apply (bool_decide_unpack _). vm_compute. exact I.
  - exists n'. split; [exact H |]. specialize (Hv (lit "alice") (lit "secret1")). cbn [SigState.verify FileUserStore_backend] in Hv.
    rewrite Hv. vm_compute. reflexivity.
Defined.

(** When the temporary file is the database itself, a registration whose first write fails, as on a
    full disk, empties the file: after a restart every account is gone. *)
Lemma tmp_database_lost sha256 iter n u p :
  let e := answers n 0%nat in
  (0 < length u)%nat -> 58 ∉ u -> (6 <= length p)%nat -> users (store n) !! u = None ->
  created e = true -> written e = false -> same_file e = true -> left e = 0%nat ->
  let n' := (node_register sha256 iter n u p).2 in
  users (store n') = users (store n) /\
  restart n' = Ok (Node (mk (path (store n)) ∅) (Some []) (answers n')).
Proof.
  cbv zeta. intros Hu Hc Hp Hn H1 H2 H3 H4. unfold node_register, register, persist. rewrite H1, H2, H3, H4.
  destruct (Nat.eqb_spec (length u) 0); [lia |]. rewrite bool_decide_eq_false_2 by exact Hc.
  destruct (Nat.ltb_spec (length p) 6); [lia |]. rewrite Hn. cbn [is_some negb andb snd store users path].
  rewrite delete_insert_id by exact Hn. split; reflexivity.
Qed.

(** A name that starts with a number sign is a comment after a restart: the account is gone. *)
Lemma comment_name_lost :
  let l := [(lit "#eve", lit "secret1")] in
  verify Demo.sha256 (store (Demo.after l)) (lit "#eve") (lit "secret1") = Ok () /\
  verify Demo.sha256 (store (Demo.reopened l)) (lit "#eve") (lit "secret1") = Err AuthError.InvalidCredentials.
Proof. vm_compute. split; reflexivity. Qed.

(** Names are not checked for line feeds and leading white space: whoever registers [x], a line
    feed and [alice] makes a line that reads as an account of [alice], and after a restart, in
    whichever order that writes it last, the password of alice is the one of the intruder. *)
Lemma injected_line_takes_over :
  let evil := lit "x" ++ [10] ++ lit "alice" in
  let l := [(lit "alice", lit "secret1"); (evil, lit "intruder")] in
  verify Demo.sha256 (store (Demo.after l)) (lit "alice") (lit "secret1") = Ok () /\
  verify Demo.sha256 (store (Demo.reopened l)) (lit "alice") (lit "secret1") = Err AuthError.InvalidCredentials /\
  verify Demo.sha256 (store (Demo.reopened l)) (lit "alice") (lit "intruder") = Ok ().
Proof. vm_compute. split_and!; reflexivity. Qed.
