(* ===== verification/Ice.v ===== *)
(** * ICE (src/ice)

    Candidates, candidate pairs and the agent: gathering of host and server reflexive
    candidates (with the STUN request and the parser of its response), formation of the check
    list, connectivity checks and nomination. Sockets are numbers; the results of socket
    operations, of name resolution and random draws are arguments; what the agent sends is the
    list of its datagrams. [default_hash] is the standard library's hasher, whose algorithm is
    not specified. *)

From stdpp Require Import prelude gmap strings.
From Stdlib Require Import ZArith Lia.
From S2P Require Import Prelude Utf8 Text Net Config.
Local Open Scope Z_scope.

Module CandidateType.
Inductive t : Type := Host | ServerReflexive | PeerReflexive | Relayed.
#[export] Instance t_eq_dec : EqDecision t.
Proof. solve_decision. Defined.
(** [{:?}] *)
Definition debug (c : t) : bytes :=
  match c with
  | Host => lit "Host" | ServerReflexive => lit "ServerReflexive"
  | PeerReflexive => lit "PeerReflexive" | Relayed => lit "Relayed"
  end.
End CandidateType.
#[export] Existing Instance CandidateType.t_eq_dec.

(** [str::to_ascii_lowercase] *)
Definition to_ascii_lowercase (s : bytes) : bytes := (fun b => if in_range 65 90 b then b + 32 else b) <$> s.

Module Candidate.
Definition HOST_TYPE_PREF : Z := 126.
Definition PEER_REFLEXIVE_TYPE_PREF : Z := 110.
Definition SERVER_REFLEXIVE_TYPE_PREF : Z := 100.
Definition RELAYED_TYPE_PREF : Z := 0.
Definition MAX_LOCAL_PREF : Z := 65535.
Definition TYPE_PREF_SHIFT : Z := 24.
Definition LOCAL_PREF_SHIFT : Z := 8.
Definition COMPONENT_OFFSET : Z := 256.

Record t : Type := mk {
  foundation : bytes;
  component : Z;
  transport : bytes;
  priority : Z;
  address : SocketAddr.t;
  cand_type : CandidateType.t;
  related_address : option SocketAddr.t;
  socket : option Z }.
#[export] Instance t_eq_dec : EqDecision t.
Proof. solve_decision. Defined.

Definition calculate_foundation (default_hash : bytes -> Z) (ct : CandidateType.t)
    (transport_lc base_ip : bytes) : bytes :=
  hex (default_hash (CandidateType.debug ct ++ lit "-" ++ transport_lc ++ lit "-" ++ base_ip)).

Definition type_pref (ct : CandidateType.t) : Z :=
  match ct with
  | CandidateType.Host => HOST_TYPE_PREF
  | CandidateType.ServerReflexive => SERVER_REFLEXIVE_TYPE_PREF
  | CandidateType.PeerReflexive => PEER_REFLEXIVE_TYPE_PREF
  | CandidateType.Relayed => RELAYED_TYPE_PREF
  end.
Definition calculate_priority (ct : CandidateType.t) (local_pref component_id : Z) : Z :=
  Z.lor (Z.lor (Z.shiftl (type_pref ct) TYPE_PREF_SHIFT) (Z.shiftl local_pref LOCAL_PREF_SHIFT))
        (COMPONENT_OFFSET - component_id).

Section hash.
Context (default_hash : bytes -> Z).

Definition new (foundation : bytes) (component : Z) (transport : bytes) (priority : Z)
    (address : SocketAddr.t) (ct : CandidateType.t) (related : option SocketAddr.t)
    (socket : option Z) : t :=
  let tr := to_ascii_lowercase transport in
  let foundation := match foundation with
                    | [] => calculate_foundation default_hash ct tr (print_ip (SocketAddr.ip address))
                    | _ => foundation
                    end in
  let priority := if priority =? 0 then calculate_priority ct MAX_LOCAL_PREF component else priority in
  mk foundation component tr priority address ct related socket.

Definition host (address : SocketAddr.t) (transport : bytes) (component : Z) (socket : option Z) : t :=
  new [] component transport 0 address CandidateType.Host None socket.
End hash.

Definition quote : bytes := [34].
Definition to_json (c : t) : bytes :=
  lit "{" ++ quote ++ lit "foundation" ++ quote ++ lit ":" ++ quote ++ foundation c ++ quote ++ lit "," ++
  quote ++ lit "component" ++ quote ++ lit ":" ++ dec (component c) ++ lit "," ++
  quote ++ lit "transport" ++ quote ++ lit ":" ++ quote ++ transport c ++ quote ++ lit "," ++
  quote ++ lit "priority" ++ quote ++ lit ":" ++ dec (priority c) ++ lit "," ++
  quote ++ lit "address" ++ quote ++ lit ":" ++ quote ++ print_addr (address c) ++ quote ++ lit "," ++
  quote ++ lit "type" ++ quote ++ lit ":" ++ quote ++ CandidateType.debug (cand_type c) ++ quote ++ lit "}".
Definition clone_light (c : t) : t :=
  mk (foundation c) (component c) (transport c) (priority c) (address c) (cand_type c)
     (related_address c) None.
Definition to_string (c : t) : bytes :=
  join (lit " ") [foundation c; dec (component c); transport c; dec (priority c);
                  print_addr (address c); lit "typ"; CandidateType.debug (cand_type c)].
End Candidate.
#[export] Existing Instance Candidate.t_eq_dec.

Inductive IceRole : Type := Controlling | Controlled.
#[export] Instance IceRole_eq_dec : EqDecision IceRole.
Proof. solve_decision. Defined.

Module CandidatePairState.
Inductive t : Type := Waiting | InProgress | Succeeded | Failed.
#[export] Instance t_eq_dec : EqDecision t.
Proof. solve_decision. Defined.
End CandidatePairState.
#[export] Existing Instance CandidatePairState.t_eq_dec.

Module CandidatePair.
Definition PRIORITY_BITS_SHIFT : Z := 32.
Definition PRIORITY_DOUBLE_MULTIPLIER : Z := 2.
Definition TIE_BREAK_FLAG_ONE : Z := 1.
Definition TIE_BREAK_FLAG_ZERO : Z := 0.

Record t : Type := mk {
  local : Candidate.t;
  remote : Candidate.t;
  priority : Z;
  state : CandidatePairState.t;
  is_nominated : bool }.
#[export] Instance t_eq_dec : EqDecision t.
Proof. solve_decision. Defined.

Definition new (local remote : Candidate.t) (priority : Z) : t :=
  mk local remote priority CandidatePairState.Waiting false.
Definition clone_light (p : t) : t :=
  mk (Candidate.clone_light (local p)) (Candidate.clone_light (remote p)) (priority p) (state p) (is_nominated p).
Definition set_state (p : t) (s : CandidatePairState.t) : t :=
  mk (local p) (remote p) (priority p) s (is_nominated p).
Definition set_nominated (p : t) : t := mk (local p) (remote p) (priority p) (state p) true.

(** The [u64] arithmetic overflows above 2{^64}-1. *)
Definition calculate_pair_priority (local remote : Candidate.t) (role : IceRole) : outcome Empty_set Z :=
  let '(g, d) := match role with
                 | Controlling => (Candidate.priority local, Candidate.priority remote)
                 | Controlled => (Candidate.priority remote, Candidate.priority local)
                 end in
  let min_val := Z.min g d in
  let max_val := Z.max g d in
  let tie_break := if d <? g then TIE_BREAK_FLAG_ONE else TIE_BREAK_FLAG_ZERO in
  let v := Z.shiftl 1 PRIORITY_BITS_SHIFT * min_val + PRIORITY_DOUBLE_MULTIPLIER * max_val + tie_break in
  if u64_max <? v then Panic else Ok v.
End CandidatePair.
#[export] Existing Instance CandidatePair.t_eq_dec.

(** ** Gathering of host candidates (gathering_service.rs) *)
Module Gathering.
Definition error_message (msg : bytes) : bytes := lit "ERROR" ++ lit " " ++ Candidate.quote ++ msg ++ Candidate.quote.
Definition DEFAULT_COMPONENT_ID : Z := 1.
Definition TRANSPORT_UDP : bytes := lit "udp".

(** [probe]: whether the probe socket could be bound and, if so, its local address *)
Definition discover_local_ipv4 (probe : option (option SocketAddr.t)) : outcome bytes IpAddr :=
  match probe with
  | None => Err (error_message (lit "Error creating test socket"))
  | Some None => Err (error_message (lit "Error getting local address"))
  | Some (Some a) =>
      let local_ip := SocketAddr.ip a in
      if is_loopback local_ip || negb (is_ipv4 local_ip)
      then Err (error_message (lit "Not found a valid IPv4 address."))
      else Ok local_ip
  end.

(** [bound]: the result of binding a socket to port 0 of an address, and its local address *)
Definition create_main_socket (bound : option (Z * option SocketAddr.t)) : outcome bytes (SocketAddr.t * Z) :=
  match bound with
  | None => Err (error_message (lit "Error binding main socket"))
  | Some (_, None) => Err (error_message (lit "Error getting address of main socket"))
  | Some (sock, Some addr) => Ok (addr, sock)
  end.

Section hash.
Context (default_hash : bytes -> Z).

Definition gather_loopback_candidate (bound : option (Z * option SocketAddr.t)) : option Candidate.t :=
  match bound with
  | Some (sock, Some addr) =>
      Some (Candidate.host default_hash addr TRANSPORT_UDP DEFAULT_COMPONENT_ID (Some sock))
  | _ => None
  end.

(** What the operating system answers: the probe, then [bind] as a function of the address *)
Record host_env : Type := HostEnv {
  probe : option (option SocketAddr.t);
  bind : IpAddr -> option (Z * option SocketAddr.t) }.

Definition LOCALHOST : IpAddr := V4 127 0 0 1.
Definition gather_host_candidates (env : host_env) : list Candidate.t :=
  match discover_local_ipv4 (probe env) with
  | Ok local_ip =>
      match create_main_socket (bind env local_ip) with
      | Ok (addr, sock) =>
          [Candidate.host default_hash addr TRANSPORT_UDP DEFAULT_COMPONENT_ID (Some sock)] ++
          match gather_loopback_candidate (bind env LOCALHOST) with Some c => [c] | None => [] end
      | _ => []
      end
  | _ => []
  end.
End hash.
End Gathering.

(** ** STUN *)
Module Stun.
Definition STUN_BINDING_REQUEST : Z := 1.
Definition STUN_MAGIC_COOKIE : Z := 554869826.  (* 0x2112A442 *)
Definition ATTR_XOR_MAPPED_ADDRESS : Z := 32.
Definition FAMILY_IPV4 : Z := 1.

Definition request (transaction_id : bytes) : bytes :=
  to_be 2 STUN_BINDING_REQUEST ++ to_be 2 0 ++ to_be 4 STUN_MAGIC_COOKIE ++ transaction_id.

(** The walk over the attributes in the 512 octets of [buf], [len] of them received. Each turn
    moves on by at least four octets. *)
Fixpoint find_mapped (fuel : nat) (buf : bytes) (len offset : nat) : outcome bytes (option SocketAddr.t) :=
  match fuel with
  | O => Ok None
  | S f =>
    if (offset + 4 <=? len)%nat then
      attr_type ← read_be 2 buf offset;
      attr_len ← read_be 2 buf (offset + 2);
      let offset := (offset + 4)%nat in
      let n := Z.to_nat attr_len in
      let next := (offset + (n + n mod 4))%nat in
      if (attr_type =? ATTR_XOR_MAPPED_ADDRESS) && (8 <=? attr_len) then
        family ← get_idx buf (offset + 1);
        if family =? FAMILY_IPV4 then
          p ← read_be 2 buf (offset + 2);
          let port := Z.lxor p (wrap16 (Z.shiftr STUN_MAGIC_COOKIE 16)) in
          b0 ← get_idx buf (offset + 4);
          b1 ← get_idx buf (offset + 5);
          b2 ← get_idx buf (offset + 6);
          b3 ← get_idx buf (offset + 7);
          Ok (Some (SocketAddr.mk
            (V4 (Z.lxor b0 (wrap8 (Z.shiftr STUN_MAGIC_COOKIE 24)))
                (Z.lxor b1 (wrap8 (Z.shiftr STUN_MAGIC_COOKIE 16)))
                (Z.lxor b2 (wrap8 (Z.shiftr STUN_MAGIC_COOKIE 8)))
                (Z.lxor b3 (wrap8 STUN_MAGIC_COOKIE))) port))
        else find_mapped f buf len next
      else find_mapped f buf len next
    else Ok None
  end.

(** [recv_from] into a buffer of 512 zeros: what does not fit is lost. *)
Definition received (datagram : bytes) : bytes * nat :=
  let d := take 512 datagram in (d ++ replicate (512 - length d) 0, length d).

Definition mapped_address (datagram : bytes) : outcome bytes SocketAddr.t :=
  let '(buf, len) := received datagram in
  if (len <? 20)%nat then Err (lit "Invalid STUN response (too short)")
  else
    addr ← find_mapped 512 buf len 20;
    ok_or addr (lit "XOR-MAPPED-ADDRESS not found in STUN response").
End Stun.

(** ** The agent *)
Module IceAgent.
Import CandidatePairState.

Definition NOMINATION_REQUEST : bytes := lit "NOMINATE-BINDING-REQUEST".
Definition BINDING_REQUEST : bytes := lit "BINDING-REQUEST".
Definition BINDING_RESPONSE : bytes := lit "BINDING-RESPONSE".
Definition DEFAULT_STUN_SERVER : bytes := lit "stun.l.google.com:19302".
Definition DEFAULT_STUN_REQUEST_TIMEOUT_SECS : Z := 2.
Definition DEFAULT_MAX_CANDIDATE_PAIRS : Z := 100.
Definition MIN_PRIORITY_THRESHOLD : Z := 1.

Record t : Type := mk {
  stun_server : bytes;
  stun_request_timeout : Z;            (* seconds *)
  max_candidate_pairs : Z;
  local_candidates : list Candidate.t;
  remote_candidates : list Candidate.t;
  candidate_pairs : list CandidatePair.t;
  role : IceRole;
  ufrag : bytes;
  pwd : bytes;
  remote_ufrag : bytes;
  remote_pwd : bytes;
  nominated_pair : option CandidatePair.t }.

Definition set_pairs (s : t) (ps : list CandidatePair.t) (np : option CandidatePair.t) : t :=
  mk (stun_server s) (stun_request_timeout s) (max_candidate_pairs s) (local_candidates s)
     (remote_candidates s) ps (role s) (ufrag s) (pwd s) (remote_ufrag s) (remote_pwd s) np.
Definition set_candidates (s : t) (ls rs : list Candidate.t) : t :=
  mk (stun_server s) (stun_request_timeout s) (max_candidate_pairs s) ls rs (candidate_pairs s)
     (role s) (ufrag s) (pwd s) (remote_ufrag s) (remote_pwd s) (nominated_pair s).
Definition set_role (s : t) (r : IceRole) : t :=
  mk (stun_server s) (stun_request_timeout s) (max_candidate_pairs s) (local_candidates s)
     (remote_candidates s) (candidate_pairs s) r (ufrag s) (pwd s) (remote_ufrag s) (remote_pwd s)
     (nominated_pair s).
Definition set_remote_ufrag (s : t) (u : bytes) : t :=
  mk (stun_server s) (stun_request_timeout s) (max_candidate_pairs s) (local_candidates s)
     (remote_candidates s) (candidate_pairs s) (role s) (ufrag s) (pwd s) u (remote_pwd s)
     (nominated_pair s).
Definition set_remote_pwd (s : t) (p : bytes) : t :=
  mk (stun_server s) (stun_request_timeout s) (max_candidate_pairs s) (local_candidates s)
     (remote_candidates s) (candidate_pairs s) (role s) (ufrag s) (pwd s) (remote_ufrag s) p
     (nominated_pair s).

(** Each random draw is an index below the size of the alphabet. *)
Definition ALPHABET : bytes := lit "ABCDEFGHIJKLMNOPQRSTUVWXYZabcdefghijklmnopqrstuvwxyz0123456789".
Fixpoint gen_token (len : nat) (draws : nat -> nat) : outcome Empty_set bytes :=
  match len with
  | O => Ok []
  | S n => c ← expect (ALPHABET !! draws O); r ← gen_token n (fun k => draws (S k)); Ok (c :: r)
  end.
Definition fresh_credentials (draws : nat -> nat) : outcome Empty_set (bytes * bytes) :=
  u ← gen_token 8 draws; p ← gen_token 24 (fun k => draws (8 + k)%nat); Ok (u, p).

(** [and_then(|s| s.parse().ok()).unwrap_or(..)] for a 64-bit integer *)
Definition number_or (o : option bytes) (dflt : Z) : Z :=
  match o with
  | Some s => match from_str_radix 10 u64_max s with Ok v => v | _ => dflt end
  | None => dflt
  end.
Definition with_logger (role : IceRole) (config : Config.t) (draws : nat -> nat) : outcome Empty_set t :=
  '(ufrag, pwd) ← fresh_credentials draws;
  Ok (mk (Config.get_non_empty_or_default config (lit "ICE") (lit "stun_server") DEFAULT_STUN_SERVER)
         (number_or (Config.get config (lit "ICE") (lit "stun_request_timeout_secs")) DEFAULT_STUN_REQUEST_TIMEOUT_SECS)
         (number_or (Config.get config (lit "ICE") (lit "max_candidate_pairs")) DEFAULT_MAX_CANDIDATE_PAIRS)
         [] [] [] role ufrag pwd [] [] None).

Definition local_credentials (s : t) : bytes * bytes := (ufrag s, pwd s).
Definition add_local_candidate (s : t) (c : Candidate.t) : t :=
  set_candidates s (local_candidates s ++ [c]) (remote_candidates s).
Definition add_remote_candidate (s : t) (c : Candidate.t) : t :=
  set_candidates s (local_candidates s) (remote_candidates s ++ [c]).

(** *** Formation of the check list *)
Definition compatible (l r : Candidate.t) : bool :=
  Bool.eqb (SocketAddr.is_ipv4 (Candidate.address l)) (SocketAddr.is_ipv4 (Candidate.address r)) &&
  bool_decide (Candidate.transport l = Candidate.transport r).

Definition full (s : t) (pairs : list CandidatePair.t) : bool :=
  max_candidate_pairs s <=? Z.of_nat (length pairs).

(** The inner loop; it stops when the limit is reached. *)
Fixpoint pair_with (s : t) (l : Candidate.t) (rs : list Candidate.t) (pairs : list CandidatePair.t)
  : outcome Empty_set (list CandidatePair.t) :=
  match rs with
  | [] => Ok pairs
  | r :: rs =>
      priority ← CandidatePair.calculate_pair_priority l r (role s);
      if negb (Bool.eqb (SocketAddr.is_ipv4 (Candidate.address l)) (SocketAddr.is_ipv4 (Candidate.address r)))
      then pair_with s l rs pairs
      else if negb (bool_decide (Candidate.transport l = Candidate.transport r)) then pair_with s l rs pairs
      else if priority <? MIN_PRIORITY_THRESHOLD then pair_with s l rs pairs
      else
        let pairs := pairs ++ [CandidatePair.new l r priority] in
        if full s pairs then Ok pairs else pair_with s l rs pairs
  end.
Fixpoint pair_all (s : t) (ls : list Candidate.t) (pairs : list CandidatePair.t)
  : outcome Empty_set (list CandidatePair.t) :=
  match ls with
  | [] => Ok pairs
  | l :: ls => if full s pairs then Ok pairs
               else pairs ← pair_with s l (remote_candidates s) pairs; pair_all s ls pairs
  end.

(** [sort_by(|a, b| b.priority.cmp(&a.priority))]: the stable sort by descending priority *)
Fixpoint insert_desc (p : CandidatePair.t) (l : list CandidatePair.t) : list CandidatePair.t :=
  match l with
  | [] => [p]
  | q :: r => if CandidatePair.priority q <=? CandidatePair.priority p then p :: l else q :: insert_desc p r
  end.
Definition sort_desc (l : list CandidatePair.t) : list CandidatePair.t := foldr insert_desc [] l.

Definition form_candidate_pairs (s : t) : outcome Empty_set (t * nat) :=
  pairs ← pair_all s (local_candidates s) [];
  let pairs := sort_desc pairs in
  Ok (set_pairs s pairs (nominated_pair s), length pairs).

(** *** Checks *)
Record datagram : Type := Datagram { from_socket : Z; payload : bytes; dest : SocketAddr.t }.

(** [send_ok] gives the result of [send_to] on a datagram. *)
Section net.
Context (send_ok : datagram -> bool).

Definition check_pair (p : CandidatePair.t) : CandidatePair.t * list datagram :=
  match CandidatePair.state p with
  | Waiting =>
      match Candidate.socket (CandidatePair.local p) with
      | None => (CandidatePair.set_state p Failed, [])
      | Some sock =>
          let d := Datagram sock BINDING_REQUEST (Candidate.address (CandidatePair.remote p)) in
          (CandidatePair.set_state p (if send_ok d then InProgress else Failed), [d])
      end
  | _ => (p, [])
  end.
Definition start_checks (s : t) : t * list datagram :=
  let checked := check_pair <$> candidate_pairs s in
  (set_pairs s (fst <$> checked) (nominated_pair s), mjoin (snd <$> checked)).
End net.

(** The first pair with this remote address *)
Fixpoint find_remote (from : SocketAddr.t) (i : nat) (l : list CandidatePair.t) : option (nat * CandidatePair.t) :=
  match l with
  | [] => None
  | p :: l => if decide (Candidate.address (CandidatePair.remote p) = from) then Some (i, p)
              else find_remote from (S i) l
  end.

Definition send_from (p : CandidatePair.t) (msg : bytes) (to : SocketAddr.t) : list datagram :=
  match Candidate.socket (CandidatePair.local p) with Some sock => [Datagram sock msg to] | None => [] end.

Definition same_addresses (p q : CandidatePair.t) : bool :=
  bool_decide (Candidate.address (CandidatePair.local p) = Candidate.address (CandidatePair.local q)) &&
  bool_decide (Candidate.address (CandidatePair.remote p) = Candidate.address (CandidatePair.remote q)).

Definition handle_incoming_packet (s : t) (packet : bytes) (from : SocketAddr.t) : t * list datagram :=
  match find_remote from 0 (candidate_pairs s) with
  | None => (s, [])
  | Some (i, pr) =>
      if decide (packet = BINDING_RESPONSE) then
        if decide (CandidatePair.state pr = Succeeded) then (s, [])
        else
          let pr := CandidatePair.set_state pr Succeeded in
          let should_nominate :=
            bool_decide (role s = Controlling) &&
            match nominated_pair s with
            | None => true
            | Some np => CandidatePair.priority np <? CandidatePair.priority pr
            end in
          if should_nominate then
            let pr := CandidatePair.set_nominated pr in
            (set_pairs s (<[i := pr]> (candidate_pairs s)) (Some (CandidatePair.clone_light pr)),
             send_from pr NOMINATION_REQUEST (Candidate.address (CandidatePair.remote pr)))
          else (set_pairs s (<[i := pr]> (candidate_pairs s)) (nominated_pair s), [])
      else if bool_decide (packet = BINDING_REQUEST) || bool_decide (packet = NOMINATION_REQUEST) then
        let accept :=
          bool_decide (role s = Controlled) && bool_decide (packet = NOMINATION_REQUEST) &&
          match nominated_pair s with None => true | Some np => negb (same_addresses np pr) end in
        let s := if accept then
                   let pr := CandidatePair.set_state (CandidatePair.set_nominated pr) Succeeded in
                   set_pairs s (<[i := pr]> (candidate_pairs s)) (Some (CandidatePair.clone_light pr))
                 else s in
        (s, send_from pr BINDING_RESPONSE from)
      else (s, [])
  end.

(** *** Nomination *)

(** [max_by_key] keeps the last of equal elements. *)
Fixpoint best (i : nat) (acc : option (nat * CandidatePair.t)) (l : list CandidatePair.t)
  : option (nat * CandidatePair.t) :=
  match l with
  | [] => acc
  | p :: l =>
      let acc := if decide (CandidatePair.state p = Succeeded) then
                   match acc with
                   | None => Some (i, p)
                   | Some (_, q) => if CandidatePair.priority q <=? CandidatePair.priority p then Some (i, p) else acc
                   end
                 else acc in
      best (S i) acc l
  end.
Definition select_valid_pair (s : t) : t * option CandidatePair.t :=
  match best 0 None (candidate_pairs s) with
  | None => (s, None)
  | Some (i, p) =>
      let p := CandidatePair.set_nominated p in
      (set_pairs s (<[i := p]> (candidate_pairs s)) (Some (CandidatePair.clone_light p)), Some p)
  end.
Definition run_role_logic (s : t) : t :=
  match role s with Controlling => (select_valid_pair s).1 | Controlled => s end.

Definition update_pair_state (s : t) (i : nat) (st : CandidatePairState.t) : t :=
  match candidate_pairs s !! i with
  | Some p => set_pairs s (<[i := CandidatePair.set_state p st]> (candidate_pairs s)) (nominated_pair s)
  | None => s
  end.
Definition get_valid_pairs (s : t) : list CandidatePair.t :=
  filter (fun p => CandidatePair.state p = Succeeded) (candidate_pairs s).

Definition debug_state (c : CandidatePairState.t) : bytes :=
  match c with
  | Waiting => lit "Waiting" | InProgress => lit "InProgress" | Succeeded => lit "Succeeded" | Failed => lit "Failed"
  end.
Fixpoint find_pair (np : CandidatePair.t) (l : list CandidatePair.t) : option CandidatePair.t :=
  match l with
  | [] => None
  | p :: l => if same_addresses p np then Some p else find_pair np l
  end.
Definition get_data_channel_socket (s : t) : outcome bytes (Z * SocketAddr.t) :=
  np ← ok_or (nominated_pair s) (lit "No nominated pair available to get UDP channel socket.");
  if negb (bool_decide (CandidatePair.state np = Succeeded)) then
    Err (lit "Cannot get UDP channel socket — pair not in Succeeded state (current: "
         ++ debug_state (CandidatePair.state np) ++ lit ")")
  else
    pr ← ok_or (find_pair np (candidate_pairs s)) (lit "Nominated pair not found in candidate_pairs.");
    sock ← ok_or (Candidate.socket (CandidatePair.local pr))
             (lit "Nominated local candidate " ++ print_addr (Candidate.address (CandidatePair.local pr))
              ++ lit " has no associated socket.");
    Ok (sock, Candidate.address (CandidatePair.remote pr)).

(** *** The test exchange on the data channel; errors of the sockets are texts. *)
Definition send_test_message (s : t) (sock : Z) (msg : bytes) (sent : outcome bytes unit)
  : list datagram * outcome bytes unit :=
  match nominated_pair s with
  | None => ([], Err (lit "Cannot send message: no nominated pair available"))
  | Some pr =>
      let addr := Candidate.address (CandidatePair.remote pr) in
      ([Datagram sock (lit "BINDING-DATA " ++ msg) addr],
       map_err (fun e => lit "Failed to send UDP message to " ++ print_addr addr ++ lit ": " ++ e) sent)
  end.
(** [recv] is what [recv_from] wrote into the 512 octets of the buffer. *)
Definition receive_test_message (timeout recv : outcome bytes bytes) : outcome bytes bytes :=
  _ ← map_err (fun e => lit "Failed to set timeout: " ++ e) timeout;
  match recv with
  | Ok d => Ok (from_utf8_lossy (take 512 d))
  | Err e => Err (lit "Timeout or error while receiving UDP message: " ++ e)
  | Panic => Panic
  end.
Fixpoint contains (needle s : bytes) : bool :=
  bool_decide (take (length needle) s = needle) ||
  match s with [] => false | _ :: r => contains needle r end.
Definition start_data_channel (s : t) (connect sent : outcome bytes unit) (timeout recv : outcome bytes bytes)
  : list datagram * outcome bytes unit :=
  match nominated_pair s with
  | None => ([], Err (lit "Cannot start data channel: no nominated pair available."))
  | Some _ =>
      match map_err (fun e => lit "Failed to open UDP channel: " ++ e) (get_data_channel_socket s) with
      | Err e => ([], Err e)
      | Panic => ([], Panic)
      | Ok (sock, _) =>
          match connect with
          | Err e => ([], Err (lit "Failed to connect UDP channel: " ++ e))
          | Panic => ([], Panic)
          | Ok _ =>
              let '(ds, res) := send_test_message s sock (lit "hola ICE") sent in
              (ds,
               _ ← map_err (fun e => lit "Failed to send test message: " ++ e) res;
               match receive_test_message timeout recv with
               | Ok msg => if contains (lit "BINDING-ACK") msg then Ok ()
                           else Err (lit "Unexpected message received instead of ACK: " ++ msg)
               | Err e => Err (lit "Failed to receive ACK: " ++ e)
               | Panic => Panic
               end)
          end
      end
  end.

(** *** Gathering *)
Section hash.
Context (default_hash : bytes -> Z).

(** What the network answers to [gather_stun_candidates]; errors are texts. *)
Record stun_env : Type := StunEnv {
  resolved : option (list SocketAddr.t);       (* None: the name cannot be resolved *)
  bound : outcome bytes Z;
  timeout_set : outcome bytes unit;
  local_addr : outcome bytes SocketAddr.t;
  transaction_id : bytes;
  request_sent : outcome bytes unit;
  response : outcome bytes bytes }.

Definition gather_stun_candidates (server : bytes) (env : stun_env) : list datagram * outcome bytes (list Candidate.t) :=
  match resolved env with
  | None => ([], Err (lit "Cannot resolve STUN server: " ++ server))
  | Some [] => ([], Err (lit "No valid address found for STUN server: " ++ server))
  | Some (server_addr :: _) =>
      match map_err (fun e => lit "Failed to bind UDP socket: " ++ e) (bound env) with
      | Err e => ([], Err e)
      | Panic => ([], Panic)
      | Ok sock =>
          match (_ ← map_err (fun e => lit "Failed to set socket timeout: " ++ e) (timeout_set env);
                 map_err (fun e => lit "Could not get local address: " ++ e) (local_addr env)) with
          | Err e => ([], Err e)
          | Panic => ([], Panic)
          | Ok local =>
              ([Datagram sock (Stun.request (transaction_id env)) server_addr],
               _ ← map_err (fun e => lit "Failed to send STUN request: " ++ e) (request_sent env);
               d ← map_err (fun e => lit "No STUN response received: " ++ e) (response env);
               public ← Stun.mapped_address d;
               Ok [Candidate.new default_hash [] 1 (lit "udp") 0 public CandidateType.ServerReflexive
                     (Some local) (Some sock)])
          end
      end
  end.

Definition gather_candidates (s : t) (host : Gathering.host_env) (stun : stun_env)
  : outcome Empty_set (t * list datagram) :=
  let candidates := Gathering.gather_host_candidates default_hash host in
  let '(ds, res) := gather_stun_candidates (stun_server s) stun in
  match res with
  | Panic => Panic
  | Ok srflx => Ok (foldl add_local_candidate s (candidates ++ srflx), ds)
  | Err _ => Ok (foldl add_local_candidate s candidates, ds)
  end.
End hash.
End IceAgent.
