(* ===== verification/IceTheory.v ===== *)
(** * ICE: the check list, nomination and STUN *)

From stdpp Require Import prelude gmap strings sorting.
From Stdlib Require Import ZArith Lia.
From S2P Require Import Prelude Utf8 Text Net Config Ice.
Local Open Scope Z_scope.
Import IceAgent CandidatePairState.

(** ** Priorities *)
Definition cand_ok (c : Candidate.t) : Prop := u32 (Candidate.priority c).
(** The range of the priorities that [calculate_priority] computes *)
Definition local_ok (c : Candidate.t) : Prop := 0 <= Candidate.priority c < 2147483648.

Lemma lor_small a b n : 0 <= n -> 0 <= a < 2 ^ n -> 0 <= b < 2 ^ n -> 0 <= Z.lor a b < 2 ^ n.
Proof.
  intros Hn Ha Hb. assert (H0 : 0 <= Z.lor a b) by (apply Z.lor_nonneg; lia). split; [exact H0 |].
  destruct (Z.eq_dec (Z.lor a b) 0) as [-> | Hne]; [lia |].
  apply Z.log2_lt_pow2; [lia |]. rewrite Z.log2_lor by lia.
  destruct (Z.eq_dec a 0) as [-> | ?], (Z.eq_dec b 0) as [-> | ?]; rewrite ?Z.lor_0_l in *; try lia;
    apply Z.max_lub_lt; try (apply Z.log2_lt_pow2; lia); simpl; try lia;
    destruct n; try lia.
Qed.

Lemma calculate_priority_range ct component : u8 component ->
  0 <= Candidate.calculate_priority ct Candidate.MAX_LOCAL_PREF component < 2147483648.
Proof.
  intros Hc. unfold Candidate.calculate_priority. change 2147483648 with (2 ^ 31).
  unfold Candidate.COMPONENT_OFFSET. apply lor_small; [lia | | ulia].
  destruct ct; vm_compute; split; congruence.
Qed.

Definition pair_priority (l r : Candidate.t) (ro : IceRole) : Z :=
  let '(g, d) := match ro with
                 | Controlling => (Candidate.priority l, Candidate.priority r)
                 | Controlled => (Candidate.priority r, Candidate.priority l)
                 end in
  4294967296 * Z.min g d + 2 * Z.max g d + (if d <? g then 1 else 0).

Lemma pair_priority_value l r ro : local_ok l -> cand_ok r ->
  CandidatePair.calculate_pair_priority l r ro = Ok (pair_priority l r ro).
Proof.
  intros Hl Hr. unfold CandidatePair.calculate_pair_priority, pair_priority, local_ok, cand_ok, u32 in *.
  unfold CandidatePair.PRIORITY_BITS_SHIFT, CandidatePair.PRIORITY_DOUBLE_MULTIPLIER,
    CandidatePair.TIE_BREAK_FLAG_ONE, CandidatePair.TIE_BREAK_FLAG_ZERO, u64_max.
  change (Z.shiftl 1 32) with 4294967296.
  destruct ro; cbv beta iota zeta;
    match goal with |- (if ?a <? ?b then _ else _) = _ => destruct (Z.ltb_spec a b) as [Hx |] end;
    try reflexivity; exfalso; revert Hx; case_test; lia.
Qed.

(** The two ends compute the same number. *)
Lemma pair_priority_mirror l r : pair_priority l r Controlling = pair_priority r l Controlled.
Proof. reflexivity. Qed.

(** ** The check list *)
Definition formed (ro : IceRole) (l r : Candidate.t) : bool := compatible l r && (1 <=? pair_priority l r ro).
(** Every pair that can be formed, in the order of the loops *)
Definition pairs_of (ro : IceRole) (l : Candidate.t) (rs : list Candidate.t) : list CandidatePair.t :=
  (fun r => CandidatePair.new l r (pair_priority l r ro)) <$> filter (fun r => formed ro l r = true) rs.
Definition all_pairs (ro : IceRole) (ls rs : list Candidate.t) : list CandidatePair.t :=
  mjoin ((fun l => pairs_of ro l rs) <$> ls).

Lemma pair_with_eq s l rs pairs : local_ok l -> Forall cand_ok rs ->
  full s pairs = false -> exists k,
  pair_with s l rs pairs = Ok (pairs ++ take k (pairs_of (role s) l rs)) /\
  (full s (pairs ++ take k (pairs_of (role s) l rs)) = false -> take k (pairs_of (role s) l rs) = pairs_of (role s) l rs) /\
  Z.of_nat (length (pairs ++ take k (pairs_of (role s) l rs))) <= max_candidate_pairs s.
Proof.
  intros Hl Hrs. revert pairs. induction Hrs as [| r rs Hr Hrs IH]; intros pairs Hf; cbn [pair_with].
  - exists 0%nat. rewrite take_0, app_nil_r. repeat split. unfold full in Hf. lia.
  - rewrite pair_priority_value by assumption. cbn [mbind outcome_bind].
    assert (Hskip : formed (role s) l r = false -> exists k,
      pair_with s l rs pairs = Ok (pairs ++ take k (pairs_of (role s) l (r :: rs))) /\
      (full s (pairs ++ take k (pairs_of (role s) l (r :: rs))) = false ->
         take k (pairs_of (role s) l (r :: rs)) = pairs_of (role s) l (r :: rs)) /\
      Z.of_nat (length (pairs ++ take k (pairs_of (role s) l (r :: rs)))) <= max_candidate_pairs s).
    { intros Hno. destruct (IH pairs Hf) as (k & H1 & H2 & H3). exists k.
      assert (pairs_of (role s) l (r :: rs) = pairs_of (role s) l rs) as ->.
      { unfold pairs_of. rewrite filter_cons_False by congruence. reflexivity. }
      auto. }
    unfold formed, compatible in Hskip. unfold MIN_PRIORITY_THRESHOLD.
    destruct (Bool.eqb _ _) eqn:E1; cbn [negb andb] in *; [| apply Hskip; reflexivity].
    destruct (bool_decide (Candidate.transport l = Candidate.transport r)) eqn:E2; cbn [negb andb] in *;
      [| apply Hskip; reflexivity].
    destruct (Z.ltb_spec (pair_priority l r (role s)) 1);
      [apply Hskip; apply Z.leb_gt; lia |]. clear Hskip.
    assert (Hp : pairs_of (role s) l (r :: rs)
                 = CandidatePair.new l r (pair_priority l r (role s)) :: pairs_of (role s) l rs).
    { unfold pairs_of. rewrite filter_cons_True; [reflexivity |].
      unfold formed, compatible. rewrite E1, E2. apply Z.leb_le. lia. }
    rewrite Hp. destruct (full s (pairs ++ [_])) eqn:Ef.
    + exists 1%nat. simpl. rewrite take_0. split; [reflexivity |]. split; [congruence |].
      unfold full in *. rewrite length_app in *. simpl in *. lia.
    + destruct (IH _ Ef) as (k & H1 & H2 & H3). exists (S k). cbn [take].
      rewrite <- app_assoc in *. cbn [app] in *. split; [exact H1 |]. split; [| exact H3].
      intros Hx. f_equal. apply H2, Hx.
Qed.

Lemma take_length_take {A} k (l : list A) : take (length (take k l)) l = take k l.
Proof.
  rewrite length_take. destruct (Nat.le_ge_cases k (length l)).
  - rewrite Nat.min_l by lia. reflexivity.
  - rewrite Nat.min_r, !take_ge by lia. reflexivity.
Qed.

Lemma pair_all_eq s ls pairs : Forall local_ok ls -> Forall cand_ok (remote_candidates s) ->
  Z.of_nat (length pairs) <= max_candidate_pairs s ->
  exists k, let new := take k (all_pairs (role s) ls (remote_candidates s)) in
  pair_all s ls pairs = Ok (pairs ++ new) /\
  Z.of_nat (length (pairs ++ new)) <= max_candidate_pairs s /\
  (Z.of_nat (length (pairs ++ new)) < max_candidate_pairs s ->
     new = all_pairs (role s) ls (remote_candidates s)).
Proof.
  intros Hls Hrs. revert pairs. induction Hls as [| l ls Hl Hls IH]; intros pairs Hlen; cbn [pair_all].
  - exists 0%nat. cbv zeta. rewrite take_0, app_nil_r. auto.
  - cbv zeta in *. destruct (full s pairs) eqn:Hf.
    + exists 0%nat. rewrite take_0, app_nil_r. split; [reflexivity |]. split; [exact Hlen |].
      unfold full in Hf. lia.
    + destruct (pair_with_eq s l (remote_candidates s) pairs Hl Hrs Hf) as (k & -> & Hall & Hk).
      cbn [mbind outcome_bind]. set (X := pairs_of (role s) l (remote_candidates s)) in *.
      change (all_pairs (role s) (l :: ls) (remote_candidates s))
        with (X ++ all_pairs (role s) ls (remote_candidates s)).
      destruct (full s (pairs ++ take k X)) eqn:Hf2.
      * exists (length (take k X)). rewrite take_app_le by (rewrite length_take; lia).
        rewrite take_length_take.
        split; [| split; [exact Hk | unfold full in Hf2; lia]].
        destruct ls; cbn [pair_all]; [reflexivity | rewrite Hf2; reflexivity].
      * rewrite (Hall eq_refl) in *. destruct (IH (pairs ++ X) Hk) as (j & H1 & H2 & H3).
        exists (length X + j)%nat. rewrite take_app_add. rewrite app_assoc in *.
        split; [exact H1 |]. split; [exact H2 |]. intros Hlt. f_equal. apply H3, Hlt.
Qed.

(** *** The sort *)
Definition by_priority (p q : CandidatePair.t) : Prop := CandidatePair.priority q <= CandidatePair.priority p.

Lemma insert_desc_perm p l : insert_desc p l ≡ₚ p :: l.
Proof.
  induction l as [| q l IH]; cbn [insert_desc]; [reflexivity |]. case_test; [reflexivity |].
  rewrite IH. apply perm_swap.
Qed.

Lemma insert_desc_sorted p l : StronglySorted by_priority l -> StronglySorted by_priority (insert_desc p l).
Proof.
  induction 1 as [| q l Hl IH Hq]; cbn [insert_desc]; [repeat constructor |]. case_test.
  - constructor; [constructor; assumption |]. constructor; [exact H |].
    eapply Forall_impl; [exact Hq |]. unfold by_priority. intros; lia.
  - constructor; [exact IH |]. rewrite insert_desc_perm. constructor; [unfold by_priority; lia | exact Hq].
Qed.

Lemma sort_desc_perm l : sort_desc l ≡ₚ l.
Proof. induction l as [| p l IH]; [reflexivity |]. simpl. rewrite insert_desc_perm, IH. reflexivity. Qed.
Lemma sort_desc_sorted l : StronglySorted by_priority (sort_desc l).
Proof. induction l as [| p l IH]; [constructor |]. apply insert_desc_sorted, IH. Qed.

(** Pairs of equal priority keep their order: the sort is the stable one. *)
Lemma insert_desc_stable p l v :
  filter (fun q => CandidatePair.priority q = v) (insert_desc p l) =
  filter (fun q => CandidatePair.priority q = v) (p :: l).
Proof.
  induction l as [| q l IH]; cbn [insert_desc]; [reflexivity |]. case_test; [reflexivity |].
  rewrite filter_cons, IH, !filter_cons. repeat case_decide; try reflexivity. lia.
Qed.
Lemma sort_desc_stable l v :
  filter (fun q => CandidatePair.priority q = v) (sort_desc l) = filter (fun q => CandidatePair.priority q = v) l.
Proof.
  induction l as [| p l IH]; [reflexivity |]. cbn [sort_desc foldr]. rewrite insert_desc_stable, !filter_cons.
  unfold sort_desc in IH. rewrite IH. reflexivity.
Qed.

(** What a pair of the list is *)
Definition pair_ok (s : IceAgent.t) (p : CandidatePair.t) : Prop :=
  CandidatePair.local p ∈ local_candidates s /\ CandidatePair.remote p ∈ remote_candidates s /\
  compatible (CandidatePair.local p) (CandidatePair.remote p) = true /\
  CandidatePair.priority p = pair_priority (CandidatePair.local p) (CandidatePair.remote p) (role s) /\
  1 <= CandidatePair.priority p /\ CandidatePair.state p = Waiting /\ CandidatePair.is_nominated p = false.

Lemma all_pairs_elem ro ls rs p : p ∈ all_pairs ro ls rs <->
  exists l r, l ∈ ls /\ r ∈ rs /\ formed ro l r = true /\ p = CandidatePair.new l r (pair_priority l r ro).
Proof.
  unfold all_pairs, pairs_of. rewrite list_elem_of_join. split.
  - intros (x & Hp & Hx). apply list_elem_of_fmap in Hx as (l & -> & Hl).
    apply list_elem_of_fmap in Hp as (r & -> & Hr). apply list_elem_of_filter in Hr as [Hf Hr]. eauto 8.
  - intros (l & r & Hl & Hr & Hf & ->). exists (pairs_of ro l rs). split.
    + apply list_elem_of_fmap. exists r. split; [reflexivity |]. apply list_elem_of_filter. auto.
    + apply list_elem_of_fmap. exists l. auto.
Qed.

Lemma form_candidate_pairs_total s : Forall local_ok (local_candidates s) ->
  Forall cand_ok (remote_candidates s) -> 0 <= max_candidate_pairs s ->
  exists k, let chosen := take k (all_pairs (role s) (local_candidates s) (remote_candidates s)) in
  form_candidate_pairs s = Ok (set_pairs s (sort_desc chosen) (nominated_pair s), length chosen) /\
  Z.of_nat (length chosen) <= max_candidate_pairs s /\
  (Z.of_nat (length chosen) < max_candidate_pairs s ->
     chosen = all_pairs (role s) (local_candidates s) (remote_candidates s)).
Proof.
  intros Hl Hr Hm. destruct (pair_all_eq s (local_candidates s) [] Hl Hr Hm) as (k & H1 & H2 & H3).
  exists k. cbv zeta in *. unfold form_candidate_pairs. rewrite H1. cbn [mbind outcome_bind app] in *.
  rewrite (Permutation_length (sort_desc_perm (take k _))). auto.
Qed.

(** C36 The check list is what the RFC asks for: forming it never overflows when the local
    priorities are computed ones; it holds at most [max_candidate_pairs] pairs of a local and a
    remote candidate with the same address family and transport, each with the pair priority of
    RFC 8445 and waiting; it is sorted by descending priority; and when the limit is not
    reached every such pair is in it. *)
Theorem check_list_correct s :
  Forall local_ok (local_candidates s) -> Forall cand_ok (remote_candidates s) ->
  0 <= max_candidate_pairs s ->
  exists s' n, form_candidate_pairs s = Ok (s', n) /\ n = length (candidate_pairs s') /\
    Z.of_nat n <= max_candidate_pairs s /\
    Forall (pair_ok s) (candidate_pairs s') /\ StronglySorted by_priority (candidate_pairs s') /\
    (Z.of_nat n < max_candidate_pairs s -> forall l r,
       l ∈ local_candidates s -> r ∈ remote_candidates s -> compatible l r = true ->
       1 <= pair_priority l r (role s) ->
       CandidatePair.new l r (pair_priority l r (role s)) ∈ candidate_pairs s').
Proof.
  intros Hl Hr Hm. destruct (form_candidate_pairs_total s Hl Hr Hm) as (k & -> & Hle & Hall).
  cbv zeta in *. set (chosen := take k _) in *.
  eexists _, _. split; [reflexivity |]. simpl.
  split; [rewrite sort_desc_perm; reflexivity |]. split; [exact Hle |].
  split; [| split; [apply sort_desc_sorted |]].
  - rewrite sort_desc_perm. apply Forall_forall. intros p Hp. apply elem_of_take in Hp as (j & Hj & _).
    apply list_elem_of_lookup_2, all_pairs_elem in Hj as (l & r & Hll & Hrr & Hf & ->).
    unfold formed in Hf. apply andb_prop in Hf as [Hc Hp]. apply Z.leb_le in Hp. repeat split; auto.
  - intros Hlt l r Hll Hrr Hc Hp. rewrite sort_desc_perm, (Hall Hlt). apply all_pairs_elem.
    exists l, r. repeat split; auto. unfold formed. rewrite Hc. apply Z.leb_le. exact Hp.
Qed.

(** *** Both ends have the same list *)

(** What the signaling carries of a candidate and matters for pairing *)
Definition wire_view (c : Candidate.t) : Z * SocketAddr.t * bytes :=
  (Candidate.priority c, Candidate.address c, Candidate.transport c).
Definition pair_view (p : CandidatePair.t) : SocketAddr.t * SocketAddr.t * Z :=
  (Candidate.address (CandidatePair.local p), Candidate.address (CandidatePair.remote p), CandidatePair.priority p).
Definition swap_view (v : SocketAddr.t * SocketAddr.t * Z) : SocketAddr.t * SocketAddr.t * Z :=
  let '(l, r, p) := v in (r, l, p).

Lemma double_loop_swap {A B C} (f : A -> B -> list C) (xs : list A) (ys : list B) :
  mjoin ((fun x => mjoin ((fun y => f x y) <$> ys)) <$> xs) ≡ₚ mjoin ((fun y => mjoin ((fun x => f x y) <$> xs)) <$> ys).
Proof.
  induction xs as [| x xs IH]; cbn [fmap list_fmap mjoin list_join].
  - induction ys as [| y ys IH]; [reflexivity | exact IH].
  - change (mjoin ((fun y => f x y) <$> ys) ++ mjoin ((fun x => mjoin ((fun y => f x y) <$> ys)) <$> xs)
      ≡ₚ mjoin ((fun y => f x y ++ mjoin ((fun x => f x y) <$> xs)) <$> ys)). rewrite IH. clear IH.
    induction ys as [| y ys IH]; [reflexivity |].
    change ((f x y ++ mjoin ((fun y => f x y) <$> ys)) ++ (mjoin ((fun x => f x y) <$> xs) ++
      mjoin ((fun y => mjoin ((fun x => f x y) <$> xs)) <$> ys)) ≡ₚ
      (f x y ++ mjoin ((fun x => f x y) <$> xs)) ++ mjoin ((fun y => f x y ++ mjoin ((fun x => f x y) <$> xs)) <$> ys)).
    rewrite <- IH, <- !app_assoc. apply Permutation_app_head.
    rewrite !app_assoc. apply Permutation_app_tail, Permutation_app_comm.
Qed.

(** The pair of two candidates, if it is formed, seen from the controlling side *)
Definition view_of (ro : IceRole) (l r : Candidate.t) : list (SocketAddr.t * SocketAddr.t * Z) :=
  if formed ro l r then [(Candidate.address l, Candidate.address r, pair_priority l r ro)] else [].

Lemma all_pairs_view ro ls rs :
  pair_view <$> all_pairs ro ls rs = mjoin ((fun l => mjoin ((fun r => view_of ro l r) <$> rs)) <$> ls).
Proof.
  unfold all_pairs. induction ls as [| l ls IH]; [reflexivity |].
  change (pair_view <$> (pairs_of ro l rs ++ mjoin ((fun l => pairs_of ro l rs) <$> ls))
    = mjoin ((fun r => view_of ro l r) <$> rs) ++ mjoin ((fun l => mjoin ((fun r => view_of ro l r) <$> rs)) <$> ls)).
  rewrite fmap_app, IH. f_equal. clear IH. unfold pairs_of.
  induction rs as [| r rs IH]; [reflexivity |]. rewrite filter_cons.
  change (mjoin ((fun r => view_of ro l r) <$> r :: rs)) with (view_of ro l r ++ mjoin ((fun r => view_of ro l r) <$> rs)).
  rewrite <- IH. unfold view_of. case_decide as Hf.
  - rewrite Hf. reflexivity.
  - destruct (formed ro l r); [congruence | reflexivity].
Qed.

Lemma view_of_wire ro l r l' r' : wire_view l = wire_view l' -> wire_view r = wire_view r' ->
  view_of ro l r = view_of ro l' r'.
Proof.
  unfold wire_view, view_of, formed, compatible, pair_priority. intros [= -> -> ->] [= -> -> ->]. reflexivity.
Qed.

Lemma loops_wire ro ls rs ls' rs' : wire_view <$> ls = wire_view <$> ls' -> wire_view <$> rs = wire_view <$> rs' ->
  mjoin ((fun l => mjoin ((fun r => view_of ro l r) <$> rs)) <$> ls)
  = mjoin ((fun l => mjoin ((fun r => view_of ro l r) <$> rs')) <$> ls').
Proof.
  intros Hl Hr. revert ls' Hl. induction ls as [| l ls IH]; intros [| l' ls'] Hl; try discriminate; [reflexivity |].
  cbn [fmap list_fmap] in Hl. injection Hl as H1 H2 H3 Hl.
  cbn [fmap list_fmap mjoin list_join]. f_equal; [| apply IH, Hl]. clear - Hr H1 H2 H3.
  revert rs' Hr. induction rs as [| r rs IH]; intros [| r' rs'] Hr; try discriminate; [reflexivity |].
  cbn [fmap list_fmap] in Hr. injection Hr as R1 R2 R3 Hr.
  cbn [fmap list_fmap mjoin list_join]. f_equal; [| apply IH, Hr].
  apply view_of_wire; unfold wire_view; congruence.
Qed.

Lemma view_of_mirror l r : swap_view <$> view_of Controlling l r = view_of Controlled r l.
Proof.
  unfold view_of, formed, compatible. rewrite <- (pair_priority_mirror l r).
  replace (Bool.eqb (SocketAddr.is_ipv4 (Candidate.address r)) (SocketAddr.is_ipv4 (Candidate.address l)))
    with (Bool.eqb (SocketAddr.is_ipv4 (Candidate.address l)) (SocketAddr.is_ipv4 (Candidate.address r)))
    by (destruct (SocketAddr.is_ipv4 (Candidate.address l)), (SocketAddr.is_ipv4 (Candidate.address r)); reflexivity).
  rewrite (bool_decide_ext (Candidate.transport r = Candidate.transport l) (Candidate.transport l = Candidate.transport r)) by (split; congruence).
  case_match; reflexivity.
Qed.

Lemma fmap_mjoin {A B} (f : A -> B) (ll : list (list A)) : f <$> mjoin ll = mjoin ((fun l => f <$> l) <$> ll).
Proof.
  induction ll as [| l ll IH]; [reflexivity |].
  change (f <$> (l ++ mjoin ll) = (f <$> l) ++ mjoin ((fun l => f <$> l) <$> ll)).
  rewrite fmap_app, IH. reflexivity.
Qed.

Lemma length_all_pairs ro ls rs : (length (all_pairs ro ls rs) <= length ls * length rs)%nat.
Proof.
  unfold all_pairs. induction ls as [| l ls IH]; [reflexivity |].
  change (length (pairs_of ro l rs ++ mjoin ((fun l => pairs_of ro l rs) <$> ls)) <= length rs + length ls * length rs)%nat.
  rewrite length_app. unfold pairs_of at 1. rewrite length_fmap.
  pose proof (length_filter (fun r => formed ro l r = true) rs). lia.
Qed.

Lemma wire_cand_ok rs ls : wire_view <$> rs = wire_view <$> ls -> Forall local_ok ls -> Forall cand_ok rs.
Proof.
  revert ls. induction rs as [| r rs IH]; intros [| l ls] H Hl; try discriminate; [constructor |].
  cbn [fmap list_fmap] in H. injection H as H1 _ _ H. apply Forall_cons in Hl as [Hl Hls].
  constructor; [unfold cand_ok, local_ok in *; rewrite H1; ulia | eauto].
Qed.

Lemma form_unlimited s s' n : Forall local_ok (local_candidates s) -> Forall cand_ok (remote_candidates s) ->
  Z.of_nat (length (local_candidates s) * length (remote_candidates s)) < max_candidate_pairs s ->
  form_candidate_pairs s = Ok (s', n) ->
  candidate_pairs s' ≡ₚ all_pairs (role s) (local_candidates s) (remote_candidates s).
Proof.
  intros Hl Hr Hm H. destruct (form_candidate_pairs_total s Hl Hr ltac:(lia)) as (k & H1 & _ & Hall).
  cbv zeta in *. rewrite H in H1. simplify_eq. simpl. rewrite sort_desc_perm, Hall; [reflexivity |].
  pose proof (length_all_pairs (role s) (local_candidates s) (remote_candidates s)).
  rewrite length_take. lia.
Qed.

(** A list a number of times: each media section of a description carries all candidates. *)
Definition repeated {A} (k : nat) (l : list A) : list A := mjoin (replicate k l).
Lemma repeated_S {A} k (l : list A) : repeated (S k) l = l ++ repeated k l.
Proof. reflexivity. Qed.
Lemma repeated_fmap {A B} (f : A -> B) k l : f <$> repeated k l = repeated k (f <$> l).
Proof. unfold repeated. rewrite fmap_mjoin, fmap_replicate. reflexivity. Qed.
Lemma repeated_length {A} k (l : list A) : length (repeated k l) = (k * length l)%nat.
Proof. induction k as [| k IH]; [reflexivity |]. rewrite repeated_S, length_app, IH. reflexivity. Qed.
Lemma repeated_join {A B} (g : A -> list B) k xs : mjoin (g <$> repeated k xs) = repeated k (mjoin (g <$> xs)).
Proof. induction k as [| k IH]; [reflexivity |]. rewrite !repeated_S, fmap_app, join_app, IH. reflexivity. Qed.
#[export] Instance repeated_proper {A} k : Proper ((≡ₚ) ==> (≡ₚ)) (@repeated A k).
Proof. intros l l' Hl. induction k as [| k IH]; [reflexivity |]. rewrite !repeated_S, IH, Hl. reflexivity. Qed.
Lemma repeated_inner {A B C} (f : A -> B -> list C) k xs ys :
  mjoin ((fun x => mjoin ((fun y => f x y) <$> repeated k ys)) <$> xs)
  ≡ₚ repeated k (mjoin ((fun x => mjoin ((fun y => f x y) <$> ys)) <$> xs)).
Proof. rewrite !(double_loop_swap f), repeated_join. reflexivity. Qed.

Lemma repeated_ok k l : Forall local_ok l -> Forall local_ok (repeated k l).
Proof. intros Hl. induction k as [| k IH]; [constructor |]. rewrite repeated_S. apply Forall_app. auto. Qed.

(** Both lists, when each agent has every candidate of the other [k] times *)
Lemma mirror_lists k a b a' b' na nb :
  role a = Controlling -> role b = Controlled ->
  Forall local_ok (local_candidates a) -> Forall local_ok (local_candidates b) ->
  wire_view <$> remote_candidates a = wire_view <$> repeated k (local_candidates b) ->
  wire_view <$> remote_candidates b = wire_view <$> repeated k (local_candidates a) ->
  Z.of_nat (k * (length (local_candidates a) * length (local_candidates b))) < max_candidate_pairs a ->
  Z.of_nat (k * (length (local_candidates a) * length (local_candidates b))) < max_candidate_pairs b ->
  form_candidate_pairs a = Ok (a', na) -> form_candidate_pairs b = Ok (b', nb) ->
  swap_view <$> (pair_view <$> candidate_pairs a') ≡ₚ pair_view <$> candidate_pairs b'.
Proof.
  intros Hra Hrb Hla Hlb Hwa Hwb Hma Hmb Ha Hb.
  pose proof (f_equal length Hwa) as La. pose proof (f_equal length Hwb) as Lb. rewrite !length_fmap, repeated_length in La, Lb.
  apply form_unlimited in Ha; [| exact Hla | eapply wire_cand_ok; [exact Hwa | apply repeated_ok, Hlb] | rewrite La; nia].
  apply form_unlimited in Hb; [| exact Hlb | eapply wire_cand_ok; [exact Hwb | apply repeated_ok, Hla] | rewrite Lb; nia].
  rewrite Ha, Hb, Hra, Hrb, !all_pairs_view.
  rewrite (loops_wire Controlling (local_candidates a) (remote_candidates a)
             (local_candidates a) (repeated k (local_candidates b))) by (reflexivity || exact Hwa).
  rewrite (loops_wire Controlled (local_candidates b) (remote_candidates b)
             (local_candidates b) (repeated k (local_candidates a))) by (reflexivity || exact Hwb).
  rewrite !repeated_inner, repeated_fmap. apply repeated_proper.
  rewrite <- (double_loop_swap (fun l r => view_of Controlled r l)).
  rewrite fmap_mjoin, <- list_fmap_compose.
  erewrite list_fmap_ext; [reflexivity |]. intros i l _. cbv beta. unfold compose.
  rewrite fmap_mjoin, <- list_fmap_compose. f_equal.
  apply list_fmap_ext. intros j r _. apply view_of_mirror.
Qed.

(** Two sorted lists of the same views rank them with the same numbers, position by position. *)
Lemma form_sorted s s' n : Forall local_ok (local_candidates s) -> Forall cand_ok (remote_candidates s) ->
  0 <= max_candidate_pairs s -> form_candidate_pairs s = Ok (s', n) -> StronglySorted by_priority (candidate_pairs s').
Proof.
  intros Hl Hr Hm H. destruct (form_candidate_pairs_total s Hl Hr Hm) as (k & H1 & _).
  cbv zeta in H1. rewrite H in H1. injection H1 as -> _. apply sort_desc_sorted.
Qed.
Lemma sorted_priorities l : StronglySorted by_priority l -> StronglySorted Z.ge (snd <$> (pair_view <$> l)).
Proof.
  induction 1 as [| p l _ IH Hp]; [constructor |]. constructor; [exact IH |].
  apply Forall_fmap, Forall_fmap. eapply Forall_impl; [exact Hp |]. intros q Hq. cbn. unfold by_priority in Hq. lia.
Qed.
Lemma same_ranking l l' : StronglySorted by_priority l -> StronglySorted by_priority l' ->
  swap_view <$> (pair_view <$> l) ≡ₚ pair_view <$> l' -> snd <$> (pair_view <$> l) = snd <$> (pair_view <$> l').
Proof.
  intros Hl Hl' Hp. apply (StronglySorted_unique_strong Z.ge); [lia | apply sorted_priorities; assumption .. |].
  rewrite <- Hp. replace (snd <$> (swap_view <$> (pair_view <$> l))) with (snd <$> (pair_view <$> l)); [reflexivity |].
  rewrite <- (list_fmap_compose swap_view). apply list_fmap_ext. intros i [[x y] v] _. reflexivity.
Qed.

Lemma mirror_formed k a b a' b' na nb :
  role a = Controlling -> role b = Controlled ->
  Forall local_ok (local_candidates a) -> Forall local_ok (local_candidates b) ->
  wire_view <$> remote_candidates a = wire_view <$> repeated k (local_candidates b) ->
  wire_view <$> remote_candidates b = wire_view <$> repeated k (local_candidates a) ->
  Z.of_nat (k * (length (local_candidates a) * length (local_candidates b))) < max_candidate_pairs a ->
  Z.of_nat (k * (length (local_candidates a) * length (local_candidates b))) < max_candidate_pairs b ->
  form_candidate_pairs a = Ok (a', na) -> form_candidate_pairs b = Ok (b', nb) ->
  swap_view <$> (pair_view <$> candidate_pairs a') ≡ₚ pair_view <$> candidate_pairs b' /\
  snd <$> (pair_view <$> candidate_pairs a') = snd <$> (pair_view <$> candidate_pairs b').
Proof.
  intros Hra Hrb Hla Hlb Hwa Hwb Hma Hmb Ha Hb.
  pose proof (mirror_lists k a b a' b' na nb Hra Hrb Hla Hlb Hwa Hwb Hma Hmb Ha Hb) as Hp. split; [exact Hp |].
  apply same_ranking; [| | exact Hp];
    [eapply (form_sorted a); [exact Hla | eapply wire_cand_ok; [exact Hwa | apply repeated_ok, Hlb] | lia | exact Ha]
    | eapply (form_sorted b); [exact Hlb | eapply wire_cand_ok; [exact Hwb | apply repeated_ok, Hla] | lia | exact Hb]].
Qed.

(** Both ends of a call rank the same pairs with the same numbers: when each has the other's
    candidates and the limit is not reached, the check list of the controlled agent is, up to
    the order of equal priorities, that of the controlling agent with the two addresses of
    every pair exchanged. *)
Theorem check_lists_mirror a b a' b' na nb :
  role a = Controlling -> role b = Controlled ->
  Forall local_ok (local_candidates a) -> Forall local_ok (local_candidates b) ->
  wire_view <$> remote_candidates a = wire_view <$> local_candidates b ->
  wire_view <$> remote_candidates b = wire_view <$> local_candidates a ->
  Z.of_nat (length (local_candidates a) * length (local_candidates b)) < max_candidate_pairs a ->
  Z.of_nat (length (local_candidates a) * length (local_candidates b)) < max_candidate_pairs b ->
  form_candidate_pairs a = Ok (a', na) -> form_candidate_pairs b = Ok (b', nb) ->
  swap_view <$> (pair_view <$> candidate_pairs a') ≡ₚ pair_view <$> candidate_pairs b'.
Proof.
  intros Hra Hrb Hla Hlb Hwa Hwb Hma Hmb. apply (mirror_lists 1); try assumption; unfold repeated; cbn [replicate mjoin list_join];
    rewrite ?app_nil_r; (assumption || lia).
Qed.

(** ** Nomination *)
Lemma find_remote_spec from i l j p : find_remote from i l = Some (j, p) ->
  (i <= j)%nat /\ l !! (j - i)%nat = Some p /\ Candidate.address (CandidatePair.remote p) = from.
Proof.
  revert i. induction l as [| q l IH]; intros i; cbn [find_remote]; [discriminate |].
  case_decide as E.
  - intros [= <- <-]. rewrite Nat.sub_diag. auto.
  - intros H. apply IH in H as (Hle & Hl & Ha). split; [lia |]. split; [| exact Ha].
    replace (j - i)%nat with (S (j - S i)) by lia. exact Hl.
Qed.
Lemma find_remote_0 from l j p : find_remote from 0 l = Some (j, p) ->
  l !! j = Some p /\ Candidate.address (CandidatePair.remote p) = from.
Proof. intros H. apply find_remote_spec in H as (_ & H & Ha). rewrite Nat.sub_0_r in H. auto. Qed.

(** One operation of the agent while it checks *)
Inductive ice_step (s : IceAgent.t) : IceAgent.t -> Prop :=
| ice_packet packet from : ice_step s (handle_incoming_packet s packet from).1
| ice_checks send_ok : ice_step s (start_checks send_ok s).1
| ice_role : ice_step s (run_role_logic s).

(** The nominated pair is one of the list that has succeeded; for the controlling agent it is the
    best of those that have. *)
Record nomination_ok (s : IceAgent.t) : Prop := {
  nom_listed : forall np, nominated_pair s = Some np ->
    exists p, p ∈ candidate_pairs s /\ CandidatePair.clone_light p = np /\
              CandidatePair.state p = Succeeded /\ CandidatePair.is_nominated p = true;
  nom_best : role s = Controlling -> forall p, p ∈ candidate_pairs s -> CandidatePair.state p = Succeeded ->
    exists np, nominated_pair s = Some np /\ CandidatePair.priority p <= CandidatePair.priority np }.

Definition start_of_checks (s : IceAgent.t) : Prop :=
  nominated_pair s = None /\ Forall (fun p => CandidatePair.state p <> Succeeded) (candidate_pairs s).

Lemma start_nomination_ok s : start_of_checks s -> nomination_ok s.
Proof.
  intros [Hn Hf]. rewrite Forall_forall in Hf. split; [congruence |]. intros _ p Hp Hs. exfalso. eapply Hf; eauto.
Qed.

(** Replacing the pair at [i] *)
Lemma elem_of_insert_inv {A} (l : list A) i x y : y ∈ <[i := x]> l -> y = x \/ y ∈ l.
Proof.
  intros H. apply list_elem_of_lookup in H as [j Hj]. destruct (decide (i = j)) as [<- |].
  - destruct (decide (i < length l)%nat).
    + rewrite list_lookup_insert_eq in Hj by assumption. left. congruence.
    + rewrite list_insert_ge in Hj by lia. right. eapply list_elem_of_lookup_2; eauto.
  - rewrite list_lookup_insert_ne in Hj by assumption. right. eapply list_elem_of_lookup_2; eauto.
Qed.
Lemma elem_of_insert_new {A} (l : list A) i x y : l !! i = Some y -> x ∈ <[i := x]> l.
Proof.
  intros H. apply (list_elem_of_lookup_2 _ i). apply list_lookup_insert_eq. apply lookup_lt_Some in H. exact H.
Qed.
Lemma elem_of_insert_old {A} (l : list A) i x y z : l !! i = Some y -> z ∈ l -> z <> y -> z ∈ <[i := x]> l.
Proof.
  intros H Hz Hne. apply list_elem_of_lookup in Hz as [j Hj]. apply (list_elem_of_lookup_2 _ j).
  rewrite list_lookup_insert_ne; [exact Hj |]. intros ->. congruence.
Qed.

(** A pair takes the nomination. *)
Lemma nominate_ok s i p q : candidate_pairs s !! i = Some p -> CandidatePair.state q = Succeeded ->
  CandidatePair.is_nominated q = true ->
  (role s = Controlling -> forall x, x ∈ candidate_pairs s -> CandidatePair.state x = Succeeded ->
     CandidatePair.priority x <= CandidatePair.priority q) ->
  nomination_ok (set_pairs s (<[i := q]> (candidate_pairs s)) (Some (CandidatePair.clone_light q))).
Proof.
  intros Hi Hs Hn Hb. split; simpl.
  - intros np [= <-]. exists q. repeat split; auto. eapply elem_of_insert_new, Hi.
  - intros Hr x Hx Hxs. eexists. split; [reflexivity |]. simpl.
    apply elem_of_insert_inv in Hx as [-> | Hx]; [lia | eauto].
Qed.

Lemma packet_nomination_ok s packet from : nomination_ok s -> nomination_ok (handle_incoming_packet s packet from).1.
Proof.
  intros H. unfold handle_incoming_packet.
  destruct (find_remote from 0 (candidate_pairs s)) as [[i p] |] eqn:Hf; [| exact H].
  apply find_remote_0 in Hf as [Hi Ha]. case_decide; [case_decide as Hs; [exact H |] |].
  - destruct (bool_decide (role s = Controlling) && _) eqn:Hn; simpl.
    + apply andb_prop in Hn as [Hr Hn]. apply bool_decide_eq_true in Hr.
      eapply nominate_ok; [exact Hi | reflexivity .. |]. intros _ x Hx Hxs.
      destruct (nom_best _ H Hr x Hx Hxs) as (np & Enp & Hle). rewrite Enp in Hn. simpl in *. lia.
    + split; simpl.
      * intros np Enp. destruct (nom_listed _ H np Enp) as (q & Hq & Hc & Hqs & Hqn).
        exists q. repeat split; auto. eapply elem_of_insert_old; eauto. congruence.
      * intros Hr x Hx Hxs. apply elem_of_insert_inv in Hx as [-> | Hx]; [| eapply nom_best; eauto].
        rewrite bool_decide_true in Hn by exact Hr. simpl in Hn.
        destruct (nominated_pair s) as [np |]; [| discriminate]. exists np. split; [reflexivity | simpl in *; lia].
  - destruct (bool_decide (packet = BINDING_REQUEST) || _); [| exact H]. simpl.
    destruct (bool_decide (role s = Controlled) && _ && _) eqn:Hn; [| exact H].
    apply andb_prop in Hn as [Hn _]. apply andb_prop in Hn as [Hr _]. apply bool_decide_eq_true in Hr.
    eapply nominate_ok; [exact Hi | reflexivity .. |]. congruence.
Qed.

Lemma check_pair_succeeded send_ok p :
  CandidatePair.state (check_pair send_ok p).1 = Succeeded -> (check_pair send_ok p).1 = p.
Proof. unfold check_pair. repeat case_match; simpl; congruence. Qed.
Lemma check_pair_keeps send_ok p : CandidatePair.state p = Succeeded -> (check_pair send_ok p).1 = p.
Proof. intros H. unfold check_pair. rewrite H. reflexivity. Qed.

Lemma start_checks_nomination_ok send_ok s : nomination_ok s -> nomination_ok (start_checks send_ok s).1.
Proof.
  intros H. split; simpl; rewrite <- list_fmap_compose.
  - intros np Hnp. destruct (nom_listed _ H np Hnp) as (q & Hq & Hc & Hqs & Hqn). exists q.
    repeat split; auto. apply list_elem_of_fmap. exists q. split; [| exact Hq]. symmetry.
    apply check_pair_keeps, Hqs.
  - intros Hr x Hx Hxs. apply list_elem_of_fmap in Hx as (y & -> & Hy). unfold compose in *.
    pose proof (check_pair_succeeded _ _ Hxs) as E. rewrite E in Hxs |- *. eapply nom_best; eauto.
Qed.

(** [best] gives the last of the succeeded pairs of the highest priority. *)
Definition best_ok (l : list CandidatePair.t) (o : option (nat * CandidatePair.t)) : Prop :=
  match o with
  | None => Forall (fun p => CandidatePair.state p <> Succeeded) l
  | Some (i, p) => l !! i = Some p /\ CandidatePair.state p = Succeeded /\
      Forall (fun q => CandidatePair.state q = Succeeded -> CandidatePair.priority q <= CandidatePair.priority p) l
  end.
Lemma best_ok_gen done l acc : best_ok done acc -> best_ok (done ++ l) (best (length done) acc l).
Proof.
  revert done acc. induction l as [| p l IH]; intros done acc H; cbn [best]; [rewrite app_nil_r; exact H |].
  replace (done ++ p :: l) with ((done ++ [p]) ++ l) by (rewrite <- app_assoc; reflexivity).
  replace (S (length done)) with (length (done ++ [p])) by (rewrite length_app; simpl; lia).
  apply IH. case_decide as Hs.
  - assert (Hp : (done ++ [p]) !! length done = Some p) by (apply list_lookup_middle; reflexivity).
    destruct acc as [[j q] |]; [case_test |]; simpl in *.
    + split; [exact Hp |]. split; [exact Hs |]. destruct H as (_ & _ & H). apply Forall_app. split.
      * eapply Forall_impl; [exact H |]. simpl. intros x Hx Hxs. specialize (Hx Hxs). lia.
      * repeat constructor. lia.
    + destruct H as (Hj & Hq & H). split; [apply lookup_app_l_Some, Hj |]. split; [exact Hq |].
      apply Forall_app. split; [exact H |]. repeat constructor. lia.
    + split; [exact Hp |]. split; [exact Hs |]. apply Forall_app. split; [| repeat constructor; lia].
      eapply Forall_impl; [exact H |]. simpl. intros; contradiction.
  - destruct acc as [[j q] |]; simpl in *.
    + destruct H as (Hj & Hq & H). split; [apply lookup_app_l_Some, Hj |]. split; [exact Hq |].
      apply Forall_app. split; [exact H |]. repeat constructor. congruence.
    + apply Forall_app. split; [exact H |]. repeat constructor. exact Hs.
Qed.
Lemma best_correct l : best_ok l (best 0 None l).
Proof. exact (best_ok_gen [] l None (Forall_nil_2 _)). Qed.

Lemma role_logic_nomination_ok s : nomination_ok s -> nomination_ok (run_role_logic s).
Proof.
  intros H. unfold run_role_logic. destruct (role s) eqn:Hr; [| exact H]. unfold select_valid_pair.
  pose proof (best_correct (candidate_pairs s)) as Hb. destruct (best _ _ _) as [[i p] |]; [| exact H].
  destruct Hb as (Hi & Hs & Hb). rewrite Forall_forall in Hb. simpl.
  eapply nominate_ok; [exact Hi | exact Hs | reflexivity |]. simpl. auto.
Qed.

Lemma ice_step_nomination_ok s s' : ice_step s s' -> nomination_ok s -> nomination_ok s'.
Proof.
  destruct 1; intros H; [apply packet_nomination_ok | apply start_checks_nomination_ok | apply role_logic_nomination_ok];
    exact H.
Qed.
Lemma ice_reachable_ok s s' : start_of_checks s -> rtc ice_step s s' -> nomination_ok s'.
Proof.
  intros Hs H. apply start_nomination_ok in Hs. induction H as [| a b c Hab _ IH]; [exact Hs |].
  apply IH. eapply ice_step_nomination_ok; eauto.
Qed.

(** What no step changes: the role and the candidates of each pair *)
Definition ends (p : CandidatePair.t) : Candidate.t * Candidate.t := (CandidatePair.local p, CandidatePair.remote p).
Lemma insert_ends (i : nat) p q (l : list CandidatePair.t) : l !! i = Some p -> ends q = ends p -> ends <$> <[i := q]> l = ends <$> l.
Proof.
  intros Hi He. rewrite list_fmap_insert, He. apply list_insert_id. rewrite list_lookup_fmap, Hi. reflexivity.
Qed.
Lemma ice_step_frame s s' : ice_step s s' ->
  role s' = role s /\ ends <$> candidate_pairs s' = ends <$> candidate_pairs s.
Proof.
  destruct 1 as [packet from | send_ok |].
  - unfold handle_incoming_packet.
    destruct (find_remote from 0 (candidate_pairs s)) as [[i p] |] eqn:Hf; [| auto].
    apply find_remote_0 in Hf as [Hi Ha].
    repeat (case_decide || case_match); simpl; auto; split; try reflexivity; eapply insert_ends; eauto.
  - simpl. split; [reflexivity |]. rewrite <- !list_fmap_compose. apply list_fmap_ext. intros i p _.
    unfold compose, check_pair. repeat case_match; reflexivity.
  - unfold run_role_logic, select_valid_pair. destruct (role s) eqn:Hr; [| auto].
    pose proof (best_correct (candidate_pairs s)) as Hb. destruct (best _ _ _) as [[i p] |]; [| auto].
    simpl. split; [exact Hr |]. eapply insert_ends; [apply Hb | reflexivity].
Qed.
Lemma ice_reachable_frame s s' : rtc ice_step s s' ->
  role s' = role s /\ ends <$> candidate_pairs s' = ends <$> candidate_pairs s.
Proof.
  induction 1 as [| a b c Hab _ [IH1 IH2]]; [auto |]. apply ice_step_frame in Hab as [H1 H2]. split; congruence.
Qed.

Definition has_socket (p : CandidatePair.t) : Prop := is_Some (Candidate.socket (CandidatePair.local p)).
Lemma has_socket_ends l l' : ends <$> l = ends <$> l' -> Forall has_socket l' -> Forall has_socket l.
Proof.
  intros E H. apply (Forall_fmap ends (fun e => is_Some (Candidate.socket e.1))). rewrite E.
  apply Forall_fmap, H.
Qed.

Lemma same_addresses_spec p q : same_addresses p q = true <->
  Candidate.address (CandidatePair.local p) = Candidate.address (CandidatePair.local q) /\
  Candidate.address (CandidatePair.remote p) = Candidate.address (CandidatePair.remote q).
Proof. unfold same_addresses. rewrite andb_true_iff, !bool_decide_eq_true. reflexivity. Qed.

Lemma find_pair_some np l p : p ∈ l -> same_addresses p np = true ->
  exists q, find_pair np l = Some q /\ q ∈ l /\ same_addresses q np = true.
Proof.
  intros Hp Hs. induction l as [| x l IH]; [inversion Hp |]. cbn [find_pair].
  destruct (same_addresses x np) eqn:Ex; [exists x; repeat split; [apply list_elem_of_here | exact Ex] |].
  apply elem_of_cons in Hp as [-> | Hp]; [congruence |]. destruct (IH Hp) as (q & H1 & H2 & H3).
  exists q. repeat split; [exact H1 | right; exact H2 | exact H3].
Qed.

(** C17 Nomination is sound: whatever datagrams arrive, in whatever order, from the start of the
    checks on, a nominated pair is one of the check list whose check has succeeded; the
    controlling agent's is the one of the highest priority among all that have succeeded; and
    the data channel opens on the socket of a pair with its two addresses. *)
Theorem nominated_pair_sound s s' np :
  start_of_checks s -> Forall has_socket (candidate_pairs s) ->
  rtc ice_step s s' -> nominated_pair s' = Some np ->
  (exists p, p ∈ candidate_pairs s' /\ CandidatePair.clone_light p = np /\ CandidatePair.state p = Succeeded) /\
  (role s = Controlling -> forall p, p ∈ candidate_pairs s' -> CandidatePair.state p = Succeeded ->
     CandidatePair.priority p <= CandidatePair.priority np) /\
  (exists p sock, p ∈ candidate_pairs s' /\ same_addresses p np = true /\
     Candidate.socket (CandidatePair.local p) = Some sock /\
     get_data_channel_socket s' = Ok (sock, Candidate.address (CandidatePair.remote np))).
Proof.
  intros Hs Hsock Hreach Hnp. pose proof (ice_reachable_ok s s' Hs Hreach) as Hok.
  apply ice_reachable_frame in Hreach as [Hrole Hends].
  destruct (nom_listed _ Hok np Hnp) as (p & Hp & Hc & Hst & _).
  split; [eauto |]. split.
  - intros Hr q Hq Hqs. destruct (nom_best _ Hok ltac:(congruence) q Hq Hqs) as (np' & E & Hle). congruence.
  - assert (Hpn : same_addresses p np = true) by (apply same_addresses_spec; subst np; auto).
    destruct (find_pair_some np _ p Hp Hpn) as (q & Hf & Hq & Hqn).
    pose proof (has_socket_ends _ _ Hends Hsock) as Hall. rewrite Forall_forall in Hall.
    destruct (Hall q Hq) as [sock Hsk]. exists q, sock. repeat split; auto.
    apply same_addresses_spec in Hqn as [_ Hr].
    unfold get_data_channel_socket. rewrite Hnp. cbn [ok_or mbind outcome_bind].
    rewrite bool_decide_true by (subst np; exact Hst). cbn [negb].
    rewrite Hf. cbn [ok_or mbind outcome_bind]. rewrite Hsk. cbn [ok_or mbind outcome_bind]. congruence.
Qed.

(** *** Two agents *)
(** Concrete agents: one candidate each, and an offer and answer that carried them *)
Module Demo.
Definition addr_a : SocketAddr.t := SocketAddr.mk (V4 10 0 0 1) 4000.
Definition addr_b : SocketAddr.t := SocketAddr.mk (V4 10 0 0 2) 5000.
Definition host (a : SocketAddr.t) (sock : option Z) : Candidate.t :=
  Candidate.mk (lit "f") 1 (lit "udp") 2130706431 a CandidateType.Host None sock.
Definition agent (ro : IceRole) (ls rs : list Candidate.t) : IceAgent.t :=
  IceAgent.mk DEFAULT_STUN_SERVER 2 100 ls rs [] ro (lit "u") (lit "p") [] [] None.
Definition alice : IceAgent.t := agent Controlling [host addr_a (Some 7)] [host addr_b None].
Definition bob : IceAgent.t := agent Controlled [host addr_b (Some 8)] [host addr_a None].
Definition formed (s : IceAgent.t) : IceAgent.t :=
  match form_candidate_pairs s with Ok (s', _) => s' | _ => s end.
End Demo.

Lemma check_list_correct_witness :
  exists s' n, form_candidate_pairs Demo.alice = Ok (s', n) /\ n = length (candidate_pairs s') /\
    Z.of_nat n <= 100 /\ Forall (pair_ok Demo.alice) (candidate_pairs s') /\
    StronglySorted by_priority (candidate_pairs s') /\
    (Z.of_nat n < 100 -> forall l r,
       l ∈ local_candidates Demo.alice -> r ∈ remote_candidates Demo.alice -> compatible l r = true ->
       1 <= pair_priority l r Controlling ->
       CandidatePair.new l r (pair_priority l r Controlling) ∈ candidate_pairs s').
Proof.
  apply (check_list_correct Demo.alice); [repeat constructor; vm_compute; congruence .. | vm_compute; congruence].
Defined.

Lemma check_lists_mirror_witness :
  swap_view <$> (pair_view <$> candidate_pairs (Demo.formed Demo.alice)) ≡ₚ
  pair_view <$> candidate_pairs (Demo.formed Demo.bob).
Proof.
  apply (check_lists_mirror Demo.alice Demo.bob _ _ 1%nat 1%nat); try reflexivity;
    repeat constructor; vm_compute; congruence.
Defined.

Lemma nominated_pair_sound_witness :
  let s := Demo.formed Demo.alice in
  let s' := (handle_incoming_packet s BINDING_RESPONSE Demo.addr_b).1 in
  let np := default (CandidatePair.new (Demo.host Demo.addr_a None) (Demo.host Demo.addr_b None) 0) (nominated_pair s') in
  nominated_pair s' = Some np /\
  (exists p sock, p ∈ candidate_pairs s' /\ same_addresses p np = true /\
     Candidate.socket (CandidatePair.local p) = Some sock /\
     get_data_channel_socket s' = Ok (sock, Candidate.address (CandidatePair.remote np))).
Proof.
  intros s s' np. split; [reflexivity |].
  apply (nominated_pair_sound s s' np).
  - split; [reflexivity | repeat constructor; discriminate].
  - repeat constructor. exists 7. reflexivity.
  - apply rtc_once. apply (ice_packet s BINDING_RESPONSE Demo.addr_b).
  - reflexivity.
Defined.

(** Every pair with the two addresses of [p] starts at the socket [sk]. *)
Definition socket_of (l : list CandidatePair.t) (p : CandidatePair.t) (sk : Z) : Prop :=
  Forall (fun q => same_addresses q p = true -> Candidate.socket (CandidatePair.local q) = Some sk) l.

Lemma same_addresses_refl p : same_addresses p p = true.
Proof. apply same_addresses_spec. auto. Qed.
Lemma socket_of_self l i p sk : l !! i = Some p -> socket_of l p sk ->
  Candidate.socket (CandidatePair.local p) = Some sk.
Proof. intros Hi H. eapply Forall_lookup_1 in H; [| exact Hi]. apply H, same_addresses_refl. Qed.

Lemma data_channel_of_nominated s i p q sk : candidate_pairs s !! i = Some p -> ends q = ends p ->
  CandidatePair.state q = Succeeded -> socket_of (candidate_pairs s) p sk ->
  get_data_channel_socket (set_pairs s (<[i := q]> (candidate_pairs s)) (Some (CandidatePair.clone_light q)))
  = Ok (sk, Candidate.address (CandidatePair.remote p)).
Proof.
  intros Hi He Hs Hsk. injection He as Hl Hr. unfold get_data_channel_socket. simpl.
  rewrite bool_decide_true by exact Hs. cbn [negb].
  destruct (find_pair_some (CandidatePair.clone_light q) (<[i:=q]> (candidate_pairs s)) q) as (x & -> & Hx & Hxq);
    [eapply elem_of_insert_new, Hi | apply same_addresses_spec; auto |].
  cbn [ok_or mbind outcome_bind]. apply same_addresses_spec in Hxq as [H1 H2]. simpl in H1, H2.
  rewrite Hl in H1. rewrite Hr in H2.
  assert (Candidate.socket (CandidatePair.local x) = Some sk) as ->; [| cbn [ok_or mbind outcome_bind]; congruence].
  apply elem_of_insert_inv in Hx as [-> | Hx]; [rewrite Hl; eapply socket_of_self; eauto |].
  unfold socket_of in Hsk. rewrite Forall_forall in Hsk. apply Hsk; [exact Hx |]. apply same_addresses_spec. auto.
Qed.

(** The three exchanges of a check *)
Lemma answer_request s from i p sk : find_remote from 0 (candidate_pairs s) = Some (i, p) ->
  Candidate.socket (CandidatePair.local p) = Some sk ->
  handle_incoming_packet s BINDING_REQUEST from = (s, [Datagram sk BINDING_RESPONSE from]).
Proof.
  intros Hf Hk. unfold handle_incoming_packet, send_from. rewrite Hf, decide_False by discriminate.
  rewrite bool_decide_true by reflexivity. cbn [orb]. rewrite Hk.
  rewrite (bool_decide_false (BINDING_REQUEST = NOMINATION_REQUEST)) by discriminate.
  rewrite andb_false_r. reflexivity.
Qed.
Lemma respond_nominates s from i p sk : role s = Controlling -> nominated_pair s = None ->
  find_remote from 0 (candidate_pairs s) = Some (i, p) -> CandidatePair.state p <> Succeeded ->
  Candidate.socket (CandidatePair.local p) = Some sk ->
  let q := CandidatePair.set_nominated (CandidatePair.set_state p Succeeded) in
  handle_incoming_packet s BINDING_RESPONSE from =
    (set_pairs s (<[i := q]> (candidate_pairs s)) (Some (CandidatePair.clone_light q)),
     [Datagram sk NOMINATION_REQUEST from]).
Proof.
  intros Hr Hn Hf Hs Hk. unfold handle_incoming_packet, send_from. rewrite Hf, decide_True by reflexivity.
  rewrite decide_False, bool_decide_true, Hn by assumption. simpl. rewrite Hk.
  apply find_remote_0 in Hf as [_ ->]. reflexivity.
Qed.
Lemma accept_nomination s from i p sk : role s = Controlled -> nominated_pair s = None ->
  find_remote from 0 (candidate_pairs s) = Some (i, p) -> Candidate.socket (CandidatePair.local p) = Some sk ->
  let q := CandidatePair.set_state (CandidatePair.set_nominated p) Succeeded in
  handle_incoming_packet s NOMINATION_REQUEST from =
    (set_pairs s (<[i := q]> (candidate_pairs s)) (Some (CandidatePair.clone_light q)),
     [Datagram sk BINDING_RESPONSE from]).
Proof.
  intros Hr Hn Hf Hk. unfold handle_incoming_packet, send_from. rewrite Hf, decide_False by discriminate.
  rewrite (bool_decide_true (NOMINATION_REQUEST = NOMINATION_REQUEST)), orb_true_r by reflexivity.
  rewrite bool_decide_true, Hn, Hk by assumption. reflexivity.
Qed.

(** C38 One check nominates the same pair at both ends, under these conditions: neither agent has
    nominated yet; the first pair of the controlling agent towards the address of the controlled one
    has not succeeded yet, and it starts where the first pair of the latter towards the former ends,
    and ends where that starts; and all pairs with these two addresses use the same socket. Then the
    request is answered, the response makes the controlling agent nominate and send its nomination,
    and after that datagram both have nominated the pair, with the two addresses exchanged, and both
    open their data channel on it. *)
Theorem checks_nominate_mirrored_pairs a b la lb i j pa pb ska skb :
  role a = Controlling -> role b = Controlled -> nominated_pair a = None -> nominated_pair b = None ->
  find_remote lb 0 (candidate_pairs a) = Some (i, pa) -> Candidate.address (CandidatePair.local pa) = la ->
  find_remote la 0 (candidate_pairs b) = Some (j, pb) -> Candidate.address (CandidatePair.local pb) = lb ->
  CandidatePair.state pa <> Succeeded ->
  socket_of (candidate_pairs a) pa ska -> socket_of (candidate_pairs b) pb skb ->
  let (b1, ds1) := handle_incoming_packet b BINDING_REQUEST la in
  let (a1, ds2) := handle_incoming_packet a BINDING_RESPONSE lb in
  let (b2, ds3) := handle_incoming_packet b1 NOMINATION_REQUEST la in
  ds1 = [Datagram skb BINDING_RESPONSE la] /\ ds2 = [Datagram ska NOMINATION_REQUEST lb] /\
  get_data_channel_socket a1 = Ok (ska, lb) /\ get_data_channel_socket b2 = Ok (skb, la).
Proof.
  intros Hra Hrb Hna Hnb Hfa Hla Hfb Hlb Hst Hska Hskb.
  destruct (find_remote_0 _ _ _ _ Hfa) as [Hi Hre]. destruct (find_remote_0 _ _ _ _ Hfb) as [Hj Hrb'].
  pose proof (socket_of_self _ _ _ _ Hi Hska) as Ka. pose proof (socket_of_self _ _ _ _ Hj Hskb) as Kb.
  rewrite (answer_request b la j pb skb Hfb Kb). rewrite (respond_nominates a lb i pa ska) by assumption.
  rewrite (accept_nomination b la j pb skb) by assumption.
  repeat split; (etransitivity; [eapply data_channel_of_nominated; eauto | congruence]).
Qed.

Lemma checks_nominate_mirrored_pairs_witness :
  let a := Demo.formed Demo.alice in let b := Demo.formed Demo.bob in
  let (b1, ds1) := handle_incoming_packet b BINDING_REQUEST Demo.addr_a in
  let (a1, ds2) := handle_incoming_packet a BINDING_RESPONSE Demo.addr_b in
  let (b2, ds3) := handle_incoming_packet b1 NOMINATION_REQUEST Demo.addr_a in
  ds1 = [Datagram 8 BINDING_RESPONSE Demo.addr_a] /\ ds2 = [Datagram 7 NOMINATION_REQUEST Demo.addr_b] /\
  get_data_channel_socket a1 = Ok (7, Demo.addr_b) /\ get_data_channel_socket b2 = Ok (8, Demo.addr_a).
Proof.
  intros a b. eapply (checks_nominate_mirrored_pairs a b Demo.addr_a Demo.addr_b 0 0 _ _ 7 8);
    try reflexivity; [discriminate | repeat constructor ..].
Defined.

(** *** A pair that shares its remote address with an earlier one *)
Lemma find_remote_first from i l j p : find_remote from i l = Some (j, p) ->
  forall k q, l !! k = Some q -> Candidate.address (CandidatePair.remote q) = from -> (j <= i + k)%nat.
Proof.
  revert i. induction l as [| x l IH]; intros i; cbn [find_remote]; [discriminate |]. case_decide as E.
  - intros [= <- <-] k q _ _. lia.
  - intros H [| k] q Hk Hq; simpl in Hk; [congruence |]. pose proof (IH _ H k q Hk Hq). lia.
Qed.

(** The pair at [i] has not succeeded and an earlier pair has its remote address. *)
Definition shadowed (i : nat) (s : IceAgent.t) : Prop :=
  exists j p q, (j < i)%nat /\ candidate_pairs s !! j = Some q /\ candidate_pairs s !! i = Some p /\
    Candidate.address (CandidatePair.remote q) = Candidate.address (CandidatePair.remote p) /\
    CandidatePair.state p <> Succeeded.

Lemma ends_lookup (l l' : list CandidatePair.t) (i : nat) p : ends <$> l = ends <$> l' -> l !! i = Some p ->
  exists p', l' !! i = Some p' /\ ends p' = ends p.
Proof.
  intros E Hi. assert (H : (ends <$> l) !! i = Some (ends p)) by (rewrite list_lookup_fmap, Hi; reflexivity).
  rewrite E, list_lookup_fmap in H. destruct (l' !! i) as [p' |]; [| discriminate].
  exists p'. split; [reflexivity | simpl in H; congruence].
Qed.

(** The state of the pair at [i] after a step *)
Lemma shadowed_state i s s' p p' : shadowed i s -> ice_step s s' -> candidate_pairs s !! i = Some p ->
  candidate_pairs s' !! i = Some p' -> CandidatePair.state p' <> Succeeded.
Proof.
  intros (j & x & q & Hji & Hj & Hi & Hr & Hs) Hstep Hp. rewrite Hi in Hp. injection Hp as ->.
  destruct Hstep as [packet from | send_ok |].
  - unfold handle_incoming_packet. destruct (find_remote from 0 _) as [[k y] |] eqn:Hf; [| simpl; congruence].
    assert (Hk : k <> i).
    { intros ->. pose proof (find_remote_0 _ _ _ _ Hf) as [Hy Ha]. rewrite Hi in Hy. injection Hy as ->.
      pose proof (find_remote_first _ _ _ _ _ Hf j q Hj ltac:(congruence)). lia. }
    repeat (case_decide || case_match); simpl; rewrite ?list_lookup_insert_ne by exact Hk; congruence.
  - simpl. rewrite <- list_fmap_compose, list_lookup_fmap, Hi. simpl. intros [= <-] H.
    rewrite (check_pair_succeeded _ _ H) in H. contradiction.
  - unfold run_role_logic, select_valid_pair. destruct (role s); [| congruence].
    pose proof (best_correct (candidate_pairs s)) as Hb. destruct (best _ _ _) as [[k y] |]; [| simpl; congruence].
    destruct Hb as (Hk & Hy & _). simpl. rewrite list_lookup_insert_ne; [congruence |]. intros ->. congruence.
Qed.

Lemma shadowed_step i s s' : shadowed i s -> ice_step s s' -> shadowed i s'.
Proof.
  intros Hsh Hstep. pose proof Hsh as (j & p & q & Hji & Hj & Hi & Hr & Hs).
  pose proof (ice_step_frame _ _ Hstep) as [_ E]. symmetry in E.
  destruct (ends_lookup _ _ _ _ E Hj) as (q' & Hj' & Eq). destruct (ends_lookup _ _ _ _ E Hi) as (p' & Hi' & Ep).
  injection Eq as _ Eq. injection Ep as _ Ep.
  exists j, p', q'. repeat split; auto; [congruence | eapply shadowed_state; eauto].
Qed.

(** A response is credited to the first pair of the list with the sender's address, whichever
    socket received it: a pair whose remote address also appears earlier in the list never
    succeeds, so it is never nominated, whatever the network delivers. *)
Theorem shadowed_pair_never_succeeds i s s' :
  shadowed i s -> rtc ice_step s s' ->
  exists p, candidate_pairs s' !! i = Some p /\ CandidatePair.state p <> Succeeded.
Proof.
  intros H Hr. assert (Hs : shadowed i s').
  { induction Hr as [| a b c Hab _ IH]; [exact H | apply IH; eapply shadowed_step; eauto]. }
  destruct Hs as (_ & p & _ & _ & _ & Hp & _ & Hs). eauto.
Qed.

Lemma shadowed_pair_never_succeeds_witness :
  let s := Demo.formed (Demo.agent Controlling [Demo.host Demo.addr_a (Some 7); Demo.host (SocketAddr.mk (V4 127 0 0 1) 4001) (Some 9)]
                          [Demo.host Demo.addr_b None]) in
  let s' := (handle_incoming_packet (handle_incoming_packet s BINDING_RESPONSE Demo.addr_b).1 BINDING_RESPONSE Demo.addr_b).1 in
  exists p, candidate_pairs s' !! 1%nat = Some p /\ CandidatePair.state p <> Succeeded.
Proof.
  intros s s'. apply (shadowed_pair_never_succeeds 1 s s').
  - eexists 0%nat, _, _. repeat split; [lia | reflexivity .. | discriminate].
  - eapply rtc_l; [apply (ice_packet s BINDING_RESPONSE Demo.addr_b) |]. apply rtc_once, ice_packet.
Defined.
