(* ===== verification/StunTheory.v ===== *)
(** * The STUN response parser of the ICE agent

    The mapped address of a well-formed response is found; the parser stays within its buffer
    for datagrams of at most 504 octets, and where it does not; what it makes of attributes
    whose length is not a multiple of four. *)

From stdpp Require Import prelude strings.
From Stdlib Require Import ZArith Lia.
From S2P Require Import Prelude Utf8 Text Net Ice.
Local Open Scope Z_scope.
Import Stun.

(** ** A server's response *)
Definition attribute (ty : Z) (value : bytes) : bytes := to_be 2 ty ++ to_be 2 (Z.of_nat (length value)) ++ value.
(** XOR-MAPPED-ADDRESS of an IPv4 address (RFC 5389, 15.2) *)
Definition xor_mapped (a b c d port : Z) : bytes :=
  attribute ATTR_XOR_MAPPED_ADDRESS
    ([0; FAMILY_IPV4] ++ to_be 2 (Z.lxor port 8466) ++ [Z.lxor a 33; Z.lxor b 18; Z.lxor c 164; Z.lxor d 66]).

(** Another attribute before it: not XOR-MAPPED-ADDRESS, of a multiple of four octets *)
Definition plain_attr (x : Z * bytes) : Prop :=
  u16 (x.1) /\ x.1 <> ATTR_XOR_MAPPED_ADDRESS /\ Z.of_nat (length (x.2)) < 65536 /\ (length (x.2) mod 4 = 0)%nat.
Definition attributes (l : list (Z * bytes)) : bytes := mjoin ((fun x => attribute (x.1) (x.2)) <$> l).

Lemma lxor_u16 a b : u16 a -> u16 b -> u16 (Z.lxor a b).
Proof.
  unfold u16. intros Ha Hb. change 65536 with (2 ^ 16) in *.
  assert (0 <= Z.lxor a b) by (apply Z.lxor_nonneg; lia). split; [lia |].
  destruct (Z.eq_dec (Z.lxor a b) 0) as [-> |]; [lia |]. apply Z.log2_lt_pow2; [lia |].
  eapply Z.le_lt_trans; [apply Z.log2_lxor; lia |].
  assert (Hlog : forall x, 0 <= x < 2 ^ 16 -> Z.log2 x < 16).
  { intros x Hx. destruct (Z.eq_dec x 0) as [-> |]; [reflexivity | apply Z.log2_lt_pow2; lia]. }
  apply Z.max_lub_lt; apply Hlog; assumption.
Qed.
Lemma lxor_twice a b : Z.lxor (Z.lxor a b) b = a.
Proof. rewrite Z.lxor_assoc, Z.lxor_nilpotent, Z.lxor_0_r. reflexivity. Qed.

Lemma read_attr ty value pre post : u16 ty -> Z.of_nat (length value) < 65536 ->
  read_be (E := bytes) 2 (pre ++ attribute ty value ++ post) (length pre) = Ok ty /\
  read_be (E := bytes) 2 (pre ++ attribute ty value ++ post) (length pre + 2) = Ok (Z.of_nat (length value)).
Proof.
  intros Ht Hv. unfold attribute. rewrite <- !app_assoc. split.
  - apply read_be_app; [reflexivity | exact Ht].
  - rewrite (app_assoc pre). apply read_be_app; [rewrite length_app, length_to_be; reflexivity |].
    change (256 ^ Z.of_nat 2) with 65536. lia.
Qed.

Lemma length_attribute ty v : length (attribute ty v) = (4 + length v)%nat.
Proof. unfold attribute. rewrite !length_app, !length_to_be. lia. Qed.

(** The walk steps over a plain attribute. *)
Lemma find_mapped_skip f len pre x post : plain_attr x ->
  (length pre + length (attribute (x.1) (x.2)) <= len)%nat ->
  find_mapped (S f) (pre ++ attribute (x.1) (x.2) ++ post) len (length pre) =
  find_mapped f (pre ++ attribute (x.1) (x.2) ++ post) len (length pre + length (attribute (x.1) (x.2))).
Proof.
  intros (Ht & Hne & Hl & Hm) Hlen. rewrite length_attribute in *. cbn [find_mapped].
  rewrite (proj2 (Nat.leb_le _ _)) by lia.
  destruct (read_attr (x.1) (x.2) pre post Ht Hl) as [-> ->]. cbn [mbind outcome_bind].
  rewrite (proj2 (Z.eqb_neq _ _) Hne). cbn [andb]. rewrite Nat2Z.id, Hm. f_equal. lia.
Qed.

(** It reads the address of the mapped one. *)
Lemma find_mapped_here f len pre a b c d port post : u16 port ->
  (length pre + 12 <= len)%nat ->
  find_mapped (S f) (pre ++ xor_mapped a b c d port ++ post) len (length pre) =
  Ok (Some (SocketAddr.mk (V4 a b c d) port)).
Proof.
  intros Hp Hlen. cbn [find_mapped]. rewrite (proj2 (Nat.leb_le _ _)) by lia. unfold xor_mapped.
  set (v := [0; FAMILY_IPV4] ++ _).
  assert (Hv : length v = 8%nat) by (unfold v; rewrite !length_app, length_to_be; reflexivity).
  destruct (read_attr ATTR_XOR_MAPPED_ADDRESS v pre post ltac:(by vm_compute) ltac:(lia)) as [-> ->].
  cbn [mbind outcome_bind]. rewrite Hv. change ((_ =? _) && _) with true. cbv iota.
  set (buf := pre ++ attribute ATTR_XOR_MAPPED_ADDRESS v ++ post).
  assert (Hbuf : buf = (pre ++ to_be 2 ATTR_XOR_MAPPED_ADDRESS ++ to_be 2 8) ++ v ++ post).
  { unfold buf, attribute. rewrite Hv, <- !app_assoc. reflexivity. }
  set (pre' := pre ++ to_be 2 ATTR_XOR_MAPPED_ADDRESS ++ to_be 2 8) in Hbuf.
  assert (Hpre : (length pre + 4 = length pre')%nat) by (unfold pre'; rewrite !length_app, !length_to_be; lia).
  rewrite Hpre, Hbuf. unfold v. change ([0; FAMILY_IPV4] ++ ?x) with (0 :: FAMILY_IPV4 :: x).
  repeat (rewrite get_idx_skip by (rewrite ?length_to_be; lia)).
  rewrite read_be_skip by lia. rewrite <- !app_comm_cons, <- !app_assoc.
  rewrite !get_idx_skip by lia. rewrite ?Nat.add_sub'. 
  change (get_idx (0 :: FAMILY_IPV4 :: ?r) 1) with (Ok (E := bytes) FAMILY_IPV4).
  cbn [mbind outcome_bind]. change (FAMILY_IPV4 =? FAMILY_IPV4) with true.
  cbv iota.
  change (read_be 2 (0 :: FAMILY_IPV4 :: to_be 2 (Z.lxor port 8466) ++ ?r) 2)
    with (read_be (E:=bytes) 2 ([0; FAMILY_IPV4] ++ to_be 2 (Z.lxor port 8466) ++ r) 2).
  rewrite (read_be_app 2 [0; FAMILY_IPV4]); [| reflexivity | apply (lxor_u16 port 8466); [exact Hp | by vm_compute]].
  cbn [mbind outcome_bind]. rewrite !get_idx_cons_S.
  set (q := Z.lxor port 8466). set (r := [_; _; _; _] ++ post).
  assert (G : forall k, get_idx (E := bytes) (to_be 2 q ++ r) (2 + k) = get_idx r k).
  { intros k. rewrite get_idx_skip by (rewrite length_to_be; lia). rewrite length_to_be. f_equal; lia. }
  rewrite (G 0%nat : get_idx (to_be 2 q ++ r) 2 = _), (G 1%nat : get_idx (to_be 2 q ++ r) 3 = _),
    (G 2%nat : get_idx (to_be 2 q ++ r) 4 = _), (G 3%nat : get_idx (to_be 2 q ++ r) 5 = _).
  unfold q, r. cbn [get_idx app lookup list_lookup expect mbind outcome_bind].
  change (wrap16 (Z.shiftr STUN_MAGIC_COOKIE 16)) with 8466. change (wrap8 (Z.shiftr STUN_MAGIC_COOKIE 24)) with 33.
  change (wrap8 (Z.shiftr STUN_MAGIC_COOKIE 16)) with 18. change (wrap8 (Z.shiftr STUN_MAGIC_COOKIE 8)) with 164.
  change (wrap8 STUN_MAGIC_COOKIE) with 66. rewrite !lxor_twice. reflexivity.
Qed.

Lemma find_mapped_attributes l : Forall plain_attr l -> forall f len pre a b c d port post, u16 port ->
  (length pre + length (attributes l) + 12 <= len)%nat -> (length l <= f)%nat ->
  find_mapped (S f) (pre ++ attributes l ++ xor_mapped a b c d port ++ post) len (length pre) =
  Ok (Some (SocketAddr.mk (V4 a b c d) port)).
Proof.
  induction 1 as [| x l Hx Hl IH]; intros f len pre a b c d port post Hp Hlen Hf.
  - apply find_mapped_here; [exact Hp | simpl in Hlen; lia].
  - change (attributes (x :: l)) with (attribute (x.1) (x.2) ++ attributes l) in *.
    rewrite length_app in Hlen. destruct f as [| f]; [simpl in Hf; lia |].
    rewrite <- app_assoc, find_mapped_skip by (assumption || lia).
    rewrite (app_assoc pre), <- length_app. apply IH; [exact Hp | rewrite length_app; lia | simpl in Hf; lia].
Qed.

Lemma length_attributes l : (4 * length l <= length (attributes l))%nat.
Proof.
  induction l as [| x l IH]; [simpl; lia |].
  change (attributes (x :: l)) with (attribute (x.1) (x.2) ++ attributes l).
  rewrite length_app, length_attribute. simpl. lia.
Qed.

(** The agent learns its public address: from a response of at most 512 octets that holds, after
    attributes whose lengths are multiples of four, the XOR-MAPPED-ADDRESS of an IPv4 address and
    port, that address and port are returned. *)
Theorem stun_mapped_address_found header l a b c d port rest :
  length header = 20%nat -> Forall plain_attr l -> u16 port ->
  (length (header ++ attributes l ++ xor_mapped a b c d port ++ rest) <= 512)%nat ->
  mapped_address (header ++ attributes l ++ xor_mapped a b c d port ++ rest) =
  Ok (SocketAddr.mk (V4 a b c d) port).
Proof.
  intros Hh Hl Hp Hlen. unfold mapped_address, received. rewrite take_ge by exact Hlen.
  assert (Hx : length (xor_mapped a b c d port) = 12%nat).
  { unfold xor_mapped. rewrite length_attribute, !length_app, length_to_be. reflexivity. }
  rewrite !length_app, Hx in *. pose proof (length_attributes l).
  rewrite (proj2 (Nat.ltb_ge _ _)) by lia. rewrite <- !app_assoc.
  pose proof (find_mapped_attributes l Hl 511 (length header + (length (attributes l) + (12 + length rest)))
    header a b c d port (rest ++ replicate (512 - (length header + (length (attributes l) + (12 + length rest)))) 0)
    Hp ltac:(lia) ltac:(lia)) as E.
  rewrite Hh in E at 3. rewrite E. reflexivity.
Qed.

Lemma stun_mapped_address_found_witness :
  let d := replicate 20 0 ++ attributes [(32802, [82; 117; 115; 116])] ++ xor_mapped 203 0 113 9 51234 ++ [1; 2] in
  mapped_address d = Ok (SocketAddr.mk (V4 203 0 113 9) 51234).
Proof.
  intros d. apply (stun_mapped_address_found (replicate 20 0) [(32802, [82; 117; 115; 116])] 203 0 113 9 51234 [1; 2]);
    [reflexivity | repeat constructor; vm_compute; congruence | vm_compute; split; congruence | vm_compute; lia].
Defined.

(** ** Bounds and termination *)
Lemma find_mapped_no_panic f buf len offset : length buf = 512%nat -> (len <= 504)%nat ->
  no_panic (find_mapped f buf len offset).
Proof.
  intros Hb Hl. revert offset. induction f as [| f IH]; intros offset; cbn [find_mapped]; [discriminate |].
  case_test; [| discriminate].
  apply bind_no_panic; [apply read_be_no_panic; lia |]. intros ty _.
  apply bind_no_panic; [apply read_be_no_panic; lia |]. intros n _.
  destruct ((ty =? _) && _); [| apply IH].
  apply bind_no_panic; [apply get_idx_no_panic; lia |]. intros family _.
  destruct (family =? FAMILY_IPV4); [| apply IH].
  apply bind_no_panic; [apply read_be_no_panic; lia |]. intros p _.
  do 4 (apply bind_no_panic; [apply get_idx_no_panic; lia |]; intros ? _). discriminate.
Qed.

Lemma stun_short_np d : (length d <= 504)%nat -> no_panic (mapped_address d).
Proof.
  intros Hd. unfold mapped_address, received. rewrite take_ge by lia.
  destruct (length d <? 20)%nat; [discriminate |].
  apply bind_no_panic; [apply find_mapped_no_panic; [rewrite length_app, length_replicate; lia | exact Hd] |].
  intros [addr |] _; discriminate.
Qed.

(** The fuel is never used up: an attribute takes at least four octets. *)
Lemma find_mapped_fuel f buf len offset : (len < offset + 4 * f)%nat ->
  find_mapped (S f) buf len offset = find_mapped f buf len offset.
Proof.
  revert offset. induction f as [| f IH]; intros offset H.
  - cbn [find_mapped]. rewrite (proj2 (Nat.leb_gt _ _)) by lia. reflexivity.
  - assert (exists k, k = S f) as [k Ek] by eauto.
    replace (find_mapped (S (S f)) buf len offset) with (find_mapped (S k) buf len offset) by (rewrite Ek; reflexivity).
    rewrite <- Ek in IH. clear Ek.
    cbn [find_mapped]. case_test; [| reflexivity].
    destruct (read_be 2 buf offset) as [ty | |]; [| reflexivity ..]. cbn [mbind outcome_bind].
    destruct (read_be 2 buf (offset + 2)) as [n | |]; [| reflexivity ..]. cbn [mbind outcome_bind].
    case_match; try reflexivity; [| apply IH; lia].
    destruct (get_idx buf (offset + 4 + 1)) as [fam | |]; [| reflexivity ..]. cbn [mbind outcome_bind].
    case_match; [reflexivity | apply IH; lia].
Qed.
Lemma find_mapped_enough k buf len offset : (len <= 512)%nat ->
  find_mapped (512 + k) buf len offset = find_mapped 512 buf len offset.
Proof.
  intros Hl. induction k as [| k IH]; [rewrite Nat.add_0_r; reflexivity |].
  rewrite <- IH. replace (512 + S k)%nat with (S (512 + k)) by lia. apply find_mapped_fuel. lia.
Qed.

(** A response of 512 octets whose only attribute is an XOR-MAPPED-ADDRESS announced in the last
    four of them *)
Definition truncated_response : bytes :=
  replicate 20 0 ++ attribute 32802 (replicate 484 0) ++ to_be 2 ATTR_XOR_MAPPED_ADDRESS ++ to_be 2 8.

(** Parsing a STUN response of at most 504 octets never indexes past its buffer, and its loop
    ends within its fuel; a longer datagram, which anyone can send to the socket, can make it
    index past the buffer and panic. *)
Theorem stun_parse_bounds :
  (forall d, (length d <= 504)%nat -> no_panic (mapped_address d)) /\
  (forall d k, let '(buf, len) := received d in find_mapped (512 + k) buf len 20 = find_mapped 512 buf len 20) /\
  length truncated_response = 512%nat /\ mapped_address truncated_response = Panic.
Proof.
  split; [| split; [| split; vm_compute; reflexivity]].
  - exact stun_short_np.
  - intros d k. unfold received. apply find_mapped_enough. rewrite length_take. lia.
Qed.

(** The parser pads an attribute by [attr_len % 4] where RFC 5389 pads to the next multiple of
    four: after an attribute of five octets, padded to eight, the mapped address is not found. *)
Theorem stun_padding_misread :
  let software := to_be 2 32802 ++ to_be 2 5 ++ [82; 117; 115; 116; 121] ++ [0; 0; 0] in
  mapped_address (replicate 20 0 ++ software ++ xor_mapped 203 0 113 9 51234)
  = Err (lit "XOR-MAPPED-ADDRESS not found in STUN response").
Proof. vm_compute. reflexivity. Qed.

(** The priority of a pair overflows the 64-bit arithmetic exactly when both candidates
    have the highest 32-bit priority, which the signaled candidate of a peer may have. *)
Theorem pair_priority_overflow l r ro :
  u32 (Candidate.priority l) -> u32 (Candidate.priority r) ->
  (CandidatePair.calculate_pair_priority l r ro = Panic <->
   Candidate.priority l = 4294967295 /\ Candidate.priority r = 4294967295).
Proof.
  unfold CandidatePair.calculate_pair_priority, u32. intros Hl Hr.
  unfold CandidatePair.PRIORITY_BITS_SHIFT, CandidatePair.PRIORITY_DOUBLE_MULTIPLIER,
    CandidatePair.TIE_BREAK_FLAG_ONE, CandidatePair.TIE_BREAK_FLAG_ZERO, u64_max.
  change (Z.shiftl 1 32) with 4294967296.
  generalize dependent (Candidate.priority l). generalize dependent (Candidate.priority r). intros y Hy x Hx.
  destruct ro; cbv beta iota zeta; destruct (Z.ltb_spec x y), (Z.ltb_spec y x);
    match goal with |- context [?a <? ?b] => destruct (Z.ltb_spec a b) end;
    (split; [first [discriminate | intros _; lia] | first [intros _; reflexivity | intros [? ?]; exfalso; lia]]).
Qed.

Lemma pair_priority_overflow_witness :
  CandidatePair.calculate_pair_priority
    (Candidate.mk [] 1 [] 4294967295 (SocketAddr.mk (V4 0 0 0 0) 0) CandidateType.Host None None)
    (Candidate.mk [] 1 [] 4294967295 (SocketAddr.mk (V4 0 0 0 0) 0) CandidateType.Host None None) Controlling = Panic.
Proof.
  apply (pair_priority_overflow
    (Candidate.mk [] 1 [] 4294967295 (SocketAddr.mk (V4 0 0 0 0) 0) CandidateType.Host None None)
    (Candidate.mk [] 1 [] 4294967295 (SocketAddr.mk (V4 0 0 0 0) 0) CandidateType.Host None None) Controlling);
    [simpl; unfold u32; lia .. | split; reflexivity].
Defined.
