(* ===== verification/ConnManager.v ===== *)
(** * The connection manager (src/connection_manager, media_transport/codec.rs, media_agent/spec.rs)

    ICE candidates and codecs as text of session descriptions, the offer/answer state machine of
    one connection, and the worker that feeds the ICE agent. The methods of [ConnectionManager]
    are computations of a small monad: they pass the manager along, collect the datagrams the
    agent sends, and end in a value, an error of type [ConnectionError] (which keeps the changes
    made before it) or a panic. What the system answers is the record [env]. *)

From stdpp Require Import prelude gmap strings.
From Stdlib Require Import ZArith Lia.
From S2P Require Import Prelude Utf8 Text RecvStream Sdp Net Config Ice.
Local Open Scope Z_scope.

(** ** Codecs *)
Module MediaType.
Inductive t : Type := Video | Audio.
End MediaType.
Module CodecSpec.
Inductive t : Type := H264 | G711U.
Definition media_type (c : t) : MediaType.t := match c with H264 => MediaType.Video | G711U => MediaType.Audio end.
End CodecSpec.
Module CodecDescriptor.
Record t : Type := mk {
  codec_name : bytes; rtp_representation : RtpCodec.t; sdp_fmtp : option bytes; spec : CodecSpec.t }.
Definition h264_dynamic (pt : Z) : t :=
  mk (lit "H264") (RtpCodec.with_name pt 90000 (lit "H264"))
     (Some (lit "profile-level-id=42e01f;packetization-mode=1")) CodecSpec.H264.
Definition pcmu_dynamic (pt : Z) : t :=
  mk (lit "PCMU") (RtpCodec.with_name pt 8000 (lit "PCMU")) None CodecSpec.G711U.
End CodecDescriptor.

(** ** Candidates as attribute values *)
(** [str::strip_prefix] *)
Definition strip_prefix (p s : bytes) : option bytes :=
  if decide (take (length p) s = p) then Some (drop (length p) s) else None.

Module ICEAndSDP.
Definition get_typ_as_sdp_string (c : Candidate.t) : bytes :=
  match Candidate.cand_type c with
  | CandidateType.Host => lit "host"
  | CandidateType.PeerReflexive => lit "prflx"
  | CandidateType.Relayed => lit "relay"
  | CandidateType.ServerReflexive => lit "srflx"
  end.
Definition get_related_addr_as_sdp_string (c : Candidate.t) : option bytes :=
  (fun s => lit "raddr " ++ print_ip (SocketAddr.ip s) ++ lit " rport " ++ dec (SocketAddr.port s))
  <$> Candidate.related_address c.
Definition to_string (c : Candidate.t) : bytes :=
  Candidate.foundation c ++ lit " " ++ dec (Candidate.component c) ++ lit " " ++ Candidate.transport c ++
  lit " " ++ dec (Candidate.priority c) ++ lit " " ++ print_ip (SocketAddr.ip (Candidate.address c)) ++
  lit " " ++ dec (SocketAddr.port (Candidate.address c)) ++ lit " typ " ++ get_typ_as_sdp_string c ++
  match get_related_addr_as_sdp_string c with Some s => lit " " ++ s | None => [] end.

(** The loop over the extensions, [i] the number of words already read *)
Fixpoint extensions (fuel : nat) (parts : list bytes) (i : nat) (related : option SocketAddr.t)
  : outcome bytes (option SocketAddr.t) :=
  match fuel with
  | O => Ok related
  | S f =>
    if (i + 1 <? length parts)%nat then
      p ← expect (parts !! i);
      if decide (p = lit "raddr") then
        v ← expect (parts !! (i + 1)%nat);
        rel_ip ← ok_or (parse_ip v) (lit "Invalid raddr IP");
        extensions f parts (i + 2) (Some (SocketAddr.mk rel_ip 0))
      else if decide (p = lit "rport") then
        v ← expect (parts !! (i + 1)%nat);
        rel_port ← map_err (fun _ => lit "Invalid rport value") (from_str_radix 10 u16_max v);
        extensions f parts (i + 2)
          (match related with Some sa => Some (SocketAddr.mk (SocketAddr.ip sa) rel_port) | None => None end)
      else extensions f parts (i + 1) related
    else Ok related
  end.

Definition cand_type_of (w : bytes) : outcome bytes CandidateType.t :=
  if decide (w = lit "host") then Ok CandidateType.Host
  else if decide (w = lit "srflx") then Ok CandidateType.ServerReflexive
  else if decide (w = lit "prflx") then Ok CandidateType.PeerReflexive
  else if decide (w = lit "relay") then Ok CandidateType.Relayed
  else Err (lit "Unknown candidate type: " ++ w).

Definition from_str (s : bytes) : outcome bytes Candidate.t :=
  let s := trim s in
  let s := default s (strip_prefix (lit "candidate:") s) in
  let parts := split_whitespace s in
  if (length parts <? 8)%nat then Err (lit "Invalid candidate string: '" ++ s ++ lit "'")
  else
    foundation ← expect (parts !! 0%nat);
    p1 ← expect (parts !! 1%nat);
    component ← map_err (fun _ => lit "Invalid component") (from_str_radix 10 u8_max p1);
    transport ← expect (parts !! 2%nat);
    p3 ← expect (parts !! 3%nat);
    priority ← map_err (fun _ => lit "Invalid priority") (from_str_radix 10 u32_max p3);
    p4 ← expect (parts !! 4%nat);
    ip ← ok_or (parse_ip p4) (lit "Invalid IP address");
    p5 ← expect (parts !! 5%nat);
    port ← map_err (fun _ => lit "Invalid port") (from_str_radix 10 u16_max p5);
    if negb (bool_decide (parts !! 6%nat = Some (lit "typ"))) then Err (lit "Missing 'typ' token in candidate")
    else
      w ← ok_or (parts !! 7%nat) (lit "Missing candidate type");
      cand_type ← cand_type_of w;
      related ← extensions (length parts) parts 8 None;
      Ok (Candidate.mk foundation component transport priority (SocketAddr.mk ip port) cand_type related None).
End ICEAndSDP.

(** ** rtpmap *)
(** [str::splitn(3, c)] *)
Definition splitn3 (c : Z) (s : bytes) : list bytes :=
  match split_once c s with
  | None => [s]
  | Some (a, r) => match split_once c r with None => [a; r] | Some (b, r) => [a; b; r] end
  end.

Module RtpMap.
Inductive error : Type :=
| MissingParts | InvalidPayloadType | InvalidClockRate | PayloadTypeOutOfRange | TrailingGarbage.
Definition error_to_string (e : error) : bytes :=
  match e with
  | MissingParts => lit "Missing required parts in rtpmap"
  | InvalidPayloadType => lit "Invalid payload type"
  | InvalidClockRate => lit "Invalid clock rate"
  | PayloadTypeOutOfRange => lit "Payload type out of [0,127]"
  | TrailingGarbage => lit "Unexpected trailing tokens after rtpmap"
  end.
Record t : Type := mk {
  payload_type : Z; encoding_name : bytes; clock_rate : Z; encoding_params : option Z }.

Definition from_str (s : bytes) : outcome error t :=
  let it := split_whitespace (trim s) in
  pt_str ← ok_or (it !! 0%nat) MissingParts;
  rhs ← ok_or (it !! 1%nat) MissingParts;
  if is_some (it !! 2%nat) then Err TrailingGarbage
  else
    payload_type ← map_err (fun _ => InvalidPayloadType) (from_str_radix 10 u8_max pt_str);
    if 127 <? payload_type then Err PayloadTypeOutOfRange
    else
      let parts := splitn3 47 rhs in
      name ← ok_or (parts !! 0%nat) MissingParts;
      clock ← ok_or (parts !! 1%nat) MissingParts;
      clock_rate ← map_err (fun _ => InvalidClockRate) (from_str_radix 10 u32_max (trim clock));
      encoding_params ←
        (match parts !! 2%nat with
         | None => Ok None
         | Some p =>
             let p := trim p in
             if bool_decide (p = []) then Ok None
             else v ← map_err (fun _ => MissingParts) (from_str_radix 10 u16_max p);
                  Ok (if v =? 0 then None else Some v)
         end);
      Ok (mk payload_type (trim name) clock_rate encoding_params).
End RtpMap.

(** ** Errors, states and results *)
Module ConnectionError.
Inductive t : Type :=
| MediaSpec | Network (s : bytes) | Socket (e : bytes) | IceAgent | Negotiation (s : bytes)
| Sdp (e : SdpError.t) | ClosingProt (s : bytes) | RtpMap (s : bytes).
Definition to_string (int_error : ParseIntError.t -> bytes) (e : t) : bytes :=
  match e with
  | MediaSpec => lit "Invalid media specification"
  | IceAgent => lit "ICE agent error"
  | Negotiation msg => lit "Negotiation error: " ++ msg
  | Sdp e => lit "SDP error: " ++ SdpError.to_string int_error e
  | Network msg => lit "Network error: " ++ msg
  | Socket e => lit "Socket error: " ++ e
  | ClosingProt msg => lit "Closing protocol error: " ++ msg
  | RtpMap msg => lit "RtpMap error: " ++ msg
  end.
End ConnectionError.

Module IcePhase.
Inductive t : Type := Idle | Gathering | Checking | Nominated.
#[export] Instance t_eq_dec : EqDecision t.
Proof. solve_decision. Defined.
End IcePhase.
#[export] Existing Instance IcePhase.t_eq_dec.
Module SignalingState.
Inductive t : Type := Stable | HaveLocalOffer | HaveRemoteOffer | Closed.
#[export] Instance t_eq_dec : EqDecision t.
Proof. solve_decision. Defined.
End SignalingState.
#[export] Existing Instance SignalingState.t_eq_dec.
Module OutboundSdp.
Inductive t : Type := Offer (s : Sdp.t) | Answer (s : Sdp.t) | None.
End OutboundSdp.

(** ** The ICE worker

    [rx] is the queue of the channel; a turn of the thread drains the sockets and, when 200 ms
    have passed, repeats the binding requests. *)
Module IceWorker.
Record t : Type := mk {
  run : bool; sockets : list Z; targets_per_sock : list (list SocketAddr.t);
  rx : list (bytes * SocketAddr.t) }.

Fixpoint position (x : Z) (l : list Z) : option nat :=
  match l with [] => None | y :: l => if y =? x then Some 0%nat else S <$> position x l end.
Definition add_target (sockets : list Z) (ts : list (list SocketAddr.t)) (p : CandidatePair.t)
  : list (list SocketAddr.t) :=
  match Candidate.socket (CandidatePair.local p) with
  | Some ls => match position ls sockets with
               | Some idx => alter (fun l => l ++ [Candidate.address (CandidatePair.remote p)]) idx ts
               | None => ts
               end
  | None => ts
  end.
Definition spawn (agent : IceAgent.t) : t :=
  let sockets := omap Candidate.socket (IceAgent.local_candidates agent) in
  mk true sockets
     (foldl (add_target sockets) (replicate (length sockets) []) (IceAgent.candidate_pairs agent)) [].

(** [inbound]: what each socket delivers until it would block *)
Definition turn (w : t) (inbound : list (list (bytes * SocketAddr.t))) (resend : bool)
  : t * list IceAgent.datagram :=
  if run w then
    (mk (run w) (sockets w) (targets_per_sock w)
        (rx w ++ mjoin ((fun l => (fun d => (take 1500 d.1, d.2)) <$> l) <$> take (length (sockets w)) inbound)),
     if resend then
       mjoin (zip_with (fun s ts => (fun dst => IceAgent.Datagram s IceAgent.BINDING_REQUEST dst) <$> ts)
                       (sockets w) (targets_per_sock w))
     else [])
  else (w, []).
Definition stop (w : t) : t := mk false (sockets w) (targets_per_sock w) (rx w).
End IceWorker.

(** ** The manager *)
Module ConnectionManager.
Import SignalingState.
Definition DEFAULT_FINGERPRINT : bytes :=
  lit "00:00:00:00:00:00:00:00:00:00:00:00:00:00:00:00:00:00:00:00:00:00:00:00".
Definition DEFAULT_PORT : Z := 9.
Definition DEFAULT_PROTO : bytes := lit "UDP/TLS/RTP/SAVPF".
Definition DEFAULT_FMT : bytes := lit "96".
Definition DEFAULT_NET_TYPE : bytes := lit "IN".
Definition DEFAULT_ADDR_TYPE : AddrType.t := AddrType.IP4.
Definition DEFAULT_CONN_ADDR : bytes := lit "0.0.0.0".

Record t : Type := mk {
  config : Config.t;
  ice_agent : IceAgent.t;
  signaling : SignalingState.t;
  local_description : option Sdp.t;
  remote_description : option Sdp.t;
  ice_phase : IcePhase.t;
  local_codecs : list CodecDescriptor.t;
  remote_codecs : list RtpCodec.t;
  ice_worker : option IceWorker.t;
  local_fingerprint : bytes;
  remote_fingerprint : option bytes }.

Definition with_agent (s : t) (a : IceAgent.t) : t :=
  mk (config s) a (signaling s) (local_description s) (remote_description s) (ice_phase s)
     (local_codecs s) (remote_codecs s) (ice_worker s) (local_fingerprint s) (remote_fingerprint s).
Definition with_signaling (s : t) (g : SignalingState.t) : t :=
  mk (config s) (ice_agent s) g (local_description s) (remote_description s) (ice_phase s)
     (local_codecs s) (remote_codecs s) (ice_worker s) (local_fingerprint s) (remote_fingerprint s).
Definition with_local (s : t) (d : option Sdp.t) : t :=
  mk (config s) (ice_agent s) (signaling s) d (remote_description s) (ice_phase s)
     (local_codecs s) (remote_codecs s) (ice_worker s) (local_fingerprint s) (remote_fingerprint s).
Definition with_remote (s : t) (d : option Sdp.t) : t :=
  mk (config s) (ice_agent s) (signaling s) (local_description s) d (ice_phase s)
     (local_codecs s) (remote_codecs s) (ice_worker s) (local_fingerprint s) (remote_fingerprint s).
Definition with_phase (s : t) (p : IcePhase.t) : t :=
  mk (config s) (ice_agent s) (signaling s) (local_description s) (remote_description s) p
     (local_codecs s) (remote_codecs s) (ice_worker s) (local_fingerprint s) (remote_fingerprint s).
Definition with_local_codecs (s : t) (c : list CodecDescriptor.t) : t :=
  mk (config s) (ice_agent s) (signaling s) (local_description s) (remote_description s) (ice_phase s)
     c (remote_codecs s) (ice_worker s) (local_fingerprint s) (remote_fingerprint s).
Definition with_remote_codecs (s : t) (c : list RtpCodec.t) : t :=
  mk (config s) (ice_agent s) (signaling s) (local_description s) (remote_description s) (ice_phase s)
     (local_codecs s) c (ice_worker s) (local_fingerprint s) (remote_fingerprint s).
Definition with_worker (s : t) (w : option IceWorker.t) : t :=
  mk (config s) (ice_agent s) (signaling s) (local_description s) (remote_description s) (ice_phase s)
     (local_codecs s) (remote_codecs s) w (local_fingerprint s) (remote_fingerprint s).
Definition with_fingerprint (s : t) (f : option bytes) : t :=
  mk (config s) (ice_agent s) (signaling s) (local_description s) (remote_description s) (ice_phase s)
     (local_codecs s) (remote_codecs s) (ice_worker s) (local_fingerprint s) f.

(** *** Computations *)
Definition M (A : Type) : Type := t -> t * list IceAgent.datagram * outcome ConnectionError.t A.
#[export] Instance M_ret : MRet M := fun _ a s => (s, [], Ok a).
#[export] Instance M_bind : MBind M := fun _ _ k m s =>
  match m s with
  | (s, ds, Ok a) => let '(s, ds', r) := k a s in (s, ds ++ ds', r)
  | (s, ds, Err e) => (s, ds, Err e)
  | (s, ds, Panic) => (s, ds, Panic)
  end.
Definition get : M t := fun s => (s, [], Ok s).
Definition modify (f : t -> t) : M unit := fun s => (f s, [], Ok ()).
Definition lift {A} (o : outcome ConnectionError.t A) : M A := fun s => (s, [], o).
Definition send (ds : list IceAgent.datagram) : M unit := fun s => (s, ds, Ok ()).
Definition fail {A} (e : ConnectionError.t) : M A := lift (Err e).
(** A function without an error of its own *)
Definition total {A} (o : outcome Empty_set A) : M A := lift (map_err (fun e : Empty_set => match e with end) o).

(** What the system answers in one call: the clock, the interfaces, the interfaces when they are read
    again because no candidate is known, the STUN server, and whether a datagram can be sent *)
Record env : Type := Env {
  unix_time : option Z;
  host : Gathering.host_env;
  host_again : Gathering.host_env;
  stun : IceAgent.stun_env;
  send_ok : IceAgent.datagram -> bool }.

(** [fingerprint] is the result of [get_local_fingerprint_sha256]. *)
Definition new (config : Config.t) (fingerprint : option bytes) (draws : nat -> nat) : outcome Empty_set t :=
  ice_agent ← IceAgent.with_logger Controlling config draws;
  Ok (mk config ice_agent Stable None None IcePhase.Idle [] [] None (default DEFAULT_FINGERPRINT fingerprint) None).

Definition set_local_rtp_codecs (s : t) (codecs : list CodecDescriptor.t) : t := with_local_codecs s codecs.
Definition set_ice_agent (s : t) (a : IceAgent.t) : t := with_agent s a.

(** *** Descriptions *)
Definition rtpmap_value (mt : MediaType.t) (codec : RtpCodec.t) : bytes :=
  let name := match RtpCodec.name codec with
              | [] => match mt with MediaType.Audio => lit "PCMU" | MediaType.Video => lit "H264" end
              | n => n
              end in
  dec (RtpCodec.payload_type codec) ++ lit " " ++ name ++ lit "/" ++ dec (RtpCodec.clock_rate codec).
Definition codec_attrs (mt : MediaType.t) (d : CodecDescriptor.t) : list Attribute.t :=
  let codec := CodecDescriptor.rtp_representation d in
  Attribute.new (lit "rtpmap") (Some (rtpmap_value mt codec)) ::
  match CodecDescriptor.sdp_fmtp d with
  | Some fmtp => [Attribute.new (lit "fmtp") (Some (dec (RtpCodec.payload_type codec) ++ lit " " ++ fmtp))]
  | None => []
  end.

Definition build_media_description (s : t) (media_type : MediaType.t) (codecs : list CodecDescriptor.t)
    (candidates : list Attribute.t) : Media.t :=
  let m := Media.new_blank in
  let m := Media.set_kind m (match media_type with MediaType.Audio => MediaKind.Audio
                                                 | MediaType.Video => MediaKind.Video end) in
  let m := Media.set_port m (PortSpec.new DEFAULT_PORT None) in
  let m := Media.set_proto m DEFAULT_PROTO in
  let formats := match codecs with
                 | [] => [DEFAULT_FMT]
                 | _ => (fun c => dec (RtpCodec.payload_type (CodecDescriptor.rtp_representation c))) <$> codecs
                 end in
  let m := Media.set_fmts m formats in
  let m := Media.set_connection m (Some (Connection.new DEFAULT_NET_TYPE DEFAULT_ADDR_TYPE DEFAULT_CONN_ADDR)) in
  let '(ufrag, pwd) := IceAgent.local_credentials (ice_agent s) in
  let attrs :=
    candidates ++
    [Attribute.new (lit "ice-ufrag") (Some ufrag); Attribute.new (lit "ice-pwd") (Some pwd);
     Attribute.new (lit "fingerprint") (Some (lit "sha-256 " ++ local_fingerprint s));
     Attribute.new (lit "setup")
       (Some (if decide (signaling s = Stable) then lit "actpass" else lit "active"))] ++
    match codecs with
    | [] => [Attribute.new (lit "rtpmap") (Some (lit "96 H264/90000"))]
    | _ => mjoin (codec_attrs media_type <$> codecs)
    end ++
    [Attribute.new (lit "rtcp-mux") None] in
  Media.set_attrs m attrs.

Section hash.
Context (default_hash : bytes -> Z).

Definition get_local_candidates_as_attributes (h : Gathering.host_env) : M (list Attribute.t) :=
  let cs := Gathering.gather_host_candidates default_hash h in
  modify (fun s => with_agent s (foldl IceAgent.add_local_candidate (ice_agent s) cs)) ≫= fun _ =>
  mret ((fun c => Attribute.new (lit "candidate") (Some (ICEAndSDP.to_string c))) <$> cs).

Definition is_audio (c : CodecDescriptor.t) : bool :=
  match CodecSpec.media_type (CodecDescriptor.spec c) with MediaType.Audio => true | MediaType.Video => false end.

Definition build_local_sdp (e : env) : M Sdp.t :=
  candidates ← get_local_candidates_as_attributes (host e);
  s ← get;
  let audio_codecs := filter (fun c => is_audio c = true) (local_codecs s) in
  let video_codecs := filter (fun c => is_audio c = false) (local_codecs s) in
  let media :=
    (match audio_codecs with [] => [] | _ => [build_media_description s MediaType.Audio audio_codecs candidates] end) ++
    (match video_codecs with [] => [] | _ => [build_media_description s MediaType.Video video_codecs candidates] end) in
  let media := match media with [] => [build_media_description s MediaType.Video [] candidates] | _ => media end in
  origin ← total (Origin.new_blank (unix_time e));
  mret (Sdp.new 0 origin (lit "demo_session") None None [] [] None [] [TimeDesc.new_blank] [] media []).

Definition set_ice_role_from_signaling (we_are_offerer remote_is_ice_lite : bool) (s : t) : t :=
  with_agent s (IceAgent.set_role (ice_agent s)
    (if remote_is_ice_lite || we_are_offerer then Controlling else Controlled)).

Definition negotiate (e : env) : M OutboundSdp.t :=
  s ← get;
  match signaling s with
  | Stable =>
      offer ← build_local_sdp e;
      modify (fun s => set_ice_role_from_signaling true false (with_signaling (with_local s (Some offer)) HaveLocalOffer)) ≫= fun _ =>
      mret (OutboundSdp.Offer offer)
  | HaveLocalOffer => mret OutboundSdp.None
  | HaveRemoteOffer => fail (ConnectionError.Negotiation (lit "cannot create offer while have-remote-offer"))
  | Closed => fail (ConnectionError.Negotiation (lit "connection closed"))
  end.

(** *** Reading a description *)

(** [to_uppercase] maps no character outside ASCII to R, T or P alone. *)
Definition to_ascii_uppercase (s : bytes) : bytes := (fun b => if in_range 97 122 b then b - 32 else b) <$> s.

Fixpoint rtp_meta_attrs (allowed : list Z) (attrs : list Attribute.t) (acc : list RtpCodec.t)
  : outcome ConnectionError.t (list RtpCodec.t) :=
  match attrs with
  | [] => Ok acc
  | a :: attrs =>
      if negb (bool_decide (Attribute.key a = lit "rtpmap")) then rtp_meta_attrs allowed attrs acc
      else
        raw ← ok_or (Attribute.value a) (ConnectionError.RtpMap (lit "Wrong value"));
        rm ← map_err (fun _ => ConnectionError.RtpMap (lit "Failed parsing rtpmap")) (RtpMap.from_str raw);
        if negb (bool_decide (allowed = [])) && negb (bool_decide (RtpMap.payload_type rm ∈ allowed))
        then rtp_meta_attrs allowed attrs acc
        else rtp_meta_attrs allowed attrs
               (acc ++ [RtpCodec.with_name (RtpMap.payload_type rm) (RtpMap.clock_rate rm) (RtpMap.encoding_name rm)])
  end.
Fixpoint rtp_meta_media (ms : list Media.t) (acc : list RtpCodec.t) : outcome ConnectionError.t (list RtpCodec.t) :=
  match ms with
  | [] => Ok acc
  | m :: ms =>
      if negb (IceAgent.contains (lit "RTP") (to_ascii_uppercase (Media.proto m))) then rtp_meta_media ms acc
      else
        let allowed := omap (fun fmt => match from_str_radix 10 u8_max fmt with Ok v => Some v | _ => None end)
                            (Media.fmts m) in
        acc ← rtp_meta_attrs allowed (Media.attrs m) acc;
        rtp_meta_media ms acc
  end.
(** [sort_by_key(|c| c.payload_type)], stable, and [dedup_by_key] *)
Fixpoint insert_pt (c : RtpCodec.t) (l : list RtpCodec.t) : list RtpCodec.t :=
  match l with
  | [] => [c]
  | d :: r => if RtpCodec.payload_type c <=? RtpCodec.payload_type d then c :: l else d :: insert_pt c r
  end.
Definition sort_pt (l : list RtpCodec.t) : list RtpCodec.t := foldr insert_pt [] l.
Fixpoint dedup_pt (prev : Z) (l : list RtpCodec.t) : list RtpCodec.t :=
  match l with
  | [] => []
  | c :: r => if RtpCodec.payload_type c =? prev then dedup_pt prev r
              else c :: dedup_pt (RtpCodec.payload_type c) r
  end.
Definition dedup_by_pt (l : list RtpCodec.t) : list RtpCodec.t :=
  match l with [] => [] | c :: r => c :: dedup_pt (RtpCodec.payload_type c) r end.
Definition extract_and_store_rtp_meta (remote : Sdp.t) : M unit :=
  discovered ← lift (rtp_meta_media (Sdp.media remote) []);
  modify (fun s => with_remote_codecs s (dedup_by_pt (sort_pt discovered))).

Record ice_meta : Type := IceMeta { lite : bool; r_ufrag : option bytes; r_pwd : option bytes }.
Definition session_meta (m : ice_meta) (a : Attribute.t) : ice_meta :=
  if decide (Attribute.key a = lit "ice-lite") then IceMeta true (r_ufrag m) (r_pwd m)
  else if decide (Attribute.key a = lit "ice-ufrag") then IceMeta (lite m) (Attribute.value a) (r_pwd m)
  else if decide (Attribute.key a = lit "ice-pwd") then IceMeta (lite m) (r_ufrag m) (Attribute.value a)
  else m.
Fixpoint media_meta (m : ice_meta) (attrs : list Attribute.t) : M ice_meta :=
  match attrs with
  | [] => mret m
  | a :: attrs =>
      if decide (Attribute.key a = lit "candidate") then
        value ← lift (ok_or (Attribute.value a) ConnectionError.IceAgent);
        c ← lift (map_err (fun _ => ConnectionError.IceAgent) (ICEAndSDP.from_str value));
        modify (fun s => with_agent s (IceAgent.add_remote_candidate (ice_agent s) c)) ≫= fun _ =>
        media_meta m attrs
      else if decide (Attribute.key a = lit "ice-ufrag") then
        media_meta (IceMeta (lite m) (match r_ufrag m with None => Attribute.value a | u => u end) (r_pwd m)) attrs
      else if decide (Attribute.key a = lit "ice-pwd") then
        media_meta (IceMeta (lite m) (r_ufrag m) (match r_pwd m with None => Attribute.value a | p => p end)) attrs
      else if decide (Attribute.key a = lit "ice-lite") then media_meta (IceMeta true (r_ufrag m) (r_pwd m)) attrs
      else media_meta m attrs
  end.
Fixpoint medias_meta (m : ice_meta) (ms : list Media.t) : M ice_meta :=
  match ms with
  | [] => mret m
  | x :: ms => m ← media_meta m (Media.attrs x); medias_meta m ms
  end.
Definition store_credentials (m : ice_meta) (s : t) : t :=
  let s := match r_ufrag m with Some u => with_agent s (IceAgent.set_remote_ufrag (ice_agent s) u) | None => s end in
  match r_pwd m with Some p => with_agent s (IceAgent.set_remote_pwd (ice_agent s) p) | None => s end.
Definition extract_and_store_remote_ice_meta (remote : Sdp.t) : M ice_meta :=
  m ← medias_meta (foldl session_meta (IceMeta false None None) (Sdp.attrs remote)) (Sdp.media remote);
  modify (store_credentials m) ≫= fun _ => mret m.

Definition fingerprint_of (a : Attribute.t) : option bytes :=
  if decide (Attribute.key a = lit "fingerprint") then
    match Attribute.value a with
    | Some val => match split_whitespace val with _ :: hash :: _ => Some hash | _ => None end
    | None => None
    end
  else None.
Fixpoint first_some {A B} (f : A -> option B) (l : list A) : option B :=
  match l with [] => None | x :: l => match f x with Some y => Some y | None => first_some f l end end.
Definition extract_and_store_fingerprint (remote : Sdp.t) : M unit :=
  match first_some (fun m => first_some fingerprint_of (Media.attrs m)) (Sdp.media remote) with
  | Some f => modify (fun s => with_fingerprint s (Some f))
  | None => mret ()
  end.

(** *** Connectivity *)
Definition spawn_ice_worker (s : t) : t :=
  match ice_worker s with Some _ => s | None => with_worker s (Some (IceWorker.spawn (ice_agent s))) end.
Definition stop_ice_worker (s : t) : t := with_worker s None.

Definition start_connectivity_checks (e : env) : M unit :=
  s ← get;
  if negb (is_some (local_description s)) || negb (is_some (remote_description s)) then
    fail (ConnectionError.Negotiation (lit "SDP not complete for ICE"))
  else
    modify (fun s => with_phase s IcePhase.Gathering) ≫= fun _ =>
    (match IceAgent.local_candidates (ice_agent s) with
     | [] => '(a, ds) ← total (IceAgent.gather_candidates default_hash (ice_agent s) (host_again e) (stun e));
             send ds ≫= fun _ => modify (fun s => with_agent s a)
     | _ => mret ()
     end) ≫= fun _ =>
    modify (fun s => with_phase s IcePhase.Checking) ≫= fun _ =>
    s ← get;
    '(a, _) ← total (IceAgent.form_candidate_pairs (ice_agent s));
    let '(a, ds) := IceAgent.start_checks (send_ok e) a in
    send ds ≫= fun _ =>
    modify (fun s => spawn_ice_worker (with_agent s a)).

Definition maybe_start_ice (e : env) : M unit :=
  s ← get;
  let ready := is_some (local_description s) && is_some (remote_description s) &&
               bool_decide (signaling s = Stable) in
  if negb ready then mret () else start_connectivity_checks e.

(** [out] is returned whatever becomes of the checks. *)
Definition ignore_error (m : M unit) : M unit := fun s =>
  match m s with (s, ds, Err _) => (s, ds, Ok ()) | r => r end.

Definition is_probably_offer (sdp : Sdp.t) : bool := false.
Definition rollback_to_stable (s : t) : t := with_signaling (with_local s None) Stable.

(** The recursive call of the glare branch is unfolded once: it starts from [Stable]. *)
Definition apply_offer (e : env) (sdp : Sdp.t) : M OutboundSdp.t :=
  m ← extract_and_store_remote_ice_meta sdp;
  extract_and_store_rtp_meta sdp ≫= fun _ =>
  extract_and_store_fingerprint sdp ≫= fun _ =>
  modify (fun s => with_signaling (with_remote s (Some sdp)) HaveRemoteOffer) ≫= fun _ =>
  answer ← build_local_sdp e;
  modify (fun s => with_signaling (set_ice_role_from_signaling false (lite m) (with_local s (Some answer))) Stable) ≫= fun _ =>
  mret (OutboundSdp.Answer answer).
Definition apply_answer (sdp : Sdp.t) : M OutboundSdp.t :=
  _ ← extract_and_store_remote_ice_meta sdp;
  extract_and_store_rtp_meta sdp ≫= fun _ =>
  extract_and_store_fingerprint sdp ≫= fun _ =>
  modify (fun s => with_signaling (with_remote s (Some sdp)) Stable) ≫= fun _ =>
  mret OutboundSdp.None.

Definition apply_remote_sdp (e : env) (remote : bytes) : M OutboundSdp.t :=
  sdp ← lift (map_err ConnectionError.Sdp (Sdp.parse remote));
  s ← get;
  out ← (match signaling s with
         | Stable => apply_offer e sdp
         | HaveLocalOffer =>
             if is_probably_offer sdp then modify rollback_to_stable ≫= fun _ => apply_offer e sdp
             else apply_answer sdp
         | HaveRemoteOffer => fail (ConnectionError.Negotiation (lit "unexpected SDP while have-remote-offer"))
         | Closed => fail (ConnectionError.Negotiation (lit "connection closed"))
         end);
  ignore_error (maybe_start_ice e) ≫= fun _ => mret out.

Definition apply_remote_trickle_candidate (line : bytes) : M unit :=
  c ← lift (map_err (fun _ => ConnectionError.IceAgent) (ICEAndSDP.from_str line));
  modify (fun s => with_agent s (IceAgent.add_remote_candidate (ice_agent s) c)).

(** *** The agent's packets *)
Fixpoint handle_all (a : IceAgent.t) (pkts : list (bytes * SocketAddr.t)) : IceAgent.t * list IceAgent.datagram :=
  match pkts with
  | [] => (a, [])
  | (p, from) :: r =>
      let '(a, ds) := IceAgent.handle_incoming_packet a p from in
      let '(a, ds') := handle_all a r in (a, ds ++ ds')
  end.
Definition drain_ice_events (s : t) : t * list IceAgent.datagram :=
  let '(s, ds) :=
    match ice_worker s with
    | Some w =>
        let '(a, ds) := handle_all (ice_agent s) (IceWorker.rx w) in
        (with_worker (with_agent s a)
           (Some (IceWorker.mk (IceWorker.run w) (IceWorker.sockets w) (IceWorker.targets_per_sock w) [])), ds)
    | None => (s, [])
    end in
  if is_some (IceAgent.nominated_pair (ice_agent s)) && negb (bool_decide (ice_phase s = IcePhase.Nominated))
  then (stop_ice_worker (with_phase s IcePhase.Nominated), ds)
  else (s, ds).

(** One turn of the loop reads each socket once; the list ends at the deadline. *)
Fixpoint run_ice_reactor_blocking (a : IceAgent.t) (turns : list (list (option (bytes * SocketAddr.t))))
  : IceAgent.t * list IceAgent.datagram :=
  match turns with
  | [] => (a, [])
  | rs :: turns =>
      if is_some (IceAgent.nominated_pair a) then (a, [])
      else
        let sockets := omap Candidate.socket (IceAgent.local_candidates a) in
        let pkts := (fun d => (take 1500 d.1, d.2)) <$> omap id (take (length sockets) rs) in
        let '(a, ds) := handle_all a pkts in
        let '(a, ds') := run_ice_reactor_blocking a turns in (a, ds ++ ds')
  end.

Definition reset (s : t) (draws : nat -> nat) : outcome Empty_set t :=
  a ← IceAgent.with_logger Controlling (config s) draws;
  Ok (mk (config s) a Stable None None IcePhase.Idle (local_codecs s) [] None (local_fingerprint s) None).
End hash.
End ConnectionManager.
