(* ===== verification/ConnCodec.v ===== *)
(** * Candidates and codecs in session descriptions

    What the connection manager writes into a description is what it reads from it: candidates,
    codecs, credentials and fingerprint; and its readers never panic. *)

From stdpp Require Import prelude gmap strings.
From Stdlib Require Import ZArith Lia.
From S2P Require Import Prelude Utf8 Text RecvStream Sdp SdpCodec Net Config Ice IceTheory ConnManager.
Local Open Scope Z_scope.

(** ** Candidates *)
Definition addr_ok (a : SocketAddr.t) : Prop := v4_ok (SocketAddr.ip a) /\ u16 (SocketAddr.port a).
(** A candidate that the text can carry: IPv4 addresses, and no foundation that starts like the
    optional prefix *)
Record cand_text_ok (c : Candidate.t) : Prop := {
  ct_foundation : printable (Candidate.foundation c) = true /\ 58 ∉ Candidate.foundation c;
  ct_component : u8 (Candidate.component c);
  ct_transport : printable (Candidate.transport c) = true;
  ct_priority : u32 (Candidate.priority c);
  ct_address : addr_ok (Candidate.address c);
  ct_related : match Candidate.related_address c with Some a => addr_ok a | None => True end }.

Definition cand_fields (c : Candidate.t) : list bytes :=
  [Candidate.foundation c; dec (Candidate.component c); Candidate.transport c; dec (Candidate.priority c);
   print_ip (SocketAddr.ip (Candidate.address c)); dec (SocketAddr.port (Candidate.address c)); lit "typ";
   ICEAndSDP.get_typ_as_sdp_string c] ++
  match Candidate.related_address c with
  | Some a => [lit "raddr"; print_ip (SocketAddr.ip a); lit "rport"; dec (SocketAddr.port a)]
  | None => []
  end.

Lemma to_string_fields c : ICEAndSDP.to_string c = join [32] (cand_fields c).
Proof.
  unfold ICEAndSDP.to_string, ICEAndSDP.get_related_addr_as_sdp_string, cand_fields.
  destruct (Candidate.related_address c) as [a |]; cbn [app join fmap option_fmap option_map];
    change (lit " ") with [32]; change (lit " typ ") with ([32] ++ lit "typ" ++ [32]);
    change (lit "raddr ") with (lit "raddr" ++ [32]); change (lit " rport ") with ([32] ++ lit "rport" ++ [32]);
    rewrite <- !app_assoc; rewrite ?app_nil_r; reflexivity.
Qed.

Lemma dec_printable n : u64 n -> printable (dec n) = true.
Proof.
  intros Hn. unfold printable. rewrite bool_decide_false by apply dec_ne. apply forallb_forall.
  intros y Hy. apply in_range_spec. pose proof (dec_digits n Hn) as Hf. rewrite Forall_forall in Hf.
  specialize (Hf y (proj2 (list_elem_of_In _ _) Hy)). simpl in Hf. lia.
Qed.

Lemma cand_fields_printable c : cand_text_ok c -> forallb printable (cand_fields c) = true.
Proof.
  intros [[Hf _] Hc Ht Hp [Ha Hpo] Hr]. unfold cand_fields. rewrite forallb_app. cbn [forallb].
  rewrite Hf, Ht, !dec_printable, print_v4_printable by (assumption || ulia).
  unfold ICEAndSDP.get_typ_as_sdp_string. destruct (Candidate.cand_type c); cbn [andb]; simpl (printable (lit _));
  (destruct (Candidate.related_address c) as [r |]; [destruct Hr as [Hri Hrp] | reflexivity]; cbn [forallb];
   rewrite dec_printable, print_v4_printable by (assumption || ulia); reflexivity).
Qed.

(** The optional prefix is not there. *)
Lemma strip_prefix_app p f r : 58 ∈ p -> 32 ∉ p -> 58 ∉ f ->
  strip_prefix p (f ++ 32 :: r) = None.
Proof.
  intros Hc Hs Hf. unfold strip_prefix. case_decide as E; [exfalso | reflexivity].
  destruct (decide (length p <= length f)%nat).
  - rewrite take_app_le in E by assumption. rewrite <- E in Hc. apply elem_of_take in Hc as (i & Hi & _).
    apply Hf. eapply list_elem_of_lookup_2; eauto.
  - apply Hs. rewrite <- E. apply (list_elem_of_lookup_2 _ (length f)).
    rewrite lookup_take, decide_True by lia. apply list_lookup_middle. reflexivity.
Qed.

Lemma cand_type_text c :
  ICEAndSDP.cand_type_of (ICEAndSDP.get_typ_as_sdp_string c) = Ok (Candidate.cand_type c).
Proof. unfold ICEAndSDP.get_typ_as_sdp_string. destruct (Candidate.cand_type c); reflexivity. Qed.

Lemma extensions_text c : match Candidate.related_address c with Some a => addr_ok a | None => True end ->
  ICEAndSDP.extensions (length (cand_fields c)) (cand_fields c) 8 None = Ok (Candidate.related_address c).
Proof.
  unfold cand_fields. destruct (Candidate.related_address c) as [[ip port] |] eqn:E; [| reflexivity].
  intros [Hi Hp]. simpl in Hi, Hp.
  cbn [app length ICEAndSDP.extensions Nat.add Nat.ltb Nat.leb lookup list_lookup expect mbind outcome_bind].
  rewrite decide_True by reflexivity. simpl SocketAddr.ip. rewrite parse_print_v4 by exact Hi.
  cbn [ok_or mbind outcome_bind]. rewrite decide_False, decide_True by (reflexivity || discriminate).
  simpl SocketAddr.port. rewrite parse_dec by (unfold u16_max; ulia). reflexivity.
Qed.

Lemma candidate_text_roundtrip c : cand_text_ok c ->
  ICEAndSDP.from_str (ICEAndSDP.to_string c) = Ok (Candidate.clone_light c).
Proof.
  intros H. pose proof (cand_fields_printable c H) as Hp. destruct H as [[Hf Hcolon] Hc Ht Hpr [Ha Hpo] Hr].
  unfold ICEAndSDP.from_str. rewrite to_string_fields, join_trim by (discriminate || exact Hp).
  assert (strip_prefix (lit "candidate:") (join [32] (cand_fields c)) = None) as ->.
  { apply strip_prefix_app; [apply (bool_decide_unpack _); vm_compute; exact I
      | apply (bool_decide_unpack _); vm_compute; exact I | exact Hcolon]. }
  cbn [default]. rewrite printable_join by exact Hp.
  rewrite (proj2 (Nat.ltb_ge _ _)) by (unfold cand_fields; rewrite length_app; simpl; lia).
  change (cand_fields c !! 0%nat) with (Some (Candidate.foundation c)).
  change (cand_fields c !! 1%nat) with (Some (dec (Candidate.component c))).
  change (cand_fields c !! 2%nat) with (Some (Candidate.transport c)).
  change (cand_fields c !! 3%nat) with (Some (dec (Candidate.priority c))).
  change (cand_fields c !! 4%nat) with (Some (print_ip (SocketAddr.ip (Candidate.address c)))).
  change (cand_fields c !! 5%nat) with (Some (dec (SocketAddr.port (Candidate.address c)))).
  change (cand_fields c !! 6%nat) with (Some (lit "typ")).
  change (cand_fields c !! 7%nat) with (Some (ICEAndSDP.get_typ_as_sdp_string c)).
  cbn [expect mbind outcome_bind].
  rewrite !parse_dec by (unfold u8_max, u16_max, u32_max; ulia). rewrite parse_print_v4 by exact Ha.
  cbn [map_err ok_or mbind outcome_bind]. rewrite bool_decide_true by reflexivity. cbn [negb].
  rewrite cand_type_text. cbn [mbind outcome_bind].
  rewrite (extensions_text c Hr). cbn [mbind outcome_bind]. unfold Candidate.clone_light.
  destruct (Candidate.address c). reflexivity.
Qed.

(** ** Codecs *)
Definition shown_name (mt : MediaType.t) (c : RtpCodec.t) : bytes :=
  match RtpCodec.name c with
  | [] => match mt with MediaType.Audio => lit "PCMU" | MediaType.Video => lit "H264" end
  | n => n
  end.
(** The codec the other end sees *)
Definition seen_codec (mt : MediaType.t) (c : RtpCodec.t) : RtpCodec.t :=
  RtpCodec.with_name (RtpCodec.payload_type c) (RtpCodec.clock_rate c) (shown_name mt c).

Record codec_ok (c : RtpCodec.t) : Prop := {
  co_pt : 0 <= RtpCodec.payload_type c <= 127;
  co_clock : u32 (RtpCodec.clock_rate c);
  co_name : forallb (in_range 33 126) (RtpCodec.name c) = true;
  co_slash : 47 ∉ RtpCodec.name c }.

Lemma shown_name_ok mt c : codec_ok c -> printable (shown_name mt c) = true /\ 47 ∉ shown_name mt c.
Proof.
  intros [_ _ Hn Hs]. unfold shown_name. destruct (RtpCodec.name c) eqn:E.
  - destruct mt; split; try reflexivity; apply (bool_decide_unpack _); vm_compute; exact I.
  - split; [| exact Hs]. unfold printable. rewrite Hn, bool_decide_false by discriminate. reflexivity.
Qed.

Definition map_words (mt : MediaType.t) (c : RtpCodec.t) : list bytes :=
  [dec (RtpCodec.payload_type c); shown_name mt c ++ 47 :: dec (RtpCodec.clock_rate c)].
Lemma rtpmap_value_words mt c : ConnectionManager.rtpmap_value mt c = join [32] (map_words mt c).
Proof. unfold ConnectionManager.rtpmap_value, map_words, shown_name. cbn [join]. reflexivity. Qed.

Lemma map_words_printable mt c : codec_ok c -> forallb printable (map_words mt c) = true.
Proof.
  intros H. destruct (shown_name_ok mt c H) as [Hn _]. destruct H as [Hp Hc _ _].
  unfold map_words. cbn [forallb]. rewrite dec_printable by ulia. cbn [andb]. rewrite andb_true_r.
  pose proof (dec_printable (RtpCodec.clock_rate c) ltac:(ulia)) as Hd. unfold printable in *.
  apply andb_prop in Hn as [_ Hn]. apply andb_prop in Hd as [_ Hd].
  rewrite bool_decide_false by (intros E; apply app_nil in E as [_ E]; discriminate E).
  rewrite forallb_app, Hn. cbn [forallb]. rewrite Hd. reflexivity.
Qed.

Lemma trim_printable w : printable w = true -> trim w = w.
Proof. intros H. apply (join_trim [w]); [discriminate | simpl; rewrite H; reflexivity]. Qed.

Lemma rtpmap_text_roundtrip mt c : codec_ok c ->
  RtpMap.from_str (ConnectionManager.rtpmap_value mt c) =
  Ok (RtpMap.mk (RtpCodec.payload_type c) (shown_name mt c) (RtpCodec.clock_rate c) None).
Proof.
  intros H. pose proof (map_words_printable mt c H) as Hw. destruct (shown_name_ok mt c H) as [Hn Hs].
  destruct H as [Hp Hc _ _]. unfold RtpMap.from_str.
  rewrite rtpmap_value_words, join_trim, printable_join by (discriminate || exact Hw).
  cbn [map_words lookup list_lookup ok_or is_some mbind outcome_bind].
  rewrite parse_dec by (unfold u8_max; ulia). cbn [map_err mbind outcome_bind].
  rewrite (proj2 (Z.ltb_ge _ _)) by lia. unfold splitn3. rewrite split_once_app by exact Hs.
  rewrite split_once_none by (apply dec_lacks; ulia).
  cbn [lookup list_lookup ok_or mbind outcome_bind].
  rewrite (trim_printable (dec _)) by (apply dec_printable; ulia).
  rewrite parse_dec by (unfold u32_max; ulia). cbn [map_err mbind outcome_bind].
  rewrite (trim_printable (shown_name mt c)) by exact Hn. reflexivity.
Qed.

(** ** The readers never panic *)
Lemma map_err_np {E F A} (f : E -> F) (m : outcome E A) : no_panic m -> no_panic (map_err f m).
Proof. unfold no_panic. destruct m; simpl; congruence. Qed.
Lemma uint_np {F} (f : ParseIntError.t -> F) radix max s : no_panic (map_err f (from_str_radix radix max s)).
Proof. apply map_err_np, from_str_radix_np. Qed.

Lemma extensions_np f parts i r : no_panic (ICEAndSDP.extensions f parts i r).
Proof.
  revert i r. induction f as [| f IH]; intros i r; cbn [ICEAndSDP.extensions]; [discriminate |].
  destruct (Nat.ltb_spec (i + 1) (length parts)); [| discriminate].
  apply bind_no_panic; [apply expect_np; lia |]. intros p _.
  case_decide; [| case_decide; [| apply IH]]; (apply bind_no_panic; [apply expect_np; lia |]; intros v _).
  - apply bind_no_panic; [apply ok_or_np | intros; apply IH].
  - apply bind_no_panic; [apply uint_np | intros; apply IH].
Qed.

Lemma candidate_np s : no_panic (ICEAndSDP.from_str s).
Proof.
  unfold ICEAndSDP.from_str. set (parts := split_whitespace _).
  destruct (Nat.ltb_spec (length parts) 8); [discriminate |].
  repeat (apply bind_no_panic; [first [apply expect_np; lia | apply uint_np | apply ok_or_np] | intros ? _]).
  case_match; [discriminate |]. apply bind_no_panic; [apply ok_or_np | intros w _].
  apply bind_no_panic; [unfold ICEAndSDP.cand_type_of; repeat case_decide; discriminate | intros ? _].
  apply bind_no_panic; [apply extensions_np | discriminate].
Qed.

Lemma rtpmap_np s : no_panic (RtpMap.from_str s).
Proof.
  unfold RtpMap.from_str. set (it := split_whitespace _).
  repeat (apply bind_no_panic; [apply ok_or_np | intros ? _]). case_match; [discriminate |].
  apply bind_no_panic; [apply uint_np | intros pt _]. case_match; [discriminate |].
  repeat (apply bind_no_panic; [apply ok_or_np | intros ? _]).
  apply bind_no_panic; [apply uint_np | intros clock _].
  apply bind_no_panic; [| discriminate]. case_match; [| discriminate]. case_match; [discriminate |].
  apply bind_no_panic; [apply uint_np | discriminate].
Qed.

(** Inversion of a successful computation of an outcome, test by test *)
Ltac ok_inv H :=
  repeat first
    [ progress bind_inv H
    | match type of H with
      | Err _ = Ok _ => discriminate H
      | Panic = Ok _ => discriminate H
      | (if ?c then _ else _) = Ok _ => destruct c eqn:?
      end ].

Lemma map_err_ok {E F A} (f : E -> F) (m : outcome E A) a : map_err f m = Ok a -> m = Ok a.
Proof. destruct m; simpl; congruence. Qed.

(** What a parsed candidate is *)
Lemma candidate_parsed s c : ICEAndSDP.from_str s = Ok c ->
  u8 (Candidate.component c) /\ u32 (Candidate.priority c) /\ u16 (SocketAddr.port (Candidate.address c)) /\
  Candidate.socket c = None.
Proof.
  unfold ICEAndSDP.from_str. set (parts := split_whitespace _). intros H. ok_inv H. injection H as <-. simpl.
  repeat match goal with
  | H : map_err _ (from_str_radix _ _ _) = Ok _ |- _ =>
      apply map_err_ok, from_str_radix_range in H; [| unfold u8_max, u16_max, u32_max; lia | lia]
  end. unfold u8_max, u16_max, u32_max in *. repeat split; ulia.
Qed.

Lemma rtpmap_parsed s m : RtpMap.from_str s = Ok m ->
  0 <= RtpMap.payload_type m <= 127 /\ u32 (RtpMap.clock_rate m) /\
  match RtpMap.encoding_params m with Some v => 1 <= v <= 65535 | None => True end.
Proof.
  unfold RtpMap.from_str. set (it := split_whitespace _). intros H. ok_inv H. injection H as <-. simpl.
  repeat match goal with
  | H : map_err _ (from_str_radix _ _ _) = Ok _ |- _ =>
      apply map_err_ok, from_str_radix_range in H; [| unfold u8_max, u16_max, u32_max; lia | lia]
  end. unfold u8_max, u32_max in *. split; [lia |]. split; [ulia |].
  match goal with H : match ?x with _ => _ end = Ok _ |- _ => destruct x end; [| simplify_eq; exact I].
  repeat match goal with H : (if ?c then _ else _) = Ok _ |- _ => destruct c end; [simplify_eq; exact I |].
  match goal with H : (_ ≫= _) = Ok _ |- _ => bind_inv H; injection H as <- end.
  match goal with H : map_err _ (from_str_radix _ _ _) = Ok _ |- _ =>
      apply map_err_ok, from_str_radix_range in H; [| unfold u16_max; lia | lia] end.
  unfold u16_max in *. case_test; [exact I | lia].
Qed.

(** A candidate survives the signaling: written as an attribute value and read back it is the
    same candidate, with its address, priority and related address, without its socket. *)
Theorem candidate_roundtrip c : cand_text_ok c ->
  ICEAndSDP.from_str (ICEAndSDP.to_string c) = Ok (Candidate.clone_light c).
Proof. apply candidate_text_roundtrip. Qed.

Definition sample_srflx : Candidate.t :=
  Candidate.mk (lit "6f1c") 1 (lit "udp") 1694498815 (SocketAddr.mk (V4 203 0 113 9) 51234)
    CandidateType.ServerReflexive (Some (SocketAddr.mk (V4 10 0 0 1) 4000)) (Some 3).
Lemma candidate_roundtrip_witness :
  ICEAndSDP.from_str (ICEAndSDP.to_string sample_srflx) = Ok (Candidate.clone_light sample_srflx).
Proof.
  apply (candidate_roundtrip sample_srflx). split; simpl.
  - split; [reflexivity | apply (bool_decide_unpack _); vm_compute; exact I].
  - unfold u8; lia.
  - reflexivity.
  - unfold u32; lia.
  - unfold addr_ok, v4_ok, u8, u16; simpl; lia.
  - unfold addr_ok, v4_ok, u8, u16; simpl; lia.
Defined.

(** Whatever the peer signals, reading its candidates and rtpmap lines neither panics nor
    lets a number out of its type: a candidate that is accepted has an 8-bit component, a
    32-bit priority, a 16-bit port and no socket, a codec a 7-bit payload type and a 32-bit
    clock rate. *)
Theorem signaled_text_checked s :
  no_panic (ICEAndSDP.from_str s) /\ no_panic (RtpMap.from_str s) /\
  (forall c, ICEAndSDP.from_str s = Ok c ->
     u8 (Candidate.component c) /\ u32 (Candidate.priority c) /\
     u16 (SocketAddr.port (Candidate.address c)) /\ Candidate.socket c = None) /\
  (forall m, RtpMap.from_str s = Ok m ->
     0 <= RtpMap.payload_type m <= 127 /\ u32 (RtpMap.clock_rate m) /\
     match RtpMap.encoding_params m with Some v => 1 <= v <= 65535 | None => True end).
Proof.
  split; [apply candidate_np |]. split; [apply rtpmap_np |].
  split; [intros c; apply candidate_parsed | intros m; apply rtpmap_parsed].
Qed.

(** ** The description that is built *)
Import ConnectionManager.

Lemma printable_lacks c w : ~ (33 <= c <= 126) -> printable w = true -> c ∉ w.
Proof.
  intros Hc [_ H]%printable_inv Hin. rewrite Forall_forall in H. specialize (H c Hin). simpl in H. lia.
Qed.

Lemma join_lacks c f : c <> 32 -> Forall (fun w => c ∉ w) f -> c ∉ join [32] f.
Proof.
  intros Hc H. induction H as [| w f Hw Hf IH]; [apply not_elem_of_nil |]. cbn [join].
  destruct f; [exact Hw |]. rewrite !elem_of_app, list_elem_of_singleton. tauto.
Qed.

(** Words separated by spaces are an attribute value. *)
Lemma words_value_ok f : f <> [] -> forallb printable f = true ->
  bool_decide (trim (join [32] f) = join [32] f) && text_ok (join [32] f) = true.
Proof.
  intros Hn Hf. rewrite bool_decide_true by (apply join_trim; assumption). cbn [andb].
  apply join_text, printable_words, Hf.
Qed.

Lemma value_attr_ok k f : attr_ok (Attribute.new k None) = true -> f <> [] -> forallb printable f = true ->
  attr_ok (Attribute.new k (Some (join [32] f))) = true.
Proof.
  intros Hk Hn Hf. unfold attr_ok in *. simpl in *. rewrite andb_true_r in Hk. rewrite Hk.
  apply words_value_ok; assumption.
Qed.

Lemma word_attr_ok k w : attr_ok (Attribute.new k None) = true -> printable w = true ->
  attr_ok (Attribute.new k (Some w)) = true.
Proof.
  intros Hk Hw. apply (value_attr_ok k [w]); [exact Hk | discriminate |]. cbn [forallb]. rewrite Hw. reflexivity.
Qed.

Definition fmtp_ok (d : CodecDescriptor.t) : Prop :=
  match CodecDescriptor.sdp_fmtp d with Some f => printable f = true | None => True end.
Definition descriptor_ok (d : CodecDescriptor.t) : Prop :=
  codec_ok (CodecDescriptor.rtp_representation d) /\ fmtp_ok d.

Lemma codec_attrs_ok mt d : descriptor_ok d -> forallb attr_ok (codec_attrs mt d) = true.
Proof.
  intros [Hc Hf]. unfold codec_attrs. cbn [forallb].
  rewrite rtpmap_value_words, value_attr_ok by (reflexivity || discriminate || apply map_words_printable, Hc).
  unfold fmtp_ok in Hf. destruct (CodecDescriptor.sdp_fmtp d) as [f |]; [| reflexivity].
  cbn [forallb andb]. rewrite andb_true_r.
  apply (value_attr_ok (lit "fmtp") [dec (RtpCodec.payload_type (CodecDescriptor.rtp_representation d)); f]);
    [reflexivity | discriminate |]. cbn [forallb]. rewrite Hf, dec_printable; [reflexivity |].
  destruct Hc as [Hp _ _ _]. ulia.
Qed.

(** The manager's own data can be written. *)
Record manager_text_ok (s : ConnectionManager.t) : Prop := {
  mt_codecs : Forall descriptor_ok (local_codecs s);
  mt_ufrag : printable (IceAgent.ufrag (ice_agent s)) = true;
  mt_pwd : printable (IceAgent.pwd (ice_agent s)) = true;
  mt_fingerprint : printable (local_fingerprint s) = true }.

Lemma forallb_mjoin {A B} (P : B -> bool) (f : A -> list B) l :
  (forall x, x ∈ l -> forallb P (f x) = true) -> forallb P (mjoin (f <$> l)) = true.
Proof.
  induction l as [| x l IH]; intros H; [reflexivity |].
  change (forallb P (f x ++ mjoin (f <$> l)) = true). rewrite forallb_app, H by left. apply IH.
  intros y Hy. apply H. right. exact Hy.
Qed.

Lemma candidate_attrs_ok cs : Forall cand_text_ok cs ->
  forallb attr_ok ((fun c => Attribute.new (lit "candidate") (Some (ICEAndSDP.to_string c))) <$> cs) = true.
Proof.
  induction 1 as [| c cs Hc _ IH]; [reflexivity |]. cbn [fmap list_fmap forallb]. rewrite IH, andb_true_r.
  rewrite to_string_fields. apply value_attr_ok; [reflexivity | discriminate | apply cand_fields_printable, Hc].
Qed.

Definition pt_word (d : CodecDescriptor.t) : bytes :=
  dec (RtpCodec.payload_type (CodecDescriptor.rtp_representation d)).

Lemma build_media_ok s mt codecs cs : manager_text_ok s -> Forall descriptor_ok codecs -> Forall cand_text_ok cs ->
  media_ok (build_media_description s mt codecs
    ((fun c => Attribute.new (lit "candidate") (Some (ICEAndSDP.to_string c))) <$> cs)) = true.
Proof.
  intros [_ Hu Hp Hf] Hc Hcs. unfold build_media_description, IceAgent.local_credentials, media_ok.
  cbn [Media.set_attrs Media.set_connection Media.set_fmts Media.set_proto Media.set_port Media.set_kind
       Media.new_blank Media.kind Media.port Media.proto Media.fmts Media.title Media.connection
       Media.bandwidth Media.attrs Media.extra_lines].
  assert (kind_ok (match mt with MediaType.Audio => MediaKind.Audio | MediaType.Video => MediaKind.Video end) = true)
    as -> by (destruct mt; reflexivity).
  change (port_ok _) with true. change (word DEFAULT_PROTO) with true. cbn [andb opt_ok forallb].
  change (conn_ok _) with true. cbn [andb]. rewrite andb_true_r. apply andb_true_intro. split.
  - rewrite !andb_true_r. destruct Hc as [| d ds Hd Hds]; [reflexivity |]. apply forallb_forall. intros w Hw.
    apply list_elem_of_In, list_elem_of_fmap in Hw as (x & -> & Hx). apply dec_word.
    assert (Hx' : descriptor_ok x) by (apply elem_of_cons in Hx as [-> | Hx]; [exact Hd |]; rewrite Forall_forall in Hds; auto).
    destruct Hx' as [[? _ _ _] _]. ulia.
  - rewrite forallb_app, candidate_attrs_ok by exact Hcs. cbn [andb app forallb].
    rewrite forallb_app. cbn [forallb].
    rewrite !word_attr_ok by (assumption || reflexivity).
    assert (attr_ok (Attribute.new (lit "fingerprint") (Some (lit "sha-256 " ++ local_fingerprint s))) = true) as ->.
    { apply (value_attr_ok (lit "fingerprint") [lit "sha-256"; local_fingerprint s]); [reflexivity | discriminate |].
      cbn [forallb]. rewrite Hf. reflexivity. }
    assert (attr_ok (Attribute.new (lit "setup") (Some (if decide (signaling s = SignalingState.Stable) then lit "actpass" else lit "active"))) = true)
      as -> by (case_decide; reflexivity).
    change (attr_ok (Attribute.new (lit "rtcp-mux") None)) with true. cbn [andb]. rewrite andb_true_r.
    destruct Hc as [| d ds Hd Hds]; [reflexivity |]. apply forallb_mjoin. intros x Hx. apply codec_attrs_ok.
    apply elem_of_cons in Hx as [-> | Hx]; [exact Hd |]. rewrite Forall_forall in Hds. auto.
Qed.
