(* ===== verification/ConnTheory.v ===== *)
(** * The offer/answer exchange

    What a manager learns from a description that another manager built, that applying any
    description never panics, and the composition: an offer, its answer and the application of
    the answer leave both managers stable, with opposite roles and each other's data. *)

From stdpp Require Import prelude gmap strings.
From Stdlib Require Import ZArith Lia.
From S2P Require Import Prelude Utf8 Text RecvStream Sdp SdpCodec Net Config Ice IceTheory StunTheory ConnManager ConnCodec.
Local Open Scope Z_scope.
Import ConnectionManager.

(** ** Gathered candidates *)
Lemma hex_aux_colon f n acc : 58 ∉ acc -> 58 ∉ hex_aux f n acc.
Proof.
  revert n acc. induction f as [| f IH]; intros n acc Ha; cbn [hex_aux]; [exact Ha |].
  assert (58 ∉ hex_digit (n mod 16) :: acc).
  { rewrite not_elem_of_cons. split; [| exact Ha]. pose proof (Z.mod_pos_bound n 16 ltac:(lia)).
    unfold hex_digit. case_test; lia. }
  case_test; auto.
Qed.

(** What the system answers is well typed: IPv4 addresses for IPv4 sockets, a STUN response that
    fits, a clock before the year 584 billion. *)
Definition host_env_ok (h : Gathering.host_env) : Prop :=
  forall ip sk a, Gathering.bind h ip = Some (sk, Some a) -> addr_ok a.
Record stun_env_ok (v : IceAgent.stun_env) : Prop := {
  se_bound : no_panic (IceAgent.bound v);
  se_timeout : no_panic (IceAgent.timeout_set v);
  se_local : no_panic (IceAgent.local_addr v);
  se_sent : no_panic (IceAgent.request_sent v);
  se_response : no_panic (IceAgent.response v) /\ forall d, IceAgent.response v = Ok d -> (length d <= 504)%nat }.
Record env_ok (e : env) : Prop := {
  en_time : match unix_time e with Some n => 0 <= n <= 18446744000000000000 | None => True end;
  en_host : host_env_ok (host e);
  en_again : host_env_ok (host_again e);
  en_stun : stun_env_ok (stun e) }.

Section hash.
Context (default_hash : bytes -> Z).

Definition gathered_ok (c : Candidate.t) : Prop :=
  cand_text_ok c /\ local_ok c /\ is_Some (Candidate.socket c).
Lemma host_candidate_ok a sk : addr_ok a ->
  gathered_ok (Candidate.host default_hash a Gathering.TRANSPORT_UDP Gathering.DEFAULT_COMPONENT_ID (Some sk)).
Proof.
  intros Ha. pose proof (calculate_priority_range CandidateType.Host 1 ltac:(unfold u8; lia)) as Hp.
  split; [split; simpl; auto | split; [exact Hp | eexists; reflexivity]].
  split; [apply hex_printable | apply hex_aux_colon, not_elem_of_nil].
Qed.
Lemma gather_host_ok h : host_env_ok h -> Forall gathered_ok (Gathering.gather_host_candidates default_hash h).
Proof.
  intros Hh. unfold Gathering.gather_host_candidates, Gathering.create_main_socket, Gathering.gather_loopback_candidate.
  destruct (Gathering.discover_local_ipv4 _) as [ip | |]; [| constructor ..].
  destruct (Gathering.bind h ip) as [[sk [a |]] |] eqn:E; [| constructor ..].
  apply Forall_app. split; [apply Forall_singleton; eapply host_candidate_ok, Hh, E |].
  destruct (Gathering.bind h Gathering.LOCALHOST) as [[sk' [a' |]] |] eqn:E'; [| constructor ..].
  apply Forall_singleton. eapply host_candidate_ok, Hh, E'.
Qed.

(** The agent can form its check list. *)
Record agent_ok (a : IceAgent.t) : Prop := {
  ag_local : Forall local_ok (IceAgent.local_candidates a);
  ag_remote : Forall cand_ok (IceAgent.remote_candidates a);
  ag_max : 0 <= IceAgent.max_candidate_pairs a }.

Lemma add_local_all a cs : foldl IceAgent.add_local_candidate a cs =
  IceAgent.set_candidates a (IceAgent.local_candidates a ++ cs) (IceAgent.remote_candidates a).
Proof.
  revert a. induction cs as [| c cs IH]; intros a; cbn [foldl]; [rewrite app_nil_r; destruct a; reflexivity |].
  rewrite IH. unfold IceAgent.add_local_candidate. simpl. rewrite <- app_assoc. reflexivity.
Qed.

Lemma gather_candidates_ok a h v : host_env_ok h -> stun_env_ok v ->
  exists cs ds, IceAgent.gather_candidates default_hash a h v = Ok (foldl IceAgent.add_local_candidate a cs, ds) /\
    Forall local_ok cs.
Proof.
  intros Hh Hv. unfold IceAgent.gather_candidates.
  assert (Hg : Forall local_ok (Gathering.gather_host_candidates default_hash h)).
  { eapply Forall_impl; [apply gather_host_ok, Hh |]. intros c Hc. apply Hc. }
  destruct (IceAgent.gather_stun_candidates default_hash (IceAgent.stun_server a) v) as [ds res] eqn:E.
  assert (no_panic res /\ forall l, res = Ok l -> Forall local_ok l) as [Hnp Hl].
  { destruct Hv as [Hb Ht Hla Hs [Hr Hlen]]. unfold IceAgent.gather_stun_candidates, no_panic in *.
    revert E. repeat case_match; intros E; simplify_eq; try (split; [discriminate | intros; discriminate]);
      try (exfalso;
           repeat match goal with H : (_ ≫= _) = Panic |- _ => revert H | H : map_err _ _ = Panic |- _ => revert H end;
           destruct (IceAgent.bound v), (IceAgent.timeout_set v), (IceAgent.local_addr v); simpl; congruence).
    destruct (IceAgent.request_sent v); simpl; [| split; congruence | congruence].
    destruct (IceAgent.response v) as [d | |] eqn:Ed; simpl; [| split; congruence | congruence].
    pose proof (stun_short_np d (Hlen d eq_refl)) as Hm. unfold no_panic in Hm.
    destruct (Stun.mapped_address d); simpl; [split; [discriminate |] | split; congruence | congruence].
    intros l [= <-]. repeat constructor; apply (calculate_priority_range CandidateType.ServerReflexive 1); unfold u8; lia. }
  destruct res as [l | e |]; [| | exfalso; apply Hnp; reflexivity].
  - exists (Gathering.gather_host_candidates default_hash h ++ l), ds. split; [reflexivity |].
    apply Forall_app. split; [exact Hg | apply Hl; reflexivity].
  - exists (Gathering.gather_host_candidates default_hash h), ds. auto.
Qed.

(** ** Computations *)
Lemma bind_ok {A B} (m : M A) (k : A -> M B) s s1 ds a : m s = (s1, ds, Ok a) ->
  (m ≫= k) s = (let '(s2, ds', r) := k a s1 in (s2, ds ++ ds', r)).
Proof. intros H. unfold mbind, M_bind. rewrite H. reflexivity. Qed.
(** The same without datagrams *)
Lemma bind_quiet {A B} (m : M A) (k : A -> M B) s s1 a : m s = (s1, [], Ok a) -> (m ≫= k) s = k a s1.
Proof. intros H. rewrite (bind_ok m k _ _ _ _ H). destruct (k a s1) as [[s2 ds] r]. reflexivity. Qed.

(** ** Connectivity checks *)
Definition checked (e : env) (s : ConnectionManager.t) (a : IceAgent.t) : ConnectionManager.t :=
  spawn_ice_worker (with_agent (with_phase s IcePhase.Checking) (IceAgent.start_checks (send_ok e) a).1).

Lemma agent_ok_add a cs : agent_ok a -> Forall local_ok cs -> agent_ok (foldl IceAgent.add_local_candidate a cs).
Proof.
  intros [Hl Hr Hm] Hc. rewrite add_local_all. split; simpl; [apply Forall_app; auto | exact Hr | exact Hm].
Qed.

Lemma start_connectivity_checks_run e s : env_ok e -> agent_ok (ice_agent s) ->
  is_some (local_description s) = true -> is_some (remote_description s) = true ->
  exists cs a n ds, Forall local_ok cs /\ (IceAgent.local_candidates (ice_agent s) <> [] -> cs = []) /\
    IceAgent.form_candidate_pairs (foldl IceAgent.add_local_candidate (ice_agent s) cs) = Ok (a, n) /\
    start_connectivity_checks default_hash e s = (checked e s a, ds, Ok ()).
Proof.
  intros [_ _ Hh Hv] Ha Hl Hr. unfold start_connectivity_checks. rewrite (bind_quiet get _ s s s) by reflexivity.
  rewrite Hl, Hr. cbn [negb orb].
  rewrite (bind_quiet (modify _) _ s (with_phase s IcePhase.Gathering) ()) by reflexivity.
  assert (exists cs ds0, Forall local_ok cs /\ (IceAgent.local_candidates (ice_agent s) <> [] -> cs = []) /\
    (match IceAgent.local_candidates (ice_agent s) with
     | [] => '(a, ds) ← total (IceAgent.gather_candidates default_hash (ice_agent s) (host_again e) (stun e));
             send ds ≫= fun _ => modify (fun s => with_agent s a)
     | _ => mret ()
     end) (with_phase s IcePhase.Gathering) =
    (with_agent (with_phase s IcePhase.Gathering) (foldl IceAgent.add_local_candidate (ice_agent s) cs), ds0, Ok ()))
    as (cs & ds0 & Hcs & Hnil & Hrun).
  { destruct (IceAgent.local_candidates (ice_agent s)) eqn:E.
    - destruct (gather_candidates_ok (ice_agent s) (host_again e) (stun e) Hh Hv) as (cs & ds & Hg & Hc).
      exists cs, ds. split; [exact Hc |]. split; [congruence |]. rewrite Hg.
      unfold mbind, M_bind, total, lift, map_err, send, modify. simpl. rewrite app_nil_r. reflexivity.
    - exists [], []. split; [constructor |]. split; [reflexivity |]. destruct s; reflexivity. }
  destruct (form_candidate_pairs_total (foldl IceAgent.add_local_candidate (ice_agent s) cs))
    as (k & Hform & _); [apply agent_ok_add; assumption .. |].
  set (a0 := foldl _ _ _) in *. cbv zeta in Hform. set (a := IceAgent.set_pairs _ _ _) in *.
  set (n := length (take k _)) in *. clearbody a n.
  exists cs, a, n, (ds0 ++ (IceAgent.start_checks (send_ok e) a).2). repeat split; try assumption.
  rewrite (bind_ok _ _ _ _ _ _ Hrun). unfold mbind, M_bind, total, lift, get, modify, send. cbn [ice_agent with_phase with_agent].
  fold a0. rewrite Hform. cbn [map_err]. destruct (IceAgent.start_checks (send_ok e) a) as [a' ds'] eqn:Es.
  cbn [app fst snd]. rewrite !app_nil_r. unfold checked. rewrite Es. reflexivity.
Qed.

(** ** What is announced *)
Definition media_plan (s : ConnectionManager.t) : list (MediaType.t * list CodecDescriptor.t) :=
  let audio := filter (fun c => is_audio c = true) (local_codecs s) in
  let video := filter (fun c => is_audio c = false) (local_codecs s) in
  let plan := (match audio with [] => [] | _ => [(MediaType.Audio, audio)] end) ++
              (match video with [] => [] | _ => [(MediaType.Video, video)] end) in
  match plan with [] => [(MediaType.Video, [])] | _ => plan end.

Definition candidate_attrs (cs : list Candidate.t) : list Attribute.t :=
  (fun c => Attribute.new (lit "candidate") (Some (ICEAndSDP.to_string c))) <$> cs.
Definition described (s : ConnectionManager.t) (cs : list Candidate.t) : list Media.t :=
  (fun x => build_media_description s x.1 x.2 (candidate_attrs cs)) <$> media_plan s.
Definition description (s : ConnectionManager.t) (cs : list Candidate.t) (now : Z) : Sdp.t :=
  Sdp.new 0 (Origin.mk (lit "-") now now (lit "IN") AddrType.IP4 None) (lit "demo_session") None None [] []
    None [] [TimeDesc.new_blank] [] (described s cs) [].

Definition with_gathered (s : ConnectionManager.t) (cs : list Candidate.t) : ConnectionManager.t :=
  with_agent s (foldl IceAgent.add_local_candidate (ice_agent s) cs).

Lemma build_local_sdp_run e s : env_ok e ->
  let cs := Gathering.gather_host_candidates default_hash (host e) in
  exists now, u64 now /\
  build_local_sdp default_hash e s = (with_gathered s cs, [], Ok (description (with_gathered s cs) cs now)).
Proof.
  intros [Ht _ _] cs. unfold build_local_sdp.
  rewrite (bind_quiet _ _ s (with_gathered s cs) (candidate_attrs cs)) by reflexivity.
  rewrite (bind_quiet get _ _ (with_gathered s cs) (with_gathered s cs)) by reflexivity.
  assert (exists now, u64 now /\ Origin.new_blank (unix_time e) = Ok (Origin.mk (lit "-") now now (lit "IN") AddrType.IP4 None))
    as (now & Hn & Ho).
  { unfold Origin.new_blank, Origin.ntp_seconds, u64_max, Origin.NTP_UNIX_DIFF.
    set (v := default 0 (unix_time e)). assert (0 <= v <= 18446744000000000000) by (unfold v; destruct (unix_time e); simpl; lia).
    rewrite (proj2 (Z.ltb_ge _ _)) by lia. eexists. split; [| reflexivity]. ulia. }
  exists now. split; [exact Hn |]. rewrite Ho. unfold description, described, media_plan.
  destruct (filter _ (local_codecs (with_gathered s cs))) eqn:E1, (filter _ _) eqn:E2 in |- *; reflexivity.
Qed.

Lemma plan_ok s : manager_text_ok s -> Forall (fun x => Forall descriptor_ok (x.2)) (media_plan s).
Proof.
  intros [Hc _ _ _]. unfold media_plan.
  assert (H : forall P `{!forall x, Decision (P x)}, Forall descriptor_ok (filter P (local_codecs s))).
  { intros P ?. apply Forall_forall. intros x Hx. apply list_elem_of_filter in Hx as [_ Hx].
    rewrite Forall_forall in Hc. auto. }
  pose proof (H (fun c => is_audio c = true) _) as H1. pose proof (H (fun c => is_audio c = false) _) as H2.
  destruct (filter (fun c => is_audio c = true) _), (filter (fun c => is_audio c = false) _);
    simpl; repeat (apply Forall_nil_2 || (apply Forall_cons_2; [first [exact H1 | exact H2 | apply Forall_nil_2] |])).
Qed.

(** The description survives its own text. *)
Lemma description_ok s cs now : manager_text_ok s -> Forall cand_text_ok cs -> u64 now ->
  sdp_ok (description s cs now) = true.
Proof.
  intros Hs Hcs Hn. unfold sdp_ok, description, Sdp.new.
  cbn [Sdp.version Sdp.origin Sdp.session_name Sdp.session_info Sdp.uri Sdp.emails Sdp.phones Sdp.connection
       Sdp.bandwidth Sdp.times Sdp.attrs Sdp.media Sdp.extra_lines opt_ok forallb].
  assert (Ho : origin_ok (Origin.mk (lit "-") now now (lit "IN") AddrType.IP4 None) = true).
  { unfold origin_ok. simpl. rewrite (proj2 (in_range_spec 0 u64_max now)); [reflexivity | unfold u64_max; ulia]. }
  rewrite Ho. change (in_range 0 u8_max 0) with true. change (text_ok (lit "demo_session")) with true.
  change (time_ok TimeDesc.new_blank) with true. cbn [andb]. rewrite !andb_true_r.
  apply forallb_forall. intros m Hm.
  apply list_elem_of_In, list_elem_of_fmap in Hm as (x & -> & Hx).
  apply build_media_ok; [exact Hs | | exact Hcs]. pose proof (plan_ok s Hs) as Hp. rewrite Forall_forall in Hp. auto.
Qed.
Lemma description_text s cs now : manager_text_ok s -> Forall cand_text_ok cs -> u64 now ->
  Sdp.parse (Sdp.encode (description s cs now)) = Ok (description s cs now).
Proof. intros Hs Hcs Hn. rewrite encode_parse by (apply description_ok; assumption). reflexivity. Qed.

(** ** What is read *)
Definition offered (mt : MediaType.t) (codecs : list CodecDescriptor.t) : list RtpCodec.t :=
  match codecs with
  | [] => [RtpCodec.with_name 96 90000 (lit "H264")]
  | _ => (fun d => seen_codec mt (CodecDescriptor.rtp_representation d)) <$> codecs
  end.

Lemma rtp_attrs_skip allowed l r acc : Forall (fun a => Attribute.key a <> lit "rtpmap") l ->
  rtp_meta_attrs allowed (l ++ r) acc = rtp_meta_attrs allowed r acc.
Proof.
  induction 1 as [| a l Ha _ IH]; [reflexivity |]. cbn [app rtp_meta_attrs].
  rewrite bool_decide_false by exact Ha. exact IH.
Qed.

Lemma rtp_attrs_codecs allowed mt ds r acc : Forall descriptor_ok ds ->
  Forall (fun d => RtpCodec.payload_type (CodecDescriptor.rtp_representation d) ∈ allowed) ds ->
  rtp_meta_attrs allowed (mjoin (codec_attrs mt <$> ds) ++ r) acc =
  rtp_meta_attrs allowed r (acc ++ ((fun d => seen_codec mt (CodecDescriptor.rtp_representation d)) <$> ds)).
Proof.
  intros Hd. revert acc. induction Hd as [| d ds [Hc _] _ IH]; intros acc Ha; [rewrite app_nil_r; reflexivity |].
  apply Forall_cons in Ha as [Hin Ha].
  change (mjoin (codec_attrs mt <$> d :: ds)) with (codec_attrs mt d ++ mjoin (codec_attrs mt <$> ds)).
  rewrite <- app_assoc. unfold codec_attrs at 1. rewrite <- app_comm_cons. cbn [rtp_meta_attrs Attribute.new Attribute.key Attribute.value].
  rewrite bool_decide_true by reflexivity. cbn [negb ok_or mbind outcome_bind].
  rewrite rtpmap_text_roundtrip by exact Hc. cbn [map_err mbind outcome_bind RtpMap.payload_type RtpMap.clock_rate RtpMap.encoding_name].
  rewrite (bool_decide_true (_ ∈ allowed)) by exact Hin. cbn [negb]. rewrite andb_false_r.
  rewrite rtp_attrs_skip by (destruct (CodecDescriptor.sdp_fmtp d); repeat constructor; discriminate).
  rewrite IH by exact Ha. cbn [fmap list_fmap]. rewrite <- app_assoc. reflexivity.
Qed.

Lemma allowed_pts ds : Forall descriptor_ok ds ->
  omap (fun fmt => match from_str_radix 10 u8_max fmt with Ok v => Some v | _ => None end)
    ((fun c => dec (RtpCodec.payload_type (CodecDescriptor.rtp_representation c))) <$> ds)
  = (fun d => RtpCodec.payload_type (CodecDescriptor.rtp_representation d)) <$> ds.
Proof.
  induction 1 as [| d ds [[Hp _ _ _] _] _ IH]; [reflexivity |]. cbn [fmap list_fmap omap list_omap].
  rewrite parse_dec by (unfold u8_max; ulia). f_equal. exact IH.
Qed.

Lemma candidate_keys k cs : k <> lit "candidate" -> Forall (fun a => Attribute.key a <> k) (candidate_attrs cs).
Proof. intros H. apply Forall_fmap, Forall_true. intros c E. apply H. symmetry. exact E. Qed.

Lemma rtp_meta_described s l cs acc : Forall (fun x => Forall descriptor_ok (x.2)) l ->
  rtp_meta_media ((fun x => build_media_description s x.1 x.2 (candidate_attrs cs)) <$> l) acc =
  Ok (acc ++ mjoin ((fun x => offered x.1 x.2) <$> l)).
Proof.
  intros H. revert acc. induction H as [| [mt ds] l Hd _ IH]; intros acc; [simpl; rewrite app_nil_r; reflexivity |].
  change (mjoin ((fun x => offered x.1 x.2) <$> (mt, ds) :: l)) with (offered mt ds ++ mjoin ((fun x => offered x.1 x.2) <$> l)).
  cbn [fmap list_fmap rtp_meta_media fst snd]. unfold build_media_description at 1, IceAgent.local_credentials.
  cbn [Media.proto Media.set_attrs Media.set_connection Media.set_fmts Media.set_proto].
  change (IceAgent.contains (lit "RTP") (to_ascii_uppercase DEFAULT_PROTO)) with true. cbn [negb].
  cbn [build_media_description IceAgent.local_credentials Media.fmts Media.attrs Media.set_attrs Media.set_connection Media.set_fmts].
  rewrite rtp_attrs_skip by (apply candidate_keys; discriminate).
  rewrite rtp_attrs_skip by (repeat constructor; discriminate). simpl in Hd.
  destruct Hd as [| d ds Hd Hds].
  - change (rtp_meta_attrs _ _ acc) with (Ok (E:=ConnectionError.t) (acc ++ [RtpCodec.with_name 96 90000 (lit "H264")])).
    cbn [mbind outcome_bind]. rewrite IH, <- app_assoc. reflexivity.
  - rewrite allowed_pts by (constructor; assumption).
    rewrite rtp_attrs_codecs.
    + change (rtp_meta_attrs ?al [Attribute.new (lit "rtcp-mux") None] ?ac) with (Ok (E:=ConnectionError.t) ac).
      cbn [mbind outcome_bind]. rewrite IH, <- app_assoc. reflexivity.
    + constructor; assumption.
    + apply Forall_forall. intros x Hx. apply list_elem_of_fmap. eauto.
Qed.

(** The candidates and the credentials *)
Definition with_remotes (s : ConnectionManager.t) (cs : list Candidate.t) : ConnectionManager.t :=
  with_agent s (foldl IceAgent.add_remote_candidate (ice_agent s) cs).

Lemma media_meta_candidates m cs r s : Forall cand_text_ok cs ->
  media_meta m (candidate_attrs cs ++ r) s = media_meta m r (with_remotes s (Candidate.clone_light <$> cs)).
Proof.
  intros H. revert s. induction H as [| c cs Hc _ IH]; intros s; [destruct s; reflexivity |].
  unfold candidate_attrs in *. cbn [fmap list_fmap app media_meta Attribute.new Attribute.key Attribute.value].
  rewrite decide_True by reflexivity.
  rewrite (bind_quiet _ _ s s (ICEAndSDP.to_string c)) by reflexivity.
  rewrite (bind_quiet _ _ s s (Candidate.clone_light c)) by (unfold lift; rewrite candidate_text_roundtrip by exact Hc; reflexivity).
  rewrite (bind_quiet (modify _) _ s (with_remotes s [Candidate.clone_light c]) ()) by reflexivity.
  rewrite IH. reflexivity.
Qed.

Lemma media_meta_skip m l s :
  Forall (fun a => Attribute.key a ∉ [lit "candidate"; lit "ice-ufrag"; lit "ice-pwd"; lit "ice-lite"]) l ->
  media_meta m l s = (s, [], Ok m).
Proof.
  induction 1 as [| a l Ha _ IH]; [reflexivity |]. cbn [media_meta].
  rewrite !not_elem_of_cons in Ha. destruct Ha as (H1 & H2 & H3 & H4 & _).
  rewrite !decide_False by assumption. exact IH.
Qed.

Lemma codec_attrs_keys k mt ds : k <> lit "rtpmap" -> k <> lit "fmtp" ->
  Forall (fun a => Attribute.key a <> k) (mjoin (codec_attrs mt <$> ds)).
Proof.
  intros H1 H2. induction ds as [| d ds IH]; [constructor |].
  change (Forall (fun a => Attribute.key a <> k) (codec_attrs mt d ++ mjoin (codec_attrs mt <$> ds))).
  apply Forall_app. split; [| exact IH]. unfold codec_attrs.
  destruct (CodecDescriptor.sdp_fmtp d); 
    repeat (apply Forall_nil_2 || (apply Forall_cons_2; [intros E; first [exact (H1 (eq_sym E)) | exact (H2 (eq_sym E))] |])).
Qed.

(** What one media description holds of the credentials; the first one counts. *)
Definition merge (o : option bytes) (v : bytes) : option bytes := match o with None => Some v | u => u end.

Lemma media_meta_ufrag m v r s : media_meta m (Attribute.new (lit "ice-ufrag") (Some v) :: r) s =
  media_meta (IceMeta (lite m) (merge (r_ufrag m) v) (r_pwd m)) r s.
Proof.
  cbn [media_meta Attribute.new Attribute.key Attribute.value]. rewrite decide_False by discriminate.
  rewrite decide_True by reflexivity. destruct m as [? [] ?]; reflexivity.
Qed.
Lemma media_meta_pwd m v r s : media_meta m (Attribute.new (lit "ice-pwd") (Some v) :: r) s =
  media_meta (IceMeta (lite m) (r_ufrag m) (merge (r_pwd m) v)) r s.
Proof.
  cbn [media_meta Attribute.new Attribute.key Attribute.value]. rewrite !decide_False by discriminate.
  rewrite decide_True by reflexivity. destruct m as [? ? []]; reflexivity.
Qed.

Lemma media_meta_described x m cs s r : Forall cand_text_ok cs ->
  media_meta m (Media.attrs (build_media_description r x.1 x.2 (candidate_attrs cs))) s =
  (with_remotes s (Candidate.clone_light <$> cs), [],
   Ok (IceMeta (lite m) (merge (r_ufrag m) (IceAgent.ufrag (ice_agent r))) (merge (r_pwd m) (IceAgent.pwd (ice_agent r))))).
Proof.
  intros Hcs. unfold build_media_description, IceAgent.local_credentials. cbn [Media.attrs Media.set_attrs].
  rewrite media_meta_candidates by exact Hcs.
  cbn [app]. rewrite media_meta_ufrag, media_meta_pwd. cbn [lite r_ufrag r_pwd]. rewrite media_meta_skip; [reflexivity |].
  do 2 (apply Forall_cons_2; [apply (bool_decide_unpack _); vm_compute; exact I |]).
  apply Forall_app. split; [| repeat constructor; apply (bool_decide_unpack _); vm_compute; exact I].
  destruct (x.2) as [| d ds] eqn:E; [repeat constructor; apply (bool_decide_unpack _); vm_compute; exact I |].
    assert (H : forall k, k <> lit "rtpmap" -> k <> lit "fmtp" ->
      Forall (fun a => Attribute.key a <> k) (mjoin (codec_attrs (x.1) <$> d :: ds))) by (intros; apply codec_attrs_keys; assumption).
    pose proof (H (lit "candidate") ltac:(discriminate) ltac:(discriminate)) as H1.
    pose proof (H (lit "ice-ufrag") ltac:(discriminate) ltac:(discriminate)) as H2.
    pose proof (H (lit "ice-pwd") ltac:(discriminate) ltac:(discriminate)) as H3.
    pose proof (H (lit "ice-lite") ltac:(discriminate) ltac:(discriminate)) as H4.
    rewrite Forall_forall in *. intros a Ha. rewrite !not_elem_of_cons. repeat split; auto. apply not_elem_of_nil.
Qed.

Lemma with_remotes_app s l1 l2 : with_remotes (with_remotes s l1) l2 = with_remotes s (l1 ++ l2).
Proof. unfold with_remotes. simpl. rewrite foldl_app. reflexivity. Qed.

Definition copies (n : nat) (cs : list Candidate.t) : list Candidate.t :=
  mjoin (replicate n (Candidate.clone_light <$> cs)).

Lemma medias_meta_described l m cs s r : Forall cand_text_ok cs ->
  medias_meta m ((fun x => build_media_description r x.1 x.2 (candidate_attrs cs)) <$> l) s =
  (with_remotes s (copies (length l) cs), [],
   Ok (match l with
       | [] => m
       | _ => IceMeta (lite m) (merge (r_ufrag m) (IceAgent.ufrag (ice_agent r))) (merge (r_pwd m) (IceAgent.pwd (ice_agent r)))
       end)).
Proof.
  intros Hcs. revert m s. induction l as [| x l IH]; intros m s; [destruct s; reflexivity |].
  cbn [fmap list_fmap medias_meta]. rewrite (bind_quiet _ _ _ _ _ (media_meta_described x m cs s r Hcs)).
  rewrite IH, with_remotes_app. destruct l; [reflexivity |]. destruct m as [? [] []]; reflexivity.
Qed.

Lemma first_some_skip {A B} (f : A -> option B) l r : Forall (fun x => f x = None) l -> first_some f (l ++ r) = first_some f r.
Proof. induction 1 as [| x l Hx _ IH]; [reflexivity |]. cbn [app first_some]. rewrite Hx. exact IH. Qed.

Lemma fingerprint_described x cs r : printable (local_fingerprint r) = true ->
  first_some fingerprint_of (Media.attrs (build_media_description r x.1 x.2 (candidate_attrs cs))) = Some (local_fingerprint r).
Proof.
  intros Hf. unfold build_media_description, IceAgent.local_credentials. cbn [Media.attrs Media.set_attrs].
  rewrite first_some_skip by (apply Forall_fmap, Forall_true; reflexivity). cbn [app first_some].
  change (fingerprint_of (Attribute.new (lit "ice-ufrag") _)) with (@None bytes).
  change (fingerprint_of (Attribute.new (lit "ice-pwd") _)) with (@None bytes).
  unfold fingerprint_of at 1. cbn [Attribute.new Attribute.key Attribute.value]. rewrite decide_True by reflexivity.
  change (lit "sha-256 " ++ local_fingerprint r) with (join [32] [lit "sha-256"; local_fingerprint r]).
  rewrite printable_join by (cbn [forallb]; rewrite Hf; reflexivity). reflexivity.
Qed.

Definition announced_codecs (s : ConnectionManager.t) : list RtpCodec.t :=
  dedup_by_pt (sort_pt (mjoin ((fun x => offered x.1 x.2) <$> media_plan s))).
Definition credentials_of (r : ConnectionManager.t) : ice_meta :=
  IceMeta false (Some (IceAgent.ufrag (ice_agent r))) (Some (IceAgent.pwd (ice_agent r))).
(** [s] after it has read the description of [r] *)
Definition learned (s r : ConnectionManager.t) (cs : list Candidate.t) : ConnectionManager.t :=
  with_fingerprint
    (with_remote_codecs
      (store_credentials (credentials_of r) (with_remotes s (copies (length (media_plan r)) cs)))
      (announced_codecs r))
    (Some (local_fingerprint r)).

Lemma media_plan_ne s : media_plan s <> [].
Proof. unfold media_plan. destruct (_ ++ _); discriminate. Qed.

Lemma read_description {A} (k : ice_meta -> M A) s r cs now : manager_text_ok r -> Forall cand_text_ok cs ->
  (m ← extract_and_store_remote_ice_meta (description r cs now);
   extract_and_store_rtp_meta (description r cs now) ≫= fun _ =>
   extract_and_store_fingerprint (description r cs now) ≫= fun _ => k m) s =
  k (credentials_of r) (learned s r cs).
Proof.
  intros Hr Hcs. pose proof (media_plan_ne r) as Hne.
  assert (H1 : extract_and_store_remote_ice_meta (description r cs now) s =
    (store_credentials (credentials_of r) (with_remotes s (copies (length (media_plan r)) cs)), [], Ok (credentials_of r))).
  { unfold extract_and_store_remote_ice_meta. cbn [Sdp.attrs description Sdp.new Sdp.media foldl]. unfold described.
    rewrite (bind_quiet _ _ _ _ _ (medias_meta_described (media_plan r) _ cs s r Hcs)).
    destruct (media_plan r); [congruence |]. reflexivity. }
  rewrite (bind_quiet _ _ _ _ _ H1). set (s1 := store_credentials _ _).
  assert (H2 : extract_and_store_rtp_meta (description r cs now) s1 = (with_remote_codecs s1 (announced_codecs r), [], Ok ())).
  { unfold extract_and_store_rtp_meta. cbn [description Sdp.new Sdp.media]. unfold described.
    rewrite (rtp_meta_described r (media_plan r) cs []) by (apply plan_ok, Hr). reflexivity. }
  rewrite (bind_quiet _ _ _ _ _ H2).
  assert (H3 : extract_and_store_fingerprint (description r cs now) (with_remote_codecs s1 (announced_codecs r)) =
    (learned s r cs, [], Ok ())).
  { unfold extract_and_store_fingerprint. cbn [description Sdp.new Sdp.media]. unfold described.
    destruct (media_plan r) as [| x l] eqn:E; [congruence |]. cbn [fmap list_fmap first_some].
    rewrite fingerprint_described by apply Hr. unfold learned, s1. rewrite E. reflexivity. }
  rewrite (bind_quiet _ _ _ _ _ H3). reflexivity.
Qed.

(** ** The two halves of the exchange *)
Definition gathered (e : env) : list Candidate.t := Gathering.gather_host_candidates default_hash (host e).

Definition ready (s : ConnectionManager.t) : Prop := manager_text_ok s /\ agent_ok (ice_agent s).

Lemma gathered_parts e : env_ok e -> Forall cand_text_ok (gathered e) /\ Forall local_ok (gathered e).
Proof.
  intros [_ Hh _ _]. pose proof (gather_host_ok (host e) Hh) as H.
  split; (eapply Forall_impl; [exact H |]); intros c Hc; apply Hc.
Qed.

Lemma add_remote_all a cs : foldl IceAgent.add_remote_candidate a cs =
  IceAgent.set_candidates a (IceAgent.local_candidates a) (IceAgent.remote_candidates a ++ cs).
Proof.
  revert a. induction cs as [| c cs IH]; intros a; cbn [foldl]; [rewrite app_nil_r; destruct a; reflexivity |].
  rewrite IH. unfold IceAgent.add_remote_candidate. simpl. rewrite <- app_assoc. reflexivity.
Qed.

Lemma gathered_text_ok s cs : manager_text_ok s -> manager_text_ok (with_gathered s cs).
Proof. intros [H1 H2 H3 H4]. split; unfold with_gathered; simpl; rewrite ?add_local_all; assumption. Qed.
Lemma learned_text_ok s r cs : manager_text_ok s -> manager_text_ok (learned s r cs).
Proof.
  intros [H1 H2 H3 H4]. split; unfold learned, store_credentials, with_remotes; simpl; rewrite ?add_remote_all; assumption.
Qed.

Lemma copies_ok n cs : Forall local_ok cs -> Forall cand_ok (copies n cs).
Proof.
  intros H. unfold copies. induction n as [| n IH]; [constructor |].
  change (Forall cand_ok ((Candidate.clone_light <$> cs) ++ mjoin (replicate n (Candidate.clone_light <$> cs)))).
  apply Forall_app. split; [| exact IH]. apply Forall_fmap. eapply Forall_impl; [exact H |].
  intros c Hc. unfold cand_ok, local_ok, compose in *. simpl. ulia.
Qed.
Lemma learned_agent_ok s r cs : agent_ok (ice_agent s) -> Forall local_ok cs -> agent_ok (ice_agent (learned s r cs)).
Proof.
  intros [H1 H2 H3] Hc. unfold learned, store_credentials, with_remotes. simpl. rewrite add_remote_all.
  split; simpl; [exact H1 | apply Forall_app; split; [exact H2 | apply copies_ok, Hc] | exact H3].
Qed.

(** The offerer *)
Definition offering (e : env) (s : ConnectionManager.t) (now : Z) : ConnectionManager.t :=
  let s' := with_gathered s (gathered e) in
  set_ice_role_from_signaling true false
    (with_signaling (with_local s' (Some (description s' (gathered e) now))) SignalingState.HaveLocalOffer).

Lemma negotiate_run e s : env_ok e -> signaling s = SignalingState.Stable ->
  exists now, u64 now /\ negotiate default_hash e s =
    (offering e s now, [], Ok (OutboundSdp.Offer (description (with_gathered s (gathered e)) (gathered e) now))).
Proof.
  intros He Hs. destruct (build_local_sdp_run e s He) as (now & Hn & Hb). exists now. split; [exact Hn |].
  unfold negotiate. rewrite (bind_quiet get _ s s s) by reflexivity. rewrite Hs, (bind_quiet _ _ _ _ _ Hb). reflexivity.
Qed.

(** The answerer, before its checks *)
Definition answering (e : env) (s r : ConnectionManager.t) (cs : list Candidate.t) (d : Sdp.t) : ConnectionManager.t :=
  with_gathered (with_signaling (with_remote (learned s r cs) (Some d)) SignalingState.HaveRemoteOffer) (gathered e).
Definition answered (e : env) (s r : ConnectionManager.t) (cs : list Candidate.t) (d : Sdp.t) (now : Z) : ConnectionManager.t :=
  let s' := answering e s r cs d in
  with_signaling (set_ice_role_from_signaling false false (with_local s' (Some (description s' (gathered e) now))))
    SignalingState.Stable.

Lemma answered_agent_ok e s r cs d now : env_ok e -> agent_ok (ice_agent s) -> Forall local_ok cs ->
  agent_ok (ice_agent (answered e s r cs d now)).
Proof.
  intros He Ha Hc. pose proof (agent_ok_add _ _ (learned_agent_ok s r cs Ha Hc) (proj2 (gathered_parts e He))) as [H1 H2 H3].
  split; assumption.
Qed.

(** The outcome of [maybe_start_ice] in a completed exchange *)
Lemma maybe_start_ice_run e s : env_ok e -> agent_ok (ice_agent s) -> signaling s = SignalingState.Stable ->
  is_some (local_description s) = true -> is_some (remote_description s) = true ->
  exists extra x n ds, Forall local_ok extra /\ (IceAgent.local_candidates (ice_agent s) <> [] -> extra = []) /\
    IceAgent.form_candidate_pairs (foldl IceAgent.add_local_candidate (ice_agent s) extra) = Ok (x, n) /\
    ignore_error (maybe_start_ice default_hash e) s = (checked e s x, ds, Ok ()).
Proof.
  intros He Ha Hs Hl Hr. destruct (start_connectivity_checks_run e s He Ha Hl Hr) as (extra & x & n & ds & H1 & H2 & H3 & H4).
  exists extra, x, n, ds. do 3 (split; [assumption |]). unfold ignore_error, maybe_start_ice.
  rewrite (bind_quiet get _ s s s) by reflexivity. rewrite Hl, Hr, bool_decide_true by exact Hs. cbn [andb negb].
  rewrite H4. reflexivity.
Qed.

Lemma apply_offer_run e s r cs now : ready s -> manager_text_ok r -> Forall cand_text_ok cs -> Forall local_ok cs ->
  env_ok e -> u64 now -> signaling s = SignalingState.Stable ->
  let d := description r cs now in
  exists now' extra x n ds, u64 now' /\ Forall local_ok extra /\
    (IceAgent.local_candidates (ice_agent (answered e s r cs d now')) <> [] -> extra = []) /\
    IceAgent.form_candidate_pairs (foldl IceAgent.add_local_candidate (ice_agent (answered e s r cs d now')) extra) = Ok (x, n) /\
    apply_remote_sdp default_hash e (Sdp.encode d) s =
      (checked e (answered e s r cs d now') x, ds,
       Ok (OutboundSdp.Answer (description (answering e s r cs d) (gathered e) now'))).
Proof.
  intros [Ht Ha] Hr Hct Hcl He Hn Hs d.
  destruct (build_local_sdp_run e (with_signaling (with_remote (learned s r cs) (Some d)) SignalingState.HaveRemoteOffer) He)
    as (now' & Hn' & Hb).
  destruct (maybe_start_ice_run e (answered e s r cs d now') He) as (extra & x & n & ds & H1 & H2 & H3 & H4);
    [apply answered_agent_ok; assumption | reflexivity .. |].
  exists now', extra, x, n, ds. do 4 (split; [assumption |]). unfold apply_remote_sdp.
  rewrite (bind_quiet _ _ s s d) by (unfold lift, d; rewrite description_text by assumption; reflexivity).
  rewrite (bind_quiet get _ s s s) by reflexivity. rewrite Hs.
  erewrite (bind_quiet (apply_offer default_hash e d)); cycle 1.
  { unfold apply_offer, d. rewrite read_description by assumption. fold d.
    rewrite (bind_quiet (modify _) _ _ (with_signaling (with_remote (learned s r cs) (Some d)) SignalingState.HaveRemoteOffer) ()) by reflexivity.
    rewrite (bind_quiet _ _ _ _ _ Hb). reflexivity. }
  change (with_signaling _ SignalingState.Stable) with (answered e s r cs d now').
  rewrite (bind_ok _ _ _ _ _ _ H4). unfold mret, M_ret. rewrite app_nil_r. reflexivity.
Qed.

(** The offerer, when the answer has arrived *)
Lemma apply_answer_run e s r cs now : ready s -> manager_text_ok r -> Forall cand_text_ok cs -> Forall local_ok cs ->
  env_ok e -> u64 now -> signaling s = SignalingState.HaveLocalOffer -> is_some (local_description s) = true ->
  let d := description r cs now in
  let s' := with_signaling (with_remote (learned s r cs) (Some d)) SignalingState.Stable in
  exists extra x n ds, Forall local_ok extra /\ (IceAgent.local_candidates (ice_agent s') <> [] -> extra = []) /\
    IceAgent.form_candidate_pairs (foldl IceAgent.add_local_candidate (ice_agent s') extra) = Ok (x, n) /\
    apply_remote_sdp default_hash e (Sdp.encode d) s = (checked e s' x, ds, Ok OutboundSdp.None).
Proof.
  intros [Ht Ha] Hr Hct Hcl He Hn Hs Hl d s'.
  destruct (maybe_start_ice_run e s' He) as (extra & x & n & ds & H1 & H2 & H3 & H4);
    [apply (learned_agent_ok s r cs); assumption | reflexivity | exact Hl | reflexivity |].
  exists extra, x, n, ds. do 3 (split; [assumption |]). unfold apply_remote_sdp.
  rewrite (bind_quiet _ _ s s d) by (unfold lift, d; rewrite description_text by assumption; reflexivity).
  rewrite (bind_quiet get _ s s s) by reflexivity. rewrite Hs. cbn [is_probably_offer].
  erewrite (bind_quiet (apply_answer d)); cycle 1.
  { unfold apply_answer, d. rewrite read_description by assumption. reflexivity. }
  fold d. fold s'. rewrite (bind_ok _ _ _ _ _ _ H4). unfold mret, M_ret. rewrite app_nil_r. reflexivity.
Qed.

(** ** The exchange *)

(** What [s] knows of [r], whose candidates are [cs] *)
Record knows (s r : ConnectionManager.t) (cs : list Candidate.t) : Prop := {
  k_codecs : remote_codecs s = announced_codecs r;
  k_fingerprint : remote_fingerprint s = Some (local_fingerprint r);
  k_ufrag : IceAgent.remote_ufrag (ice_agent s) = IceAgent.ufrag (ice_agent r);
  k_pwd : IceAgent.remote_pwd (ice_agent s) = IceAgent.pwd (ice_agent r);
  k_candidates : IceAgent.remote_candidates (ice_agent s) = copies (length (media_plan r)) cs }.

Definition fresh (s : ConnectionManager.t) : Prop :=
  signaling s = SignalingState.Stable /\ IceAgent.local_candidates (ice_agent s) = [] /\
  IceAgent.remote_candidates (ice_agent s) = [].

Lemma form_frame a x n : IceAgent.form_candidate_pairs a = Ok (x, n) -> exists ps, x = IceAgent.set_pairs a ps (IceAgent.nominated_pair a).
Proof. unfold IceAgent.form_candidate_pairs. intros H. bind_inv H. injection H as <- _. eauto. Qed.

(** The checks change neither what was signaled nor what is known of the peer. *)
Lemma checked_frame e s extra x n :
  IceAgent.form_candidate_pairs (foldl IceAgent.add_local_candidate (ice_agent s) extra) = Ok (x, n) ->
  (signaling (checked e s x) = signaling s /\ local_description (checked e s x) = local_description s /\
   remote_description (checked e s x) = remote_description s /\ ice_phase (checked e s x) = IcePhase.Checking /\
   remote_codecs (checked e s x) = remote_codecs s /\ remote_fingerprint (checked e s x) = remote_fingerprint s) /\
  (IceAgent.role (ice_agent (checked e s x)) = IceAgent.role (ice_agent s) /\
   IceAgent.remote_ufrag (ice_agent (checked e s x)) = IceAgent.remote_ufrag (ice_agent s) /\
   IceAgent.remote_pwd (ice_agent (checked e s x)) = IceAgent.remote_pwd (ice_agent s) /\
   IceAgent.remote_candidates (ice_agent (checked e s x)) = IceAgent.remote_candidates (ice_agent s)).
Proof.
  intros H. apply form_frame in H as [ps ->]. rewrite add_local_all. unfold checked, spawn_ice_worker. simpl.
  destruct (ice_worker s); repeat split.
Qed.

Lemma checked_knows e s r cs extra x n : knows s r cs ->
  IceAgent.form_candidate_pairs (foldl IceAgent.add_local_candidate (ice_agent s) extra) = Ok (x, n) ->
  knows (checked e s x) r cs.
Proof.
  intros [K1 K2 K3 K4 K5] H. destruct (checked_frame e s extra x n H) as ((_ & _ & _ & _ & C1 & C2) & _ & C3 & C4 & C5).
  split; congruence.
Qed.

Lemma learned_knows s r cs : IceAgent.remote_candidates (ice_agent s) = [] -> knows (learned s r cs) r cs.
Proof. intros H. unfold learned, store_credentials, with_remotes. split; simpl; rewrite ?add_remote_all; simpl; rewrite ?H; reflexivity. Qed.

(** The manager [r'] announces what [r] does. *)
Definition same_announcement (r r' : ConnectionManager.t) : Prop :=
  local_codecs r' = local_codecs r /\ local_fingerprint r' = local_fingerprint r /\
  IceAgent.ufrag (ice_agent r') = IceAgent.ufrag (ice_agent r) /\ IceAgent.pwd (ice_agent r') = IceAgent.pwd (ice_agent r).
Lemma knows_same s r r' cs : same_announcement r r' -> knows s r' cs -> knows s r cs.
Proof.
  intros (H1 & H2 & H3 & H4) [K1 K2 K3 K4 K5]. unfold announced_codecs, media_plan in K1, K5. rewrite H1 in K1, K5.
  split; [exact K1 | congruence .. | exact K5].
Qed.

(** Both states at the end of the exchange *)
Definition offerer_end (a : ConnectionManager.t) (ea : env) (na : Z) (b : ConnectionManager.t) (eb : env) (nb : Z) : ConnectionManager.t :=
  let a0 := with_gathered a (gathered ea) in
  let b0 := answering eb b a0 (gathered ea) (description a0 (gathered ea) na) in
  with_signaling (with_remote (learned (offering ea a na) b0 (gathered eb)) (Some (description b0 (gathered eb) nb)))
    SignalingState.Stable.
Definition answerer_end (a : ConnectionManager.t) (ea : env) (na : Z) (b : ConnectionManager.t) (eb : env) (nb : Z) : ConnectionManager.t :=
  let a0 := with_gathered a (gathered ea) in
  answered eb b a0 (gathered ea) (description a0 (gathered ea) na) nb.

Lemma answering_text_ok e s r cs d : manager_text_ok s -> manager_text_ok (answering e s r cs d).
Proof.
  intros H. unfold answering. apply gathered_text_ok. pose proof (learned_text_ok s r cs H) as [H1 H2 H3 H4].
  split; assumption.
Qed.

Lemma gathered_locals s cs : IceAgent.local_candidates (ice_agent (with_gathered s cs)) = IceAgent.local_candidates (ice_agent s) ++ cs.
Proof. unfold with_gathered. cbn [ice_agent with_agent]. rewrite add_local_all. reflexivity. Qed.
Lemma learned_locals s r cs : IceAgent.local_candidates (ice_agent (learned s r cs)) = IceAgent.local_candidates (ice_agent s).
Proof.
  unfold learned, store_credentials, with_remotes, credentials_of.
  cbn [ice_agent with_agent with_fingerprint with_remote_codecs r_ufrag r_pwd]. rewrite add_remote_all. reflexivity.
Qed.
Lemma stored_agent s d g : ice_agent (with_signaling (with_remote s d) g) = ice_agent s.
Proof. reflexivity. Qed.
Lemma answered_locals e s r cs d now : IceAgent.local_candidates (ice_agent (answered e s r cs d now)) =
  IceAgent.local_candidates (ice_agent s) ++ gathered e.
Proof.
  transitivity (IceAgent.local_candidates (ice_agent (answering e s r cs d))); [reflexivity |].
  unfold answering. rewrite gathered_locals, stored_agent, learned_locals. reflexivity.
Qed.
Lemma offering_locals e s now : IceAgent.local_candidates (ice_agent (offering e s now)) =
  IceAgent.local_candidates (ice_agent s) ++ gathered e.
Proof. rewrite <- gathered_locals. reflexivity. Qed.

Lemma exchange_run a b ea eb ea' : ready a -> ready b -> fresh a -> fresh b -> env_ok ea -> env_ok eb -> env_ok ea' ->
  exists na nb a1 offer answer xa xb n m ds ds' extra extra',
    negotiate default_hash ea a = (a1, [], Ok (OutboundSdp.Offer offer)) /\
    apply_remote_sdp default_hash eb (Sdp.encode offer) b = (checked eb (answerer_end a ea na b eb nb) xb, ds, Ok (OutboundSdp.Answer answer)) /\
    apply_remote_sdp default_hash ea' (Sdp.encode answer) a1 = (checked ea' (offerer_end a ea na b eb nb) xa, ds', Ok OutboundSdp.None) /\
    IceAgent.form_candidate_pairs (foldl IceAgent.add_local_candidate (ice_agent (answerer_end a ea na b eb nb)) extra) = Ok (xb, n) /\
    IceAgent.form_candidate_pairs (foldl IceAgent.add_local_candidate (ice_agent (offerer_end a ea na b eb nb)) extra') = Ok (xa, m) /\
    (gathered eb <> [] -> extra = []) /\ (gathered ea <> [] -> extra' = []) /\
    local_description (offerer_end a ea na b eb nb) = Some offer /\ remote_description (offerer_end a ea na b eb nb) = Some answer /\
    local_description (answerer_end a ea na b eb nb) = Some answer /\ remote_description (answerer_end a ea na b eb nb) = Some offer /\
    (exists s, offer = description s (gathered ea) na /\ manager_text_ok s) /\
    (exists s, answer = description s (gathered eb) nb /\ manager_text_ok s) /\ u64 na /\ u64 nb.
Proof.
  intros [Hta Haa] Hb (Hsa & Hla & _) (Hsb & Hlb & _) Hea Heb Hea'.
  destruct (gathered_parts ea Hea) as [Gat Gal]. destruct (gathered_parts eb Heb) as [Gbt Gbl].
  destruct (negotiate_run ea a Hea Hsa) as (na & Hna & Hneg).
  pose proof (gathered_text_ok a (gathered ea) Hta) as Ht0.
  destruct (apply_offer_run eb b (with_gathered a (gathered ea)) (gathered ea) na Hb Ht0 Gat Gal Heb Hna Hsb)
    as (nb & extra & xb & n & ds & Hnb & _ & Hx & Hf & Hoff).
  set (a0 := with_gathered a (gathered ea)) in *. set (d := description a0 (gathered ea) na) in *.
  destruct (apply_answer_run ea' (offering ea a na) (answering eb b a0 (gathered ea) d) (gathered eb) nb)
    as (extra' & xa & m & ds' & _ & Hx' & Hf' & Hans); try assumption; try reflexivity.
  - split; [destruct Ht0; split; assumption |]. pose proof (agent_ok_add _ _ Haa Gal) as [? ? ?]. split; assumption.
  - apply answering_text_ok, Hb.
  - exists na, nb, (offering ea a na), d, (description (answering eb b a0 (gathered ea) d) (gathered eb) nb),
      xa, xb, n, m, ds, ds', extra, extra'.
    split; [exact Hneg |]. split; [exact Hoff |]. split; [exact Hans |]. split; [exact Hf |]. split; [exact Hf' |].
    split; [| split; [| split_and!; try reflexivity]].
    + intros Hne. apply Hx. rewrite answered_locals, Hlb. exact Hne.
    + intros Hne. apply Hx'. rewrite stored_agent, learned_locals, offering_locals, Hla. exact Hne.
    + exists a0. split; [reflexivity | exact Ht0].
    + eexists. split; [reflexivity | apply answering_text_ok, Hb].
    + exact Hna.
    + exact Hnb.
Qed.

Lemma knows_stored s r cs d g : knows s r cs -> knows (with_signaling (with_remote s d) g) r cs.
Proof. intros [K1 K2 K3 K4 K5]. split; assumption. Qed.
Lemma knows_gathered s r cs l : knows s r cs -> knows (with_gathered s l) r cs.
Proof. intros [K1 K2 K3 K4 K5]. unfold with_gathered. split; simpl; rewrite ?add_local_all; assumption. Qed.
Lemma knows_answered s r cs d o i g : knows s r cs ->
  knows (with_signaling (set_ice_role_from_signaling o i (with_local s d)) g) r cs.
Proof. intros [K1 K2 K3 K4 K5]. split; assumption. Qed.

Lemma gathered_remotes s cs : IceAgent.remote_candidates (ice_agent (with_gathered s cs)) = IceAgent.remote_candidates (ice_agent s).
Proof. unfold with_gathered. cbn [ice_agent with_agent]. rewrite add_local_all. reflexivity. Qed.
Lemma learned_role s r cs : IceAgent.role (ice_agent (learned s r cs)) = IceAgent.role (ice_agent s).
Proof.
  unfold learned, store_credentials, with_remotes, credentials_of.
  cbn [ice_agent with_agent with_fingerprint with_remote_codecs r_ufrag r_pwd]. rewrite add_remote_all. reflexivity.
Qed.

Lemma same_gathered s cs : same_announcement s (with_gathered s cs).
Proof. unfold same_announcement, with_gathered. cbn [ice_agent with_agent]. rewrite add_local_all. repeat split. Qed.
Lemma same_learned s r cs : same_announcement s (learned s r cs).
Proof.
  unfold same_announcement, learned, store_credentials, with_remotes, credentials_of.
  cbn [ice_agent with_agent with_fingerprint with_remote_codecs r_ufrag r_pwd]. rewrite add_remote_all. repeat split.
Qed.
Lemma same_stored s s' d g : same_announcement s s' -> same_announcement s (with_signaling (with_remote s' d) g).
Proof. intros H. exact H. Qed.
Lemma same_trans s s' s'' : same_announcement s s' -> same_announcement s' s'' -> same_announcement s s''.
Proof. intros (A1 & A2 & A3 & A4) (B1 & B2 & B3 & B4). repeat split; congruence. Qed.
Lemma same_answering e s r cs d : same_announcement s (answering e s r cs d).
Proof. eapply same_trans; [| apply same_gathered]. apply same_stored, same_learned. Qed.

Lemma offerer_end_facts a ea na b eb nb : fresh a ->
  knows (offerer_end a ea na b eb nb) b (gathered eb) /\
  signaling (offerer_end a ea na b eb nb) = SignalingState.Stable /\
  IceAgent.role (ice_agent (offerer_end a ea na b eb nb)) = Controlling.
Proof.
  intros (_ & _ & Hr). unfold offerer_end. cbv zeta. split; [| split; [reflexivity |]].
  - eapply knows_same; [apply same_answering |]. apply knows_stored, learned_knows.
    rewrite <- Hr, <- (gathered_remotes a (gathered ea)). reflexivity.
  - rewrite stored_agent, learned_role. reflexivity.
Qed.
Lemma answerer_end_facts a ea na b eb nb : fresh b ->
  knows (answerer_end a ea na b eb nb) a (gathered ea) /\
  signaling (answerer_end a ea na b eb nb) = SignalingState.Stable /\
  IceAgent.role (ice_agent (answerer_end a ea na b eb nb)) = Controlled.
Proof.
  intros (_ & _ & Hr). unfold answerer_end, answered, answering. cbv zeta. split; [| split; reflexivity].
  eapply knows_same; [apply same_gathered |]. apply knows_answered, knows_gathered, knows_stored, learned_knows, Hr.
Qed.

(** The whole exchange, with the text of the descriptions *)
Lemma agreement_run a b ea eb ea' :
  ready a -> ready b -> fresh a -> fresh b -> env_ok ea -> env_ok eb -> env_ok ea' ->
  exists a1 offer b1 ds answer a2 ds',
    negotiate default_hash ea a = (a1, [], Ok (OutboundSdp.Offer offer)) /\
    apply_remote_sdp default_hash eb (Sdp.encode offer) b = (b1, ds, Ok (OutboundSdp.Answer answer)) /\
    apply_remote_sdp default_hash ea' (Sdp.encode answer) a1 = (a2, ds', Ok OutboundSdp.None) /\
    signaling a2 = SignalingState.Stable /\ signaling b1 = SignalingState.Stable /\
    ice_phase a2 = IcePhase.Checking /\ ice_phase b1 = IcePhase.Checking /\
    IceAgent.role (ice_agent a2) = Controlling /\ IceAgent.role (ice_agent b1) = Controlled /\
    local_description a2 = Some offer /\ remote_description b1 = Some offer /\
    local_description b1 = Some answer /\ remote_description a2 = Some answer /\
    knows a2 b (gathered eb) /\ knows b1 a (gathered ea) /\
    (exists s n, offer = description s (gathered ea) n /\ manager_text_ok s /\ u64 n) /\
    (exists s n, answer = description s (gathered eb) n /\ manager_text_ok s /\ u64 n).
Proof.
  intros Ha Hb Fa Fb Hea Heb Hea'.
  destruct (exchange_run a b ea eb ea' Ha Hb Fa Fb Hea Heb Hea')
    as (na & nb & a1 & offer & answer & xa & xb & n & m & ds & ds' & extra & extra' & H1 & H2 & H3 & Fbx & Fax & _ & _ & D1 & D2 & D3 & D4 & (sa & T1 & T2) & (sb & T3 & T4) & Hna & Hnb).
  destruct (offerer_end_facts a ea na b eb nb Fa) as (Ka & Sa & Ra).
  destruct (answerer_end_facts a ea na b eb nb Fb) as (Kb & Sb & Rb).
  destruct (checked_frame ea' _ _ _ _ Fax) as ((A1 & A2 & A3 & A4 & _) & A5 & _).
  destruct (checked_frame eb _ _ _ _ Fbx) as ((B1 & B2 & B3 & B4 & _) & B5 & _).
  do 7 eexists. split; [exact H1 |]. split; [exact H2 |]. split; [exact H3 |].
  repeat (split; [congruence |]).
  split; [exact (checked_knows ea' _ _ _ _ _ _ Ka Fax) |]. split; [exact (checked_knows eb _ _ _ _ _ _ Kb Fbx) |].
  split; eauto.
Qed.

(** C5 The exchange of an offer and its answer, over the text of the descriptions, succeeds between
    any two idle managers and leaves them in agreement: both are stable and checking, the
    offerer controls and the answerer is controlled, each holds the other's description as its
    remote one, and each knows the other's candidates, credentials, fingerprint and codecs. *)
Theorem offer_answer_agreement a b ea eb ea' :
  ready a -> ready b -> fresh a -> fresh b -> env_ok ea -> env_ok eb -> env_ok ea' ->
  exists a1 offer b1 ds answer a2 ds',
    negotiate default_hash ea a = (a1, [], Ok (OutboundSdp.Offer offer)) /\
    apply_remote_sdp default_hash eb (Sdp.encode offer) b = (b1, ds, Ok (OutboundSdp.Answer answer)) /\
    apply_remote_sdp default_hash ea' (Sdp.encode answer) a1 = (a2, ds', Ok OutboundSdp.None) /\
    signaling a2 = SignalingState.Stable /\ signaling b1 = SignalingState.Stable /\
    ice_phase a2 = IcePhase.Checking /\ ice_phase b1 = IcePhase.Checking /\
    IceAgent.role (ice_agent a2) = Controlling /\ IceAgent.role (ice_agent b1) = Controlled /\
    local_description a2 = Some offer /\ remote_description b1 = Some offer /\
    local_description b1 = Some answer /\ remote_description a2 = Some answer /\
    knows a2 b (gathered eb) /\ knows b1 a (gathered ea).
Proof.
  intros Ha Hb Fa Fb Hea Heb Hea'.
  destruct (agreement_run a b ea eb ea' Ha Hb Fa Fb Hea Heb Hea')
    as (a1 & offer & b1 & ds & answer & a2 & ds' & H1 & H2 & H3 & H4 & H5 & H6 & H7 & H8 & H9 & D1 & D2 & D3 & D4 & K1 & K2 & _).
  exists a1, offer, b1, ds, answer, a2, ds'. auto 20.
Qed.

(** *** Both check lists *)
Lemma gathered_max s cs : IceAgent.max_candidate_pairs (ice_agent (with_gathered s cs)) = IceAgent.max_candidate_pairs (ice_agent s).
Proof. unfold with_gathered. cbn [ice_agent with_agent]. rewrite add_local_all. reflexivity. Qed.
Lemma learned_max s r cs : IceAgent.max_candidate_pairs (ice_agent (learned s r cs)) = IceAgent.max_candidate_pairs (ice_agent s).
Proof.
  unfold learned, store_credentials, with_remotes, credentials_of.
  cbn [ice_agent with_agent with_fingerprint with_remote_codecs r_ufrag r_pwd]. rewrite add_remote_all. reflexivity.
Qed.
Lemma offerer_end_lists a ea na b eb nb : IceAgent.local_candidates (ice_agent a) = [] ->
  IceAgent.local_candidates (ice_agent (offerer_end a ea na b eb nb)) = gathered ea /\
  IceAgent.max_candidate_pairs (ice_agent (offerer_end a ea na b eb nb)) = IceAgent.max_candidate_pairs (ice_agent a).
Proof.
  intros Hl. unfold offerer_end. cbv zeta. rewrite stored_agent, learned_locals, learned_max, offering_locals, Hl.
  split; [reflexivity |]. rewrite <- (gathered_max a (gathered ea)). reflexivity.
Qed.
Lemma answered_max e s r cs d now : IceAgent.max_candidate_pairs (ice_agent (answered e s r cs d now)) =
  IceAgent.max_candidate_pairs (ice_agent s).
Proof.
  transitivity (IceAgent.max_candidate_pairs (ice_agent (answering e s r cs d))); [reflexivity |].
  unfold answering. rewrite gathered_max, stored_agent, learned_max. reflexivity.
Qed.

Lemma wire_clone k cs : wire_view <$> copies k cs = wire_view <$> repeated k cs.
Proof.
  change (copies k cs) with (repeated k (Candidate.clone_light <$> cs)). rewrite !repeated_fmap, <- list_fmap_compose. reflexivity.
Qed.

Lemma checked_views e s x : pair_view <$> IceAgent.candidate_pairs (ice_agent (checked e s x)) = pair_view <$> IceAgent.candidate_pairs x.
Proof.
  unfold checked, spawn_ice_worker. destruct (ice_worker _); cbn [ice_agent with_agent with_phase with_worker IceAgent.start_checks fst IceAgent.candidate_pairs IceAgent.set_pairs];
    rewrite <- !list_fmap_compose; apply list_fmap_ext; intros i p _; unfold compose, IceAgent.check_pair; repeat case_match; reflexivity.
Qed.

(** C19 The exchange prepares one connectivity check at both ends, under these conditions: both managers
    have gathered candidates, describe the same number of media (the application announces a video and
    an audio codec at both ends) and stay below their limits. Then the check list with which the
    answerer starts is, up to the order of equal priorities, that of the offerer with the two addresses
    of every pair exchanged; both lists have the same priorities at the same positions. *)
Theorem exchange_mirrors_check_lists a b ea eb ea' a1 offer b1 ds answer a2 ds' :
  ready a -> ready b -> fresh a -> fresh b -> env_ok ea -> env_ok eb -> env_ok ea' ->
  length (media_plan a) = length (media_plan b) -> gathered ea <> [] -> gathered eb <> [] ->
  let pairs := Z.of_nat (length (media_plan a) * (length (gathered ea) * length (gathered eb))) in
  pairs < IceAgent.max_candidate_pairs (ice_agent a) -> pairs < IceAgent.max_candidate_pairs (ice_agent b) ->
  negotiate default_hash ea a = (a1, [], Ok (OutboundSdp.Offer offer)) ->
  apply_remote_sdp default_hash eb (Sdp.encode offer) b = (b1, ds, Ok (OutboundSdp.Answer answer)) ->
  apply_remote_sdp default_hash ea' (Sdp.encode answer) a1 = (a2, ds', Ok OutboundSdp.None) ->
  let la := pair_view <$> IceAgent.candidate_pairs (ice_agent a2) in
  let lb := pair_view <$> IceAgent.candidate_pairs (ice_agent b1) in
  swap_view <$> la ≡ₚ lb /\ snd <$> la = snd <$> lb.
Proof.
  intros Ha Hb Fa Fb Hea Heb Hea' Pab Ga Gb pairs Ma Mb N1 N2 N3. cbv zeta.
  destruct (exchange_run a b ea eb ea' Ha Hb Fa Fb Hea Heb Hea')
    as (na & nb & a1' & offer' & answer' & xa & xb & n & m & ds0 & ds0' & extra & extra' & H1 & H2 & H3 & Fbx & Fax & E1 & E2 & _).
  rewrite N1 in H1. injection H1 as <- <-. rewrite N2 in H2. injection H2 as -> _ <-. rewrite N3 in H3. injection H3 as -> _.
  rewrite !checked_views. rewrite (E1 Gb) in Fbx. rewrite (E2 Ga) in Fax. cbn [foldl] in Fax, Fbx.
  destruct (offerer_end_facts a ea na b eb nb Fa) as ([_ _ _ _ Ka] & _ & Ra).
  destruct (answerer_end_facts a ea na b eb nb Fb) as ([_ _ _ _ Kb] & _ & Rb).
  destruct (offerer_end_lists a ea na b eb nb ltac:(apply Fa)) as [La Xa].
  pose proof (answered_locals eb b (with_gathered a (gathered ea)) (gathered ea)
    (description (with_gathered a (gathered ea)) (gathered ea) na) nb) as Lb.
  pose proof (answered_max eb b (with_gathered a (gathered ea)) (gathered ea)
    (description (with_gathered a (gathered ea)) (gathered ea) na) nb) as Xb.
  destruct Fb as (_ & Fbl & _). rewrite Fbl in Lb. cbn [app] in Lb.
  change (answered eb b _ _ _ nb) with (answerer_end a ea na b eb nb) in Lb, Xb. rewrite <- Pab in Ka.
  assert (Hwa : wire_view <$> IceAgent.remote_candidates (ice_agent (offerer_end a ea na b eb nb)) =
    wire_view <$> repeated (length (media_plan a)) (IceAgent.local_candidates (ice_agent (answerer_end a ea na b eb nb))))
    by (rewrite Ka, Lb; apply wire_clone).
  assert (Hwb : wire_view <$> IceAgent.remote_candidates (ice_agent (answerer_end a ea na b eb nb)) =
    wire_view <$> repeated (length (media_plan a)) (IceAgent.local_candidates (ice_agent (offerer_end a ea na b eb nb))))
    by (rewrite Kb, La; apply wire_clone).
  assert (Oa : Forall local_ok (IceAgent.local_candidates (ice_agent (offerer_end a ea na b eb nb)))) by (rewrite La; apply gathered_parts, Hea).
  assert (Ob : Forall local_ok (IceAgent.local_candidates (ice_agent (answerer_end a ea na b eb nb)))) by (rewrite Lb; apply gathered_parts, Heb).
  refine (mirror_formed (length (media_plan a)) _ _ xa xb _ _ Ra Rb Oa Ob Hwa Hwb _ _ Fax Fbx);
    [rewrite La, Lb, Xa; exact Ma | rewrite La, Lb, Xb; exact Mb].
Qed.
End hash.
