(* ===== verification/ConnSafety.v ===== *)
(** * Remote descriptions: safety and errors

    Applying any text never panics and keeps the agent able to form its check list; a rejected
    description changes nothing but the agent's view of the peer. Concrete managers show that the
    hypotheses of the exchange can hold. *)

From stdpp Require Import prelude gmap strings.
From Stdlib Require Import ZArith Lia.
From S2P Require Import Prelude Utf8 Text RecvStream Sdp SdpCodec Net Config Ice IceTheory StunTheory ConnManager ConnCodec ConnTheory.
Local Open Scope Z_scope.
Import ConnectionManager.

(** ** No panic *)

(** From a manager whose agent has priorities in range, [m] does not panic and its agent keeps
    them in range. *)
Definition safe {A} (m : M A) : Prop := forall s, agent_ok (ice_agent s) ->
  agent_ok (ice_agent (m s).1.1) /\ no_panic (m s).2.

Lemma safe_ret {A} (a : A) : safe (mret a).
Proof. intros s H. split; [exact H | discriminate]. Qed.
Lemma safe_get : safe get.
Proof. intros s H. split; [exact H | discriminate]. Qed.
Lemma safe_lift {A} (o : outcome ConnectionError.t A) : no_panic o -> safe (lift o).
Proof. intros Ho s H. split; assumption. Qed.
Lemma safe_modify f : (forall s, agent_ok (ice_agent s) -> agent_ok (ice_agent (f s))) -> safe (modify f).
Proof. intros Hf s H. split; [apply Hf, H | discriminate]. Qed.
Lemma safe_bind {A B} (m : M A) (k : A -> M B) :
  safe m -> (forall s a s' ds, m s = (s', ds, Ok a) -> safe (k a)) -> safe (m ≫= k).
Proof.
  intros Hm Hk s H. specialize (Hm s H). unfold mbind, M_bind. destruct (m s) as [[s' ds] [a | e |]] eqn:E; simpl in *.
  - destruct Hm as [Hs _]. specialize (Hk s a s' ds E s' Hs). destruct (k a s') as [[s2 ds2] r]. exact Hk.
  - split; [apply Hm | discriminate].
  - destruct Hm as [_ []]. reflexivity.
Qed.
Create HintDb conn_safe.
#[export] Hint Resolve safe_ret safe_get safe_lift : conn_safe.

Ltac safe_step := apply safe_bind; [| intros ? ? ? ? ?].

Lemma safe_add_remote v : safe (c ← lift (map_err (fun _ => ConnectionError.IceAgent) (ICEAndSDP.from_str v));
  modify (fun s => with_agent s (IceAgent.add_remote_candidate (ice_agent s) c))).
Proof.
  safe_step; [apply safe_lift, map_err_np, candidate_np |]. apply safe_modify. intros s0 [H1 H2 H3].
  split; simpl; [exact H1 | | exact H3]. apply Forall_app. split; [exact H2 |]. apply Forall_singleton.
  unfold lift in H. injection H as _ _ H. apply map_err_ok, candidate_parsed in H as (_ & Hp & _). exact Hp.
Qed.

(** Regroup the monadic steps of a loop body. *)
Lemma M_assoc {A B C} (m : M A) (f : A -> M B) (g : B -> M C) s : ((m ≫= f) ≫= g) s = (m ≫= (fun a => f a ≫= g)) s.
Proof.
  unfold mbind, M_bind. destruct (m s) as [[s1 ds1] [a | e |]]; [| reflexivity ..].
  destruct (f a s1) as [[s2 ds2] [b | e |]]; [| reflexivity ..].
  destruct (g b s2) as [[s3 ds3] r]. rewrite app_assoc. reflexivity.
Qed.
Lemma safe_ext {A} (m m' : M A) : (forall s, m s = m' s) -> safe m -> safe m'.
Proof. intros E H s Hs. rewrite <- E. apply H, Hs. Qed.

Lemma safe_media_meta l m : safe (media_meta m l).
Proof.
  revert m. induction l as [| a l IH]; intros m; cbn [media_meta]; [apply safe_ret |].
  repeat case_decide; auto. safe_step; [apply safe_lift, ok_or_np |].
  eapply safe_ext; [intros s0; apply M_assoc |]. safe_step; [apply safe_add_remote | apply IH].
Qed.
Lemma safe_medias_meta l m : safe (medias_meta m l).
Proof.
  revert m. induction l as [| x l IH]; intros m; cbn [medias_meta]; [apply safe_ret |].
  safe_step; [apply safe_media_meta | apply IH].
Qed.
Lemma store_credentials_ok m s : agent_ok (ice_agent s) -> agent_ok (ice_agent (store_credentials m s)).
Proof. intros [H1 H2 H3]. unfold store_credentials. destruct (r_ufrag m), (r_pwd m); split; assumption. Qed.
Lemma safe_ice_meta d : safe (extract_and_store_remote_ice_meta d).
Proof.
  unfold extract_and_store_remote_ice_meta. safe_step; [apply safe_medias_meta |].
  safe_step; [apply safe_modify; intros; apply store_credentials_ok; assumption | apply safe_ret].
Qed.

Lemma rtp_meta_attrs_np allowed l acc : no_panic (rtp_meta_attrs allowed l acc).
Proof.
  revert acc. induction l as [| a l IH]; intros acc; cbn [rtp_meta_attrs]; [discriminate |].
  case_match; [apply IH |]. apply bind_no_panic; [apply ok_or_np | intros raw _].
  apply bind_no_panic; [apply map_err_np, rtpmap_np | intros rm _]. case_match; apply IH.
Qed.
Lemma rtp_meta_media_np l acc : no_panic (rtp_meta_media l acc).
Proof.
  revert acc. induction l as [| m l IH]; intros acc; cbn [rtp_meta_media]; [discriminate |].
  case_match; [apply IH |]. apply bind_no_panic; [apply rtp_meta_attrs_np | intros; apply IH].
Qed.
Lemma safe_rtp_meta d : safe (extract_and_store_rtp_meta d).
Proof.
  unfold extract_and_store_rtp_meta. safe_step; [apply safe_lift, rtp_meta_media_np |].
  apply safe_modify. intros s0 H0. exact H0.
Qed.
Lemma safe_fingerprint d : safe (extract_and_store_fingerprint d).
Proof. unfold extract_and_store_fingerprint. case_match; [apply safe_modify; intros s0 H0; exact H0 | apply safe_ret]. Qed.

Section hash.
Context (default_hash : bytes -> Z).

Lemma safe_build e : env_ok e -> safe (build_local_sdp default_hash e).
Proof.
  intros He s H. destruct (build_local_sdp_run default_hash e s He) as (now & _ & ->). simpl.
  split; [| discriminate]. apply agent_ok_add; [exact H |]. apply gathered_parts, He.
Qed.

(** The bodies that end in a state that only replaces other fields or the role *)
Lemma safe_set f : (forall s, exists ro, ice_agent (f s) = IceAgent.set_role (ice_agent s) ro \/ ice_agent (f s) = ice_agent s) ->
  safe (modify f).
Proof.
  intros Hf. apply safe_modify. intros s [H1 H2 H3]. destruct (Hf s) as [ro [-> | ->]]; split; assumption.
Qed.

Lemma safe_apply_offer e d : env_ok e -> safe (apply_offer default_hash e d).
Proof.
  intros He. unfold apply_offer.
  safe_step; [apply safe_ice_meta |]. safe_step; [apply safe_rtp_meta |]. safe_step; [apply safe_fingerprint |].
  safe_step; [apply safe_set; intros; exists Controlling; right; reflexivity |].
  safe_step; [apply safe_build, He |].
  safe_step; [apply safe_set; intros; eexists; left; reflexivity | apply safe_ret].
Qed.
Lemma safe_apply_answer d : safe (apply_answer d).
Proof.
  unfold apply_answer.
  safe_step; [apply safe_ice_meta |]. safe_step; [apply safe_rtp_meta |]. safe_step; [apply safe_fingerprint |].
  safe_step; [apply safe_set; intros; exists Controlling; right; reflexivity | apply safe_ret].
Qed.

Lemma start_checks_agent_ok send_ok a : agent_ok a -> agent_ok (IceAgent.start_checks send_ok a).1.
Proof. intros [H1 H2 H3]. split; assumption. Qed.
Lemma safe_maybe_start e : env_ok e -> safe (ignore_error (maybe_start_ice default_hash e)).
Proof.
  intros He s H. unfold ignore_error, maybe_start_ice. rewrite (bind_quiet get _ s s s) by reflexivity.
  destruct (is_some (local_description s)) eqn:El; [| split; [exact H | discriminate]].
  destruct (is_some (remote_description s)) eqn:Er; [| split; [exact H | discriminate]].
  destruct (bool_decide (signaling s = SignalingState.Stable)); [| split; [exact H | discriminate]]. cbn [andb negb].
  destruct (start_connectivity_checks_run default_hash e s He H El Er) as (cs & a & n & ds & Hcs & _ & Hf & ->). simpl.
  split; [| discriminate]. apply form_frame in Hf as [ps ->].
  pose proof (agent_ok_add (ice_agent s) cs H Hcs) as [H1 H2 H3]. unfold checked, spawn_ice_worker.
  destruct (ice_worker _); split; assumption.
Qed.

Lemma safe_apply_remote e text : env_ok e -> safe (apply_remote_sdp default_hash e text).
Proof.
  intros He. unfold apply_remote_sdp. safe_step; [apply safe_lift, map_err_np, parse_np |].
  safe_step; [apply safe_get |]. safe_step; [| safe_step; [apply safe_maybe_start, He | apply safe_ret]].
  destruct (signaling _); [apply safe_apply_offer, He | apply safe_apply_answer | apply safe_lift; discriminate ..].
Qed.

(** C37 No description that a peer sends, well formed or not, makes the manager panic, and the
    agent keeps the invariant that lets it form its check list without overflow: local priorities
    below 2{^31} and remote ones of 32 bits. *)
Theorem remote_description_no_panic e text :
  env_ok e -> safe (apply_remote_sdp default_hash e text).
Proof. apply safe_apply_remote. Qed.

(** ** Errors *)

(** [s'] is [s] but for what its agent holds of the peer. *)
Definition peer_view_only (s s' : ConnectionManager.t) : Prop :=
  exists cs u p, s' = with_agent s (IceAgent.set_remote_pwd (IceAgent.set_remote_ufrag
    (IceAgent.set_candidates (ice_agent s) (IceAgent.local_candidates (ice_agent s))
       (IceAgent.remote_candidates (ice_agent s) ++ cs)) u) p).

Lemma peer_view_refl s : peer_view_only s s.
Proof.
  exists [], (IceAgent.remote_ufrag (ice_agent s)), (IceAgent.remote_pwd (ice_agent s)).
  rewrite app_nil_r. destruct s as [? [] ? ? ? ? ? ? ? ? ?]. reflexivity.
Qed.
Lemma peer_view_trans s s' s'' : peer_view_only s s' -> peer_view_only s' s'' -> peer_view_only s s''.
Proof.
  intros (cs & u & p & ->) (cs' & u' & p' & ->). exists (cs ++ cs'), u', p'. simpl. rewrite app_assoc. reflexivity.
Qed.
Lemma peer_view_add s c : peer_view_only s (with_agent s (IceAgent.add_remote_candidate (ice_agent s) c)).
Proof. exists [c], (IceAgent.remote_ufrag (ice_agent s)), (IceAgent.remote_pwd (ice_agent s)). reflexivity. Qed.
Lemma peer_view_credentials m s : peer_view_only s (store_credentials m s).
Proof.
  exists [], (default (IceAgent.remote_ufrag (ice_agent s)) (r_ufrag m)), (default (IceAgent.remote_pwd (ice_agent s)) (r_pwd m)).
  rewrite app_nil_r. destruct s as [? [] ? ? ? ? ? ? ? ? ?], m as [? [] []]; reflexivity.
Qed.

(** A computation that only reads the peer's data, whatever its outcome *)
Definition reads_only {A} (m : M A) : Prop := forall s, peer_view_only s (m s).1.1 /\ (m s).1.2 = [].

Lemma reads_ret {A} (a : A) : reads_only (mret a).
Proof. intros s. split; [apply peer_view_refl | reflexivity]. Qed.
Lemma reads_lift {A} (o : outcome ConnectionError.t A) : reads_only (lift o).
Proof. intros s. split; [apply peer_view_refl | reflexivity]. Qed.
Lemma reads_bind {A B} (m : M A) (k : A -> M B) : reads_only m -> (forall a, reads_only (k a)) -> reads_only (m ≫= k).
Proof.
  intros Hm Hk s. destruct (Hm s) as [H1 H2]. unfold mbind, M_bind. destruct (m s) as [[s' ds] [a | e |]]; simpl in *; auto.
  destruct (Hk a s') as [K1 K2]. destruct (k a s') as [[s2 ds2] r]. simpl in *.
  split; [eapply peer_view_trans; eassumption | subst; reflexivity].
Qed.
Lemma reads_media_meta l m : reads_only (media_meta m l).
Proof.
  revert m. induction l as [| a l IH]; intros m; cbn [media_meta]; [apply reads_ret |].
  repeat case_decide; auto. apply reads_bind; [apply reads_lift | intros v].
  apply reads_bind; [apply reads_lift | intros c]. apply reads_bind; [| intros; apply IH].
  intros s. split; [apply peer_view_add | reflexivity].
Qed.
Lemma reads_ice_meta d : reads_only (extract_and_store_remote_ice_meta d).
Proof.
  unfold extract_and_store_remote_ice_meta. apply reads_bind.
  - generalize (foldl session_meta (IceMeta false None None) (Sdp.attrs d)).
    induction (Sdp.media d) as [| x l IH]; intros m; cbn [medias_meta]; [apply reads_ret |].
    apply reads_bind; [apply reads_media_meta | auto].
  - intros m. apply reads_bind; [| intros; apply reads_ret].
    intros s. split; [apply peer_view_credentials | reflexivity].
Qed.

(** A computation that ends in no error *)
Definition errorless {A} (m : M A) : Prop := forall s e, (m s).2 <> Err e.
Lemma errorless_bind {A B} (m : M A) (k : A -> M B) : errorless m -> (forall a, errorless (k a)) -> errorless (m ≫= k).
Proof.
  intros Hm Hk s e. specialize (Hm s). unfold mbind, M_bind. destruct (m s) as [[s' ds] [a | e' |]]; simpl in *; [| intros _; exact (Hm e' eq_refl) | discriminate].
  specialize (Hk a s' e). destruct (k a s') as [[s2 ds2] r]. exact Hk.
Qed.
Lemma errorless_modify f : errorless (modify f).
Proof. intros s e. discriminate. Qed.
Lemma errorless_ret {A} (a : A) : errorless (mret a).
Proof. intros s e. discriminate. Qed.
Lemma errorless_fingerprint d : errorless (extract_and_store_fingerprint d).
Proof. unfold extract_and_store_fingerprint. case_match; intros s0 e; discriminate. Qed.
Lemma errorless_build e : errorless (build_local_sdp default_hash e).
Proof.
  unfold build_local_sdp. apply errorless_bind; [apply errorless_bind; [apply errorless_modify | intros; apply errorless_ret] | intros ca].
  apply errorless_bind; [intros s e0; discriminate | intros s]. apply errorless_bind; [| intros; apply errorless_ret].
  intros s0 e0. unfold total, lift. simpl. destruct (Origin.new_blank (unix_time e)) as [? | [] |]; discriminate.
Qed.
Lemma errorless_ignore m : errorless (ignore_error m).
Proof. intros s e. unfold ignore_error. destruct (m s) as [[s' ds] [? | ? |]]; discriminate. Qed.

(** A computation whose errors leave only the peer's data changed *)
Definition clean_errors {A} (m : M A) : Prop := forall s s' ds e, m s = (s', ds, Err e) -> ds = [] /\ peer_view_only s s'.
Lemma clean_errorless {A} (m : M A) : errorless m -> clean_errors m.
Proof. intros H s s' ds e E. exfalso. apply (H s e). rewrite E. reflexivity. Qed.
Lemma clean_bind {A B} (m : M A) (k : A -> M B) : reads_only m -> (forall a, clean_errors (k a)) -> clean_errors (m ≫= k).
Proof.
  intros Hm Hk s s' ds e. destruct (Hm s) as [H1 H2]. unfold mbind, M_bind.
  destruct (m s) as [[s1 ds1] [a | e1 |]]; simpl in *; intros E.
  - destruct (k a s1) as [[s2 ds2] r] eqn:E2. injection E as <- <- ->. destruct (Hk a _ _ _ _ E2) as [-> H].
    rewrite H2. split; [reflexivity | eapply peer_view_trans; eassumption].
  - injection E as <- <- _. auto.
  - discriminate E.
Qed.
Lemma clean_then {A B} (m : M A) (k : A -> M B) : clean_errors m -> (forall a, errorless (k a)) -> clean_errors (m ≫= k).
Proof.
  intros Hm Hk s s' ds e. unfold mbind, M_bind. destruct (m s) as [[s1 ds1] [a | e1 |]] eqn:E1; intros E.
  - specialize (Hk a s1 e). destruct (k a s1) as [[s2 ds2] r]. injection E as <- <- ->. exfalso. apply Hk. reflexivity.
  - injection E as <- <- <-. eapply Hm, E1.
  - discriminate E.
Qed.

Lemma clean_rtp_then {B} d (k : unit -> M B) : (forall a, errorless (k a)) -> clean_errors (extract_and_store_rtp_meta d ≫= k).
Proof.
  intros Hk. apply clean_then; [| exact Hk]. unfold extract_and_store_rtp_meta.
  apply clean_bind; [apply reads_lift | intros l; apply clean_errorless, errorless_modify].
Qed.

Lemma clean_apply_remote e text : clean_errors (apply_remote_sdp default_hash e text).
Proof.
  unfold apply_remote_sdp. apply clean_bind; [apply reads_lift | intros d].
  apply clean_bind; [intros s; split; [apply peer_view_refl | reflexivity] | intros s].
  apply clean_then; [| intros o; apply errorless_bind; [apply errorless_ignore | intros; apply errorless_ret]].
  destruct (signaling s); cbn [is_probably_offer];
    [unfold apply_offer | unfold apply_answer | intros ? ? ? ? [= <- <- _]; split; [reflexivity | apply peer_view_refl] ..];
    (apply clean_bind; [apply reads_ice_meta | intros m]); apply clean_rtp_then; intros _;
    repeat (apply errorless_bind; [first [apply errorless_fingerprint | apply errorless_modify | apply errorless_build] | intros ?]);
    apply errorless_ret.
Qed.

(** C20 A description that is rejected changes nothing of the negotiation: no datagram is sent, the
    signaling state, both descriptions, the codecs, the fingerprint, the role, the local
    candidates and the check list stay as they were; all that remains of it are candidates and
    credentials of the peer that were read before the error. *)
Theorem rejected_description_is_clean e text s s' ds err :
  apply_remote_sdp default_hash e text s = (s', ds, Err err) ->
  ds = [] /\ peer_view_only s s'.
Proof. apply clean_apply_remote. Qed.
End hash.

(** ** Two managers *)
Module Call.
Definition hash (_ : bytes) : Z := 3735928559.
Definition env_of (ip : IpAddr) (sock port : Z) : env :=
  let host := Gathering.HostEnv (Some (Some (SocketAddr.mk ip 0)))
       (fun i => if decide (i = ip) then Some (sock, Some (SocketAddr.mk ip port)) else None) in
  Env (Some 1700000000) host host
    (IceAgent.StunEnv None (Err []) (Err []) (Err []) [] (Err []) (Err []))
    (fun _ => true).
Definition manager (u : bytes) : ConnectionManager.t :=
  ConnectionManager.mk Config.empty
    (IceAgent.mk IceAgent.DEFAULT_STUN_SERVER 2 100 [] [] [] Controlling u (u ++ u) [] [] None)
    SignalingState.Stable None None IcePhase.Idle [CodecDescriptor.h264_dynamic 96; CodecDescriptor.pcmu_dynamic 0] [] None
    (lit "AB:CD") None.
Definition alice : ConnectionManager.t := manager (lit "alice").
Definition bob : ConnectionManager.t := manager (lit "bob").
Definition env_a : env := env_of (V4 10 0 0 1) 7 4000.
Definition env_b : env := env_of (V4 10 0 0 2) 8 5000.
Definition offer : Sdp.t :=
  match (negotiate hash env_a alice).2 with Ok (OutboundSdp.Offer d) => d | _ => Sdp.mk 0 (Origin.mk [] 0 0 [] AddrType.IP4 None) [] None None [] [] None [] [] [] [] [] end.
Definition calling : ConnectionManager.t := (negotiate hash env_a alice).1.1.
Definition answer : Sdp.t :=
  match (apply_remote_sdp hash env_b (Sdp.encode offer) bob).2 with Ok (OutboundSdp.Answer d) => d | _ => offer end.
End Call.

Lemma env_of_ok a b c d sock port : u8 a -> u8 b -> u8 c -> u8 d -> u16 port -> env_ok (Call.env_of (V4 a b c d) sock port).
Proof.
  intros Ha Hb Hc Hd Hp. split; simpl; [lia | | |].
  1, 2: intros ip sk x; simpl; case_decide; [| discriminate]; intros [= _ <-]; split; simpl; auto.
  split; simpl; try discriminate. split; [discriminate | intros; discriminate].
Qed.
Lemma manager_ready u : printable u = true -> ready (Call.manager u).
Proof.
  intros Hu. split; [split; simpl | split; simpl; [constructor .. | lia]].
  - repeat constructor; cbn; unfold u32; try lia; apply (bool_decide_unpack _); vm_compute; exact I.
  - exact Hu.
  - unfold printable in *. apply andb_prop in Hu as [H1 H2]. rewrite forallb_app, H2, bool_decide_false; [reflexivity |].
    intros E. apply app_nil in E as [-> _]. discriminate H1.
  - reflexivity.
Qed.
Lemma manager_fresh u : fresh (Call.manager u).
Proof. repeat split. Qed.

Lemma offer_answer_agreement_witness : exists a1 offer b1 ds answer a2 ds',
  negotiate Call.hash Call.env_a Call.alice = (a1, [], Ok (OutboundSdp.Offer offer)) /\
  apply_remote_sdp Call.hash Call.env_b (Sdp.encode offer) Call.bob = (b1, ds, Ok (OutboundSdp.Answer answer)) /\
  apply_remote_sdp Call.hash Call.env_a (Sdp.encode answer) a1 = (a2, ds', Ok OutboundSdp.None) /\
  signaling a2 = SignalingState.Stable /\ signaling b1 = SignalingState.Stable.
Proof.
  destruct (offer_answer_agreement Call.hash Call.alice Call.bob Call.env_a Call.env_b Call.env_a)
    as (a1 & o & b1 & ds & an & a2 & ds' & H1 & H2 & H3 & H4 & H5 & _);
    [apply manager_ready; reflexivity | apply manager_ready; reflexivity | apply manager_fresh | apply manager_fresh
    | apply env_of_ok; unfold u8, u16; lia | apply env_of_ok; unfold u8, u16; lia | apply env_of_ok; unfold u8, u16; lia |].
  exists a1, o, b1, ds, an, a2, ds'. auto.
Defined.

Lemma exchange_mirrors_check_lists_witness :
  let la := pair_view <$> IceAgent.candidate_pairs (ice_agent (apply_remote_sdp Call.hash Call.env_a (Sdp.encode Call.answer) Call.calling).1.1) in
  let lb := pair_view <$> IceAgent.candidate_pairs (ice_agent (apply_remote_sdp Call.hash Call.env_b (Sdp.encode Call.offer) Call.bob).1.1) in
  swap_view <$> la ≡ₚ lb /\ snd <$> la = snd <$> lb.
Proof.
  eapply (exchange_mirrors_check_lists Call.hash Call.alice Call.bob Call.env_a Call.env_b Call.env_a Call.calling Call.offer
    _ _ Call.answer).
  - apply manager_ready; reflexivity.
  - apply manager_ready; reflexivity.
  - apply manager_fresh.
  - apply manager_fresh.
  - apply env_of_ok; unfold u8, u16; lia.
  - apply env_of_ok; unfold u8, u16; lia.
  - apply env_of_ok; unfold u8, u16; lia.
  - reflexivity.
  - vm_compute. discriminate.
  - vm_compute. discriminate.
  - vm_compute. reflexivity.
  - vm_compute. reflexivity.
  - vm_compute. reflexivity.
  - vm_compute. reflexivity.
  - vm_compute. reflexivity.
Defined.

Lemma remote_description_no_panic_witness :
  no_panic (apply_remote_sdp Call.hash Call.env_b (lit "v=0") Call.bob).2 /\
  agent_ok (ice_agent (apply_remote_sdp Call.hash Call.env_b (lit "v=0") Call.bob).1.1).
Proof.
  apply and_comm. apply (remote_description_no_panic Call.hash Call.env_b (lit "v=0")).
  - apply env_of_ok; unfold u8, u16; lia.
  - apply manager_ready. reflexivity.
Defined.

(** A description with a good candidate, then a malformed one *)
Definition half_bad : bytes :=
  Sdp.encode (Sdp.mk 0 (Origin.mk (lit "-") 1 1 (lit "IN") AddrType.IP4 None) (lit "x") None None [] [] None []
    [TimeDesc.new_blank] []
    [Media.mk MediaKind.Video (PortSpec.new 9 None) (lit "UDP") [lit "96"] None None []
       [Attribute.new (lit "candidate") (Some (lit "1 1 udp 99 10.0.0.9 4444 typ host"));
        Attribute.new (lit "candidate") (Some (lit "oops"))] []] []).
Lemma rejected_description_is_clean_witness :
  let r := apply_remote_sdp Call.hash Call.env_b half_bad Call.bob in
  length (IceAgent.remote_candidates (ice_agent r.1.1)) = 1%nat /\ r.1.2 = [] /\
  exists cs u p, r.1.1 = with_agent Call.bob (IceAgent.set_remote_pwd (IceAgent.set_remote_ufrag
    (IceAgent.set_candidates (ice_agent Call.bob) [] cs) u) p).
Proof.
  intros r. split; [vm_compute; reflexivity |].
  apply (rejected_description_is_clean Call.hash Call.env_b half_bad Call.bob r.1.1 r.1.2 ConnectionError.IceAgent).
  vm_compute. reflexivity.
Defined.
