(* ===== verification/DescText.v ===== *)
(** * The text of a description

    What the connection manager signals is ASCII, so that it is the text of a Rust string, and is
    not blank. *)

From stdpp Require Import prelude strings.
From Stdlib Require Import ZArith Lia.
From S2P Require Import Prelude Utf8 Text Sdp Net Ice ConnManager ConnCodec ConnTheory.
Local Open Scope Z_scope.
Import ConnectionManager.

Definition ascii (s : bytes) : Prop := Forall (fun b => 0 <= b < 128) s.
Ltac lit_ascii := apply (bool_decide_unpack _); vm_compute; exact I.
Ltac split_ascii := repeat (apply Forall_app; split).

Lemma printable_ascii s : printable s = true -> ascii s.
Proof. intros [_ H]%printable_inv. eapply Forall_impl; [exact H |]. simpl. lia. Qed.
Lemma dec_ascii n : u64 n -> ascii (dec n).
Proof. intros H. eapply Forall_impl; [apply dec_digits, H |]. simpl. lia. Qed.
Lemma join_ascii f : forallb printable f = true -> ascii (join [32] f).
Proof. destruct f; [constructor |]. intros H. apply join_printable; [discriminate | exact H]. Qed.
Lemma crlf_ascii out line : ascii out -> ascii line -> ascii (push_crlf out line).
Proof. intros. split_ascii; try assumption. lit_ascii. Qed.
Lemma foldl_ascii {A} (f : bytes -> A -> bytes) l : forall out, (forall o x, x ∈ l -> ascii o -> ascii (f o x)) ->
  ascii out -> ascii (foldl f out l).
Proof.
  induction l as [| x l IH]; intros out Hf Ho; [exact Ho |]. cbn [foldl]. apply IH; [| apply Hf; [left | exact Ho]].
  intros o y Hy. apply Hf. right. exact Hy.
Qed.
Lemma attr_ascii k v : ascii k -> ascii v -> ascii (Attribute.to_string (Attribute.new k (Some v))).
Proof. intros. unfold Attribute.to_string. cbn [Attribute.value Attribute.new Attribute.key]. split_ascii; [assumption | lit_ascii | assumption]. Qed.

Lemma codec_attrs_ascii mt d a : descriptor_ok d -> a ∈ codec_attrs mt d -> ascii (Attribute.to_string a).
Proof.
  intros [Hc Hf] Ha. pose proof (map_words_printable mt _ Hc) as Hw. unfold codec_attrs in Ha.
  apply elem_of_cons in Ha as [-> | Ha].
  - apply attr_ascii; [lit_ascii |]. rewrite rtpmap_value_words. apply join_ascii, Hw.
  - unfold fmtp_ok in Hf. destruct (CodecDescriptor.sdp_fmtp d) as [f |]; [| apply elem_of_nil in Ha; contradiction].
    apply list_elem_of_singleton in Ha as ->. apply attr_ascii; [lit_ascii |].
    split_ascii; [apply dec_ascii; destruct Hc; ulia | lit_ascii | apply printable_ascii, Hf].
Qed.

Lemma media_ascii s mt codecs cs out : manager_text_ok s -> Forall descriptor_ok codecs -> Forall cand_text_ok cs ->
  ascii out -> ascii (Media.fmt_lines (build_media_description s mt codecs (candidate_attrs cs)) out).
Proof.
  intros [_ Hu Hp Hf] Hc Hcs Ho. unfold Media.fmt_lines, build_media_description, IceAgent.local_credentials.
  cbn [Media.set_attrs Media.set_connection Media.set_fmts Media.set_proto Media.set_port Media.set_kind
       Media.new_blank Media.kind Media.port Media.proto Media.fmts Media.title Media.connection
       Media.bandwidth Media.attrs Media.extra_lines foldl].
  apply foldl_ascii.
  - intros o a Ha Hoa. apply crlf_ascii; [exact Hoa |]. apply Forall_app. split; [lit_ascii |].
    apply elem_of_app in Ha as [Ha | Ha].
    + apply list_elem_of_fmap in Ha as (c & -> & Hin). apply attr_ascii; [lit_ascii |].
      rewrite to_string_fields. apply join_ascii, cand_fields_printable. rewrite Forall_forall in Hcs. auto.
    + apply elem_of_app in Ha as [Ha | Ha]; [| apply elem_of_app in Ha as [Ha | Ha]].
      * repeat (apply elem_of_cons in Ha as [-> | Ha]); [apply attr_ascii; [lit_ascii |] .. | apply elem_of_nil in Ha; contradiction].
        -- apply printable_ascii, Hu.
        -- apply printable_ascii, Hp.
        -- split_ascii; [lit_ascii | apply printable_ascii, Hf].
        -- case_decide; lit_ascii.
      * destruct codecs as [| d ds]; [apply list_elem_of_singleton in Ha as ->; apply attr_ascii; lit_ascii |].
        apply list_elem_of_join in Ha as (l & Ha & Hl). apply list_elem_of_fmap in Hl as (d' & -> & Hd).
        rewrite Forall_forall in Hc. eapply codec_attrs_ascii; [apply Hc, Hd | exact Ha].
      * apply list_elem_of_singleton in Ha as ->. lit_ascii.
  - apply crlf_ascii; [| lit_ascii]. apply crlf_ascii; [exact Ho |]. split_ascii; [lit_ascii | destruct mt; lit_ascii | lit_ascii .. |].
    assert (H : forall l, forallb printable l = true -> ascii (match l with [] => [] | _ => lit " " ++ join (lit " ") l end)).
    { intros l Hl. destruct l; [constructor |]. apply Forall_app. split; [lit_ascii | apply join_ascii, Hl]. }
    apply H. destruct Hc as [| d ds Hd Hds]; [reflexivity |]. apply forallb_forall. intros w Hw.
    apply list_elem_of_In, list_elem_of_fmap in Hw as (d' & -> & Hin). apply dec_printable.
    assert (descriptor_ok d') as [[] _] by (apply elem_of_cons in Hin as [-> | Hin]; [exact Hd | rewrite Forall_forall in Hds; auto]). ulia.
Qed.

Lemma description_ascii s cs n : manager_text_ok s -> Forall cand_text_ok cs -> u64 n ->
  ascii (Sdp.encode (description s cs n)).
Proof.
  intros Hs Hcs Hn. unfold Sdp.encode, description, Sdp.new.
  cbn [Sdp.version Sdp.origin Sdp.session_name Sdp.session_info Sdp.uri Sdp.emails Sdp.phones Sdp.connection
       Sdp.bandwidth Sdp.times Sdp.attrs Sdp.media Sdp.extra_lines foldl].
  apply foldl_ascii.
  - intros o m Hm Ho. apply list_elem_of_fmap in Hm as (x & -> & Hx). apply media_ascii; try assumption.
    pose proof (plan_ok s Hs) as Hp. rewrite Forall_forall in Hp. auto.
  - unfold TimeDesc.fmt_lines, TimeDesc.new_blank. cbn [TimeDesc.start TimeDesc.stop TimeDesc.repeats TimeDesc.zone foldl].
    apply crlf_ascii; [| lit_ascii]. apply crlf_ascii; [| lit_ascii]. apply crlf_ascii; [lit_ascii |].
    unfold Origin.to_string. cbn [Origin.username Origin.session_id Origin.session_version Origin.net_type Origin.addr_type Origin.unicast_address].
    split_ascii; first [apply dec_ascii, Hn | lit_ascii].
Qed.

(** ** Not blank *)
Lemma trim_end_rev_keeps l b : b < 128 -> ws1 b = false -> trim_end_rev (l ++ [b]) <> [].
Proof.
  intros Hb Hw. induction l as [l IH] using bytes_len_ind. destruct l as [| x l]; [cbn [app trim_end_rev]; rewrite Hw; discriminate |].
  cbn [app trim_end_rev]. destruct (ws1 x); [apply IH; cbn [length]; lia |].
  destruct l as [| y l]; cbn [app].
  - replace (ws2 b x) with false by (unfold ws2; destruct (Z.eqb_spec b 194); [lia | reflexivity]). discriminate.
  - destruct (ws2 y x); [apply IH; cbn [length]; lia |]. destruct l as [| z l]; cbn [app].
    + replace (ws3 b y x) with false; [discriminate |]. unfold ws3.
      destruct (Z.eqb_spec b 225), (Z.eqb_spec b 226), (Z.eqb_spec b 227); try lia; reflexivity.
    + destruct (ws3 z y x); [apply IH; cbn [length]; lia | discriminate].
Qed.
Lemma trim_not_blank b s : b < 128 -> ws1 b = false -> trim (b :: s) <> [].
Proof.
  intros Hb Hw. unfold trim. rewrite trim_start_ascii by assumption. unfold trim_end. rewrite reverse_cons.
  intros E. apply (f_equal reverse) in E. rewrite reverse_involutive in E. revert E. apply trim_end_rev_keeps; assumption.
Qed.

(** A description starts with its version. *)
Definition starts_v (s : bytes) : Prop := head s = Some 118.
Lemma crlf_starts out line : starts_v out -> starts_v (push_crlf out line).
Proof. destruct out; [discriminate | intros H; exact H]. Qed.
Lemma foldl_starts {A} (f : bytes -> A -> bytes) l : (forall o x, starts_v o -> starts_v (f o x)) ->
  forall out, starts_v out -> starts_v (foldl f out l).
Proof. intros Hf. induction l as [| x l IH]; intros out Ho; [exact Ho | apply IH, Hf, Ho]. Qed.
Ltac starts :=
  repeat first [apply foldl_starts; [intros |] | apply crlf_starts | assumption | case_match].
Lemma encode_starts d : starts_v (Sdp.encode d).
Proof.
  unfold Sdp.encode. cbv zeta. apply foldl_starts; [intros o m Ho; unfold Media.fmt_lines; starts |].
  assert (H0 : starts_v (push_crlf [] (lit "v=" ++ dec (Sdp.version d)))) by reflexivity.
  set (v := push_crlf [] _) in *. clearbody v. unfold TimeDesc.fmt_lines. starts.
Qed.
Lemma encode_not_blank d : trim (Sdp.encode d) <> [].
Proof.
  pose proof (encode_starts d) as H. destruct (Sdp.encode d) as [| b s]; [discriminate |]. injection H as ->.
  apply trim_not_blank; [lia | reflexivity].
Qed.
