(* ===== verification/Dtls.v ===== *)
(** * DTLS (src/dtls, tls_utils.rs)

    The handshake that authenticates the peer and yields the SRTP keys, and the channel between the
    DTLS library and the socket. OpenSSL is a record of what its calls answer; what the code decides
    (the verification of the certificate's fingerprint, the split of the keying material, the order
    of packets) is modelled. *)

From stdpp Require Import prelude strings.
From Stdlib Require Import ZArith Lia.
From S2P Require Import Prelude Utf8 Text Srtp Net Config.
Local Open Scope Z_scope.

Module DtlsRole.
Inductive t : Type := Client | Server.
Definition is_client (r : t) : bool := match r with Client => true | Server => false end.
End DtlsRole.

Module DtlsError.
Inductive t : Type := Io (e : bytes) | Ssl (s : bytes) | Handshake (s : bytes) | NoSrtpProfile | KeyExport (s : bytes).
Definition to_string (e : t) : bytes :=
  match e with
  | Io e => lit "IO error: " ++ e
  | Ssl s => lit "OpenSSL error: " ++ s
  | Handshake s => lit "Handshake error: " ++ s
  | NoSrtpProfile => lit "No SRTP profile negotiated"
  | KeyExport s => lit "Key export failed: " ++ s
  end.
End DtlsError.

(** ** Fingerprints *)

(** [{:02X}] of an octet *)
Definition upper (b : Z) : Z := if in_range 97 122 b then b - 32 else b.
Definition hex2_upper (b : Z) : bytes := upper <$> hex_fixed 2 b.
Definition fingerprint_text (digest : bytes) : bytes := join [58] (hex2_upper <$> digest).
Definition eq_ignore_ascii_case (a b : bytes) : bool := bool_decide (upper <$> a = upper <$> b).

(** [certs]: the certificates of the configured file; [digest]: the SHA-256 digest of a certificate *)
Definition get_local_fingerprint_sha256 (certs : outcome bytes (list bytes)) (digest : bytes -> outcome bytes bytes)
  : outcome bytes bytes :=
  certs_der ← certs;
  match certs_der with
  | [] => Err (lit "No certs found")
  | c :: _ => d ← digest c; Ok (fingerprint_text d)
  end.

(** The callback on a certificate of the peer: [None] when there is none, else its digest *)
Definition verify_callback (fp : bytes) (cert : option (outcome bytes bytes)) : bool :=
  match cert with
  | None => false
  | Some (Ok digest_bytes) => eq_ignore_ascii_case (fingerprint_text digest_bytes) fp
  | Some _ => false
  end.
(** [set_verify]: no verification without an expected fingerprint *)
Definition verifier : Type := option (option (outcome bytes bytes) -> bool).
Definition base_verifier (expected_fingerprint : option bytes) : verifier := verify_callback <$> expected_fingerprint.

(** ** Keys *)
Module SrtpProfile.
Inductive t : Type := Aes128CmHmacSha1_80.
End SrtpProfile.
Module SrtpSessionConfig.
Record t : Type := mk { profile : SrtpProfile.t; outbound : SrtpEndpointKeys.t; inbound : SrtpEndpointKeys.t }.
End SrtpSessionConfig.

(** The library fills the 60 octets of the buffer. *)
Definition split_keys (role : DtlsRole.t) (key_mat : bytes) : SrtpSessionConfig.t :=
  let client_key := take 16 key_mat in
  let rest := drop 16 key_mat in
  let server_key := take 16 rest in
  let rest := drop 16 rest in
  let client_salt := take 14 rest in
  let rest := drop 14 rest in
  let server_salt := take 14 rest in
  let client_keys := SrtpEndpointKeys.mk client_key client_salt in
  let server_keys := SrtpEndpointKeys.mk server_key server_salt in
  match role with
  | DtlsRole.Client => SrtpSessionConfig.mk SrtpProfile.Aes128CmHmacSha1_80 client_keys server_keys
  | DtlsRole.Server => SrtpSessionConfig.mk SrtpProfile.Aes128CmHmacSha1_80 server_keys client_keys
  end.
Definition derive_srtp_keys (selected_profile : option bytes) (exported : outcome bytes bytes) (role : DtlsRole.t)
  : outcome DtlsError.t SrtpSessionConfig.t :=
  profile_name ← ok_or selected_profile DtlsError.NoSrtpProfile;
  if decide (profile_name = lit "SRTP_AES128_CM_SHA1_80") then
    key_mat ← map_err DtlsError.KeyExport exported;
    Ok (split_keys role key_mat)
  else Err DtlsError.NoSrtpProfile.

(** ** The handshake *)
Inductive handshake_result : Type :=
| Completed
| HsWouldBlock
| HsFailure (debug : bytes)
| HsSetupFailure (debug : bytes).
Definition handshake_error_to_dtlserr (r : handshake_result) : outcome DtlsError.t unit :=
  match r with
  | Completed => Ok ()
  | HsWouldBlock => Err (DtlsError.Handshake (lit "Handshake would block"))
  | HsFailure s => Err (DtlsError.Handshake s)
  | HsSetupFailure e => Err (DtlsError.Ssl e)
  end.

(** What the socket and OpenSSL answer *)
Record openssl : Type := OpenSsl {
  socket_guard : outcome bytes unit;
  builder : outcome bytes unit;
  use_srtp : outcome bytes unit;
  cipher_list : outcome bytes unit;
  chain_file : bytes -> outcome bytes unit;
  private_key_file : bytes -> outcome bytes unit;
  check_private_key : outcome bytes unit;
  ssl_new : outcome bytes unit;
  handshake : DtlsRole.t -> verifier -> handshake_result;
  selected_srtp_profile : option bytes;
  export_keying_material : outcome bytes bytes }.

Definition io_error (prefix : bytes) (e : bytes) : DtlsError.t := DtlsError.Io (prefix ++ e).
Definition ssl_error (prefix : bytes) (e : bytes) : DtlsError.t := DtlsError.Ssl (prefix ++ e).
Definition create_base_context (o : openssl) (expected_fingerprint : option bytes) : outcome DtlsError.t verifier :=
  _ ← map_err (io_error (lit "OpenSSL init failed: ")) (builder o);
  _ ← map_err (io_error (lit "set_tlsext_use_srtp failed: ")) (use_srtp o);
  _ ← map_err (io_error (lit "set_cipher_list failed: ")) (cipher_list o);
  Ok (base_verifier expected_fingerprint).

(** [dtls_connect_openssl] and [dtls_accept_openssl], which differ only in the last call *)
Definition dtls_openssl (o : openssl) (role : DtlsRole.t) (expected_fingerprint : option bytes) (config : Config.t)
  : outcome DtlsError.t unit :=
  v ← create_base_context o expected_fingerprint;
  let cert_path := Config.get_non_empty_or_default config (lit "TLS") (lit "dtls_cert") (lit "certs/dtls/cert.pem") in
  let key_path := Config.get_non_empty_or_default config (lit "TLS") (lit "dtls_key") (lit "certs/dtls/key.pem") in
  _ ← map_err (ssl_error (lit "set_certificate_chain_file failed: ")) (chain_file o cert_path);
  _ ← map_err (ssl_error (lit "set_private_key_file failed: ")) (private_key_file o key_path);
  _ ← map_err (ssl_error (lit "Private key does not match certificate: ")) (check_private_key o);
  _ ← map_err (ssl_error (lit "Ssl::new failed: ")) (ssl_new o);
  handshake_error_to_dtlserr (handshake o role v).

Definition run_dtls_handshake (o : openssl) (role : DtlsRole.t) (expected_fingerprint : option bytes) (config : Config.t)
  : outcome DtlsError.t SrtpSessionConfig.t :=
  _ ← map_err DtlsError.Io (socket_guard o);
  _ ← dtls_openssl o role expected_fingerprint config;
  derive_srtp_keys (selected_srtp_profile o) (export_keying_material o) role.

(** ** The channel *)
Module BufferedUdpChannel.
Record t : Type := mk {
  reader : bytes;             (* what is left of the last datagram *)
  incoming_queue : bytes;
  manual_mode : bool;
  outgoing_queue : list bytes }.
Definition new : t := mk [] [] false [].
Definition set_manual_mode (s : t) (manual : bool) : t := mk (reader s) (incoming_queue s) manual (outgoing_queue s).
Definition push_incoming (s : t) (data : bytes) : t :=
  mk (reader s) (incoming_queue s ++ data) (manual_mode s) (outgoing_queue s).
Definition has_pending_writes (s : t) : bool := negb (bool_decide (outgoing_queue s = [])).

Inductive io_err : Type := WouldBlock | Other (e : bytes).
(** [recvs]: the results of [recv_from], with the sender's address, in order; reading past them
    means that the call does not return. *)
Fixpoint recv_from_peer (peer : SocketAddr.t) (recvs : list (outcome io_err (bytes * SocketAddr.t)))
  : option (outcome io_err bytes) :=
  match recvs with
  | [] => None
  | Ok (data, from) :: recvs => if decide (from = peer) then Some (Ok (take (Z.to_nat 65535) data)) else recv_from_peer peer recvs
  | Err e :: _ => Some (Err e)
  | Panic :: _ => Some Panic
  end.
Definition read (peer : SocketAddr.t) (s : t) (len : nat) (recvs : list (outcome io_err (bytes * SocketAddr.t)))
  : option (t * outcome io_err bytes) :=
  match reader s with
  | _ :: _ =>
      Some (mk (drop len (reader s)) (incoming_queue s) (manual_mode s) (outgoing_queue s), Ok (take len (reader s)))
  | [] =>
      if manual_mode s then
        match incoming_queue s with
        | [] => Some (s, Err WouldBlock)
        | q => Some (mk [] (drop len q) true (outgoing_queue s), Ok (take len q))
        end
      else
        match recv_from_peer peer recvs with
        | None => None
        | Some (Ok data) => Some (mk (drop len data) (incoming_queue s) false (outgoing_queue s), Ok (take len data))
        | Some (Err e) => Some (s, Err e)
        | Some Panic => Some (s, Panic)
        end
  end.

(** [sent]: the result of [send_to]; the datagrams put on the wire are returned. *)
Definition write (s : t) (buf : bytes) (sent : outcome io_err unit) : t * list bytes * outcome io_err Z :=
  let queued := mk (reader s) (incoming_queue s) (manual_mode s) (outgoing_queue s ++ [buf]) in
  match outgoing_queue s with
  | _ :: _ => (queued, [], Ok (Z.of_nat (length buf)))
  | [] =>
      match sent with
      | Ok _ => (s, [buf], Ok (Z.of_nat (length buf)))
      | Err WouldBlock => (queued, [], Ok (Z.of_nat (length buf)))
      | Err e => (s, [], Err e)
      | Panic => (s, [], Panic)
      end
  end.
(** [sents]: the results of [send_to] for the packets of the queue in turn; a missing one would block. *)
Fixpoint flush_queue (queue : list bytes) (sents : list (outcome io_err unit))
  : list bytes * list bytes * outcome io_err unit :=
  match queue, sents with
  | p :: rest, Ok _ :: sents => let '(q, ds, r) := flush_queue rest sents in (q, p :: ds, r)
  | [], _ => ([], [], Ok ())
  | q, Err WouldBlock :: _ => (q, [], Ok ())
  | q, Err e :: _ => (q, [], Err e)
  | q, Panic :: _ => (q, [], Panic)
  | q, [] => (q, [], Ok ())
  end.
Definition flush (s : t) (sents : list (outcome io_err unit)) : t * list bytes * outcome io_err unit :=
  let '(q, ds, r) := flush_queue (outgoing_queue s) sents in
  (mk (reader s) (incoming_queue s) (manual_mode s) q, ds, r).
End BufferedUdpChannel.

(** ** The fingerprint identifies the certificate *)
Definition hex_val (c : Z) : Z := if c <=? 57 then c - 48 else c - 55.
Lemma hex2_decode b : u8 b ->
  exists x y, upper <$> hex2_upper b = [x; y] /\ 16 * hex_val x + hex_val y = b.
Proof.
  intros Hb. assert (H : upper <$> hex2_upper b
    = [nth 0 (upper <$> hex2_upper b) 0; nth 1 (upper <$> hex2_upper b) 0] /\
    16 * hex_val (nth 0 (upper <$> hex2_upper b) 0) + hex_val (nth 1 (upper <$> hex2_upper b) 0) = b).
  { by_range 256%nat b. }
  destruct H. eauto.
Qed.

Definition tail_text (r : bytes) : bytes := match r with [] => [] | _ => 58 :: fingerprint_text r end.
Lemma fingerprint_cons b r : fingerprint_text (b :: r) = hex2_upper b ++ tail_text r.
Proof.
  unfold fingerprint_text, tail_text. destruct r as [| c r]; [cbn [fmap list_fmap join]; rewrite app_nil_r; reflexivity |].
  reflexivity.
Qed.

Lemma fingerprint_inj d1 d2 : bytes_ok d1 -> bytes_ok d2 ->
  upper <$> fingerprint_text d1 = upper <$> fingerprint_text d2 -> d1 = d2.
Proof.
  intros H1. revert d2. induction H1 as [| b d1 Hb _ IH]; intros [| c d2] H2 He; [reflexivity | | |].
  - rewrite fingerprint_cons, fmap_app in He. apply Forall_cons in H2 as [Hc _].
    destruct (hex2_decode c Hc) as (x & y & Hxy & _). rewrite Hxy in He. discriminate He.
  - rewrite fingerprint_cons, fmap_app in He. destruct (hex2_decode b Hb) as (x & y & Hxy & _).
    rewrite Hxy in He. discriminate He.
  - apply Forall_cons in H2 as [Hc H2]. rewrite !fingerprint_cons, !fmap_app in He.
    destruct (hex2_decode b Hb) as (x & y & Hxy & Hv), (hex2_decode c Hc) as (x' & y' & Hxy' & Hv').
    rewrite Hxy, Hxy' in He. injection He as <- <- He. f_equal; [congruence |]. apply IH; [exact H2 |].
    unfold tail_text in He. destruct d1, d2; try discriminate He; [reflexivity |].
    rewrite !fmap_cons in He. injection He as He. exact He.
Qed.

(** A digest is a string of octets. *)
Definition digested (cert : option (outcome bytes bytes)) : Prop := forall d, cert = Some (Ok d) -> bytes_ok d.
Lemma verify_exact d0 cert : bytes_ok d0 -> digested cert ->
  verify_callback (fingerprint_text d0) cert = true <-> cert = Some (Ok d0).
Proof.
  intros H0 H. unfold verify_callback, eq_ignore_ascii_case. destruct cert as [[d | |] |]; try easy.
  rewrite bool_decide_eq_true. split; [| intros [= ->]; reflexivity].
  intros He. rewrite (fingerprint_inj d d0 (H d eq_refl) H0 He). reflexivity.
Qed.

(** A handshake that succeeds against an expected fingerprint ran with the callback, *)
Lemma run_verified (o : openssl) role fp config presented cfg :
  (forall v, handshake o role (Some v) = Completed -> v presented = true) ->
  run_dtls_handshake o role (Some fp) config = Ok cfg -> verify_callback fp presented = true.
Proof.
  intros Hlaw Hrun. apply Hlaw. unfold run_dtls_handshake in Hrun.
  bind_inv Hrun. bind_inv Hrun. unfold dtls_openssl, create_base_context in Hv0.
  repeat bind_inv Hv0. destruct (handshake o role _) eqn:Eh in Hv0; try discriminate Hv0.
  bind_inv Hv1. bind_inv Hv1. bind_inv Hv1. injection Hv1 as <-. exact Eh.
Qed.
(** and any that succeeds yields the exported keys. *)
Lemma run_keys (o : openssl) role fp config cfg : run_dtls_handshake o role fp config = Ok cfg ->
  exists key_mat, export_keying_material o = Ok key_mat /\ cfg = split_keys role key_mat.
Proof.
  unfold run_dtls_handshake. intros Hrun. bind_inv Hrun. bind_inv Hrun. unfold derive_srtp_keys in Hrun.
  bind_inv Hrun. case_decide; [| discriminate Hrun]. bind_inv Hrun. injection Hrun as <-.
  destruct (export_keying_material o) as [key_mat | |]; [| discriminate..]. cbn in Hv2. injection Hv2 as ->. eauto.
Qed.

(** C14 The peer is the one that signaled. When the expected fingerprint is the text of a digest, a
    handshake in which the library rejects what the callback rejects of the certificate presented
    succeeds only with a peer that presented a certificate, whose digest could be computed and is
    exactly that one. *)
Theorem dtls_pins_certificate (o : openssl) role config d0 presented cfg :
  (forall v, handshake o role (Some v) = Completed -> v presented = true) ->
  bytes_ok d0 -> digested presented ->
  run_dtls_handshake o role (Some (fingerprint_text d0)) config = Ok cfg -> presented = Some (Ok d0).
Proof.
  intros Hlaw H0 H Hrun. apply (verify_exact d0 presented H0 H). eapply run_verified; eassumption.
Qed.

Definition demo_openssl : openssl :=
  OpenSsl (Ok ()) (Ok ()) (Ok ()) (Ok ()) (fun _ => Ok ()) (fun _ => Ok ()) (Ok ()) (Ok ())
    (fun _ v => match v with
                | Some f => if f (Some (Ok [171; 1])) then Completed else HsFailure []
                | None => Completed
                end)
    (Some (lit "SRTP_AES128_CM_SHA1_80")) (Ok (replicate 60 7)).
Lemma dtls_pins_certificate_witness :
  exists (presented : option (outcome bytes bytes)) cfg,
    run_dtls_handshake demo_openssl DtlsRole.Client (Some (fingerprint_text [171; 1])) Config.empty = Ok cfg /\
    presented = Some (Ok [171; 1]).
Proof.
  exists (Some (Ok [171; 1])). eexists.
  assert (H : run_dtls_handshake demo_openssl DtlsRole.Client (Some (fingerprint_text [171; 1])) Config.empty
    = Ok (split_keys DtlsRole.Client (replicate 60 7))) by (vm_compute; reflexivity).
  assert (Hb : bytes_ok [171; 1]) by (repeat (apply Forall_cons_2; [ulia |]); apply Forall_nil_2).
  split; [exact H |].
  apply (dtls_pins_certificate demo_openssl DtlsRole.Client Config.empty [171; 1] (Some (Ok [171; 1]))
    (split_keys DtlsRole.Client (replicate 60 7))); [| exact Hb | | exact H].
  - intros v. cbn [handshake demo_openssl]. destruct (v _); [reflexivity | discriminate].
  - intros d [= <-]. exact Hb.
Defined.

(** ** Packets leave in the order they were written *)
Module Channel.
Import BufferedUdpChannel.
Inductive op : Type :=
| Write (buf : bytes) (sent : outcome io_err unit)
| Flush (sents : list (outcome io_err unit))
| Push (data : bytes)
| Read (len : nat) (recvs : list (outcome io_err (bytes * SocketAddr.t))).

(** One call: the packets put on the wire, and the packet that [write] took, if any *)
Definition step (peer : SocketAddr.t) (s : t) (o : op) : t * list bytes * list bytes :=
  match o with
  | Write buf sent =>
      let '(s, wire, r) := write s buf sent in (s, wire, match r with Ok _ => [buf] | _ => [] end)
  | Flush sents => let '(s, wire, _) := flush s sents in (s, wire, [])
  | Push data => (push_incoming s data, [], [])
  | Read len recvs => (match read peer s len recvs with Some (s, _) => s | None => s end, [], [])
  end.
Fixpoint run (peer : SocketAddr.t) (s : t) (ops : list op) : t * list bytes * list bytes :=
  match ops with
  | [] => (s, [], [])
  | o :: ops =>
      let '(s, wire, taken) := step peer s o in
      let '(s, wire', taken') := run peer s ops in (s, wire ++ wire', taken ++ taken')
  end.

Lemma flush_queue_order q sents : let '(q', wire, _) := flush_queue q sents in q = wire ++ q'.
Proof.
  revert sents. induction q as [| p q IH]; intros sents; [destruct sents; reflexivity |].
  destruct sents as [| [[] | [| e] |] sents]; cbn [flush_queue]; try reflexivity.
  specialize (IH sents). destruct (flush_queue q sents) as [[q' wire] r]. rewrite IH. reflexivity.
Qed.
Lemma read_queue peer s len recvs s' r : read peer s len recvs = Some (s', r) -> outgoing_queue s' = outgoing_queue s.
Proof. unfold read. intros H. repeat (case_match; simplify_eq); reflexivity. Qed.

Lemma step_order peer s o s' wire taken : step peer s o = (s', wire, taken) ->
  outgoing_queue s ++ taken = wire ++ outgoing_queue s'.
Proof.
  destruct o as [buf sent | sents | data | len recvs]; cbn [step].
  - unfold write. intros H. repeat (case_match; simplify_eq); cbn; rewrite ?app_nil_r; reflexivity || congruence.
  - unfold flush. pose proof (flush_queue_order (outgoing_queue s) sents) as Hq.
    destruct (flush_queue (outgoing_queue s) sents) as [[q ds] r]. intros [= <- <- <-].
    rewrite app_nil_r. exact Hq.
  - intros [= <- <- <-]. rewrite app_nil_r. reflexivity.
  - intros [= <- <- <-]. rewrite app_nil_r. destruct (read peer s len recvs) as [[s1 r] |] eqn:Er; [| reflexivity].
    symmetry. apply (read_queue _ _ _ _ _ _ Er).
Qed.
End Channel.

(** The channel neither loses, repeats nor reorders. In any sequence of calls, whatever the
    socket answers, the packets on the wire followed by those still queued are those that were
    queued before followed by those the writes accepted, in order. *)
Theorem dtls_channel_in_order peer ops s s' wire taken :
  Channel.run peer s ops = (s', wire, taken) ->
  BufferedUdpChannel.outgoing_queue s ++ taken = wire ++ BufferedUdpChannel.outgoing_queue s'.
Proof.
  revert s wire taken. induction ops as [| o ops IH]; intros s wire taken; cbn [Channel.run].
  - intros [= <- <- <-]. rewrite app_nil_r. reflexivity.
  - destruct (Channel.step peer s o) as [[s1 wire1] taken1] eqn:Es.
    destruct (Channel.run peer s1 ops) as [[s2 wire2] taken2] eqn:Er. intros [= <- <- <-].
    rewrite <- app_assoc, <- (IH s1 wire2 taken2 Er), !app_assoc. f_equal.
    apply (Channel.step_order _ _ _ _ _ _ Es).
Qed.

(** Two writes that the socket refuses, a third behind them, and a flush that gets the first out *)
Definition demo_calls : list Channel.op :=
  [Channel.Write [1] (Err BufferedUdpChannel.WouldBlock); Channel.Write [2] (Ok ());
   Channel.Flush [Ok (); Err BufferedUdpChannel.WouldBlock]; Channel.Write [3] (Ok ())].
Definition demo_peer : SocketAddr.t := SocketAddr.mk (V4 10 0 0 2) 5000.
Definition demo_run : BufferedUdpChannel.t * list bytes * list bytes := Channel.run demo_peer BufferedUdpChannel.new demo_calls.
Lemma dtls_channel_in_order_witness :
  demo_run.1.2 = [[1]] /\ demo_run.2 = [[1]; [2]; [3]] /\
  BufferedUdpChannel.outgoing_queue BufferedUdpChannel.new ++ demo_run.2
    = demo_run.1.2 ++ BufferedUdpChannel.outgoing_queue demo_run.1.1.
Proof.
  split; [reflexivity |]. split; [reflexivity |].
  apply (dtls_channel_in_order demo_peer demo_calls BufferedUdpChannel.new demo_run.1.1 demo_run.1.2 demo_run.2).
  reflexivity.
Defined.
