(* ===== verification/MediaTransport.v ===== *)
(** * Media transport (src/media_transport)

    The pipeline between the media agent and the RTP session: the event loop that turns encoded
    frames into packetizer orders and registers the outbound tracks, the packetizer and the
    depacketizer workers, and the two relays behind them. Each function is one turn of one thread;
    the messages it sends are its result, and the outcome of a send on a bounded or closed channel
    is an argument. *)

From stdpp Require Import prelude gmap strings.
From Stdlib Require Import ZArith Lia.
From S2P Require Import Prelude Utf8 Text Rtp RecvStream RtpSession H264 AppSession Config ConnManager.
Local Open Scope Z_scope.

Module FrameFormat.
Inductive t : Type := Rgb | Yuv420.
End FrameFormat.
Module VideoFrameData.
Inductive t : Type :=
| Rgb (data : bytes)
| Yuv420 (y u v : bytes) (y_stride u_stride v_stride : Z).
End VideoFrameData.
Module VideoFrame.
Record t : Type := mk {
  width : Z; height : Z; timestamp_ms : Z; format : FrameFormat.t; data : VideoFrameData.t }.
End VideoFrame.

(** ** Messages *)
Module MediaTransportEvent.
Inductive t : Type :=
| SendEncodedFrame (annexb_frame : bytes) (timestamp_ms : Z) (codec_spec : CodecSpec.t)
| SendEncodedAudioFrame (payload : bytes) (timestamp_ms : Z) (codec_spec : CodecSpec.t)
| UpdateBitrate (b : Z)
| Established
| Closed
| RtpIn (pkt : RtpIn.t)
| Closing.
End MediaTransportEvent.
Module MediaAgentEvent.
Inductive t : Type :=
| AnnexBFrameReady (codec_spec : CodecSpec.t) (data : bytes)
| EncodedVideoFrame (annexb_frame : bytes) (timestamp_ms : Z) (codec_spec : CodecSpec.t)
| EncodedAudioFrame (payload : bytes) (codec_spec : CodecSpec.t)
| DecodedVideoFrame (frame : VideoFrame.t)
| UpdateBitrate (b : Z).
End MediaAgentEvent.
Module DepacketizerEvent.
Inductive t : Type :=
| AnnexBFrameReady (codec_spec : CodecSpec.t) (data : bytes)
| EncodedAudioFrameReady (codec_spec : CodecSpec.t) (payload : bytes).
End DepacketizerEvent.
Module PacketizeOrder.
Record t : Type := mk { payload : bytes; rtp_ts : Z; codec_spec : CodecSpec.t }.
End PacketizeOrder.
Module PacketizedFrame.
Record t : Type := mk { chunks : list RtpPayloadChunk.t; rtp_ts : Z; codec_spec : CodecSpec.t }.
End PacketizedFrame.

#[export] Instance codec_spec_eq_dec : EqDecision CodecSpec.t.
Proof. solve_decision. Defined.

(** ** Workers *)
Definition packetizer_turn (order : PacketizeOrder.t) : list PacketizedFrame.t :=
  match PacketizeOrder.codec_spec order with
  | CodecSpec.H264 =>
      match H264Packetizer.packetize_annexb_to_payloads (H264Packetizer.new 1200) (PacketizeOrder.payload order) with
      | [] => []
      | chunks => [PacketizedFrame.mk chunks (PacketizeOrder.rtp_ts order) CodecSpec.H264]
      end
  | CodecSpec.G711U =>
      [PacketizedFrame.mk [RtpPayloadChunk.mk (PacketizeOrder.payload order) true]
         (PacketizeOrder.rtp_ts order) CodecSpec.G711U]
  end.

Definition depacketizer_turn (allowed_pts : gset Z) (payload_map : gmap Z CodecDescriptor.t)
    (d : H264Depacketizer.t) (pkt : RtpIn.t) : H264Depacketizer.t * list DepacketizerEvent.t :=
  if negb (bool_decide (RtpIn.pt pkt ∈ allowed_pts)) then (d, [])
  else
    match payload_map !! RtpIn.pt pkt with
    | None => (d, [])
    | Some codec_desc =>
        match CodecDescriptor.spec codec_desc with
        | CodecSpec.H264 =>
            let '(d, frame) := H264Depacketizer.push_rtp d (RtpIn.payload pkt) (RtpIn.marker pkt)
                                 (RtpIn.timestamp_90khz pkt) (RtpIn.seq pkt) in
            (d, match frame with
                | Some f => [DepacketizerEvent.AnnexBFrameReady CodecSpec.H264 f]
                | None => []
                end)
        | CodecSpec.G711U => (d, [DepacketizerEvent.EncodedAudioFrameReady CodecSpec.G711U (RtpIn.payload pkt)])
        end
    end.

(** [DepacketizerEventLoop] *)
Definition depacketizer_relay (event : DepacketizerEvent.t) : MediaAgentEvent.t :=
  match event with
  | DepacketizerEvent.AnnexBFrameReady codec data => MediaAgentEvent.AnnexBFrameReady codec data
  | DepacketizerEvent.EncodedAudioFrameReady codec payload => MediaAgentEvent.EncodedAudioFrame payload codec
  end.

(** ** The transport *)
Module MediaTransport.
Definition DYNAMIC_PAYLOAD_TYPE_START : Z := 96.
Definition DEFAULT_AUDIO_PT : Z := 0.
Definition TARGET_FPS : Z := 30.

Record t : Type := mk {
  target_fps : Z;
  payload_map : gmap Z CodecDescriptor.t;
  outbound_tracks : gmap Z OutboundTrackHandle.t;
  allowed_pts : option (gset Z);
  rtp_tx : bool;                    (* a sender to the depacketizer is held *)
  media_transport_event_tx : bool;
  media_transport_event_rx : bool }.

Fixpoint build_payload_map (media : list CodecSpec.t) (current_pt : Z) (m : gmap Z CodecDescriptor.t)
  : gmap Z CodecDescriptor.t :=
  match media with
  | [] => m
  | spec :: media =>
      let d := match spec with
               | CodecSpec.H264 => CodecDescriptor.h264_dynamic current_pt
               | CodecSpec.G711U => CodecDescriptor.pcmu_dynamic DEFAULT_AUDIO_PT
               end in
      let pt := RtpCodec.payload_type (CodecDescriptor.rtp_representation d) in
      build_payload_map media (if DYNAMIC_PAYLOAD_TYPE_START <=? pt then current_pt + 1 else current_pt)
        (<[pt := d]> m)
  end.
(** [MediaAgent::supported_media] *)
Definition supported_media : list CodecSpec.t := [CodecSpec.H264; CodecSpec.G711U].

Definition u32_option (o : option bytes) (dflt : Z) : Z :=
  match o with
  | Some s => match from_str_radix 10 4294967295 s with Ok v => v | _ => dflt end
  | None => dflt
  end.
Definition new (config : Config.t) : t :=
  mk (u32_option (Config.get config (lit "Media") (lit "fps")) TARGET_FPS)
     (build_payload_map supported_media DYNAMIC_PAYLOAD_TYPE_START ∅) ∅ None false true true.

(** The order of the values is that of the hash map. *)
Definition codec_descriptors (s : t) : list CodecDescriptor.t := (map_to_list (payload_map s)).*2.
Definition local_rtp_codecs (s : t) : list RtpCodec.t := CodecDescriptor.rtp_representation <$> codec_descriptors s.

(** The state of [MediaAgentEventLoop] *)
Record loop : Type := Loop {
  last_received_local_ts_ms : option Z;
  last_received_audio_ts_ms : option Z;
  video_rtp_ts : Z;
  audio_rtp_ts : Z;
  rtp_ts_step : Z }.
(** Dividing by a configured frame rate of zero panics. *)
Definition start_loop (fps random_video random_audio : Z) : outcome Empty_set loop :=
  if fps =? 0 then Panic else Ok (Loop None None random_video random_audio (90000 / fps)).

(** The events receiver can be taken only once; the loop exists when the agent has a channel. *)
Definition start_event_loops (s : t) (random_video random_audio : Z) (agent_tx : bool)
  : outcome Empty_set (t * option loop) :=
  let s := mk (target_fps s) (payload_map s) (outbound_tracks s) (Some (dom (payload_map s))) true
              (media_transport_event_tx s) (media_transport_event_rx s) in
  if negb (media_transport_event_rx s) then Panic
  else
    let s := mk (target_fps s) (payload_map s) (outbound_tracks s) (allowed_pts s) true
                (media_transport_event_tx s) false in
    if agent_tx then l ← start_loop (target_fps s) random_video random_audio; Ok (s, Some l)
    else Ok (s, None).

Definition stop (s : t) : t := mk (target_fps s) ∅ (outbound_tracks s) None false false (media_transport_event_rx s).

Definition with_tracks (s : t) (m : gmap Z OutboundTrackHandle.t) : t :=
  mk (target_fps s) (payload_map s) m (allowed_pts s) (rtp_tx s) (media_transport_event_tx s) (media_transport_event_rx s).
Definition with_allowed (s : t) (a : option (gset Z)) : t :=
  mk (target_fps s) (payload_map s) (outbound_tracks s) a (rtp_tx s) (media_transport_event_tx s) (media_transport_event_rx s).

(** *** The event loop of the media agent *)

(** The random numbers of the [k]-th registration: its SSRC and the start of its stream *)
Definition draws : Type := nat -> Z * (Z * Z).
Fixpoint ensure_tracks (codecs : list (Z * CodecDescriptor.t)) (k : nat) (rnd : draws) (e : readings)
    (sess : Session.t) (tracks : gmap Z OutboundTrackHandle.t)
  : Session.t * gmap Z OutboundTrackHandle.t * outcome bytes unit :=
  match codecs with
  | [] => (sess, tracks, Ok ())
  | (pt, codec) :: codecs =>
      match tracks !! pt with
      | Some _ => ensure_tracks codecs k rnd e sess tracks
      | None =>
          match Session.register_outbound_track sess (CodecDescriptor.rtp_representation codec) (rnd k).1 (rnd k).2 e with
          | (sess, Ok h) => ensure_tracks codecs (S k) rnd e sess (<[pt := h]> tracks)
          | (sess, Err err) => (sess, tracks, Err err)
          | (sess, Panic) => (sess, tracks, Panic)
          end
      end
  end.
Definition ensure_outbound_tracks (s : t) (sess : Session.t) (rnd : draws) (e : readings)
  : Session.t * gmap Z OutboundTrackHandle.t * outcome bytes unit :=
  ensure_tracks (map_to_list (payload_map s)) 0 rnd e sess (outbound_tracks s).

Inductive output : Type :=
| Order (o : PacketizeOrder.t)
| ToDepacketizer (pkt : RtpIn.t)
| ToEngine (error : bytes)
| ToMediaAgent (e : MediaAgentEvent.t).

Section text.
(** [{:?}] of a string *)
Context (debug_str : bytes -> bytes).

(** [order_ok]: the packetizer lives; [room]: the channel of the depacketizer has room. *)
Definition on_event (l : loop) (s : t) (session : option Session.t) (event : MediaTransportEvent.t)
    (order_ok room : bool) (rnd : draws) (e : readings)
  : loop * t * option Session.t * list output :=
  match event with
  | MediaTransportEvent.SendEncodedFrame annexb_frame timestamp_ms codec_spec =>
      if decide (last_received_local_ts_ms l = Some timestamp_ms) then (l, s, session, [])
      else
        (Loop (Some timestamp_ms) (last_received_audio_ts_ms l)
           (if order_ok then wrap32 (video_rtp_ts l + rtp_ts_step l) else video_rtp_ts l)
           (audio_rtp_ts l) (rtp_ts_step l),
         s, session, [Order (PacketizeOrder.mk annexb_frame (video_rtp_ts l) codec_spec)])
  | MediaTransportEvent.SendEncodedAudioFrame payload timestamp_ms codec_spec =>
      if decide (last_received_audio_ts_ms l = Some timestamp_ms) then (l, s, session, [])
      else
        (Loop (last_received_local_ts_ms l) (Some timestamp_ms) (video_rtp_ts l)
           (if order_ok then wrap32 (audio_rtp_ts l + 160) else audio_rtp_ts l) (rtp_ts_step l),
         s, session, [Order (PacketizeOrder.mk payload (audio_rtp_ts l) codec_spec)])
  | MediaTransportEvent.RtpIn pkt => (l, s, session, if room then [ToDepacketizer pkt] else [])
  | MediaTransportEvent.Established =>
      match session with
      | None => (l, s, session, [])
      | Some sess =>
          let '(sess, tracks, res) := ensure_outbound_tracks s sess rnd e in
          let out := match res with
                     | Err err => [ToEngine (lit "media tracks: Send(" ++ debug_str err ++ lit ")")]
                     | _ => []
                     end in
          (l, with_allowed (with_tracks s tracks)
                (Some (list_to_set (RtpCodec.payload_type <$> Session.remote_codecs sess))), Some sess, out)
      end
  | MediaTransportEvent.Closing | MediaTransportEvent.Closed => (l, with_tracks s ∅, session, [])
  | MediaTransportEvent.UpdateBitrate b => (l, s, session, [ToMediaAgent (MediaAgentEvent.UpdateBitrate b)])
  end.

(** *** The event loop of the packetizer *)
Definition find_codec (m : gmap Z CodecDescriptor.t) (spec : CodecSpec.t) : option Z :=
  fst <$> head (filter (fun x => CodecDescriptor.spec x.2 = spec) (map_to_list m)).

Section crypto.
Context (keystream : bytes -> bytes -> nat -> bytes) (hmac_sha1 : bytes -> bytes -> bytes)
  (display : RtpSessionError -> bytes).
(** [oks]: whether the socket takes the datagram of each chunk *)
Definition on_frame (s : t) (session : option Session.t) (frame : PacketizedFrame.t) (oks : nat -> bool) (e : readings)
  : option Session.t * list bytes * list output :=
  match find_codec (payload_map s) (PacketizedFrame.codec_spec frame) with
  | None => (session, [], [])
  | Some pt =>
      match outbound_tracks s !! pt with
      | None => (session, [], [])
      | Some handle =>
          match session with
          | None => (session, [], [])
          | Some sess =>
              let chunks := imap (fun k c => (c, oks k)) (PacketizedFrame.chunks frame) in
              let '(sess, dgs, res) :=
                Session.send_rtp_chunks_for_frame keystream hmac_sha1 display sess
                  (OutboundTrackHandle.local_ssrc handle) chunks (PacketizedFrame.rtp_ts frame) e in
              (Some sess, dgs,
               match res with
               | Err err => [ToEngine (lit "[Packetizer Event Loop (MT)] send local frame failed: " ++ debug_str err)]
               | _ => []
               end)
          end
      end
  end.
End crypto.
End text.
End MediaTransport.
