(* ===== verification/Sctp.v ===== *)
(** * The data channel (src/sctp)

    The file transfer messages and their codec, the sender, the receiver and the router of
    [SctpSession]. The sctp_proto library is the interface [SctpLib]: endpoint and association
    with the operations that the sender and the receiver call. The three threads share the
    association, the endpoint and the table of streams; each function below is one event of one
    thread, under the locks the code takes. Instants are nanoseconds. *)

From stdpp Require Import prelude gmap strings.
From Stdlib Require Import ZArith Lia.
From S2P Require Import Prelude Utf8 Text.
Local Open Scope Z_scope.

Module SctpFileProperties.
Record t : Type := mk { file_name : bytes; file_size : Z; transaction_id : Z }.
End SctpFileProperties.

Module SctpEvents.
Inductive t : Type :=
| SendAccept (id : Z)
| SendCancel (id : Z)
| SendChunk (file_id : Z) (payload : bytes)
| SendEndFile (id : Z)
| SendOffer (file_properties : SctpFileProperties.t)
| SendReject (id : Z)
| IncomingSctpPacket (sctp_packet : bytes)
| ReadableSctpPacket (sctp_packet : bytes)
| ReceivedOffer (file_properties : SctpFileProperties.t)
| ReceivedAccept (id : Z)
| ReceivedReject (id : Z)
| ReceivedCancel (id : Z)
| ReceivedChunk (id seq : Z) (payload : bytes)
| ReceivedEndFile (id : Z)
| SctpConnected
| SctpErr (e : bytes)
| TransmitSctpPacket (payload : bytes)
| KickSender
| Shutdown.
End SctpEvents.
Import SctpEvents.

(** ** Messages *)
Module SctpProtocolMessage.
Inductive t : Type :=
| Offer (id : Z) (filename : bytes) (file_size : Z)
| Accept (id : Z)
| Reject (id : Z)
| Cancel (id : Z)
| Chunk (id seq : Z) (payload : bytes)
| EndFile (id : Z).
Definition TYPE_OFFER : Z := 1.
Definition TYPE_ACCEPT : Z := 2.
Definition TYPE_REJECT : Z := 3.
Definition TYPE_CANCEL : Z := 4.
Definition TYPE_CHUNK : Z := 5.
Definition TYPE_END_FILE : Z := 6.

(** Writing to a vector does not fail. *)
Definition serialize (m : t) : bytes :=
  match m with
  | Offer id filename file_size =>
      to_be 1 TYPE_OFFER ++ to_be 4 id ++ to_be 8 file_size ++
      to_be 2 (wrap16 (Z.of_nat (length filename))) ++ filename
  | Accept id => to_be 1 TYPE_ACCEPT ++ to_be 4 id
  | Reject id => to_be 1 TYPE_REJECT ++ to_be 4 id
  | Cancel id => to_be 1 TYPE_CANCEL ++ to_be 4 id
  | Chunk id seq payload =>
      to_be 1 TYPE_CHUNK ++ to_be 4 id ++ to_be 8 seq ++
      to_be 4 (wrap32 (Z.of_nat (length payload))) ++ payload
  | EndFile id => to_be 1 TYPE_END_FILE ++ to_be 4 id
  end.

Inductive error : Type := UnexpectedEof | InvalidData.

(** [Cursor::read_exact] and the integer readers *)
Definition read_exact (n : nat) (s : bytes) : outcome error (bytes * bytes) :=
  if (length s <? n)%nat then Err UnexpectedEof else Ok (take n s, drop n s).
Definition read_uint (n : nat) (s : bytes) : outcome error (Z * bytes) :=
  '(b, r) ← read_exact n s; Ok (from_be b, r).

Definition deserialize (data : bytes) : outcome error t :=
  '(msg_type, r) ← read_uint 1 data;
  if msg_type =? TYPE_OFFER then
    '(id, r) ← read_uint 4 r;
    '(file_size, r) ← read_uint 8 r;
    '(filename_len, r) ← read_uint 2 r;
    '(filename, _) ← read_exact (Z.to_nat filename_len) r;
    if utf8_valid filename then Ok (Offer id filename file_size) else Err InvalidData
  else if msg_type =? TYPE_ACCEPT then '(id, _) ← read_uint 4 r; Ok (Accept id)
  else if msg_type =? TYPE_REJECT then '(id, _) ← read_uint 4 r; Ok (Reject id)
  else if msg_type =? TYPE_CANCEL then '(id, _) ← read_uint 4 r; Ok (Cancel id)
  else if msg_type =? TYPE_CHUNK then
    '(id, r) ← read_uint 4 r;
    '(seq, r) ← read_uint 8 r;
    '(payload_len, r) ← read_uint 4 r;
    '(payload, _) ← read_exact (Z.to_nat payload_len) r;
    Ok (Chunk id seq payload)
  else if msg_type =? TYPE_END_FILE then '(id, _) ← read_uint 4 r; Ok (EndFile id)
  else Err InvalidData.
End SctpProtocolMessage.
Import SctpProtocolMessage.

(** ** Streams *)
Module SctpStream.
Record t : Type := mk {
  properties : SctpFileProperties.t; last_activity : Z; next_seq : Z; timeout : Z }.
Definition new (properties : SctpFileProperties.t) (now : Z) : t := mk properties now 0 10000000000.
Definition update_activity (s : t) (now : Z) : t := mk (properties s) now (next_seq s) (timeout s).
Definition is_timed_out (s : t) (now : Z) : bool := timeout s <? Z.max 0 (now - last_activity s).
End SctpStream.

(** ** The library *)
Inductive write_result : Type := Written | NotReady | WriteFailed | NoStream.
(** [Association::poll]: what the receiver distinguishes *)
Inductive assoc_event : Type := Connected | AssociationLost | Readable (id : Z) | OtherEvent.

Class SctpLib (Endpoint Association Event : Type) : Type := {
  (* [Endpoint::connect] with the default client configuration *)
  connect : Endpoint -> Endpoint * option Association;
  (* [Endpoint::handle]: a new association, or an event for the present one *)
  handle : Endpoint -> bytes -> Endpoint * option (Association + Event);
  handle_event : Association -> Event -> Association;
  poll_timeout : Association -> option Z;
  handle_timeout : Association -> Z -> Association;
  (* stream 0, opened when it does not exist, and [Stream::write] *)
  write : Association -> bytes -> Association * write_result;
  (* the packets of [poll_transmit] until it returns [None] *)
  poll_transmit : Association -> Association * list bytes;
  poll : Association -> Association * option assoc_event;
  (* [stream(id)], [read_sctp] and the chunks read into 65535 octets *)
  read : Association -> Z -> Association * option bytes }.

(** ** The session's shared state and its threads *)
Module SctpSession.
Section lib.
Context {Endpoint Association Event : Type} `{!SctpLib Endpoint Association Event}.

Record t : Type := mk {
  association : option Association;
  endpoint : Endpoint;
  streams : gmap Z SctpStream.t;
  pending_messages : list SctpProtocolMessage.t;   (* of the sender thread *)
  is_client : bool }.

Definition with_association (s : t) (a : option Association) : t :=
  mk a (endpoint s) (streams s) (pending_messages s) (is_client s).
Definition with_streams (s : t) (m : gmap Z SctpStream.t) : t :=
  mk (association s) (endpoint s) m (pending_messages s) (is_client s).
Definition with_pending (s : t) (l : list SctpProtocolMessage.t) : t :=
  mk (association s) (endpoint s) (streams s) l (is_client s).

(** *** The sender *)
Definition ensure_connection (s : t) : t :=
  match association s with
  | Some _ => s
  | None =>
      if negb (is_client s) then s
      else let '(e, a) := connect (endpoint s) in
           mk a e (streams s) (pending_messages s) (is_client s)
  end.

Definition send_message (s : t) (msg : SctpProtocolMessage.t) : t * list SctpEvents.t :=
  let payload := serialize msg in
  let s := ensure_connection s in
  match association s with
  | Some a =>
      let '(a, res) := write a payload in
      let s := match res with NotReady => with_pending s (pending_messages s ++ [msg]) | _ => s end in
      let '(a, packets) := poll_transmit a in
      (with_association s (Some a), TransmitSctpPacket <$> packets)
  | None => (with_pending s (pending_messages s ++ [msg]), [])
  end.
Fixpoint send_messages (s : t) (msgs : list SctpProtocolMessage.t) : t * list SctpEvents.t :=
  match msgs with
  | [] => (s, [])
  | m :: msgs => let '(s, o) := send_message s m in let '(s, o') := send_messages s msgs in (s, o ++ o')
  end.

Definition unnamed (id : Z) : SctpFileProperties.t := SctpFileProperties.mk [] 0 id.

(** One event of the loop, [None] when the wait timed out; a counter that overflows panics. *)
Definition sender_match (s : t) (event : option SctpEvents.t) (now : Z) : outcome Empty_set (t * list SctpEvents.t) :=
  match event with
  | Some (SendOffer p) =>
      let id := SctpFileProperties.transaction_id p in
      let s := with_streams s (<[id := SctpStream.new p now]> (streams s)) in
      Ok (send_message s (Offer id (SctpFileProperties.file_name p) (SctpFileProperties.file_size p)))
  | Some (SendAccept id) =>
      let s := with_streams s (<[id := SctpStream.new (unnamed id) now]> (streams s)) in
      Ok (send_message s (Accept id))
  | Some (ReceivedAccept id) =>
      Ok (with_streams s (<[id := SctpStream.new (unnamed id) now]> (streams s)), [])
  | Some (SendReject id) => Ok (send_message s (Reject id))
  | Some (SendCancel id) => Ok (send_message (with_streams s (delete id (streams s))) (Cancel id))
  | Some (SendChunk file_id payload) =>
      match streams s !! file_id with
      | Some st =>
          let seq := SctpStream.next_seq st in
          if u64_max <=? seq then Panic
          else
            let st := SctpStream.mk (SctpStream.properties st) now (seq + 1) (SctpStream.timeout st) in
            Ok (send_message (with_streams s (<[file_id := st]> (streams s))) (Chunk file_id seq payload))
      | None => Ok (s, [])
      end
  | Some (SendEndFile id) => Ok (send_message (with_streams s (delete id (streams s))) (EndFile id))
  | Some SctpConnected => Ok (send_messages (with_pending s []) (pending_messages s))
  | _ => Ok (s, [])
  end.
Definition expire (a : Association) (now : Z) : Association :=
  match poll_timeout a with
  | Some next_timeout => if next_timeout <=? now then handle_timeout a now else a
  | None => a
  end.
Definition sender_event (s : t) (event : option SctpEvents.t) (now : Z) : outcome Empty_set (t * list SctpEvents.t) :=
  '(s, o) ← sender_match s event now;
  match association s with
  | Some a =>
      let '(a, packets) := poll_transmit (expire a now) in
      Ok (with_association s (Some a), o ++ (TransmitSctpPacket <$> packets))
  | None => Ok (s, o)
  end.

(** *** The receiver *)
Definition handle_chunk_data (s : t) (data : bytes) (now : Z) : t * list SctpEvents.t :=
  match deserialize data with
  | Ok (Offer id filename file_size) => (s, [ReceivedOffer (SctpFileProperties.mk filename file_size id)])
  | Ok (Accept id) => (s, [ReceivedAccept id])
  | Ok (Reject id) => (s, [ReceivedReject id])
  | Ok (Cancel id) => (s, [ReceivedCancel id])
  | Ok (Chunk id seq payload) =>
      (with_streams s (alter (fun st => SctpStream.update_activity st now) id (streams s)),
       [ReceivedChunk id (wrap32 seq) payload])
  | Ok (EndFile id) => (s, [ReceivedEndFile id])
  | _ => (s, [])
  end.

(** The loop over [poll]; the number of its turns is bounded by [fuel]. *)
Fixpoint poll_events (fuel : nat) (s : t) (a : Association) (now : Z) : t * Association * list SctpEvents.t :=
  match fuel with
  | O => (s, a, [])
  | S f =>
      match poll a with
      | (a, None) => (s, a, [])
      | (a, Some Connected) => let '(s, a, o) := poll_events f s a now in (s, a, SctpConnected :: o)
      | (a, Some (Readable id)) =>
          let '(a, data) := read a id in
          let '(s, o) := match data with Some d => handle_chunk_data s d now | None => (s, []) end in
          let '(s, a, o') := poll_events f s a now in (s, a, o ++ o')
      | (a, Some _) => poll_events f s a now
      end
  end.
Definition poll_association (fuel : nat) (s : t) (now : Z) : t * list SctpEvents.t :=
  match association s with
  | Some a =>
      let '(a, packets) := poll_transmit a in
      let '(s, a, o) := poll_events fuel s a now in
      (with_association s (Some a), (TransmitSctpPacket <$> packets) ++ o)
  | None => (s, [])
  end.
Definition handle_packet (fuel : nat) (s : t) (packet : bytes) (now : Z) : t * list SctpEvents.t :=
  let '(e, res) := handle (endpoint s) packet in
  let s := mk (match res with
               | Some (inl a) => Some a
               | Some (inr ev) => (fun a => handle_event a ev) <$> association s
               | None => association s
               end) e (streams s) (pending_messages s) (is_client s) in
  let '(s, o) := poll_association fuel s now in
  (s, o ++ [KickSender]).

(** The order of the ids is that of the hash map. *)
Definition check_stream_timeouts (s : t) (now : Z) : list SctpEvents.t :=
  (fun x => SendCancel x.1) <$> filter (fun x => SctpStream.is_timed_out x.2 now = true) (map_to_list (streams s)).

Definition receiver_event (fuel : nat) (s : t) (event : option SctpEvents.t) (now : Z) : t * list SctpEvents.t :=
  let '(s, o) :=
    match event with
    | Some (ReadableSctpPacket packet) => handle_packet fuel s packet now
    | None =>
        let s := with_association s ((fun a => expire a now) <$> association s) in
        poll_association fuel s now
    | Some _ => (s, [])
    end in
  (s, o ++ check_stream_timeouts s now).
End lib.
Arguments t : clear implicits.

(** *** The router *)
Inductive thread : Type := ToSender | ToReceiver | ToTransport | ToParent.
(** [None]: the router stops. *)
Definition route (event : SctpEvents.t) : option (list (thread * SctpEvents.t)) :=
  match event with
  | SctpConnected => Some [(ToSender, event)]
  | IncomingSctpPacket _ => Some [(ToTransport, event)]
  | ReadableSctpPacket _ => Some [(ToReceiver, event)]
  | SendOffer _ | SendAccept _ | SendReject _ | SendCancel _ | SendChunk _ _ | SendEndFile _ | KickSender =>
      Some [(ToSender, event)]
  | TransmitSctpPacket _ => Some [(ToTransport, event)]
  | ReceivedAccept id => Some [(ToSender, ReceivedAccept id); (ToParent, ReceivedAccept id)]
  | ReceivedOffer _ | ReceivedReject _ | ReceivedCancel _ | ReceivedChunk _ _ _ | ReceivedEndFile _ | SctpErr _ =>
      Some [(ToParent, event)]
  | Shutdown => None
  end.

(** *** The transport: a batch of events, then at most 20 reads *)
Inductive dtls_op : Type := PushIncoming (p : bytes) | WriteAll (p : bytes).
Definition transport_event (event : SctpEvents.t) : list dtls_op :=
  match event with
  | IncomingSctpPacket p => [PushIncoming p]
  | TransmitSctpPacket p => [WriteAll p]
  | _ => []
  end.
(** [reads]: the results of [SslStream::read], [None] for an error *)
Fixpoint transport_reads (count : nat) (reads : list (option bytes)) : list SctpEvents.t :=
  match count, reads with
  | S n, Some d :: reads =>
      match d with [] => [] | _ => ReadableSctpPacket (take (Z.to_nat 65535) d) :: transport_reads n reads end
  | _, _ => []
  end.
Definition transport_turn (batch : list SctpEvents.t) (reads : list (option bytes)) : list dtls_op * list SctpEvents.t :=
  (mjoin (transport_event <$> batch), transport_reads 20 reads).
End SctpSession.
