(* ===== verification/SctpTheory.v ===== *)
(** * The data channel: theorems

    The message codec is exact: it decodes precisely the octet strings that begin with the encoding
    of a message, to that message. A file name of more than 65535 octets is truncated by it. The
    table of streams: a download that is complete stays in it and is cancelled ten seconds later. *)

From stdpp Require Import prelude gmap strings.
From Stdlib Require Import ZArith Lia.
From S2P Require Import Prelude Utf8 Text Sctp.
Import SctpEvents SctpProtocolMessage.
Local Open Scope Z_scope.

(** ** The codec *)
Definition msg_ok (m : SctpProtocolMessage.t) : Prop :=
  match m with
  | Offer id filename file_size =>
      u32 id /\ u64 file_size /\ u16 (Z.of_nat (length filename)) /\ utf8_valid filename = true
  | Chunk id seq payload => u32 id /\ u64 seq /\ u32 (Z.of_nat (length payload))
  | Accept id | Reject id | Cancel id | EndFile id => u32 id
  end.
#[export] Instance msg_ok_dec m : Decision (msg_ok m).
Proof. destruct m; simpl; apply _. Defined.

Lemma cursor_read_exact_app n a r : length a = n -> read_exact n (a ++ r) = Ok (a, r).
Proof.
  intros <-. unfold read_exact. rewrite length_app.
  destruct (Nat.ltb_spec (length a + length r) (length a)); [lia |].
  rewrite take_app_length, drop_app_length. reflexivity.
Qed.
Lemma read_uint_app n v r : 0 <= v < 256 ^ Z.of_nat n -> read_uint n (to_be n v ++ r) = Ok (v, r).
Proof.
  intros Hv. unfold read_uint. rewrite cursor_read_exact_app by apply length_to_be.
  change (Ok (E:=error) (from_be (to_be n v), r) = Ok (v, r)).
  rewrite from_be_to_be_small by assumption. reflexivity.
Qed.
Lemma read_exact_inv n s a r : read_exact n s = Ok (a, r) -> s = a ++ r /\ length a = n.
Proof.
  unfold read_exact. destruct (Nat.ltb_spec (length s) n); [discriminate |]. intros [= <- <-].
  rewrite take_drop, length_take. split; [reflexivity | lia].
Qed.
Lemma read_uint_inv n s v r : bytes_ok s -> read_uint n s = Ok (v, r) ->
  s = to_be n v ++ r /\ 0 <= v < 256 ^ Z.of_nat n /\ bytes_ok r.
Proof.
  intros Hs H. unfold read_uint in H. bind_inv H. destruct v0 as [a r']. injection H as <- <-.
  apply read_exact_inv in Hv as [-> <-]. apply Forall_app in Hs as [Ha Hr].
  rewrite to_be_from_be by assumption. auto using from_be_range.
Qed.

Ltac uint_app n := rewrite (read_uint_app n) by (first [eassumption | vm_compute; intuition congruence]); cbn [mbind outcome_bind].

Lemma deserialize_app m tail : msg_ok m -> deserialize (serialize m ++ tail) = Ok m.
Proof.
  destruct m as [id fn sz | id | id | id | id seq p | id]; cbn [msg_ok serialize];
    intros Hok; unfold deserialize; rewrite <- ?app_assoc.
  - destruct Hok as (Hid & Hsz & Hlen & Hutf). rewrite wrap16_small by assumption.
    uint_app 1%nat. uint_app 4%nat. uint_app 8%nat. uint_app 2%nat.
    rewrite cursor_read_exact_app by lia. cbn [mbind outcome_bind]. rewrite Hutf. reflexivity.
  - uint_app 1%nat. uint_app 4%nat. reflexivity.
  - uint_app 1%nat. uint_app 4%nat. reflexivity.
  - uint_app 1%nat. uint_app 4%nat. reflexivity.
  - destruct Hok as (Hid & Hseq & Hlen). rewrite wrap32_small by assumption.
    uint_app 1%nat. uint_app 4%nat. uint_app 8%nat. uint_app 4%nat.
    rewrite cursor_read_exact_app by lia. reflexivity.
  - uint_app 1%nat. uint_app 4%nat. reflexivity.
Qed.

Ltac uint_inv H :=
  let v := fresh "n" in let r := fresh "r" in let Hv := fresh "Hrd" in let Hr := fresh "Hr" in
  apply bind_Ok_inv in H; destruct H as ([v r] & Hv & H);
  apply read_uint_inv in Hv as (-> & ? & Hr); [| assumption].

(** An integer that is known to be a length *)
Ltac length_is H :=
  match type of H with
  | length ?l = Z.to_nat ?n =>
      let E := fresh "E" in assert (E : n = Z.of_nat (length l)) by lia; clear H; subst n
  end.

Lemma deserialize_inv d m : bytes_ok d -> deserialize d = Ok m ->
  msg_ok m /\ exists tail, d = serialize m ++ tail.
Proof.
  intros Hd H. unfold deserialize in H. uint_inv H.
  repeat case_test_in H; subst; try discriminate H; repeat uint_inv H;
    try (injection H as <-; split; [assumption | exists r0; cbn [serialize]; rewrite <- app_assoc; reflexivity]).
  - apply bind_Ok_inv in H as ([fn r'] & Hfn & H). case_test_in H; [| discriminate H]. injection H as <-.
    apply read_exact_inv in Hfn as [-> Hlen].
    length_is Hlen.
    cbn [msg_ok serialize]. split; [auto |]. exists r'.
    rewrite wrap16_small by assumption. rewrite <- !app_assoc. reflexivity.
  - apply bind_Ok_inv in H as ([p r'] & Hp & H). injection H as <-.
    apply read_exact_inv in Hp as [-> Hlen].
    length_is Hlen.
    cbn [msg_ok serialize]. split; [auto |]. exists r'.
    rewrite wrap32_small by assumption. rewrite <- !app_assoc. reflexivity.
Qed.

(** C26 [SctpProtocolMessage::deserialize] accepts an octet string exactly when it begins with the
    encoding of a message whose fields fit, and yields that message; octets after it are ignored. *)
Theorem sctp_codec_exact d m : bytes_ok d ->
  deserialize d = Ok m <-> msg_ok m /\ exists tail, d = serialize m ++ tail.
Proof.
  intros Hd. split; [apply deserialize_inv, Hd |].
  intros (Hm & tail & ->). apply deserialize_app, Hm.
Qed.

Lemma sctp_codec_exact_witness :
  bytes_ok (serialize (Chunk 7 1 [1; 2; 3])) /\
  (deserialize (serialize (Chunk 7 1 [1; 2; 3])) = Ok (Chunk 7 1 [1; 2; 3]) <->
   msg_ok (Chunk 7 1 [1; 2; 3]) /\
   exists tail, serialize (Chunk 7 1 [1; 2; 3]) = serialize (Chunk 7 1 [1; 2; 3]) ++ tail).
Proof.
  assert (H : bytes_ok (serialize (Chunk 7 1 [1; 2; 3]))).
  { apply (bool_decide_eq_true_1 _). vm_compute. reflexivity. }
  split; [exact H | apply (sctp_codec_exact _ (Chunk 7 1 [1; 2; 3]) H)].
Defined.

(** A file name of 65536 octets arrives empty: its length is written as [len as u16]. *)
Lemma offer_name_truncated id fn sz :
  u32 id -> u64 sz -> Z.of_nat (length fn) = 65536 ->
  deserialize (serialize (Offer id fn sz)) = Ok (Offer id [] sz).
Proof.
  intros Hid Hsz Hlen. rewrite <- (app_nil_r (serialize _)).
  assert (Hs : serialize (Offer id fn sz) ++ [] = serialize (Offer id [] sz) ++ fn).
  { cbn [serialize]. rewrite Hlen, <- !app_assoc, !app_nil_r. reflexivity. }
  rewrite Hs. apply deserialize_app. cbn. repeat split; try assumption; ulia.
Qed.

(** ** Streams that time out *)
Section streams.
Context {Endpoint Association Event : Type} `{!SctpLib Endpoint Association Event}.
Abbreviation state := (SctpSession.t Endpoint Association).

Lemma timeouts_exact (s : state) id now : SendCancel id ∈ SctpSession.check_stream_timeouts s now <->
  exists st, SctpSession.streams s !! id = Some st /\ SctpStream.is_timed_out st now = true.
Proof.
  unfold SctpSession.check_stream_timeouts. rewrite list_elem_of_fmap. split.
  - intros ([i st] & [= ->] & H). apply list_elem_of_filter in H as [Ht Hin].
    apply elem_of_map_to_list in Hin. eauto.
  - intros (st & Hin & Ht). exists (id, st). split; [reflexivity |]. apply list_elem_of_filter.
    split; [exact Ht | apply elem_of_map_to_list, Hin].
Qed.

(** Messages read from the association, with the instants *)
Definition received (s : state) (l : list (bytes * Z)) : state :=
  foldl (fun s x => (SctpSession.handle_chunk_data s x.1 x.2).1) s l.

(** No message removes a stream; the last activity is an instant of one of them. *)
Lemma received_keeps (s : state) l id st : SctpSession.streams s !! id = Some st ->
  exists st', SctpSession.streams (received s l) !! id = Some st' /\ SctpStream.timeout st' = SctpStream.timeout st /\
    (SctpStream.last_activity st' = SctpStream.last_activity st \/ SctpStream.last_activity st' ∈ l.*2).
Proof.
  revert s st. induction l as [| [d t] l IH]; intros s st Hst; [eauto |]. cbn [received foldl fst snd].
  assert (H1 : exists st1, SctpSession.streams (SctpSession.handle_chunk_data s d t).1 !! id = Some st1 /\
    SctpStream.timeout st1 = SctpStream.timeout st /\
    (SctpStream.last_activity st1 = SctpStream.last_activity st \/ SctpStream.last_activity st1 = t)).
  { unfold SctpSession.handle_chunk_data. destruct (deserialize d) as [[| | | | i seq p |] | |]; try (exists st; auto; fail).
    cbn [fst SctpSession.with_streams SctpSession.streams]. destruct (decide (i = id)) as [-> | Hne].
    - rewrite lookup_alter_eq, Hst. eexists. split; [reflexivity | auto].
    - rewrite lookup_alter_ne by exact Hne. eauto. }
  destruct H1 as (st1 & Hst1 & Ht1 & Ha1). destruct (IH _ st1 Hst1) as (st' & Hst' & Ht' & Ha').
  exists st'. split; [exact Hst' |]. split; [congruence |]. rewrite fmap_cons. cbn [snd].
  destruct Ha' as [-> | Hin]; [| right; apply list_elem_of_further, Hin].
  destruct Ha1 as [-> | ->]; [left; reflexivity | right; apply list_elem_of_here].
Qed.

Lemma send_message_streams (s : state) m :
  SctpSession.streams (SctpSession.send_message s m).1 = SctpSession.streams s.
Proof.
  assert (He : SctpSession.streams (SctpSession.ensure_connection s) = SctpSession.streams s).
  { unfold SctpSession.ensure_connection. repeat case_match; reflexivity. }
  unfold SctpSession.send_message. cbv zeta. case_match; [| exact He].
  destruct (write _ _) as [a1 res], (poll_transmit a1) as [a2 packets], res; exact He.
Qed.
End streams.

(** A download that is complete is cancelled. Accepting a transfer enters its stream in the table,
    and nothing the peer sends, not even the end of the file, takes it out: ten seconds after the
    last message the receiver asks for the transfer to be cancelled, and the sender tells the peer. *)
Theorem completed_download_is_cancelled {Endpoint Association Event : Type}
    `{!SctpLib Endpoint Association Event} (s s1 : SctpSession.t Endpoint Association) o id t0 t1 l now :
  SctpSession.sender_match s (Some (SendAccept id)) t0 = Ok (s1, o) ->
  t0 + 10000000000 < now -> t1 + 10000000000 < now -> Forall (fun x => x.2 + 10000000000 < now) l ->
  let s2 := received s1 (l ++ [(serialize (EndFile id), t1)]) in
  SendCancel id ∈ SctpSession.check_stream_timeouts s2 now /\
  SctpSession.route (SendCancel id) = Some [(SctpSession.ToSender, SendCancel id)] /\
  SctpSession.sender_match s2 (Some (SendCancel id)) now
    = Ok (SctpSession.send_message (SctpSession.with_streams s2 (delete id (SctpSession.streams s2))) (Cancel id)).
Proof.
  intros Hm H0 H1 Hl s2. split; [| split; reflexivity].
  assert (Hst : SctpSession.streams s1 !! id = Some (SctpStream.new (SctpSession.unnamed id) t0)).
  { cbn [SctpSession.sender_match] in Hm. injection Hm as Hm. apply (f_equal fst) in Hm. cbn [fst] in Hm.
    rewrite <- Hm, send_message_streams. apply lookup_insert_eq. }
  destruct (received_keeps s1 (l ++ [(serialize (EndFile id), t1)]) id _ Hst) as (st & Hst2 & Ht & Ha).
  apply timeouts_exact. exists st. split; [exact Hst2 |]. unfold SctpStream.is_timed_out. rewrite Ht.
  apply Z.ltb_lt. change (SctpStream.timeout _) with 10000000000.
  assert (Hlast : SctpStream.last_activity st + 10000000000 < now); [| lia].
  destruct Ha as [-> | Hin]; [exact H0 |]. rewrite fmap_app, elem_of_app in Hin.
  destruct Hin as [Hin | Hin]; [| apply list_elem_of_singleton in Hin as ->; exact H1].
  apply list_elem_of_fmap in Hin as (x & -> & Hx). rewrite Forall_forall in Hl. exact (Hl x Hx).
Qed.

(** A library whose association keeps what it is given *)
Module Loopback.
Record association : Type := Assoc { taken : list bytes; arrived : list bytes; pending : list assoc_event }.
#[global] Instance loopback_lib : SctpLib unit association unit := {|
  connect e := (e, Some (Assoc [] [] [Connected]));
  handle e _ := (e, None);
  handle_event a _ := a;
  poll_timeout _ := None;
  handle_timeout a _ := a;
  write a p := (Assoc (taken a ++ [p]) (arrived a) (pending a), Written);
  poll_transmit a := (a, []);
  poll a := match pending a with ev :: r => (Assoc (taken a) (arrived a) r, Some ev) | [] => (a, None) end;
  read a _ := match arrived a with m :: r => (Assoc (taken a) r (pending a), Some m) | [] => (a, None) end |}.
End Loopback.

Definition accepting : SctpSession.t unit Loopback.association :=
  SctpSession.mk (Some (Loopback.Assoc [] [] [])) () ∅ [] true.
Definition accepted_at_zero : SctpSession.t unit Loopback.association :=
  match SctpSession.sender_match accepting (Some (SendAccept 5)) 0 with Ok (s, _) => s | _ => accepting end.

(** One chunk after a second, the end after two, and thirteen seconds on the clock *)
Lemma completed_download_is_cancelled_witness :
  SendCancel 5 ∈ SctpSession.check_stream_timeouts
    (received accepted_at_zero [(serialize (Chunk 5 0 [1]), 1000000000); (serialize (EndFile 5), 2000000000)])
    13000000000.
Proof.
  apply (completed_download_is_cancelled accepting accepted_at_zero [] 5 0 2000000000
    [(serialize (Chunk 5 0 [1]), 1000000000)] 13000000000);
    [vm_compute; reflexivity | lia | lia | apply Forall_singleton; cbn; lia].
Defined.
