(* ===== verification/SctpDebug.v ===== *)
(** * The summary of an SCTP packet (src/sctp/debug_utils.rs)

    [parse_sctp_packet_summary] walks over the chunks of a packet with a cursor and lists them for the
    log. The packets come from the peer: the walk ends on every one of them, after at most one turn per
    four octets, and on a packet that is laid out as the protocol says it lists exactly its chunks.

    The cursor is its position. The integer readers are [read_exact] of their width: one that fails
    leaves the position at the end of the packet, as [Cursor] does since Rust 1.80 (the crate needs 1.88,
    for its [let] chains). *)

From stdpp Require Import prelude strings.
From Stdlib Require Import ZArith Lia.
From S2P Require Import Prelude Utf8 Text.
Local Open Scope Z_scope.

Module Summary.
Definition size (p : bytes) : Z := Z.of_nat (length p).

(** [cursor.read_uN::<BigEndian>()] at a position: the integer, if there is one, and the new position *)
Definition read (p : bytes) (pos : Z) (n : nat) : option Z * Z :=
  if pos + Z.of_nat n <=? size p then (Some (from_be (take n (drop (Z.to_nat pos) p))), pos + Z.of_nat n)
  else (None, size p).
(** [cursor.seek(SeekFrom::Current(n))] *)
Definition seek (pos n : Z) : option Z := if (0 <=? pos + n) && (pos + n <? 2 ^ 64) then Some (pos + n) else None.

Definition data_text (tsn sid ssn : Z) : bytes :=
  lit "[DATA:TSN=" ++ dec tsn ++ lit ",SID=" ++ dec sid ++ lit ",SSN=" ++ dec ssn ++ lit "]".
(** The fields of a DATA chunk *)
Definition data (p : bytes) (pos : Z) : bytes * Z :=
  let '(tsn, pos) := read p pos 4 in
  match tsn with
  | None => ([], pos)
  | Some tsn =>
      let '(sid, pos) := read p pos 2 in
      match sid with
      | None => ([], pos)
      | Some sid =>
          let '(ssn, pos) := read p pos 2 in
          match ssn with
          | None => ([], pos)
          | Some ssn => (data_text tsn sid ssn, (read p pos 4).2)
          end
      end
  end.

Definition type_text (chunk_type : Z) : bytes :=
  if chunk_type =? 6 then lit "[ABORT]"
  else if chunk_type =? 7 then lit "[SHUTDOWN]"
  else if chunk_type =? 14 then lit "[SHUTDOWN_ACK]"
  else if chunk_type =? 1 then lit "[INIT]"
  else if chunk_type =? 2 then lit "[INIT_ACK]"
  else if chunk_type =? 3 then lit "[SACK]"
  else if chunk_type =? 4 then lit "[HEARTBEAT]"
  else if chunk_type =? 5 then lit "[HEARTBEAT_ACK]"
  else lit "[Type:" ++ dec chunk_type ++ lit "]".

Definition describe (p : bytes) (pos chunk_type chunk_length : Z) : bytes * Z :=
  if chunk_type =? 0 then if chunk_length <? 16 then (lit "[BadDataChunk]", pos) else data p pos
  else (type_text chunk_type, pos).

(** The state of the loop: position, summary and number of chunks *)
Inductive turn : Type := Next (pos : Z) (summary : bytes) (count : Z) | Break (summary : bytes) (count : Z).

(** The move to the next chunk *)
Definition advance (pos chunk_type chunk_length : Z) : option Z :=
  let remaining := chunk_length - 4 - (if chunk_type =? 0 then 12 else 0) in
  if remaining <? 0 then None
  else match seek pos remaining with
       | None => None
       | Some pos =>
           let padding := (4 - chunk_length mod 4) mod 4 in
           if 0 <? padding then seek pos padding else Some pos
       end.

Definition chunk (p : bytes) (pos : Z) (summary : bytes) (count : Z) : turn :=
  let '(chunk_type, pos) := read p pos 1 in
  match chunk_type with
  | None => Break summary count
  | Some chunk_type =>
      let '(flags, pos) := read p pos 1 in
      match flags with
      | None => Break summary count
      | Some _ =>
          let '(chunk_length, pos) := read p pos 2 in
          match chunk_length with
          | None => Break summary count
          | Some chunk_length =>
              if chunk_length <? 4 then Break (summary ++ lit "[BadChunkLen:" ++ dec chunk_length ++ lit "]") count
              else
                let '(text, pos) := describe p pos chunk_type chunk_length in
                match advance pos chunk_type chunk_length with
                | None => Break (summary ++ text) (count + 1)
                | Some pos => Next pos (summary ++ text) (count + 1)
                end
          end
      end
  end.

Fixpoint walk (fuel : nat) (p : bytes) (pos : Z) (summary : bytes) (count : Z) : option (bytes * Z) :=
  if pos <? size p then
    match fuel with
    | O => None
    | S fuel =>
        match chunk p pos summary count with
        | Break summary count => Some (summary, count)
        | Next pos summary count => walk fuel p pos summary count
        end
    end
  else Some (summary, count).

(** [None]: the loop did not end, which [summary_total] excludes. The number of chunks is an [i32]; it
    is at most a quarter of the size of the packet. *)
Definition parse_sctp_packet_summary (packet : bytes) : option bytes :=
  if size packet <? 12 then Some (lit "Invalid SCTP Packet (too short)")
  else '(summary, count) ← walk (length packet) packet 12 [] 0;
       let summary := if decide (summary = []) then lit "Empty/NoChunks" else summary in
       Some (lit "Count:" ++ dec count ++ lit " Details:" ++ summary).
End Summary.
Import Summary.

(** ** The walk ends *)
Lemma read_forward p pos n : (0 < n)%nat -> pos <= size p -> pos <= (read p pos n).2 <= size p.
Proof. unfold read. intros Hn Hp. case_match; cbn; lia. Qed.
Lemma data_forward p pos : pos <= size p -> pos <= (data p pos).2 <= size p.
Proof.
  intros H. unfold data.
  pose proof (read_forward p pos 4 ltac:(lia) H) as F1. destruct (read p pos 4) as [[tsn |] q1]; cbn in *; [| lia].
  pose proof (read_forward p q1 2 ltac:(lia) ltac:(lia)) as F2. destruct (read p q1 2) as [[sid |] q2]; cbn in *; [| lia].
  pose proof (read_forward p q2 2 ltac:(lia) ltac:(lia)) as F3. destruct (read p q2 2) as [[ssn |] q3]; cbn in *; [| lia].
  pose proof (read_forward p q3 4 ltac:(lia) ltac:(lia)) as F4. lia.
Qed.
Lemma advance_forward pos ty len pos' : advance pos ty len = Some pos' -> pos <= pos'.
Proof.
  unfold advance, seek. set (r := len - 4 - _). destruct (Z.ltb_spec r 0); [discriminate |]. intros H0.
  pose proof (Z.mod_pos_bound (4 - len mod 4) 4 ltac:(lia)).
  destruct ((0 <=? pos + r) && (pos + r <? 2 ^ 64)); [| discriminate].
  destruct (Z.ltb_spec 0 ((4 - len mod 4) mod 4)); [| injection H0; lia].
  destruct (_ && _) in H0; [injection H0; lia | discriminate].
Qed.
Lemma read_some p pos n v pos' : read p pos n = (Some v, pos') -> pos' = pos + Z.of_nat n /\ pos' <= size p.
Proof. unfold read. case_match; [intros [= _ <-]; lia | discriminate]. Qed.

(** A turn that goes on has read a header, a turn that ends has counted at most one chunk. *)
Lemma chunk_forward p pos s c :
  match chunk p pos s c with
  | Next pos' _ c' => pos + 4 <= pos' /\ pos + 4 <= size p /\ c' = c + 1
  | Break _ c' => c' = c \/ pos + 4 <= size p /\ c' = c + 1
  end.
Proof.
  unfold chunk. destruct (read p pos 1) as [[ty |] q1] eqn:E1; [| auto]. apply read_some in E1 as [E1 ?].
  destruct (read p q1 1) as [[fl |] q2] eqn:E2; [| auto]. apply read_some in E2 as [E2 ?].
  destruct (read p q2 2) as [[len |] q] eqn:E3; [| auto]. apply read_some in E3 as [E3 ?].
  destruct (len <? 4); [auto |].
  assert (Hd : q <= (describe p q ty len).2).
  { unfold describe. destruct (ty =? 0); [destruct (len <? 16) |]; cbn; try lia. apply data_forward. lia. }
  destruct (describe p q ty len) as [text q4]. cbn in Hd.
  destruct (advance q4 ty len) as [q5 |] eqn:Ea; [| lia]. apply advance_forward in Ea. lia.
Qed.
Lemma summary_walk_ends p : forall fuel pos s c, 0 <= pos -> 0 <= c -> size p - pos <= 4 * Z.of_nat fuel ->
  exists s' c', walk fuel p pos s c = Some (s', c') /\ 0 <= c' /\ 4 * (c' - c) <= Z.max 0 (size p - pos).
Proof.
  induction fuel as [| fuel IH]; intros pos s c Hp Hc Hf; cbn [walk]; (destruct (Z.ltb_spec pos (size p)); [| eauto with lia]); [lia |].
  pose proof (chunk_forward p pos s c) as Hn. destruct (chunk p pos s c) as [pos' s' c' | s' c'].
  - destruct (IH pos' s' c') as (s2 & c2 & -> & ? & ?); [lia.. |]. eexists _, _. split; [reflexivity | lia].
  - eexists _, _. split; [reflexivity | lia].
Qed.

(** The summary of any packet ends. *)
Theorem summary_total packet : exists text, parse_sctp_packet_summary packet = Some text.
Proof.
  unfold parse_sctp_packet_summary. destruct (size packet <? 12); [eauto |].
  destruct (summary_walk_ends packet (length packet) 12 [] 0) as (s & c & -> & _); [lia | lia | unfold size; lia |].
  eexists. reflexivity.
Qed.

(** ** Packets that are laid out as RFC 9260 says *)
Inductive sctp_chunk : Type :=
| Data (flags tsn sid ssn : Z) (ppi payload : bytes)
| Control (chunk_type flags : Z) (body : bytes).

Definition chunk_header (c : sctp_chunk) : Z * Z :=
  match c with Data flags _ _ _ _ _ => (0, flags) | Control ty flags _ => (ty, flags) end.
Definition chunk_body (c : sctp_chunk) : bytes :=
  match c with
  | Data _ tsn sid ssn ppi payload => to_be 4 tsn ++ to_be 2 sid ++ to_be 2 ssn ++ ppi ++ payload
  | Control _ _ body => body
  end.
Definition chunk_length (c : sctp_chunk) : Z := 4 + Z.of_nat (length (chunk_body c)).
Definition padding (c : sctp_chunk) : nat := Z.to_nat ((4 - chunk_length c mod 4) mod 4).
Definition encode_chunk (c : sctp_chunk) : bytes :=
  to_be 1 (chunk_header c).1 ++ to_be 1 (chunk_header c).2 ++ to_be 2 (chunk_length c) ++ chunk_body c ++ replicate (padding c) 0.
Definition chunk_text (c : sctp_chunk) : bytes :=
  match c with Data _ tsn sid ssn _ _ => data_text tsn sid ssn | Control ty _ _ => type_text ty end.
Definition chunk_ok (c : sctp_chunk) : Prop :=
  u8 (chunk_header c).1 /\ u8 (chunk_header c).2 /\ u16 (chunk_length c) /\
  match c with
  | Data _ tsn sid ssn ppi _ => u32 tsn /\ u16 sid /\ u16 ssn /\ length ppi = 4%nat
  | Control ty _ _ => ty <> 0
  end.

Lemma size_app a b : size (a ++ b) = size a + size b.
Proof. unfold size. rewrite length_app. lia. Qed.
Lemma size_to_be n v : size (to_be n v) = Z.of_nat n.
Proof. unfold size. rewrite length_to_be. reflexivity. Qed.
Lemma size_nonneg p : 0 <= size p.
Proof. unfold size. lia. Qed.
Lemma read_octets pre b r : read (pre ++ b ++ r) (size pre) (length b) = (Some (from_be b), size pre + size b).
Proof.
  unfold read. rewrite !size_app. pose proof (size_nonneg r).
  destruct (Z.leb_spec (size pre + Z.of_nat (length b)) (size pre + (size b + size r))) as [_ |]; [| unfold size in *; lia].
  change (Z.to_nat (size pre)) with (Z.to_nat (Z.of_nat (length pre))).
  rewrite Nat2Z.id, drop_app_length, take_app_length. reflexivity.
Qed.
(** Reading an integer where it was written; the text before it grows by it. *)
Lemma read_at p pre n v r pos : p = pre ++ to_be n v ++ r -> pos = size pre -> 0 <= v < 256 ^ Z.of_nat n ->
  read p pos n = (Some v, size (pre ++ to_be n v)).
Proof.
  intros -> -> Hv. rewrite <- (length_to_be n v) at 2. rewrite read_octets, from_be_to_be_small by exact Hv.
  rewrite size_app. reflexivity.
Qed.
Lemma data_at p pre tsn sid ssn ppi r :
  p = pre ++ to_be 4 tsn ++ to_be 2 sid ++ to_be 2 ssn ++ ppi ++ r -> u32 tsn -> u16 sid -> u16 ssn -> length ppi = 4%nat ->
  data p (size pre) = (data_text tsn sid ssn, size pre + 12).
Proof.
  intros Hp Ht Hs Hn Hl. unfold data.
  rewrite (read_at p pre 4 tsn _ _ Hp eq_refl) by (unfold u32 in Ht; lia).
  rewrite app_assoc in Hp. rewrite (read_at p _ 2 sid _ _ Hp eq_refl) by (unfold u16 in Hs; lia).
  rewrite app_assoc in Hp. rewrite (read_at p _ 2 ssn _ _ Hp eq_refl) by (unfold u16 in Hn; lia).
  rewrite app_assoc in Hp. rewrite Hp, <- Hl, read_octets. cbn [snd].
  rewrite !size_app, !size_to_be. unfold size at 2. rewrite Hl. f_equal. lia.
Qed.
Lemma advance_at pos ty len : 0 <= pos -> pos + 65539 < 2 ^ 64 -> 4 <= len < 65536 -> (ty = 0 -> 16 <= len) ->
  advance (pos + if ty =? 0 then 12 else 0) ty len = Some (pos + (len - 4) + (4 - len mod 4) mod 4).
Proof.
  intros Hp Hm Hl Ht. unfold advance, seek. pose proof (Z.mod_pos_bound (4 - len mod 4) 4 ltac:(lia)).
  set (k := if ty =? 0 then 12 else 0). assert (Hk : 0 <= k <= len - 4) by (unfold k; destruct (Z.eqb_spec ty 0); lia).
  destruct (Z.ltb_spec (len - 4 - k) 0); [lia |]. replace (pos + k + (len - 4 - k)) with (pos + (len - 4)) by lia.
  rewrite (proj2 (andb_true_iff _ _)) by lia. destruct (Z.ltb_spec 0 ((4 - len mod 4) mod 4)).
  - rewrite (proj2 (andb_true_iff _ _)) by lia. reflexivity.
  - f_equal. lia.
Qed.
Lemma chunk_at p pre c r s n : p = pre ++ encode_chunk c ++ r -> chunk_ok c -> size p + 65539 < 2 ^ 64 ->
  chunk p (size pre) s n = Next (size (pre ++ encode_chunk c)) (s ++ chunk_text c) (n + 1).
Proof.
  intros Hp (Hty & Hfl & Hlen & Hc) Hmax. pose proof (size_nonneg pre). unfold chunk.
  assert (Hs : size (pre ++ encode_chunk c) = size pre + chunk_length c + Z.of_nat (padding c)).
  { unfold encode_chunk, chunk_length. rewrite !size_app, !size_to_be. unfold size at 2 3. rewrite length_replicate. lia. }
  assert (Hle : size (pre ++ encode_chunk c) <= size p).
  { rewrite Hp, app_assoc, (size_app _ r). pose proof (size_nonneg r). lia. }
  unfold encode_chunk in Hp. rewrite <- !app_assoc in Hp.
  rewrite (read_at p pre 1 (chunk_header c).1 _ _ Hp eq_refl) by (unfold u8 in Hty; lia).
  rewrite app_assoc in Hp. rewrite (read_at p _ 1 (chunk_header c).2 _ _ Hp eq_refl) by (unfold u8 in Hfl; lia).
  rewrite app_assoc in Hp. rewrite (read_at p _ 2 (chunk_length c) _ _ Hp eq_refl) by (unfold u16 in Hlen; lia).
  rewrite app_assoc in Hp. set (q := ((pre ++ to_be 1 _) ++ _) ++ to_be 2 _) in *.
  assert (Hq : size q = size pre + 4) by (unfold q; rewrite !size_app, !size_to_be; lia).
  destruct (Z.ltb_spec (chunk_length c) 4); [unfold chunk_length in *; lia |].
  assert (Hd : describe p (size q) (chunk_header c).1 (chunk_length c)
             = (chunk_text c, size q + if (chunk_header c).1 =? 0 then 12 else 0)).
  { unfold describe. destruct c as [fl tsn sid ssn ppi payload | ty fl body]; cbn [chunk_header fst] in *.
    - destruct Hc as (? & ? & ? & ?). cbn [Z.eqb]. destruct (Z.ltb_spec (chunk_length (Data fl tsn sid ssn ppi payload)) 16) as [Hn |].
      + unfold chunk_length in Hn. cbn [chunk_body] in Hn. rewrite !length_app, !length_to_be in Hn. lia.
      + cbn [chunk_body] in Hp. rewrite <- !app_assoc in Hp. eapply data_at; eassumption.
    - destruct (Z.eqb_spec ty 0); [contradiction |]. rewrite Z.add_0_r. reflexivity. }
  rewrite Hd, advance_at; [| lia | | unfold u16 in Hlen; lia |].
  - rewrite Hs, Hq. unfold padding. f_equal. pose proof (Z.mod_pos_bound (4 - chunk_length c mod 4) 4 ltac:(lia)). lia.
  - lia.
  - intros E. destruct c; cbn in E, Hc; [| contradiction]. unfold chunk_length. cbn [chunk_body].
    rewrite !length_app, !length_to_be. lia.
Qed.
Lemma walk_at p s : forall cs fuel pre text n, p = pre ++ mjoin (encode_chunk <$> cs) -> Forall chunk_ok cs ->
  size p + 65539 < 2 ^ 64 -> (length cs <= fuel)%nat ->
  walk fuel p (size pre) (s ++ text) n = Some (s ++ text ++ mjoin (chunk_text <$> cs), n + Z.of_nat (length cs)).
Proof.
  induction cs as [| c cs IH]; intros fuel pre text n Hp Hok Hmax Hf.
  - cbn in Hp. rewrite app_nil_r in Hp. subst pre. cbn [walk fmap list_fmap mjoin list_join length].
    destruct fuel; cbn [walk]; rewrite Z.ltb_irrefl, app_nil_r, Z.add_0_r; reflexivity.
  - apply Forall_cons in Hok as [Hc Hok]. destruct fuel as [| fuel]; [cbn in Hf; lia |]. cbn [walk].
    rewrite fmap_cons in Hp |- *. cbn [mjoin list_join] in Hp |- *.
    rewrite (chunk_at p pre c _ _ _ Hp Hc Hmax). rewrite app_assoc in Hp.
    assert (Hlt : size pre < size p).
    { rewrite Hp, !size_app. unfold encode_chunk at 1. rewrite !size_app, !size_to_be. unfold size in *. lia. }
    destruct (Z.ltb_spec (size pre) (size p)); [| lia].
    rewrite <- (app_assoc s), (IH fuel _ (text ++ chunk_text c) _ Hp Hok Hmax) by (cbn in Hf; lia).
    rewrite <- app_assoc. cbn [length]. do 2 f_equal. lia.
Qed.

(** A packet made of a common header and chunks is summarized as exactly its chunks. *)
Theorem summary_exact header cs : length header = 12%nat -> Forall chunk_ok cs -> cs <> [] ->
  size (header ++ mjoin (encode_chunk <$> cs)) + 65539 < 2 ^ 64 ->
  parse_sctp_packet_summary (header ++ mjoin (encode_chunk <$> cs))
    = Some (lit "Count:" ++ dec (Z.of_nat (length cs)) ++ lit " Details:" ++ mjoin (chunk_text <$> cs)).
Proof.
  intros Hh Hok Hne Hmax. unfold parse_sctp_packet_summary. set (p := header ++ _) in *.
  assert (Hl : (length cs <= length p)%nat).
  { unfold p. rewrite length_app. transitivity (length (mjoin (encode_chunk <$> cs))); [| lia].
    clear. induction cs as [| c cs IH]; [cbn; lia |]. rewrite fmap_cons.
    change (mjoin (encode_chunk c :: (encode_chunk <$> cs))) with (encode_chunk c ++ mjoin (encode_chunk <$> cs)). rewrite length_app. unfold encode_chunk at 1.
    rewrite !length_app, !length_to_be. cbn [length]. lia. }
  destruct (Z.ltb_spec (size p) 12) as [Hs |]; [unfold p, size in Hs; rewrite length_app, Hh in Hs; lia |].
  change 12 with (Z.of_nat 12). rewrite <- Hh. fold (size header).
  pose proof (walk_at p [] cs (length p) header [] 0 eq_refl Hok Hmax Hl) as Hw. cbn [app] in Hw. rewrite Hw. cbn [mbind option_bind].
  rewrite decide_False; [reflexivity |]. destruct cs as [| c cs]; [contradiction |].
  rewrite fmap_cons. cbn [mjoin list_join]. intros [E _]%app_eq_nil. destruct c; cbn in E; [discriminate |].
  unfold type_text in E. repeat case_match; discriminate.
Qed.

(** A DATA chunk that is too short ends the summary, the chunks after it are not listed. *)
Example short_data_ends : parse_sctp_packet_summary (replicate 12 0 ++ [0; 0; 0; 8; 1; 2; 3; 4] ++ [6; 0; 0; 4])
  = Some (lit "Count:1 Details:[BadDataChunk]").
Proof. vm_compute. reflexivity. Qed.
