(* ===== verification/FileTransfer.v ===== *)
(** * File transfer (src/file_handler, core/events.rs)

    The listener of [FileHandler] and its reader and writer workers. Each function is one turn of
    one thread; the messages it sends on its channels are its result, and the results of file
    operations are arguments. *)

From stdpp Require Import prelude gmap strings.
From Stdlib Require Import ZArith Lia.
From S2P Require Import Prelude Utf8 Text RecvStream RtpSession Net Config Sctp.
Local Open Scope Z_scope.

(** ** Events *)
Module LogLevel.
Inductive t : Type := Trace | Debug | Info | Warn | Error.
End LogLevel.
Module LogMsg.
Record t : Type := mk { level : LogLevel.t; ts_ms : Z; text : bytes; target : bytes }.
End LogMsg.
Module EngineEvent.
Inductive t : Type :=
| Status (s : bytes)
| Log (msg : LogMsg.t)
| IceNominated (local remote : SocketAddr.t)
| Established
| Closing (graceful : bool)
| Closed
| Error (s : bytes)
| RtpIn (r : RtpIn.t)
| NetworkMetrics (m : NetworkMetrics.t)
| UpdateBitrate (bps : Z)
| SendFileOffer (p : SctpFileProperties.t)
| SendFileAccept (id : Z)
| SendFileReject (id : Z)
| SendFileCancel (id : Z)
| SendFileChunk (id : Z) (payload : bytes)
| SendFileEnd (id : Z)
| ReceivedFileOffer (p : SctpFileProperties.t)
| ReceivedFileAccept (id : Z)
| ReceivedFileReject (id : Z)
| ReceivedFileCancel (id : Z)
| ReceivedFileChunk (id seq : Z) (payload : bytes)
| ReceivedFileEnd (id : Z)
| UploadProgress (id current total : Z)
| DownloadProgress (id current : Z)
| ToggleAudio (mute : bool).
End EngineEvent.

Module ReaderCommands.
Inductive t : Type := GetChunk | Cancel.
End ReaderCommands.
Module WriterCommands.
Inductive t : Type := WriteChunk (payload : bytes) | Cancel.
End WriterCommands.
Module FileHandlerEvents.
Inductive t : Type :=
| ReadFile (path : bytes) (id : Z)
| WriteFile (filename : bytes) (id : Z)
| GetChunk (id : Z)
| ReadChunk (id : Z) (payload : bytes)
| WriteChunk (id : Z) (payload : bytes)
| RemoteAccepted (id : Z)
| ReaderWorkerFinished (id : Z)
| WriterWorkerFinished (id : Z)
| UploadProgress (id current total : Z)
| DownloadProgress (id current : Z)
| Cancel (id : Z)
| Err (e : bytes)
| DrainChunks.
End FileHandlerEvents.

(** ** Paths (Unix): [Path::file_name] and [Path::join] *)
Definition components (p : bytes) : list bytes :=
  filter (fun c => c <> [] /\ c <> lit ".") (split_char 47 p).
Definition file_name (p : bytes) : option bytes :=
  match last (components p) with
  | Some c => if decide (c = lit "..") then None else Some c
  | None => None
  end.
Definition path_join (base f : bytes) : bytes :=
  if decide (head f = Some 47) then f
  else if decide (base = [] \/ last base = Some 47) then base ++ f
  else base ++ lit "/" ++ f.

(** ** The reader worker *)
Module ReaderWorker.
Definition CHUNK_SIZE : Z := 16384.
Record t : Type := mk { id : Z; file_size : Z; total_read : Z }.
(** [size] is the length in the metadata of the open file. *)
Definition new (id : Z) (size : Z) : t := mk id size 0.

(** One command; [read] is the result of reading into the buffer. [None]: the worker stops. *)
Definition step (w : t) (cmd : ReaderCommands.t) (read : outcome bytes bytes) : option t * list FileHandlerEvents.t :=
  match cmd with
  | ReaderCommands.GetChunk =>
      match read with
      | Ok [] => (None, [FileHandlerEvents.ReadChunk (id w) []; FileHandlerEvents.ReaderWorkerFinished (id w)])
      | Ok d =>
          let total := total_read w + Z.of_nat (length d) in
          (Some (mk (id w) (file_size w) total),
           [FileHandlerEvents.UploadProgress (id w) total (file_size w); FileHandlerEvents.ReadChunk (id w) d])
      | Err e => (Some w, [FileHandlerEvents.Err e])
      | Panic => (None, [])
      end
  | ReaderCommands.Cancel => (None, [])
  end.
End ReaderWorker.

(** ** The writer worker *)
Module WriterWorker.
(** [content] is what has been handed to the buffered writer. *)
Record t : Type := mk { id : Z; path : bytes; content : bytes; total_written : Z }.
Definition new (id : Z) (path : bytes) : t := mk id path [] 0.

Inductive received : Type := Command (c : WriterCommands.t) | Timeout | Disconnected.
(** What becomes of the file when the worker stops *)
Inductive fate : Type := Kept (path content : bytes) | Removed (path : bytes).

(** [io]: the result of the flush or the write *)
Definition step (w : t) (r : received) (io : outcome bytes unit) : (t + fate) * list FileHandlerEvents.t :=
  match r with
  | Command (WriterCommands.WriteChunk []) =>
      match io with
      | Err e => (inr (Removed (path w)), [FileHandlerEvents.Err e])
      | _ => (inr (Kept (path w) (content w)), [FileHandlerEvents.WriterWorkerFinished (id w)])
      end
  | Command (WriterCommands.WriteChunk payload) =>
      match io with
      | Err e => (inr (Removed (path w)), [FileHandlerEvents.Err e])
      | _ =>
          let total := total_written w + Z.of_nat (length payload) in
          (inl (mk (id w) (path w) (content w ++ payload) total), [FileHandlerEvents.DownloadProgress (id w) total])
      end
  | Command WriterCommands.Cancel | Timeout | Disconnected => (inr (Removed (path w)), [])
  end.
End WriterWorker.

(** ** The listener *)
Module FileHandler.
Inductive worker : Type := Reader | Writer.
#[export] Instance worker_eq_dec : EqDecision worker.
Proof. solve_decision. Defined.
Record t : Type := mk { workers : gmap Z worker; active_readers : gset Z }.
Definition new : t := mk ∅ ∅.

Inductive output : Type :=
| ToEngine (e : EngineEvent.t)
| ToListener (e : FileHandlerEvents.t)
| ToReader (id : Z) (c : ReaderCommands.t)
| ToWriter (id : Z) (c : WriterCommands.t)
| SpawnReader (id : Z) (path : bytes)
| SpawnWriter (id : Z) (path : bytes).

(** What the file system answers: the size of the file, the results of opening it, of creating the
    parent directory (when there is one) and of creating the file *)
Record fs : Type := Fs {
  metadata_len : option Z;
  opened : outcome bytes unit;
  parent_created : outcome bytes unit;
  created : outcome bytes unit }.

Definition read_file (s : t) (path : bytes) (id : Z) (e : fs) : t * list output :=
  let name := default (lit "unknown") (file_name path) in
  let size := default 0 (metadata_len e) in
  match opened e with
  | Err err => (s, [ToListener (FileHandlerEvents.Err err)])
  | _ => (mk (<[id := Reader]> (workers s)) (active_readers s),
          [SpawnReader id path; ToEngine (EngineEvent.SendFileOffer (SctpFileProperties.mk name size id))])
  end.

Definition write_file (config : Config.t) (s : t) (filename : bytes) (id : Z) (e : fs) : t * list output :=
  let storage := Config.get_non_empty_or_default config (lit "file_handler") (lit "storage_path") (lit "./downloads") in
  let full_path := path_join storage filename in
  match parent_created e with
  | Err err => (s, [ToListener (FileHandlerEvents.Err err)])
  | _ =>
      match created e with
      | Err err => (s, [ToListener (FileHandlerEvents.Err err)])
      | _ => (mk (<[id := Writer]> (workers s)) (active_readers s), [SpawnWriter id full_path])
      end
  end.

Definition get_chunk (s : t) (id : Z) : list output :=
  match workers s !! id with Some Reader => [ToReader id ReaderCommands.GetChunk] | _ => [] end.
Definition write_chunk (s : t) (id : Z) (payload : bytes) : list output :=
  match workers s !! id with Some Writer => [ToWriter id (WriterCommands.WriteChunk payload)] | _ => [] end.

Definition reader_finished (s : t) (id : Z) : t * list output :=
  (mk (delete id (workers s)) (active_readers s ∖ {[id]}), [ToEngine (EngineEvent.SendFileEnd id)]).
Definition writer_finished (s : t) (id : Z) : t * list output :=
  (mk (delete id (workers s)) (active_readers s),
   [ToEngine (EngineEvent.Status (lit "File download complete: " ++ dec id))]).

Definition cancel_order (id : Z) (w : worker) : output :=
  match w with
  | Reader => ToReader id ReaderCommands.Cancel
  | Writer => ToWriter id WriterCommands.Cancel
  end.
Definition cancel (s : t) (id : Z) : t * list output :=
  (mk (delete id (workers s)) (active_readers s ∖ {[id]}),
   match workers s !! id with Some w => [cancel_order id w] | None => [] end).

Definition drain_chunks (s : t) : list output :=
  (fun x => ToReader x.1 ReaderCommands.GetChunk) <$>
    filter (fun x => x.2 = Reader /\ x.1 ∈ active_readers s) (map_to_list (workers s)).

Definition on_event (config : Config.t) (s : t) (event : FileHandlerEvents.t) (e : fs) : t * list output :=
  match event with
  | FileHandlerEvents.ReadFile path id => read_file s path id e
  | FileHandlerEvents.RemoteAccepted id => (mk (workers s) ({[id]} ∪ active_readers s), [])
  | FileHandlerEvents.WriteFile filename id => write_file config s filename id e
  | FileHandlerEvents.GetChunk id => (s, get_chunk s id)
  | FileHandlerEvents.ReadChunk id payload => (s, [ToEngine (EngineEvent.SendFileChunk id payload)])
  | FileHandlerEvents.WriteChunk id payload => (s, write_chunk s id payload)
  | FileHandlerEvents.ReaderWorkerFinished id => reader_finished s id
  | FileHandlerEvents.WriterWorkerFinished id => writer_finished s id
  | FileHandlerEvents.Cancel id => cancel s id
  | FileHandlerEvents.Err err => (s, [ToEngine (EngineEvent.Error (lit "FileHandler: " ++ err))])
  | FileHandlerEvents.DrainChunks => (s, drain_chunks s)
  | FileHandlerEvents.UploadProgress id current total => (s, [ToEngine (EngineEvent.UploadProgress id current total)])
  | FileHandlerEvents.DownloadProgress id current => (s, [ToEngine (EngineEvent.DownloadProgress id current)])
  end.

(** The handle: [FileHandler::send] hands an event to the listener, [open] whether the handle still has
    its sender, [alive] whether the listener still receives. *)
Definition send (open alive : bool) (event : FileHandlerEvents.t) : outcome bytes (list FileHandlerEvents.t) :=
  if open then if alive then Ok [event] else Err (lit "sending on a closed channel")
  else Err (lit "FileHandler is shut down").

(** Every worker is cancelled, and the sender of the handle is dropped. *)
Definition shutdown (s : t) : t * bool * list output :=
  (mk ∅ (active_readers s), false, (fun x => cancel_order x.1 x.2) <$> map_to_list (workers s)).
End FileHandler.
