(* ===== verification/SigTransport.v ===== *)
(** * Signaling connections (src/signaling: transport.rs, signaling_server.rs, run.rs;
      src/signaling_client)

    The threads at the two ends of a signaling connection, over a stream that is delivered in
    pieces and whose reads can time out. *)

From stdpp Require Import prelude gmap strings.
From Stdlib Require Import ZArith Lia.
From S2P Require Import Prelude Utf8 Config SigProtocol SigState SigLoop UserStore FileTransfer.
Local Open Scope Z_scope.

(** ** Streams *)
Module ErrorKind.
Inductive t : Type := TimedOut | WouldBlock | Interrupted | UnexpectedEof | InvalidInput | InvalidData | Other.
#[global] Instance t_eq_dec : EqDecision t.
Proof. solve_decision. Defined.
End ErrorKind.
Record io_error : Type := IoError { kind : ErrorKind.t; message : bytes }.
Inductive frame_error : Type := Io (e : io_error) | Proto (e : ProtoError).

(** What the reads of a stream will give, in order: octets that arrive together, or an error. At
    the end of the list the peer has closed the connection. *)
Inductive item : Type := Octets (bs : bytes) | Failed (e : io_error).
Definition tape : Type := list item.
Definition unexpected_eof : io_error := IoError ErrorKind.UnexpectedEof (lit "failed to fill whole buffer").

(** [Read::read_exact]: retries after an interruption; after any other error the octets already
    read are gone. *)
Fixpoint fill (n : nat) (t : tape) : tape * outcome io_error bytes :=
  match n, t with
  | O, _ => (t, Ok [])
  | _, [] => ([], Err unexpected_eof)
  | _, Failed e :: t => if decide (kind e = ErrorKind.Interrupted) then fill n t else (t, Err e)
  | _, Octets bs :: t =>
      if (n <=? length bs)%nat then (Octets (drop n bs) :: t, Ok (take n bs))
      else let '(t, r) := fill (n - length bs) t in (t, bs' ← r; Ok (bs ++ bs'))
  end.

(** Reading: the stream is passed along. *)
Definition reader (A : Type) : Type := tape -> tape * outcome frame_error A.
#[export] Instance reader_ret : MRet reader := fun A v t => (t, Ok v).
#[export] Instance reader_bind : MBind reader := fun A B k m t =>
  match m t with
  | (t, Ok a) => k a t
  | (t, Err e) => (t, Err e)
  | (t, Panic) => (t, Panic)
  end.
Definition read_exact (n : nat) : reader bytes := fun t => let '(t, r) := fill n t in (t, map_err Io r).
Definition lift {A} (o : outcome ProtoError A) : reader A := fun t => (t, map_err Proto o).

Definition read_frame (max_body : Z) : reader (MsgType.t * bytes) :=
  header ← read_exact 8;
  ver ← lift (get_idx header 0);
  if negb (ver =? PROTO_VERSION) then lift (Err (InvalidFormat "bad proto version"))
  else
    b ← lift (get_idx header 1);
    msg_type ← lift (MsgType.from_u8 b);
    len ← lift (read_be 4 header 4);
    if max_body <? len then lift (Err TooLarge)
    else body ← read_exact (Z.to_nat len); mret (msg_type, body).
Definition read_msg : reader SignalingMsg :=
  '(msg_type, body) ← read_frame MAX_BODY_LEN; lift (decode_msg msg_type body).

(** How the writes of a frame fail: with an error, after the stream has taken some octets *)
Record fault : Type := Fault { error : io_error; taken : nat }.
(** [write_all] and [flush] of a frame; [io]: how they fail, if they do. The octets that reach the
    stream, and the result *)
Definition write_frame (msg_type : MsgType.t) (body : bytes) (io : option fault) : bytes * outcome io_error unit :=
  if 4294967295 <? Z.of_nat (length body) then ([], Err (IoError ErrorKind.InvalidInput (lit "body too large")))
  else
    let frame := [PROTO_VERSION; MsgType.as_u8 msg_type; 0; 0] ++ to_be 4 (Z.of_nat (length body)) ++ body in
    match io with
    | Some f => (take (taken f) frame, Err (error f))
    | None => (frame, Ok ())
    end.
Definition write_msg (msg : SignalingMsg) (io : option fault) : bytes * outcome frame_error unit :=
  match encode_msg msg with
  | Ok (msg_type, body) => let '(w, r) := write_frame msg_type body io in (w, map_err Io r)
  | Err e => ([], Err (Proto e))
  | Panic => ([], Panic)
  end.

Definition no_data (e : io_error) : bool :=
  bool_decide (kind e = ErrorKind.TimedOut) || bool_decide (kind e = ErrorKind.WouldBlock)
  || bool_decide (kind e = ErrorKind.Interrupted).

(** ** The server's end *)
Module ServerConn.
(** What a turn finds: the messages queued for the client, whether the channel is closed once they
    are taken, the errors of the writes, and whether the server loop still takes events *)
Record env : Type := Env { queue : list SignalingMsg; closed : bool; io : nat -> option fault; server : bool }.

(** The octets written and, when the thread ends here, its last event *)
Fixpoint drain (c : ClientId) (queue : list SignalingMsg) (closed : bool) (io : nat -> option fault)
  : bytes * option (list ServerEvent) :=
  match queue with
  | [] => ([], if closed then Some [Disconnected c] else None)
  | m :: queue =>
      match write_msg m (io 0%nat) with
      | (w, Ok _) => let '(ws, stop) := drain c queue closed (fun i => io (S i)) in (w ++ ws, stop)
      | (w, _) => (w, Some [Disconnected c])
      end
  end.
(** One turn of the loop: the stream, the octets written, the events, and whether it goes on *)
Definition turn (c : ClientId) (e : env) (t : tape) : tape * bytes * list ServerEvent * bool :=
  match drain c (queue e) (closed e) (io e) with
  | (ws, Some evs) => (t, ws, if server e then evs else [], false)
  | (ws, None) =>
      let '(t, r) := read_msg t in
      match r with
      | Ok msg => if server e then (t, ws, [MsgFromClient c msg], true) else (t, ws, [], false)
      | Err (Io err) =>
          if no_data err then (t, ws, [], true) else (t, ws, if server e then [Disconnected c] else [], false)
      | _ => (t, ws, if server e then [Disconnected c] else [], false)
      end
  end.
Fixpoint loop (c : ClientId) (es : list env) (t : tape) : bytes * list ServerEvent * option tape :=
  match es with
  | [] => ([], [], Some t)
  | e :: es =>
      let '(t, ws, evs, continue) := turn c e t in
      if continue then let '(ws', evs', r) := loop c es t in (ws ++ ws', evs ++ evs', r)
      else (ws, evs, None)
  end.
(** [spawn_tls_connection_thread]; the octets written, the events in order, and the stream while
    the thread lives *)
Definition run (c : ClientId) (es : list env) (t : tape) : bytes * list ServerEvent * option tape :=
  let '(ws, evs, r) := loop c es t in (ws, RegisterClient c :: evs, r).

(** The plain TCP variant: a thread that reads, *)
Fixpoint reader_thread (c : ClientId) (n : nat) (t : tape) : list ServerEvent * option tape :=
  match n with
  | O => ([], Some t)
  | S n =>
      match read_msg t with
      | (t, Ok msg) => let '(evs, r) := reader_thread c n t in (MsgFromClient c msg :: evs, r)
      | (t, _) => ([Disconnected c], None)
      end
  end.
(** and a thread that writes until its first error *)
Fixpoint writer_thread (queue : list SignalingMsg) (io : nat -> option fault) : bytes :=
  match queue with
  | [] => []
  | m :: queue =>
      match write_msg m (io 0%nat) with
      | (w, Ok _) => w ++ writer_thread queue (fun i => io (S i))
      | (w, _) => w
      end
  end.
End ServerConn.

(** ** The client's end *)
Module SignalingCommand.
Inductive t : Type := Send (msg : SignalingMsg) | Disconnect.
End SignalingCommand.
Module SignalingEvent.
Inductive t : Type := Connected | Disconnected | Error (e : bytes) | ServerMsg (msg : SignalingMsg).
End SignalingEvent.
Module SignalingClientError.
Inductive t : Type := Io (e : bytes) | Frame (e : bytes) | Poisoned | Disconnected.
(** [Frame] holds the debug text of its error. *)
Definition to_string (e : t) : bytes :=
  match e with
  | Io e => lit "IO error: " ++ e
  | Frame e => lit "protocol error: " ++ e
  | Poisoned => lit "stream lock poisoned"
  | Disconnected => lit "signaling client disconnected"
  end.
End SignalingClientError.

Module SignalingClient.
Definition CLIENT_VERSION : bytes := lit "rustyrtc-gui-0.1".
Definition PING_INTERVAL_SECS : Z := 5.
Definition TIMEOUT_SECS : Z := 15.
Definition seconds (s : Z) : Z := s * 1000000000.

(** The heartbeat; instants in nanoseconds *)
Record t : Type := mk { last_seen : Z; next_ping : Z; nonce : Z }.

(** What a turn finds: the commands queued, whether their sender is gone, the errors of the writes,
    whether the events are still received, and the clock when a message has been read and after *)
Record env : Type := Env {
  cmds : list SignalingCommand.t; cmds_closed : bool; io : nat -> option fault; events_open : bool;
  t_read : Z; t_now : Z }.

Section debug.
(** The debug text of errors *)
Context (debug : frame_error -> bytes) (debug_proto : ProtoError -> bytes).

Definition error_text (e : outcome frame_error unit) : list SignalingEvent.t :=
  match e with
  | Err (Io ioe) => [SignalingEvent.Error (message ioe)]
  | Err (Proto err) => [SignalingEvent.Error (lit "protocol error: " ++ debug_proto err)]
  | _ => []
  end.

(** The commands: octets written, events, and whether the loop ends; [k] writes were made. *)
Fixpoint drain (cmds : list SignalingCommand.t) (closed : bool) (io : nat -> option fault)
  : bytes * list SignalingEvent.t * option (nat -> option fault) :=
  match cmds with
  | [] => ([], [], if closed then None else Some io)
  | SignalingCommand.Send msg :: cmds =>
      match write_msg msg (io 0%nat) with
      | (w, Ok _) => let '(ws, evs, r) := drain cmds closed (fun i => io (S i)) in (w ++ ws, evs, r)
      | (w, r) => (w, error_text r, None)
      end
  | SignalingCommand.Disconnect :: _ => ([], [], None)
  end.

(** The heartbeat at [now] *)
Definition heartbeat (s : t) (now : Z) (io : nat -> option fault) : bytes * list SignalingEvent.t * option t :=
  if seconds TIMEOUT_SECS <? Z.max 0 (now - last_seen s) then
    ([], [SignalingEvent.Error (lit "signaling heartbeat timeout")], None)
  else if next_ping s <=? now then
    match write_msg (Ping (nonce s)) (io 0%nat) with
    | (w, Ok _) => (w, [], Some (mk (last_seen s) (now + seconds PING_INTERVAL_SECS) (wrap64 (nonce s + 1))))
    | (w, r) => (w, error_text r, None)
    end
  else ([], [], Some s).

(** One turn: the stream, the octets written, the events sent (received or not), and the state unless
    the loop ends *)
Definition turn (s : t) (e : env) (tp : tape) : tape * bytes * list SignalingEvent.t * option t :=
  match drain (cmds e) (cmds_closed e) (io e) with
  | (ws, evs, None) => (tp, ws, evs, None)
  | (ws, evs, Some io) =>
      let '(tp, r) := read_msg tp in
      let go (s : t) (evs : list SignalingEvent.t) :=
        let '(ws', evs', s) := heartbeat s (t_now e) io in (tp, ws ++ ws', evs ++ evs', s) in
      match r with
      | Ok msg =>
          if events_open e then go (mk (t_read e) (next_ping s) (nonce s)) (evs ++ [SignalingEvent.ServerMsg msg])
          else (tp, ws, evs, None)
      | Err (Io err) => if no_data err then go s evs else (tp, ws, evs ++ [SignalingEvent.Error (message err)], None)
      | Err (Proto err) => (tp, ws, evs ++ [SignalingEvent.Error (lit "protocol error: " ++ debug_proto err)], None)
      | Panic => (tp, ws, evs, None)
      end
  end.
Fixpoint loop (s : t) (es : list env) (tp : tape) : bytes * list SignalingEvent.t * option (t * tape) :=
  match es with
  | [] => ([], [], Some (s, tp))
  | e :: es =>
      let '(tp, ws, evs, r) := turn s e tp in
      match r with
      | Some s => let '(ws', evs', r) := loop s es tp in (ws ++ ws', evs ++ evs', r)
      | None => (ws, evs ++ [SignalingEvent.Disconnected], None)
      end
  end.
(** [spawn_network_thread]; [hello]: the error of the first write; [t0], [t1]: the clock after it *)
Definition run (hello : option fault) (t0 t1 : Z) (es : list env) (tp : tape)
  : bytes * list SignalingEvent.t * option (t * tape) :=
  match write_msg (Hello CLIENT_VERSION) hello with
  | (w, Ok _) =>
      let '(ws, evs, r) := loop (mk t0 (t1 + seconds PING_INTERVAL_SECS) 1) es tp in
      (w ++ ws, SignalingEvent.Connected :: evs, r)
  | (w, Err e) => (w, [SignalingEvent.Error (lit "hello failed: " ++ debug e); SignalingEvent.Disconnected], None)
  | (w, Panic) => (w, [], None)
  end.

(** The application's calls, on the queue of commands while the thread lives *)
Definition send (queue : option (list SignalingCommand.t)) (msg : SignalingMsg)
  : option (list SignalingCommand.t) * outcome SignalingClientError.t unit :=
  match queue with
  | Some q => (Some (q ++ [SignalingCommand.Send msg]), Ok ())
  | None => (None, Err SignalingClientError.Disconnected)
  end.
Definition disconnect (queue : option (list SignalingCommand.t)) : option (list SignalingCommand.t) :=
  match queue with Some q => Some (q ++ [SignalingCommand.Disconnect]) | None => None end.
Definition try_recv (events : list SignalingEvent.t) : option SignalingEvent.t * list SignalingEvent.t :=
  match events with [] => (None, []) | e :: r => (Some e, r) end.
End debug.
End SignalingClient.

(** ** Certificates (tls_utils.rs, tls.rs)

    What [rustls_pemfile] finds in a file is an argument: certificates or errors in order, or items
    of which some are keys. *)
Module Tls.
Definition SIGNALING_DOMAIN : bytes := lit "signal.internal".
Inductive pem_item : Type := Pkcs1Key (k : bytes) | Pkcs8Key (k : bytes) | Sec1Key (k : bytes) | OtherItem.
Definition invalid_data (text : bytes) : io_error := IoError ErrorKind.InvalidData text.

(** [collect] into a [Result]: the values before the first error *)
Fixpoint collect {A} (l : list (outcome bytes A)) : outcome bytes (list A) :=
  match l with
  | [] => Ok []
  | Ok v :: l => vs ← collect l; Ok (v :: vs)
  | Err e :: _ => Err e
  | Panic :: _ => Panic
  end.
Definition load_certs (path : bytes) (file : outcome io_error (list (outcome bytes bytes))) : outcome io_error (list bytes) :=
  items ← map_err (fun e => IoError (kind e) (lit "opening cert " ++ path ++ lit ": " ++ message e)) file;
  certs ← map_err (fun e => invalid_data (lit "invalid certs: " ++ e)) (collect items);
  match certs with
  | [] => Err (invalid_data (lit "cert file did not contain any certificates"))
  | _ => Ok certs
  end.
Fixpoint first_key (path : bytes) (items : list (outcome bytes pem_item)) : outcome io_error bytes :=
  match items with
  | [] => Err (invalid_data (lit "no private key found in " ++ path))
  | Ok (Pkcs1Key key | Pkcs8Key key | Sec1Key key) :: _ => Ok key
  | Ok OtherItem :: items => first_key path items
  | Err e :: _ => Err (invalid_data (lit "key parse error: " ++ e))
  | Panic :: _ => Panic
  end.
Definition load_private_key (path : bytes) (file : outcome io_error (list (outcome bytes pem_item))) : outcome io_error bytes :=
  items ← map_err (fun e => IoError (kind e) (lit "opening key " ++ path ++ lit ": " ++ message e)) file;
  first_key path items.

(** The files by path *)
Definition load_signaling_certs (config : Config.t) (files : bytes -> outcome io_error (list (outcome bytes bytes))) :=
  let path := Config.get_non_empty_or_default config (lit "TLS") (lit "signaling_cert") (lit "certs/signaling/cert.pem") in
  load_certs path (files path).
Definition load_signaling_private_key (config : Config.t) (files : bytes -> outcome io_error (list (outcome bytes pem_item))) :=
  let path := Config.get_non_empty_or_default config (lit "TLS") (lit "signaling_key") (lit "certs/signaling/key.pem") in
  load_private_key path (files path).
Definition load_dtls_certs (config : Config.t) (files : bytes -> outcome io_error (list (outcome bytes bytes))) :=
  let path := Config.get_non_empty_or_default config (lit "TLS") (lit "dtls_cert") (lit "certs/dtls/cert.pem") in
  load_certs path (files path).
Definition load_dtls_private_key (config : Config.t) (files : bytes -> outcome io_error (list (outcome bytes pem_item))) :=
  let path := Config.get_non_empty_or_default config (lit "TLS") (lit "dtls_key") (lit "certs/dtls/key.pem") in
  load_private_key path (files path).

(** The trusted roots: those of the certificate authority that is part of the program; [add]: whether
    the store takes a certificate *)
Definition build_pinned_root_store (ca : list (outcome bytes bytes)) (add : bytes -> outcome bytes unit)
  : outcome io_error (list bytes) :=
  ca_certs ← map_err (fun e => invalid_data (lit "invalid CA PEM: " ++ e)) (collect ca);
  match ca_certs with
  | [] => Err (invalid_data (lit "mkcert CA PEM did not contain any certificates"))
  | _ => map_err (fun e => invalid_data (lit "bad CA cert: " ++ e))
           (collect ((fun c => _ ← add c; Ok c) <$> ca_certs))
  end.
(** The chain and the key of the server; [check]: whether they fit *)
Definition build_signaling_server_config (config : Config.t) (certs : bytes -> outcome io_error (list (outcome bytes bytes)))
    (keys : bytes -> outcome io_error (list (outcome bytes pem_item))) (check : list bytes -> bytes -> outcome bytes unit)
  : outcome io_error (list bytes * bytes) :=
  cs ← load_signaling_certs config certs;
  key ← load_signaling_private_key config keys;
  _ ← map_err (fun e => invalid_data (lit "TLS config error: " ++ e)) (check cs key);
  Ok (cs, key).
End Tls.

(** ** Accepting connections *)
Module SignalingServer.
(** [user_store_path]: [var] is the environment variable, [exe_dir] the directory of the program *)
Definition user_store_path (config : Config.t) (var exe_dir : option bytes) : bytes :=
  match Config.get_non_empty config (lit "Signaling") (lit "database_path") with
  | Some path => path
  | None =>
      match Config.not_empty var with
      | Some p => p
      | None => match exe_dir with Some dir => path_join dir (lit "users.db") | None => lit "users.db" end
      end
  end.

(** A connection: refused by the listener, without a TLS session, or good *)
Inductive incoming : Type := NotAccepted | NoTls | Accepted.
(** The accept loop: the numbers of the clients whose threads are spawned *)
Fixpoint accept (next_client_id : ClientId) (conns : list incoming) : list ClientId :=
  match conns with
  | [] => []
  | NotAccepted :: conns => accept next_client_id conns
  | NoTls :: conns => accept (next_client_id + 1) conns
  | Accepted :: conns => next_client_id :: accept (next_client_id + 1) conns
  end.
End SignalingServer.
