(* ===== verification/LinkTheory.v ===== *)
(** * Signaling connections, end to end

    What one end of a signaling connection writes, the other end reads as the same messages, however
    the octets are cut, as long as no read times out within a frame; and a silent server is
    detected. *)

From stdpp Require Import prelude gmap strings.
From Stdlib Require Import ZArith Lia.
From S2P Require Import Prelude Utf8 SigProtocol SigState SigLoop SigTransport.
Local Open Scope Z_scope.

(** ** Reading *)
Definition octets (t : tape) : bytes := mjoin ((fun i => match i with Octets bs => bs | Failed _ => [] end) <$> t).
Definition smooth (t : tape) : Prop :=
  Forall (fun i => match i with Octets _ => True | Failed e => kind e = ErrorKind.Interrupted end) t.

Lemma fill_smooth seg : smooth seg -> forall a b t, octets seg = a ++ b ->
  exists seg', fill (length a) (seg ++ t) = (seg' ++ t, Ok a) /\ smooth seg' /\ octets seg' = b.
Proof.
  induction 1 as [| i seg Hi Hseg IH]; intros a b t Ho.
  - destruct a; [| discriminate Ho]. exists []. destruct b; [| discriminate Ho].
    split; [destruct t; reflexivity | split; [constructor | reflexivity]].
  - destruct a as [| x a].
    { exists (i :: seg). split; [reflexivity |]. split; [constructor; assumption | exact Ho]. }
    change (octets (i :: seg)) with ((match i with Octets bs => bs | Failed _ => [] end) ++ octets seg) in Ho.
    remember (x :: a) as l eqn:El. assert (Hn : length l <> 0%nat) by (subst; discriminate). clear El x a.
    destruct (length l) as [| n] eqn:En; [contradiction |]. clear Hn. cbn [app fill]. destruct i as [bs | e].
    + destruct (Nat.leb_spec (S n) (length bs)) as [Hle | Hlt].
      * exists (Octets (drop (S n) bs) :: seg). assert (Ha : take (S n) bs = l).
        { transitivity (take (S n) (bs ++ octets seg)); [rewrite take_app_le by lia; reflexivity |].
          rewrite Ho, <- En. apply take_app_length. }
        rewrite Ha. split; [reflexivity |]. split; [constructor; [exact I | exact Hseg] |].
        change (drop (S n) bs ++ octets seg = b). rewrite <- drop_app_le by lia. rewrite Ho, <- En. apply drop_app_length.
      * assert (Hl : l = bs ++ drop (length bs) l).
        { rewrite <- (take_drop (length bs) l) at 1. f_equal. transitivity (take (length bs) (l ++ b)).
          - rewrite take_app_le by lia. reflexivity.
          - rewrite <- Ho. apply take_app_length. }
        destruct (IH (drop (length bs) l) b t) as (seg' & Hf & Hs & Hb).
        { rewrite Hl in Ho. rewrite <- app_assoc in Ho. apply app_inv_head in Ho. exact Ho. }
        exists seg'. rewrite length_drop, En in Hf. rewrite Hf. cbn [mbind outcome_bind]. rewrite <- Hl. auto.
    + rewrite decide_True by exact Hi. destruct (IH l b t Ho) as (seg' & Hf & H). rewrite En in Hf. eauto.
Qed.

Lemma read_exact_smooth seg a b t n : smooth seg -> octets seg = a ++ b -> length a = n ->
  exists seg', read_exact n (seg ++ t) = (seg' ++ t, Ok a) /\ smooth seg' /\ octets seg' = b.
Proof.
  intros Hs Ho <-. destruct (fill_smooth seg Hs a b t Ho) as (seg' & Hf & H).
  exists seg'. unfold read_exact. rewrite Hf. auto.
Qed.

(** A frame is read whatever its pieces. *)
Lemma read_msg_smooth m seg rest t : frame_wf m -> smooth seg -> octets seg = frame_of m ++ rest ->
  exists seg', read_msg (seg ++ t) = (seg' ++ t, Ok m) /\ smooth seg' /\ octets seg' = rest.
Proof.
  unfold frame_wf, MAX_BODY_LEN. intros [Hwf Hl] Hs Ho. rewrite frame_of_app in Ho.
  edestruct (read_exact_smooth seg _ _ t 8 Hs Ho) as (s1 & H1 & Hs1 & Ho1); [len |].
  destruct (read_exact_smooth s1 _ _ t (length (body_of m)) Hs1 Ho1 eq_refl) as (s2 & H2 & Hs2 & Ho2).
  exists s2. split; [| split; assumption]. unfold read_msg, read_frame. unfold mbind, reader_bind. rewrite H1. unfold lift.
  cbn [app get_idx expect lookup list_lookup map_err]. cbn [Z.eqb negb PROTO_VERSION Pos.eqb].
  rewrite from_as_u8. cbn [map_err].
  rewrite (read_be_skip 4 [PROTO_VERSION; MsgType.as_u8 (type_of m); 0; 0] (to_be 4 (Z.of_nat (length (body_of m))))) by len.
  rewrite <- (app_nil_r (to_be 4 _)). cbn [length Nat.sub]. rewrite read_be_here by ulia. cbn [map_err].
  unfold MAX_BODY_LEN. case_test; [lia |]. rewrite Nat2Z.id, H2. cbn [mret reader_ret].
  rewrite decode_msg_ok by exact Hwf. reflexivity.
Qed.

Lemma write_msg_frame m : frame_wf m -> write_msg m None = (frame_of m, Ok ()).
Proof.
  unfold frame_wf, MAX_BODY_LEN. intros [Hwf Hl]. unfold write_msg. rewrite encode_msg_ok by exact Hwf.
  unfold write_frame. case_test; [lia | reflexivity].
Qed.
Definition frames (ms : list SignalingMsg) : bytes := mjoin (frame_of <$> ms).
Lemma frames_app l1 l2 : frames (l1 ++ l2) = frames l1 ++ frames l2.
Proof. unfold frames. rewrite fmap_app, join_app. reflexivity. Qed.

(** ** The server's end *)
Module Server.
Import ServerConn.
(** A turn in which nothing goes wrong with the outgoing messages *)
Record quiet (e : env) : Prop := {
  q_queue : Forall frame_wf (queue e); q_open : closed e = false; q_io : forall i, io e i = None; q_server : server e = true }.

Lemma drain_quiet c q f : Forall frame_wf q -> (forall i, f i = None) -> drain c q false f = (frames q, None).
Proof.
  intros Hq. revert f. induction Hq as [| m q Hm _ IH]; intros f Hf; [reflexivity |]. cbn [drain].
  rewrite Hf, write_msg_frame by exact Hm. rewrite (IH (fun i => f (S i))) by auto. reflexivity.
Qed.
Lemma turn_quiet c e t : quiet e -> turn c e t =
  (let '(t, r) := read_msg t in
   match r with
   | Ok msg => (t, frames (queue e), [MsgFromClient c msg], true)
   | Err (Io err) => if no_data err then (t, frames (queue e), [], true) else (t, frames (queue e), [Disconnected c], false)
   | _ => (t, frames (queue e), [Disconnected c], false)
   end).
Proof. intros [Hq Hc Hi Hs]. unfold turn. rewrite Hc, drain_quiet, Hs by assumption. reflexivity. Qed.

(** What arrives between two pauses: whole frames, cut in any way, then a read that times out *)
Record burst : Type := Burst { seg : tape; msgs : list SignalingMsg; pause : io_error }.
Record burst_ok (b : burst) : Prop := {
  b_smooth : smooth (seg b); b_octets : octets (seg b) = frames (msgs b); b_wf : Forall frame_wf (msgs b);
  b_pause : no_data (pause b) = true /\ kind (pause b) <> ErrorKind.Interrupted }.
Definition arrival (bs : list burst) : tape := mjoin ((fun b => seg b ++ [Failed (pause b)]) <$> bs).
Definition turns (bs : list burst) : nat := sum_list ((fun b => S (length (msgs b))) <$> bs).

Lemma fill_paused n sg : smooth sg -> octets sg = [] -> forall e t, kind e <> ErrorKind.Interrupted ->
  fill (S n) (sg ++ Failed e :: t) = (t, Err e).
Proof.
  induction 1 as [| i sg Hi _ IH]; intros Ho e t He; cbn [app fill]; [rewrite decide_False by exact He; reflexivity |].
  destruct i as [[| x bs] | err]; [| discriminate Ho | rewrite decide_True by exact Hi; apply IH; assumption].
  cbn [length Nat.leb Nat.sub]. rewrite (IH Ho e t He). reflexivity.
Qed.
Lemma read_paused sg e t : smooth sg -> octets sg = [] -> kind e <> ErrorKind.Interrupted ->
  read_msg (sg ++ Failed e :: t) = (t, Err (Io e)).
Proof.
  intros Hs Ho He. unfold read_msg, read_frame, mbind, reader_bind, read_exact. rewrite (fill_paused 7 sg Hs Ho e t He). reflexivity.
Qed.

Lemma loop_burst c ms : Forall frame_wf ms -> forall sg es e t, smooth sg -> octets sg = frames ms ->
  no_data e = true -> kind e <> ErrorKind.Interrupted -> Forall quiet es -> length es = S (length ms) ->
  loop c es (sg ++ Failed e :: t) = (frames (mjoin (queue <$> es)), MsgFromClient c <$> ms, Some t).
Proof.
  induction 1 as [| m ms Hm _ IH]; intros sg es e t Hs Ho He Hk Hes Hl; destruct es as [| e1 es]; try discriminate Hl;
    apply Forall_cons in Hes as [He1 Hes]; cbn [loop]; rewrite turn_quiet by exact He1.
  - destruct es; [| discriminate Hl]. rewrite read_paused by assumption. rewrite He. cbn [loop app].
    cbn [fmap list_fmap mjoin list_join]. rewrite !app_nil_r. reflexivity.
  - destruct (read_msg_smooth m sg (frames ms) (Failed e :: t) Hm Hs Ho) as (sg' & Hr & Hs' & Ho'). rewrite Hr.
    rewrite (IH sg' es e t) by (assumption || (cbn [length] in Hl; lia)).
    cbn [fmap list_fmap mjoin list_join]. rewrite frames_app. reflexivity.
Qed.
Lemma loop_app c es1 es2 t ws evs t1 : loop c es1 t = (ws, evs, Some t1) ->
  loop c (es1 ++ es2) t = (let '(ws', evs', r) := loop c es2 t1 in (ws ++ ws', evs ++ evs', r)).
Proof.
  revert t ws evs. induction es1 as [| e es1 IH]; intros t ws evs H; cbn [loop app] in *.
  - injection H as <- <- <-. destruct (loop c es2 t) as [[]]. reflexivity.
  - destruct (turn c e t) as [[[t' w] ev] [|]]; [| discriminate H].
    destruct (loop c es1 t') as [[ws' evs'] r] eqn:E. injection H as <- <- ->. rewrite (IH t' ws' evs' E).
    destruct (loop c es2 t1) as [[]]. rewrite !app_assoc. reflexivity.
Qed.
Lemma loop_bursts c bs : Forall burst_ok bs -> forall es t, Forall quiet es -> length es = turns bs ->
  loop c es (arrival bs ++ t) = (frames (mjoin (queue <$> es)), MsgFromClient c <$> mjoin (msgs <$> bs), Some t).
Proof.
  induction 1 as [| b bs [Hs Ho Hw [Hn Hk]] _ IH]; intros es t Hes Hl.
  - destruct es; [reflexivity | discriminate Hl].
  - change (turns (b :: bs)) with (S (length (msgs b)) + turns bs)%nat in Hl.
    rewrite <- (take_drop (S (length (msgs b))) es) in Hes |- *. apply Forall_app in Hes as [H1 H2].
    change (arrival (b :: bs)) with ((seg b ++ [Failed (pause b)]) ++ arrival bs). rewrite <- !app_assoc. cbn [app].
    erewrite loop_app; [| apply (loop_burst c (msgs b)); [assumption .. | rewrite length_take; lia]].
    rewrite IH; [| exact H2 | rewrite length_drop; lia].
    rewrite fmap_app, join_app, frames_app. cbn [fmap list_fmap mjoin list_join]. rewrite fmap_app. reflexivity.
Qed.
End Server.

(** ** The client's end *)
Module Client.
Import SignalingClient.
Section debug.
Context (debug : frame_error -> bytes) (debug_proto : ProtoError -> bytes).

Definition sends (e : env) : list SignalingMsg :=
  omap (fun c => match c with SignalingCommand.Send m => Some m | SignalingCommand.Disconnect => None end) (cmds e).
(** A turn with messages to send and a connection that takes them *)
Record steady (e : env) : Prop := {
  s_cmds : Forall (fun c => exists m, c = SignalingCommand.Send m /\ frame_wf m) (cmds e);
  s_open : cmds_closed e = false; s_io : forall i, io e i = None }.

Lemma drain_steady l f : Forall (fun c => exists m, c = SignalingCommand.Send m /\ frame_wf m) l ->
  (forall i, f i = None) ->
  exists f', drain debug_proto l false f
    = (frames (omap (fun c => match c with SignalingCommand.Send m => Some m | _ => None end) l), [], Some f') /\
    forall i, f' i = None.
Proof.
  intros Hl. revert f. induction Hl as [| c l (m & -> & Hm) _ IH]; intros f Hf; [exists f; auto |]. cbn [drain].
  rewrite Hf, write_msg_frame by exact Hm. destruct (IH (fun i => f (S i)) (fun i => Hf (S i))) as (f' & E & Hf').
  exists f'. rewrite E. auto.
Qed.

(** The pings of a run, at most one a turn, numbered in order from [n] *)
Fixpoint numbered (n : Z) (ps : list (list Z)) : Prop :=
  match ps with
  | [] => True
  | p :: ps => (p = [] /\ numbered n ps) \/ (p = [n] /\ numbered (wrap64 (n + 1)) ps)
  end.
(** What a turn sends *)
Definition turn_msgs (e : env) (p : list Z) : list SignalingMsg := sends e ++ (Ping <$> p).

Lemma ping_wf n : u64 n -> frame_wf (Ping n).
Proof. intros H. split; [exact H |]. unfold MAX_BODY_LEN. cbn [body_of]. len. Qed.

Lemma heartbeat_steady s now f w evs s' : (forall i, f i = None) -> u64 (nonce s) ->
  heartbeat debug_proto s now f = (w, evs, Some s') ->
  (w = [] /\ nonce s' = nonce s) \/ (w = frames [Ping (nonce s)] /\ nonce s' = wrap64 (nonce s + 1)).
Proof.
  intros Hf Hn. unfold heartbeat. case_test; [discriminate |]. case_test.
  - rewrite Hf, write_msg_frame by apply ping_wf, Hn. intros [= <- _ <-]. right.
    split; [unfold frames; cbn [fmap list_fmap mjoin list_join]; rewrite app_nil_r; reflexivity | reflexivity].
  - intros [= <- _ <-]. auto.
Qed.
Lemma turn_steady s e tp tp' ws evs s' : steady e -> u64 (nonce s) ->
  turn debug_proto s e tp = (tp', ws, evs, Some s') ->
  (ws = frames (turn_msgs e []) /\ nonce s' = nonce s) \/
  (ws = frames (turn_msgs e [nonce s]) /\ nonce s' = wrap64 (nonce s + 1)).
Proof.
  intros [Hc Ho Hi] Hn. unfold turn. rewrite Ho. destruct (drain_steady (cmds e) (io e) Hc Hi) as (f & -> & Hf).
  fold (sends e). destruct (read_msg tp) as [t2 r].
  assert (Hgo : forall s0 ev0, nonce s0 = nonce s ->
    (let '(ws', evs', x) := heartbeat debug_proto s0 (t_now e) f in (t2, frames (sends e) ++ ws', ev0 ++ evs', x))
      = (tp', ws, evs, Some s') ->
    (ws = frames (turn_msgs e []) /\ nonce s' = nonce s) \/
    (ws = frames (turn_msgs e [nonce s]) /\ nonce s' = wrap64 (nonce s + 1))).
  { intros s0 ev0 E0. destruct (heartbeat debug_proto s0 (t_now e) f) as [[w ev] x] eqn:E. intros [= _ <- _ ->].
    apply heartbeat_steady in E as [[-> E] | [-> E]]; [| | exact Hf | rewrite E0; exact Hn]; unfold turn_msgs;
      rewrite !frames_app; [left | right]; rewrite E, E0; split; reflexivity. }
  destruct r as [msg | [err | err] |]; [| | discriminate ..].
  - destruct (events_open e); [apply (Hgo (mk (t_read e) (next_ping s) (nonce s)) ([] ++ [_]) eq_refl) | discriminate].
  - destruct (no_data err); [apply (Hgo s [] eq_refl) | discriminate].
Qed.

Lemma loop_steady es : Forall steady es -> forall s tp ws evs r, u64 (nonce s) ->
  loop debug_proto s es tp = (ws, evs, Some r) ->
  exists ps, length ps = length es /\ numbered (nonce s) ps /\ Forall (Forall u64) ps /\
    ws = frames (mjoin (zip_with turn_msgs es ps)).
Proof.
  induction 1 as [| e es He _ IH]; intros s tp ws evs r Hn; cbn [loop].
  - intros [= <- _ _]. exists []. split_and!; [reflexivity | exact I | constructor | reflexivity].
  - destruct (turn debug_proto s e tp) as [[[tp' w] ev] [s' |]] eqn:E; [| discriminate].
    destruct (loop debug_proto s' es tp') as [[ws' evs'] r'] eqn:El. intros [= <- _ ->].
    assert (Hw : u64 (wrap64 (nonce s + 1))) by (unfold u64, wrap64; apply Z.mod_pos_bound; lia).
    apply turn_steady in E; [| exact He | exact Hn]. destruct E as [[-> E] | [-> E]];
      (destruct (IH s' tp' ws' evs' r) as (ps & Hl & Hp & Hu & ->); [rewrite E; assumption | exact El |]); rewrite E in Hp.
    + exists ([] :: ps). cbn [length numbered zip_with mjoin list_join]. rewrite frames_app.
      split_and!; [lia | left; auto | constructor; [constructor | exact Hu] | reflexivity].
    + exists ([nonce s] :: ps). cbn [length numbered zip_with mjoin list_join]. rewrite frames_app.
      split_and!; [lia | right; auto | constructor; [constructor; [exact Hn | constructor] | exact Hu] | reflexivity].
Qed.

Lemma turn_msgs_wf es ps : Forall steady es -> Forall (Forall u64) ps -> Forall frame_wf (mjoin (zip_with turn_msgs es ps)).
Proof.
  intros Hes. revert ps. induction Hes as [| e es [He _ _] _ IH]; intros [| p ps] Hp; try constructor.
  apply Forall_cons in Hp as [Hp Hps]. cbn [zip_with mjoin list_join]. apply Forall_app. split; [| apply IH, Hps].
  apply Forall_app. split.
  - unfold sends. induction He as [| c l (m & -> & Hm) _ IHc]; [constructor |]. cbn [omap list_omap]. constructor; assumption.
  - apply Forall_fmap. eapply Forall_impl; [exact Hp |]. exact ping_wf.
Qed.

Lemma hello_wf : frame_wf (Hello CLIENT_VERSION).
Proof. split; [split; [reflexivity | vm_compute; discriminate] | vm_compute; discriminate]. Qed.

(** C8 A signaling connection delivers. While a client lives, whatever it reads, what it has written
    is its hello, the messages of its commands in order and its pings, numbered from 1; and a server
    thread to which these octets come, cut in any way and with pauses between frames but none within,
    gives the server loop exactly these messages in this order, and goes on. *)
Theorem signaling_link_delivers t0 t1 es tp ws evs r :
  Forall steady es -> run debug debug_proto None t0 t1 es tp = (ws, evs, Some r) ->
  exists ps, length ps = length es /\ numbered 1 ps /\
    let ms := Hello CLIENT_VERSION :: mjoin (zip_with turn_msgs es ps) in
    ws = frames ms /\
    forall c bs es' t, Forall Server.burst_ok bs -> mjoin (Server.msgs <$> bs) = ms ->
      Forall Server.quiet es' -> length es' = Server.turns bs ->
      ServerConn.run c es' (Server.arrival bs ++ t)
        = (frames (mjoin (ServerConn.queue <$> es')), RegisterClient c :: (MsgFromClient c <$> ms), Some t).
Proof.
  intros Hes. unfold run. rewrite write_msg_frame by apply hello_wf.
  destruct (loop debug_proto _ es tp) as [[ws' evs'] r'] eqn:E. intros [= <- _ ->].
  apply loop_steady in E as (ps & Hl & Hp & Hu & ->); [| exact Hes | cbn; ulia].
  exists ps. split; [exact Hl |]. split; [exact Hp |]. split; [reflexivity |].
  intros c bs es' t Hbs Hm Hq Hn. unfold ServerConn.run.
  rewrite (Server.loop_bursts c bs Hbs es' t Hq Hn), Hm. reflexivity.
Qed.
End debug.
End Client.

Module LinkDemo.
Import SignalingClient.
Definition no_text {A} (_ : A) : bytes := [].
Definition would_block : io_error := IoError ErrorKind.WouldBlock [].
Definition login : SignalingMsg := Login (lit "alice") (lit "secret").
Definition client_turn : env := Env [SignalingCommand.Send login] false (fun _ => None) true 0 (seconds 1).
Definition server_turn : ServerConn.env := ServerConn.Env [] false (fun _ => None) true.
(** The hello in two pieces, the second together with the login *)
Definition hello : bytes := frame_of (Hello CLIENT_VERSION).
Definition pieces : tape := [Octets (take 3 hello); Octets (drop 3 hello ++ frame_of login)].
Definition arriving : list Server.burst := [Server.Burst pieces [Hello CLIENT_VERSION; login] would_block].
End LinkDemo.
Import LinkDemo.

Lemma signaling_link_delivers_witness :
  exists ws evs r, SignalingClient.run no_text no_text None 0 0 [client_turn] [Failed would_block] = (ws, evs, Some r) /\
    ws = frames [Hello SignalingClient.CLIENT_VERSION; login] /\
    ServerConn.run 7 [server_turn; server_turn; server_turn] (Server.arrival arriving)
      = ([], [RegisterClient 7; MsgFromClient 7 (Hello SignalingClient.CLIENT_VERSION); MsgFromClient 7 login], Some []).
Proof.
  assert (Hl : frame_wf login).
  { split; [split; split; first [reflexivity | vm_compute; discriminate] | vm_compute; discriminate]. }
  do 3 eexists. split; [vm_compute; reflexivity |].
  edestruct (Client.signaling_link_delivers no_text no_text 0 0 [client_turn] [Failed would_block])
    as (ps & Hn & Hp & Hw & Hs); [| vm_compute; reflexivity |].
  { constructor; [| constructor]. split; [| reflexivity | reflexivity]. constructor; [exists login; auto | constructor]. }
  destruct ps as [| p [|]]; try discriminate Hn. destruct Hp as [[-> _] | [-> _]]; [| vm_compute in Hw; discriminate Hw].
  split; [vm_compute; reflexivity |]. specialize (Hs 7 arriving [server_turn; server_turn; server_turn] []).
  rewrite app_nil_r in Hs. rewrite Hs; [reflexivity | | reflexivity | | reflexivity].
  - constructor; [| constructor]. split; [| vm_compute; reflexivity | | split; [reflexivity | discriminate]].
    + repeat constructor.
    + constructor; [apply Client.hello_wf |]. constructor; [exact Hl | constructor].
  - repeat (constructor; [split; [constructor | reflexivity ..] |]). constructor.
Defined.

(** ** A silent server is detected *)
Import SignalingClient.

(** A turn without commands at [now] *)
Definition idle_turn (now : Z) : env := Env [] false (fun _ => None) true now now.

Lemma idle_step debug_proto s now tp : turn debug_proto s (idle_turn now) (Failed would_block :: tp)
  = let '(w, evs, s') := heartbeat debug_proto s now (fun _ => None) in (tp, w, evs, s').
Proof. unfold turn. cbn [idle_turn cmds cmds_closed drain io t_now]. reflexivity. Qed.

(** When nothing arrives, the client lives while at most fifteen seconds have passed since the last
    message, and ends with an error and a disconnection at its first turn after that. *)
Lemma silence_detected debug_proto times late s tp : u64 (nonce s) ->
  Forall (fun t => t - last_seen s <= seconds TIMEOUT_SECS) times -> seconds TIMEOUT_SECS < late - last_seen s ->
  exists ws, loop debug_proto s (idle_turn <$> (times ++ [late])) (((fun _ => Failed would_block) <$> (times ++ [late])) ++ tp)
    = (ws, [SignalingEvent.Error (lit "signaling heartbeat timeout"); SignalingEvent.Disconnected], None).
Proof.
  intros Hn Ht Hlate. assert (Hpos : 0 <= seconds TIMEOUT_SECS) by (unfold seconds, TIMEOUT_SECS; lia).
  revert s Hn Ht Hlate. induction times as [| t times IH]; intros s Hn Ht Hlate; cbn [app fmap list_fmap loop];
    rewrite idle_step; unfold heartbeat at 1.
  - exists []. destruct (Z.ltb_spec (seconds TIMEOUT_SECS) (Z.max 0 (late - last_seen s))); [reflexivity | lia].
  - apply Forall_cons in Ht as [H1 Ht]. destruct (Z.ltb_spec (seconds TIMEOUT_SECS) (Z.max 0 (t - last_seen s))); [lia |].
    destruct (next_ping s <=? t).
    + rewrite write_msg_frame by apply Client.ping_wf, Hn.
      edestruct (IH (mk (last_seen s) (t + seconds PING_INTERVAL_SECS) (wrap64 (nonce s + 1)))) as [ws ->];
        [unfold u64, wrap64; apply Z.mod_pos_bound; lia | assumption .. | eexists; reflexivity].
    + edestruct (IH s) as [ws ->]; [assumption .. | eexists; reflexivity].
Qed.

(** A read that times out within a frame is taken for no data: the octets read so far are lost, and
    the rest of the frame is read as the next one. Whoever chooses the contents of a message, such as
    the description in an offer, can so make its peer read a message of any sender. *)
Lemma stalled_frame_forges :
  let bye := Bye (lit "bob") (lit "alice") None in
  let offer := Offer 7 (lit "eve") (lit "alice") (frame_of bye) in
  let cut := (length (frame_of offer) - length (frame_of bye))%nat in
  let stalled := [Octets (take cut (frame_of offer)); Failed would_block; Octets (drop cut (frame_of offer)); Failed would_block] in
  let evs := (SignalingClient.run no_text no_text None 0 0 (idle_turn <$> [1; 2; 3]) stalled).1.2 in
  octets stalled = frame_of offer /\ evs = [SignalingEvent.Connected; SignalingEvent.ServerMsg bye].
Proof. vm_compute. split; reflexivity. Qed.
