(* ===== verification/ServerProcess.v ===== *)
(** * The running server (src/signaling: signaling_server.rs, transport.rs, runtime.rs together)

    The threads of the server process, interleaved in any way: the listener, which accepts connections
    and numbers them, one thread per connection, and the loop that owns the router. They share the
    channel of events and the channels of the connections. Whatever the interleaving, what the loop has
    done is a run of [ServerLoop], and what each connection has done is a run of [ServerConn]: the two
    models that the other files are about. *)

From stdpp Require Import prelude gmap strings.
From Stdlib Require Import ZArith Lia.
From S2P Require Import Prelude Utf8 Config SigProtocol SigState SigServer SigLoop UserStore FileTransfer SigTransport LinkTheory.
Local Open Scope Z_scope.

Definition client_of (ev : ServerEvent) : ClientId :=
  match ev with MsgFromClient c _ | Disconnected c | RegisterClient c => c end.
Definition events_of (c : ClientId) (evs : list ServerEvent) : list ServerEvent := filter (fun ev => client_of ev = c) evs.

(** ** What is written is frames *)
Lemma put_str16_inv buf x b : put_str16 buf x = Ok b -> b = buf ++ w_str x.
Proof. unfold put_str16, put_u16, w_str. case_test; [discriminate |]. intros [= <-]. rewrite <- app_assoc. reflexivity. Qed.
Lemma put_blob_any buf l : put_blob buf l = buf ++ w_blob l.
Proof.
  unfold put_blob, put_u32, w_blob. change (wrap32 ?v) with (v mod 256 ^ Z.of_nat 4).
  rewrite to_be_mod by lia. rewrite <- app_assoc. reflexivity.
Qed.
Lemma put_peers_inv l : forall buf b, put_peers buf l = Ok b -> b = buf ++ concat (w_peer <$> l).
Proof.
  induction l as [| [x st] l IH]; intros buf b H; cbn [put_peers] in H.
  - injection H as <-. cbn. rewrite app_nil_r. reflexivity.
  - bind_inv H. apply put_str16_inv in Hv as ->. apply IH in H as ->. unfold put_u8, w_peer. csimpl. rewrite <- !app_assoc. reflexivity.
Qed.
Lemma encode_msg_inv m ty body : encode_msg m = Ok (ty, body) -> ty = type_of m /\ body = body_of m.
Proof.
  destruct m; cbn [encode_msg]; intros H;
    repeat (bind_inv H; first [apply put_str16_inv in Hv as -> | idtac]);
    try (injection H as <- <-; unfold put_u8, put_u16, put_u64; rewrite ?put_blob_any, <- ?app_assoc; split; reflexivity).
  - destruct (65535 <? Z.of_nat (length peers)); [discriminate H |]. bind_inv H. apply put_peers_inv in Hv as ->.
    injection H as <- <-. split; reflexivity.
  - destruct reason; [apply put_str16_inv in Hv as -> | injection Hv as <-]; injection H as <- <-; unfold put_u16; rewrite <- ?app_assoc; split; reflexivity.
Qed.
Lemma write_msg_inv m f w r : write_msg m f = (w, r) -> w `prefix_of` frame_of m /\ (r = Ok () -> w = frame_of m).
Proof.
  unfold write_msg. destruct (encode_msg m) as [[ty body] | |] eqn:E;
    [apply encode_msg_inv in E as [-> ->] | intros [= <- <-]; (split; [apply prefix_nil | discriminate])..].
  unfold write_frame. destruct (_ <? _); [intros [= <- <-]; split; [apply prefix_nil | discriminate] |].
  destruct f as [f |]; intros [= <- <-]; [split; [apply (prefix_take (frame_of m)) | discriminate] | split; reflexivity].
Qed.
(** The octets a connection thread has written are those of the frames of the messages it took, in
    order, up to where it ended. *)
Definition wrote {B} (ws : bytes) (q : list SignalingMsg) (r : option B) : Prop :=
  ws `prefix_of` frames q /\ (r <> None -> ws = frames q).
Lemma frames_cons m q : frames (m :: q) = frame_of m ++ frames q.
Proof. reflexivity. Qed.
Lemma drain_writes c q cl : forall f ws stop, ServerConn.drain c q cl f = (ws, stop) ->
  ws `prefix_of` frames q /\ (stop = None -> ws = frames q).
Proof.
  induction q as [| m q IH]; intros f ws stop; cbn [ServerConn.drain]; [intros [= <- _]; split; reflexivity |]. rewrite frames_cons.
  destruct (write_msg m (f 0%nat)) as [w r] eqn:E. apply write_msg_inv in E as [Hw Ht].
  destruct r as [[] | |]; [| intros [= <- <-]; (split; [apply prefix_app_r, Hw | discriminate])..].
  destruct (ServerConn.drain c q cl _) as [ws' stop'] eqn:Ed. intros [= <- <-].
  destruct (IH _ _ _ Ed) as [Hp Hs]. rewrite (Ht eq_refl). split; [apply prefix_app, Hp | intros E; rewrite (Hs E); reflexivity].
Qed.
Lemma loop_writes c es : forall t ws evs r, ServerConn.loop c es t = (ws, evs, r) -> wrote ws (mjoin (ServerConn.queue <$> es)) r.
Proof.
  induction es as [| e es IH]; intros t ws evs r; cbn [ServerConn.loop].
  - intros [= <- _ _]. split; reflexivity.
  - rewrite fmap_cons. change (mjoin (ServerConn.queue e :: (ServerConn.queue <$> es))) with (ServerConn.queue e ++ mjoin (ServerConn.queue <$> es)).
    unfold wrote. rewrite frames_app. unfold ServerConn.turn. destruct (ServerConn.drain _ _ _ _) as [w stop] eqn:Ed.
    destruct (drain_writes _ _ _ _ _ _ Ed) as [Hp Hs].
    assert (Hend : forall o, (w, o, None) = (ws, evs, r) ->
        wrote ws (ServerConn.queue e ++ mjoin (ServerConn.queue <$> es)) r).
    { intros o [= <- _ <-]. split; [rewrite frames_app; apply prefix_app_r, Hp | congruence]. }
    unfold wrote in Hend. rewrite frames_app in Hend. destruct stop as [o |]; [apply Hend |]. rewrite (Hs eq_refl) in *.
    assert (Hgo : forall t' o, (let '(ws', evs', r') := ServerConn.loop c es t' in (frames (ServerConn.queue e) ++ ws', o ++ evs', r')) = (ws, evs, r) ->
        ws `prefix_of` frames (ServerConn.queue e) ++ frames (mjoin (ServerConn.queue <$> es)) /\
        (r <> None -> ws = frames (ServerConn.queue e) ++ frames (mjoin (ServerConn.queue <$> es)))).
    { intros t' o. destruct (ServerConn.loop c es t') as [[ws' evs'] r'] eqn:El. intros [= <- _ <-].
      destruct (IH _ _ _ _ El) as [Hp' Hs']. split; [apply prefix_app, Hp' | intros Hr; rewrite (Hs' Hr); reflexivity]. }
    destruct (read_msg t) as [t' [msg | [err | err] |]];
      [destruct (ServerConn.server e) | destruct (no_data err) | ..]; solve [apply Hend | apply (Hgo t')].
Qed.

Module Process.
Section process.
Context {A : Type} `{AuthBackend A}.

(** A connection: its stream while its thread lives, the messages in its channel, and the octets written *)
Record conn : Type := Conn { stream : option tape; inbox : list SignalingMsg; written : bytes }.
(** [loop]: nothing once the thread of the loop has panicked; the events in its channel; the connections,
    by their number *)
Record t : Type := mk {
  loop : option (ServerLoop.t (A := A)); mailbox : list ServerEvent; conns : gmap ClientId conn; next_client_id : ClientId }.
Definition start (auth : A) : t := mk (Some (ServerLoop.new auth)) [] ∅ 1.

(** The sender of a connection's channel is in its registration and then in the table of the loop. *)
Definition closed (s : t) (c : ClientId) : bool :=
  match loop s with
  | None => true
  | Some l => negb (bool_decide (c ∈ ServerLoop.clients l))
              && negb (existsb (fun ev => match ev with RegisterClient c' => c =? c' | _ => false end) (mailbox s))
  end.

(** One step of one thread. A connection thread takes what its channel holds when it finds it empty and
    then reads once; what the loop sends meanwhile is found at the next turn. *)
Inductive label : Type :=
| Accept (i : SignalingServer.incoming) (stream : tape)
| Turn (c : ClientId) (io : nat -> option fault)
| Handle (rng : nat -> Z).

(** The listener gives every accepted connection the next number, and needs the loop to register it. *)
Definition accept (s : t) (i : SignalingServer.incoming) (tp : tape) : option t :=
  let c := next_client_id s in
  match i with
  | SignalingServer.NotAccepted => Some s
  | SignalingServer.NoTls => Some (mk (loop s) (mailbox s) (conns s) (c + 1))
  | SignalingServer.Accepted =>
      match loop s with
      | None => None
      | Some _ => Some (mk (loop s) (mailbox s ++ [RegisterClient c]) (<[c := Conn (Some tp) [] []]> (conns s)) (c + 1))
      end
  end.
Definition turn (s : t) (c : ClientId) (io : nat -> option fault) : option t :=
  match conns s !! c with
  | Some (Conn (Some tp) q w) =>
      let e := ServerConn.Env q (closed s c) io (match loop s with Some _ => true | None => false end) in
      let '(tp', ws, evs, continue) := ServerConn.turn c e tp in
      Some (mk (loop s) (mailbox s ++ evs)
              (<[c := Conn (if continue then Some tp' else None) [] (w ++ ws)]> (conns s)) (next_client_id s))
  | _ => None
  end.
(** A message for a connection whose thread has ended is lost. *)
Definition deliver (conns : gmap ClientId conn) (x : ClientId * SignalingMsg) : gmap ClientId conn :=
  alter (fun k => match stream k with Some _ => Conn (stream k) (inbox k ++ [x.2]) (written k) | None => k end) x.1 conns.
Definition handle (s : t) (rng : nat -> Z) : option t :=
  match loop s, mailbox s with
  | Some l, ev :: mailbox =>
      match ServerLoop.on_event rng l ev with
      | Ok (l, sent) => Some (mk (Some l) mailbox (foldl deliver (conns s) sent) (next_client_id s))
      | _ => Some (mk None [] (conns s) (next_client_id s))
      end
  | _, _ => None
  end.
Definition exec (s : t) (a : label) : option t :=
  match a with Accept i tp => accept s i tp | Turn c io => turn s c io | Handle rng => handle s rng end.
Fixpoint exec_all (s : t) (ls : list label) : option t :=
  match ls with [] => Some s | a :: ls => s ← exec s a; exec_all s ls end.

(** The events that the loop took from its channel *)
Definition taken (s : t) (a : label) : list ServerEvent :=
  match a, mailbox s with Handle _, ev :: _ => [ev] | _, _ => [] end.
Fixpoint handled (s : t) (ls : list label) : list ServerEvent :=
  match ls with [] => [] | a :: ls => taken s a ++ match exec s a with Some s => handled s ls | None => [] end end.

(** What the listener met, and the streams of the connections whose threads it spawned *)
Definition met (ls : list label) : list SignalingServer.incoming :=
  omap (fun a => match a with Accept i _ => Some i | _ => None end) ls.
Definition opened (ls : list label) : list tape :=
  omap (fun a => match a with Accept SignalingServer.Accepted tp => Some tp | _ => None end) ls.
Definition spawned (ls : list label) : list (ClientId * tape) := zip (SignalingServer.accept 1 (met ls)) (opened ls).

Lemma exec_snoc ls : forall s a s', exec_all s (ls ++ [a]) = Some s' <-> exists s1, exec_all s ls = Some s1 /\ exec s1 a = Some s'.
Proof.
  induction ls as [| b ls IH]; intros s a s'; cbn [exec_all app].
  - split; [| intros (s1 & [= ->] & ->); reflexivity]. destruct (exec s a) eqn:E; [intros [= ->]; eauto | discriminate].
  - destruct (exec s b) as [s2 |]; cbn [mbind option_bind]; [apply IH |]. split; [discriminate | intros (? & [=] & _)].
Qed.
Lemma handled_snoc ls : forall s s1 a, exec_all s ls = Some s1 -> handled s (ls ++ [a]) = handled s ls ++ taken s1 a.
Proof.
  induction ls as [| b ls IH]; intros s s1 a H0; cbn [exec_all handled app] in *.
  - injection H0 as ->. destruct (exec s1 a); apply app_nil_r.
  - destruct (exec s b) as [s2 |]; [| discriminate H0]. cbn [mbind option_bind] in H0. rewrite (IH s2 s1 a H0), app_assoc. reflexivity.
Qed.

(** ** The listener numbers connections *)
Definition numbered (n : ClientId) (arr : list SignalingServer.incoming) : ClientId :=
  foldl (fun n i => match i with SignalingServer.NotAccepted => n | _ => n + 1 end) n arr.
Lemma accept_snoc arr : forall n i, SignalingServer.accept n (arr ++ [i])
  = SignalingServer.accept n arr ++ match i with SignalingServer.Accepted => [numbered n arr] | _ => [] end.
Proof. induction arr as [| [] arr IH]; intros n i; [destruct i; reflexivity | ..]; cbn; rewrite IH; reflexivity. Qed.
Lemma accept_nodup arr : forall n, Forall (fun c => n <= c) (SignalingServer.accept n arr) /\ NoDup (SignalingServer.accept n arr).
Proof.
  induction arr as [| [] arr IH]; intros n; cbn [SignalingServer.accept]; [split; constructor | apply IH | ..].
  - destruct (IH (n + 1)) as [Hf Hd]. split; [| exact Hd]. eapply Forall_impl; [exact Hf | intros c Hc; cbn in Hc; lia].
  - destruct (IH (n + 1)) as [Hf Hd]. rewrite Forall_forall in Hf. split.
    + constructor; [lia |]. apply Forall_forall. intros c Hc. specialize (Hf c Hc). lia.
    + constructor; [| exact Hd]. intros Hc. specialize (Hf n Hc). lia.
Qed.
Lemma opened_length ls : length (SignalingServer.accept 1 (met ls)) = length (opened ls).
Proof.
  generalize 1. induction ls as [| a ls IH]; intros n; [reflexivity |]. destruct a as [[] tp | |]; cbn; try apply IH.
  f_equal. apply IH.
Qed.
Lemma spawned_snoc ls a : spawned (ls ++ [a])
  = spawned ls ++ match a with Accept SignalingServer.Accepted tp => [(numbered 1 (met ls), tp)] | _ => [] end.
Proof.
  unfold spawned, met, opened. rewrite !omap_app. fold (met ls) (opened ls).
  destruct a as [i tp | |]; cbn [omap list_omap]; rewrite ?app_nil_r; try reflexivity.
  rewrite accept_snoc. destruct i; cbn; rewrite ?app_nil_r; try reflexivity.
  rewrite zip_with_app by apply opened_length. reflexivity.
Qed.
Lemma spawned_ids ls : (spawned ls).*1 = SignalingServer.accept 1 (met ls).
Proof. unfold spawned. apply fst_zip. rewrite opened_length. lia. Qed.

(** ** Events and deliveries *)
Lemma events_of_app c l1 l2 : events_of c (l1 ++ l2) = events_of c l1 ++ events_of c l2.
Proof. apply filter_app. Qed.
Lemma events_of_same c l : Forall (fun ev => client_of ev = c) l -> events_of c l = l.
Proof. intros Hl. induction Hl; [reflexivity |]. unfold events_of in *. rewrite filter_cons_True by assumption. f_equal. assumption. Qed.
Lemma events_of_none c l : Forall (fun ev => client_of ev <> c) l -> events_of c l = [].
Proof. intros Hl. induction Hl; [reflexivity |]. unfold events_of in *. rewrite filter_cons_False by assumption. assumption. Qed.
Lemma turn_events c e tp tp' ws evs b : ServerConn.turn c e tp = (tp', ws, evs, b) -> Forall (fun ev => client_of ev = c) evs.
Proof.
  assert (Hd : forall q cl f ws evs, ServerConn.drain c q cl f = (ws, Some evs) -> Forall (fun ev => client_of ev = c) evs).
  { intros q cl. induction q as [| m q IH]; intros f ws0 evs0; cbn [ServerConn.drain].
    - destruct cl; [intros [= _ <-]; repeat constructor | discriminate].
    - destruct (write_msg m (f 0%nat)) as [w0 []]; [| intros [= _ <-]; repeat constructor..].
      destruct (ServerConn.drain c q cl _) as [w [o |]] eqn:E; [intros [= _ <-]; eapply IH; exact E | discriminate]. }
  unfold ServerConn.turn. destruct (ServerConn.drain _ _ _ _) as [w [o |]] eqn:E.
  - intros [= _ _ <- _]. destruct (ServerConn.server e); [eapply Hd; exact E | constructor].
  - destruct (read_msg tp) as [t [msg | [err | err] |]]; intros H0; repeat case_match; simplify_eq; repeat constructor.
Qed.
Lemma delivered c sent : forall m, foldl deliver m sent !! c
  = (fun k => match stream k with Some _ => Conn (stream k) (inbox k ++ Router.for_client c sent) (written k) | None => k end) <$> m !! c.
Proof.
  induction sent as [| [c' msg] sent IH]; intros m; cbn [foldl].
  - destruct (m !! c) as [[[] q w] |]; cbn; rewrite ?app_nil_r; reflexivity.
  - rewrite IH. unfold deliver, Router.for_client. cbn [fst snd]. rewrite filter_cons. cbn [fst].
    destruct (decide (c' = c)) as [-> | Hne]; [rewrite lookup_alter_eq | rewrite lookup_alter_ne by exact Hne; reflexivity].
    destruct (m !! c) as [[[] q w] |]; cbn; rewrite <- ?app_assoc; reflexivity.
Qed.
Lemma sent_to_clients rng (l l' : ServerLoop.t (A := A)) ev sent : ServerLoop.on_event rng l ev = Ok (l', sent) ->
  Forall (fun x => x.1 ∈ ServerLoop.clients l) sent /\
  forall c, c ∈ ServerLoop.clients l' -> c ∈ ServerLoop.clients l \/ c = client_of ev.
Proof.
  destruct ev as [c m | c | c]; cbn [ServerLoop.on_event]; intros H0; [bind_inv H0 |..].
  - destruct (Router.drain_all_outgoing v) as [r out]. injection H0 as <- <-. split; [| auto].
    apply Forall_forall. intros x [Hx _]%list_elem_of_filter. exact Hx.
  - injection H0 as <- <-. cbn. split; [constructor | set_solver].
  - injection H0 as <- <-. cbn. split; [constructor | set_solver].
Qed.

(** ** Every interleaving is a run of the loop and of the connections *)

(** Connection [c] has done what its thread does over its stream: the turns [es] have written its octets
    and sent its events; they have taken from its channel, in order, what the loop sent to it. *)
Definition conn_run (evs : list ServerEvent) (sent : list (ClientId * SignalingMsg)) (c : ClientId) (tp : tape) (k : conn) : Prop :=
  exists es, ServerConn.run c es tp = (written k, events_of c evs, stream k) /\
    match stream k with
    | Some _ => mjoin (ServerConn.queue <$> es) ++ inbox k = Router.for_client c sent
    | None => mjoin (ServerConn.queue <$> es) `prefix_of` Router.for_client c sent
    end.

Record explained (ls : list label) (s : t) (l : ServerLoop.t (A := A)) (evs : list ServerEvent) (sent : list (ClientId * SignalingMsg)) : Prop := {
  ex_next : next_client_id s = numbered 1 (met ls);
  ex_conns c tp : (c, tp) ∈ spawned ls -> exists k, conns s !! c = Some k /\ conn_run (evs ++ mailbox s) sent c tp k;
  ex_spawned c k : conns s !! c = Some k -> exists tp, (c, tp) ∈ spawned ls;
  ex_bound c k : conns s !! c = Some k -> c < next_client_id s;
  ex_events : Forall (fun ev => is_Some (conns s !! client_of ev)) (evs ++ mailbox s);
  ex_clients c : c ∈ ServerLoop.clients l -> is_Some (conns s !! c);
  ex_sent : Forall (fun x => is_Some (conns s !! x.1)) sent }.

Lemma conn_run_new evs sent c tp : events_of c evs = [RegisterClient c] -> Router.for_client c sent = [] ->
  conn_run evs sent c tp (Conn (Some tp) [] []).
Proof. intros He Hs. exists []. cbn [stream inbox written]. rewrite He, Hs. split; reflexivity. Qed.
Lemma conn_run_same evs evs' sent sent' c tp k : events_of c evs' = events_of c evs ->
  Router.for_client c sent' = Router.for_client c sent -> conn_run evs sent c tp k -> conn_run evs' sent' c tp k.
Proof. intros He Hs. unfold conn_run. rewrite He, Hs. auto. Qed.
Lemma conn_run_turn evs sent c tp0 q w tp e tp' ws out b :
  conn_run evs sent c tp0 (Conn (Some tp) q w) -> ServerConn.queue e = q -> ServerConn.turn c e tp = (tp', ws, out, b) ->
  conn_run (evs ++ out) sent c tp0 (Conn (if b then Some tp' else None) [] (w ++ ws)).
Proof.
  intros (es & Hr & Hq) He Ht. exists (es ++ [e]). cbn [stream inbox written] in *. unfold ServerConn.run in *.
  destruct (ServerConn.loop c es tp0) as [[w1 e1] r1] eqn:El. injection Hr as -> He1 ->.
  rewrite (Server.loop_app _ _ _ _ _ _ _ El). cbn [ServerConn.loop]. rewrite Ht.
  rewrite events_of_app, <- He1, (events_of_same c out) by (eapply turn_events; exact Ht).
  rewrite fmap_app, join_app. replace (mjoin (ServerConn.queue <$> [e])) with q by (cbn; rewrite app_nil_r; congruence).
  destruct b; (split; [rewrite ?app_nil_r; reflexivity |]); [rewrite app_nil_r; exact Hq | rewrite Hq; reflexivity].
Qed.
Lemma conn_run_sent evs sent sent' c tp k : conn_run evs sent c tp k ->
  conn_run evs (sent ++ sent') c tp (match stream k with
    | Some _ => Conn (stream k) (inbox k ++ Router.for_client c sent') (written k) | None => k end).
Proof.
  intros (es & Hr & Hq). exists es. rewrite Router.for_client_app.
  destruct (stream k) as [st |] eqn:E; cbn [stream inbox written]; rewrite ?E; (split; [exact Hr |]).
  - rewrite app_assoc, Hq. reflexivity.
  - etransitivity; [exact Hq | apply prefix_app_r; reflexivity].
Qed.
Lemma unknown_unsent s (sent : list (ClientId * SignalingMsg)) c : conns s !! c = None ->
  Forall (fun x => is_Some (conns s !! x.1)) sent -> Router.for_client c sent = [].
Proof.
  intros Hc Hs. unfold Router.for_client. induction Hs as [| x sent [k Hk] _ IH]; [reflexivity |].
  rewrite filter_cons_False by congruence. exact IH.
Qed.
Lemma unknown_silent s evs c : conns s !! c = None -> Forall (fun ev => is_Some (conns s !! client_of ev)) evs -> events_of c evs = [].
Proof. intros Hc Hs. apply events_of_none. eapply Forall_impl; [exact Hs |]. intros ev [k Hk] E. cbn in Hk. congruence. Qed.
Lemma is_some_insert (m : gmap ClientId conn) c k c' : is_Some (m !! c') -> is_Some (<[c := k]> m !! c').
Proof. intros Hm. destruct (decide (c = c')) as [-> |]; [rewrite lookup_insert_eq; eauto | rewrite lookup_insert_ne by assumption; exact Hm]. Qed.

(** The steps, one by one *)
Lemma explained_accept ls s l evs sent i tp s' : loop s = Some l -> explained ls s l evs sent -> accept s i tp = Some s' ->
  loop s' = Some l /\ explained (ls ++ [Accept i tp]) s' l evs sent.
Proof.
  intros Hl [Hn Hc Hs Hb He Hcl Hst] Ha.
  assert (Hnum : numbered 1 (met (ls ++ [Accept i tp])) = match i with SignalingServer.NotAccepted => numbered 1 (met ls) | _ => numbered 1 (met ls) + 1 end).
  { unfold met. rewrite omap_app. fold (met ls). cbn [omap list_omap]. unfold numbered. rewrite foldl_snoc. destruct i; reflexivity. }
  pose proof (spawned_snoc ls (Accept i tp)) as Hsp. unfold accept in Ha.
  destruct i; [| | rewrite Hl in Ha]; injection Ha as <-; (split; [first [reflexivity | exact Hl] |]); rewrite ?app_nil_r in Hsp.
  - split; rewrite ?Hnum, ?Hsp; assumption.
  - split; rewrite ?Hnum, ?Hsp; cbn; try assumption; [lia |]. intros c k Hk. specialize (Hb c k Hk). lia.
  - set (c := next_client_id s) in *. assert (Hnew : conns s !! c = None).
    { destruct (conns s !! c) as [k |] eqn:E; [| reflexivity]. specialize (Hb c k E). unfold c in Hb. lia. }
    rewrite <- Hn in Hsp, Hnum. split; cbn [mailbox conns next_client_id]; rewrite ?Hnum, ?Hsp.
    + reflexivity.
    + intros d tpd [Hd | Hd%list_elem_of_singleton]%elem_of_app.
      * destruct (Hc d tpd Hd) as (k & Hk & Hrun). exists k. rewrite lookup_insert_ne by (intros <-; congruence). split; [exact Hk |].
        eapply conn_run_same; [| reflexivity | exact Hrun]. rewrite app_assoc, events_of_app.
        rewrite (events_of_none d [RegisterClient c]); [apply app_nil_r |]. constructor; [cbn; congruence | constructor].
      * injection Hd as -> ->. eexists. rewrite lookup_insert_eq. split; [reflexivity |].
        apply conn_run_new; [| apply (unknown_unsent s); assumption]. rewrite app_assoc, events_of_app, (unknown_silent s) by assumption.
        apply events_of_same. repeat constructor.
    + intros d k [[<- _] | [_ Hk]]%lookup_insert_Some; [exists tp; set_solver |]. destruct (Hs d k Hk) as [tpd Hd]. exists tpd. set_solver.
    + intros d k [[<- _] | [_ Hk]]%lookup_insert_Some; [unfold c; lia |]. specialize (Hb d k Hk). unfold c. lia.
    + rewrite app_assoc. apply Forall_app. split; [eapply Forall_impl; [exact He |]; intros ev; apply is_some_insert |].
      constructor; [cbn; rewrite lookup_insert_eq; eauto | constructor].
    + intros d Hd. apply is_some_insert, Hcl, Hd.
    + eapply Forall_impl; [exact Hst |]. intros x. apply is_some_insert.
Qed.
Lemma met_snoc ls a : match a with Accept _ _ => False | _ => True end -> met (ls ++ [a]) = met ls /\ spawned (ls ++ [a]) = spawned ls.
Proof.
  intros Ha. rewrite spawned_snoc. unfold met. rewrite omap_app. destruct a; [contradiction | ..]; cbn; rewrite !app_nil_r; auto.
Qed.
Lemma explained_turn ls s l evs sent c io s' : loop s = Some l -> explained ls s l evs sent -> turn s c io = Some s' ->
  loop s' = Some l /\ explained (ls ++ [Turn c io]) s' l evs sent.
Proof.
  intros Hl [Hn Hc Hs Hb He Hcl Hst] Ha. destruct (met_snoc ls (Turn c io) I) as [Hm Hsp]. unfold turn in Ha.
  destruct (conns s !! c) as [[[tp |] q w] |] eqn:Ek; [| discriminate Ha..]. rewrite Hl in Ha.
  set (e := ServerConn.Env _ _ _ _) in Ha. destruct (ServerConn.turn c e tp) as [[[tp' ws] out] b] eqn:Et.
  injection Ha as <-. split; [reflexivity |]. pose proof (turn_events _ _ _ _ _ _ _ Et) as Hout.
  assert (Hkeys : forall d, is_Some (conns s !! d) -> is_Some (<[c:=Conn (if b then Some tp' else None) [] (w ++ ws)]> (conns s) !! d))
    by (intros d; apply is_some_insert).
  split; cbn [mailbox conns next_client_id]; rewrite ?Hm, ?Hsp; try assumption.
  - intros d tpd Hd. destruct (Hc d tpd Hd) as (k & Hk & Hrun). destruct (decide (c = d)) as [<- | Hne].
    + rewrite lookup_insert_eq. eexists. split; [reflexivity |]. rewrite app_assoc. rewrite Ek in Hk. injection Hk as <-.
      exact (conn_run_turn _ _ _ _ _ _ _ e _ _ _ _ Hrun eq_refl Et).
    + rewrite lookup_insert_ne by exact Hne. exists k. split; [exact Hk |]. eapply conn_run_same; [| reflexivity | exact Hrun].
      rewrite app_assoc, events_of_app, (events_of_none d out), app_nil_r; [reflexivity |].
      eapply Forall_impl; [exact Hout |]. intros ev ->. exact Hne.
  - intros d k [[<- _] | [_ Hk]]%lookup_insert_Some; eauto.
  - intros d k [[<- _] | [_ Hk]]%lookup_insert_Some; eauto.
  - rewrite app_assoc. apply Forall_app. split; [eapply Forall_impl; [exact He |]; intros ev; apply Hkeys |].
    eapply Forall_impl; [exact Hout |]. intros ev Hev. cbn in Hev. rewrite Hev, lookup_insert_eq. eauto.
  - eauto.
  - eapply Forall_impl; [exact Hst |]. intros x. apply Hkeys.
Qed.
Lemma explained_handle ls s l evs sent rng ev mb l' sent' : explained ls s l evs sent -> mailbox s = ev :: mb ->
  ServerLoop.on_event rng l ev = Ok (l', sent') ->
  explained (ls ++ [Handle rng]) (mk (Some l') mb (foldl deliver (conns s) sent') (next_client_id s)) l' (evs ++ [ev]) (sent ++ sent').
Proof.
  intros [Hn Hc Hs Hb He Hcl Hst] Hmb Hev. destruct (met_snoc ls (Handle rng) I) as [Hm Hsp].
  destruct (sent_to_clients _ _ _ _ _ Hev) as [Hto Hnew]. rewrite Hmb in *.
  assert (Happ : (evs ++ [ev]) ++ mb = evs ++ ev :: mb) by (rewrite <- app_assoc; reflexivity).
  assert (Hkeys : forall d, is_Some (conns s !! d) -> is_Some (foldl deliver (conns s) sent' !! d))
    by (intros d [k Hk]; rewrite delivered, Hk; eauto).
  split; cbn [mailbox conns next_client_id]; rewrite ?Hm, ?Hsp, ?Happ; try assumption.
  - intros d tpd Hd. destruct (Hc d tpd Hd) as (k & Hk & Hrun). rewrite delivered, Hk. eexists. split; [reflexivity |].
    apply conn_run_sent, Hrun.
  - intros d k Hk. rewrite delivered in Hk. apply fmap_Some in Hk as (k0 & Hk & _). eauto.
  - intros d k Hk. rewrite delivered in Hk. apply fmap_Some in Hk as (k0 & Hk & _). eauto.
  - eapply Forall_impl; [exact He |]. intros x. apply Hkeys.
  - intros d Hd. apply Hkeys. destruct (Hnew d Hd) as [| ->]; [auto |]. apply Forall_app in He as [_ He]. apply Forall_cons in He as [He _]. exact He.
  - apply Forall_app. split; (eapply Forall_impl; [eassumption |]); intros x Hx; apply Hkeys; [exact Hx | apply Hcl, Hx].
Qed.

Lemma run_ext rng rng' evs : (forall i, rng i = rng' i) -> forall l : ServerLoop.t (A := A), ServerLoop.run rng l evs = ServerLoop.run rng' l evs.
Proof.
  intros Hr. induction evs as [| ev evs IH]; intros l; [reflexivity |]. cbn [ServerLoop.run]. rewrite Hr.
  destruct (ServerLoop.on_event _ l ev) as [[l' sent] | |]; cbn [mbind outcome_bind]; [rewrite IH |..]; reflexivity.
Qed.
Lemma run_snoc rng rng' (l0 l l' : ServerLoop.t (A := A)) evs ev sent sent' :
  ServerLoop.run rng l0 evs = Ok (l, sent) -> ServerLoop.on_event rng' l ev = Ok (l', sent') ->
  ServerLoop.run (fun i => match i with O => rng' | S i => rng i end) l0 (evs ++ [ev]) = Ok (l', sent ++ sent').
Proof.
  intros H1 H2. eapply ServerLoop.run_app.
  - erewrite run_ext; [exact H1 |]. intros i. rewrite Nat.add_comm. reflexivity.
  - cbn [ServerLoop.run length]. rewrite H2. cbn [mbind outcome_bind]. rewrite app_nil_r. reflexivity.
Qed.
Lemma process_explained auth ls : forall s l, exec_all (start auth) ls = Some s -> loop s = Some l ->
  exists rng sent, ServerLoop.run rng (ServerLoop.new auth) (handled (start auth) ls) = Ok (l, sent) /\
    explained ls s l (handled (start auth) ls) sent.
Proof.
  induction ls as [| a ls IH] using rev_ind; intros s l H0 Hl.
  - injection H0 as <-. injection Hl as <-. exists (fun _ _ => 0), []. split; [reflexivity |].
    split; cbn; try constructor; try set_solver.
  - apply exec_snoc in H0 as (s1 & H1 & Ha). destruct (loop s1) as [l1 |] eqn:E1.
    + destruct (IH s1 l1 H1 E1) as (rng & sent & Hr & Hx). rewrite (handled_snoc _ _ _ _ H1). unfold taken.
      destruct a as [i tp | c io | rng']; cbn [exec] in Ha; rewrite ?app_nil_r.
      * destruct (explained_accept _ _ _ _ _ _ _ _ E1 Hx Ha) as [E2 Hx']. replace l with l1 by congruence. eauto 6.
      * destruct (explained_turn _ _ _ _ _ _ _ _ E1 Hx Ha) as [E2 Hx']. replace l with l1 by congruence. eauto 6.
      * unfold handle in Ha. rewrite E1 in Ha. destruct (mailbox s1) as [| ev mb] eqn:Emb; [discriminate Ha |].
        destruct (ServerLoop.on_event rng' l1 ev) as [[l2 sent2] | |] eqn:Ee; injection Ha as <-; [| discriminate Hl..].
        injection Hl as <-. eexists _, (sent ++ sent2). split; [eapply run_snoc; eassumption |].
        eapply explained_handle; eassumption.
    + destruct a as [i tp | c io | rng']; cbn [exec] in Ha; unfold accept, turn, handle in Ha; rewrite E1 in Ha; repeat case_match; simplify_eq/=; congruence.
Qed.

(** C11 The running server is its models. While the loop lives, whatever the interleaving of the listener,
    the connection threads and the loop, and whatever the clients send: connections have numbers of their own; the loop has
    done a run of [ServerLoop] over the events it took; and each connection has done a run of its
    thread over its stream that sent exactly the events, taken or still in the channel, that carry its
    number, in order. It has taken, in order, what the loop sent to that number, all but what is
    still in its channel. While it lives it has written the frames of what it took; and a thread that
    has ended, perhaps by a write that failed within a frame, has written a prefix of these octets. *)
Theorem server_process_refines auth ls s l : exec_all (start auth) ls = Some s -> loop s = Some l ->
  NoDup (SignalingServer.accept 1 (met ls)) /\
  (forall c, is_Some (conns s !! c) <-> c ∈ SignalingServer.accept 1 (met ls)) /\
  exists rng sent,
    ServerLoop.run rng (ServerLoop.new auth) (handled (start auth) ls) = Ok (l, sent) /\
    forall c tp, (c, tp) ∈ spawned ls -> exists k es,
      conns s !! c = Some k /\
      ServerConn.run c es tp = (written k, events_of c (handled (start auth) ls ++ mailbox s), stream k) /\
      mjoin (ServerConn.queue <$> es) `prefix_of` Router.for_client c sent /\
      (stream k <> None -> mjoin (ServerConn.queue <$> es) ++ inbox k = Router.for_client c sent) /\
      written k `prefix_of` frames (Router.for_client c sent) /\
      (stream k <> None -> written k = frames (mjoin (ServerConn.queue <$> es))).
Proof.
  intros H0 Hl. destruct (process_explained auth ls s l H0 Hl) as (rng & sent & Hr & [_ Hc Hs _ _ _ _]).
  split; [apply accept_nodup |]. split.
  - intros c. rewrite <- spawned_ids, list_elem_of_fmap. split.
    + intros [k Hk]. destruct (Hs c k Hk) as [tp Htp]. exists (c, tp). auto.
    + intros ([d tp] & -> & Hd). destruct (Hc d tp Hd) as (k & Hk & _). eauto.
  - exists rng, sent. split; [exact Hr |]. intros c tp Hd. destruct (Hc c tp Hd) as (k & Hk & es & Hrun & Hq).
    exists k, es. split; [exact Hk |]. split; [exact Hrun |].
    assert (Hp : mjoin (ServerConn.queue <$> es) `prefix_of` Router.for_client c sent).
    { destruct (stream k); [exists (inbox k); symmetry; exact Hq | exact Hq]. }
    split; [exact Hp |]. split; [destruct (stream k); [auto | congruence] |].
    unfold ServerConn.run in Hrun. destruct (ServerConn.loop c es tp) as [[ws o] r] eqn:El. injection Hrun as <- _ <-.
    destruct (loop_writes _ _ _ _ _ _ El) as [Hm Ha]. split; [| exact Ha]. etransitivity; [exact Hm |].
    destruct Hp as [rest ->]. rewrite frames_app. apply prefix_app_r. reflexivity.
Qed.
End process.
End Process.

(** ** Two clients *)
Module ProcessDemo.
Import Process.
Definition fine (_ : nat) : option fault := None.
Definition draws (_ : nat) : Z := 7.
Definition alice : tape := [Octets (frame_of (Login (lit "alice") (lit "a"))); Failed LinkDemo.would_block].
Definition bob : tape := [Octets (take 5 (frame_of ListPeers)); Octets (drop 5 (frame_of ListPeers)); Failed LinkDemo.would_block].
(** The second connection is refused, the third has no TLS session; the others take turns with the loop. *)
Definition trace : list label :=
  [Accept SignalingServer.Accepted alice; Accept SignalingServer.NotAccepted []; Accept SignalingServer.NoTls [];
   Turn 1 fine; Accept SignalingServer.Accepted bob; Turn 3 fine; Handle draws; Handle draws; Turn 1 fine; Handle draws; Handle draws].
Definition final : option (t (A := AllowAllAuthBackend)) := exec_all (start ()) trace.
End ProcessDemo.

Lemma server_process_refines_witness :
  exists s l k, ProcessDemo.final = Some s /\ Process.loop s = Some l /\
    SignalingServer.accept 1 (Process.met ProcessDemo.trace) = [1; 3] /\
    Process.conns s !! 1 = Some k /\ Process.stream k = Some [] /\ Process.written k = frames [LoginOk (lit "alice"); PeersOnline []] /\
    exists rng sent es,
      ServerLoop.run rng (ServerLoop.new ()) (Process.handled (Process.start ()) ProcessDemo.trace) = Ok (l, sent) /\
      ServerConn.run 1 es ProcessDemo.alice
        = (Process.written k, [RegisterClient 1; MsgFromClient 1 (Login (lit "alice") (lit "a"))], Process.stream k) /\
      mjoin (ServerConn.queue <$> es) ++ Process.inbox k = Router.for_client 1 sent.
Proof.
  destruct ProcessDemo.final as [s |] eqn:Ef; [| vm_compute in Ef; discriminate Ef].
  destruct (Process.loop s) as [l |] eqn:El; [| vm_compute in Ef; injection Ef as <-; discriminate El].
  destruct (Process.server_process_refines () ProcessDemo.trace s l Ef El) as (_ & _ & rng & sent & Hr & Hc).
  destruct (Hc 1 ProcessDemo.alice) as (k & es & Hk & Hrun & _ & Hq & _); [left |].
  assert (Hs : Process.stream k = Some [] /\ Process.written k = frames [LoginOk (lit "alice"); PeersOnline []]).
  { vm_compute in Ef. injection Ef as <-. vm_compute in Hk. injection Hk as <-. split; vm_compute; reflexivity. }
  destruct Hs as [Hs Hw]. exists s, l, k. split; [reflexivity |]. split; [exact El |]. split; [reflexivity |].
  split; [exact Hk |]. split; [exact Hs |]. split; [exact Hw |]. exists rng, sent, es.
  split; [exact Hr |]. split; [| apply Hq; rewrite Hs; discriminate]. rewrite Hrun. do 2 f_equal.
  vm_compute in Ef. injection Ef as <-. vm_compute. reflexivity.
Defined.
