(* ===== verification/Startup.v ===== *)
(** * Starting the programs (src/bin, signaling: run.rs, signaling_server.rs, tls.rs; signaling_client)

    The entry points choose a configuration file; the server opens its accounts, loads its certificates,
    binds its address and serves; the client connects, over TLS with the pinned authority only. A server
    that is stopped at any point of any interleaving and started again has the accounts it had. *)

From stdpp Require Import prelude gmap strings.
From Stdlib Require Import ZArith Lia.
From S2P Require Import Prelude Utf8 Config SigProtocol SigState SigServer SigLoop UserStore FileTransfer SigTransport LinkTheory ServerProcess.
Import FileUserStore.
Local Open Scope Z_scope.

(** ** The configuration *)

(** The file that the first argument names, or else the first of two that can be read; without any, the
    empty configuration. [read] is [fs::read_to_string]. *)
Definition load_config (first second : bytes) (args : list bytes) (read : bytes -> outcome bytes bytes) : Config.t :=
  let load path := Config.load path (read path) in
  let config_result :=
    match args with
    | _ :: path :: _ => load path
    | _ => match load first with Err _ => load second | r => r end
    end in
  match config_result with Ok config => config | _ => Config.empty end.
Definition client_config : list bytes -> (bytes -> outcome bytes bytes) -> Config.t :=
  load_config (lit "client_roomrtc.conf") (lit "client_default.conf").
Definition server_config : list bytes -> (bytes -> outcome bytes bytes) -> Config.t :=
  load_config (lit "server_roomrtc.conf") (lit "server_default.conf").

(** ** The server *)
(** What the server finds: the files of the configuration, the environment variable and the directory of
    the program, the file of the accounts, the certificates and keys by path, whether they fit, whether
    an address can be bound, and what later registrations will meet *)
Record world : Type := World {
  read : bytes -> outcome bytes bytes; var : option bytes; exe_dir : option bytes; users_file : option (outcome bytes bytes);
  certs : bytes -> outcome io_error (list (outcome bytes bytes)); keys : bytes -> outcome io_error (list (outcome bytes Tls.pem_item));
  fits : list bytes -> bytes -> outcome bytes unit; bind : bytes -> outcome io_error unit; later : nat -> env }.

Inductive start_error : Type := StoreError (e : bytes) | IoFailed (e : io_error).
Definition server := Process.t (A := node).

(** [SignalingServer::with_file_store] *)
Definition with_file_store (users_path : bytes) (w : world) : outcome start_error node :=
  store ← map_err StoreError (open users_path (users_file w));
  Ok (Node store (match users_file w with Some (Ok c) => Some c | _ => None end) (later w)).
(** [SignalingServer::run], up to the accept loop *)
Definition run (bind_addr : bytes) (auth_backend : node) (config : Config.t) (w : world) : outcome start_error server :=
  _ ← map_err IoFailed (Tls.build_signaling_server_config config (certs w) (keys w) (fits w));
  _ ← map_err IoFailed (bind w bind_addr);
  Ok (Process.start auth_backend).
Definition run_signaling_server_with_log (addr : bytes) (config : Config.t) (w : world) : outcome start_error server :=
  let users_path := SignalingServer.user_store_path config (var w) (exe_dir w) in
  auth ← with_file_store users_path w;
  run addr auth config w.

Inductive result : Type := Exit (code : Z) | StartFailed (e : start_error) | Serving (p : server) | Panicked.
Definition server_main (args : list bytes) (w : world) : result :=
  let config := server_config args (read w) in
  match Config.get_non_empty config (lit "Signaling") (lit "listen_address") with
  | None => Exit 1
  | Some addr =>
      match run_signaling_server_with_log addr config w with
      | Ok p => Serving p
      | Err e => StartFailed e
      | Panic => Panicked
      end
  end.

(** ** The client *)
Module ClientStart.
(** The roots that the client trusts: those of the authority that is part of the program *)
Definition build_signaling_client_config (ca : list (outcome bytes bytes)) (add : bytes -> outcome bytes unit)
  : outcome io_error (list bytes) := Tls.build_pinned_root_store ca add.

(** [tcp]: the result of connecting; [valid]: whether [rustls] takes the name; [conn]: its session. The
    name under which the thread logs. *)
Definition connect (addr : bytes) (tcp : outcome io_error unit) : outcome io_error bytes := _ ← tcp; Ok addr.
Definition connect_tls (addr domain : bytes) (tcp : outcome io_error unit) (valid : bytes -> bool) (conn : bytes -> outcome bytes unit)
  : outcome io_error bytes :=
  _ ← tcp;
  if valid domain then
    _ ← map_err (fun e => IoError ErrorKind.Other (lit "TLS error: " ++ e)) (conn domain);
    Ok (lit "tls://" ++ addr)
  else Err (IoError ErrorKind.InvalidInput (lit "invalid DNS name")).
End ClientStart.

(** The client trusts exactly the certificates of the pinned authority, and at least one. *)
Lemma collect_ok {A} (l : list (outcome bytes A)) vs : Tls.collect l = Ok vs <-> l = Ok <$> vs.
Proof.
  revert vs. induction l as [| o l IH]; intros vs; cbn [Tls.collect].
  - split; [intros [= <-]; reflexivity | destruct vs; [reflexivity | discriminate]].
  - destruct o as [v | e |]; [| split; [discriminate | destruct vs; discriminate] ..]. split.
    + intros H. bind_inv H. injection H as <-. apply IH in Hv as ->. reflexivity.
    + destruct vs as [| v' vs]; [discriminate |]. rewrite fmap_cons. intros [= -> E]. apply IH in E. rewrite E. reflexivity.
Qed.
Lemma added_all (add : bytes -> outcome bytes unit) l : forall rs, (fun c => _ ← add c; Ok c) <$> l = Ok <$> rs ->
  l = rs /\ Forall (fun c => add c = Ok ()) rs.
Proof.
  induction l as [| c l IH]; intros [| r rs] H; try discriminate H; [split; constructor |].
  rewrite !fmap_cons in H. injection H as Hc H. destruct (IH rs H) as [-> Hf].
  destruct (add c) as [[] | |] eqn:Ea; try discriminate Hc. injection Hc as <-. auto.
Qed.
Lemma client_trusts_pinned ca add roots : ClientStart.build_signaling_client_config ca add = Ok roots ->
  ca = Ok <$> roots /\ roots <> [] /\ Forall (fun c => add c = Ok ()) roots.
Proof.
  unfold ClientStart.build_signaling_client_config, Tls.build_pinned_root_store. intros H. bind_inv H.
  destruct (Tls.collect ca) as [cs | |] eqn:Ec; try discriminate Hv. injection Hv as <-. apply collect_ok in Ec.
  destruct cs as [| c cs]; [discriminate H |]. destruct (Tls.collect _) as [rs | |] eqn:Er in H; try discriminate H.
  injection H as <-. apply collect_ok in Er. apply added_all in Er as [<- Hf]. split; [exact Ec |]. split; [discriminate | exact Hf].
Qed.

(** ** Restarting the server *)
Section restart.
Context (sha256 : bytes -> bytes) (iter : gmap bytes UserEntry.t -> list (bytes * UserEntry.t)).
Hypothesis sha256_length : forall m, length (sha256 m) = 32%nat.
Hypothesis sha256_octets : forall m, bytes_ok (sha256 m).
Hypothesis iter_all : forall m, iter m ≡ₚ map_to_list m.
#[local] Instance backend : AuthBackend node := FileUserStore_backend sha256 iter.

(** The registrations among the events, and the accounts of the server *)
Definition registered (evs : list ServerEvent) : list (bytes * bytes) :=
  omap (fun ev => match ev with MsgFromClient _ (Register u p) => Some (u, p) | _ => None end) evs.
Definition accounts (l : ServerLoop.t (A := node)) : node := ServerEngine.auth (Router.server (ServerLoop.router l)).

Lemma handle_accounts rng (e e' : ServerEngine.t (A := node)) c m out : ServerEngine.handle rng e c m = Ok (e', out) ->
  ServerEngine.auth e' = registrations sha256 iter (ServerEngine.auth e) (registered [MsgFromClient c m]).
Proof.
  destruct m; cbn [ServerEngine.handle]; intros H; try (injection H as <- <-; reflexivity);
    try (unfold ServerEngine.forward_signaling in H; repeat (case_match; simplify_eq/=); reflexivity).
  - unfold ServerEngine.handle_login in H. repeat case_match; simplify_eq; reflexivity.
  - unfold ServerEngine.handle_register in H. change (registrations _ _ _ _) with (SigState.register (ServerEngine.auth e) username password).2.
    destruct (SigState.register (ServerEngine.auth e) username password) as [[] n]; simplify_eq; reflexivity.
  - unfold ServerEngine.handle_create_session in H. destruct (ServerEngine.require_logged_in e c); [| injection H as <- _; reflexivity].
    bind_inv H. destruct v as [e1 id]. bind_inv H. destruct v as [e2 code]. injection H as <- _. cbn.
    transitivity (ServerEngine.auth e1).
    + unfold ServerEngine.alloc_session_code in Hv0. destruct (ServerEngine.try_random _ _ _ _); [congruence |].
      bind_inv Hv0. destruct v. injection Hv0 as <- _. reflexivity.
    + unfold ServerEngine.alloc_session_id in Hv. destruct (_ <=? _) in Hv; [discriminate Hv | injection Hv as <- _; reflexivity].
  - unfold ServerEngine.handle_join in H. repeat (case_match; simplify_eq/=); reflexivity.
Qed.
Lemma registrations_app l1 : forall n l2, registrations sha256 iter n (l1 ++ l2) = registrations sha256 iter (registrations sha256 iter n l1) l2.
Proof. induction l1 as [| [u p] l1 IH]; intros n l2; [reflexivity |]. cbn [registrations app]. apply IH. Qed.
Lemma event_accounts rng l l' ev sent : ServerLoop.on_event rng l ev = Ok (l', sent) ->
  accounts l' = registrations sha256 iter (accounts l) (registered [ev]).
Proof.
  destruct ev as [c m | c | c]; cbn [ServerLoop.on_event]; intros H.
  - bind_inv H. unfold Router.handle_from_client in Hv. bind_inv Hv. destruct v0 as [e out]. injection Hv as <-.
    unfold Router.drain_all_outgoing in H. injection H as <- _. unfold accounts. cbn [ServerLoop.router Router.server].
    rewrite Router.enqueue_all_server. apply handle_accounts in Hv0. exact Hv0.
  - injection H as <- _. unfold accounts, Router.unregister_client. cbn [ServerLoop.router Router.server].
    destruct (ServerEngine.handle_disconnect _ c) as [e out] eqn:Ed. rewrite Router.enqueue_all_server.
    apply ServerFacts.disconnect_state in Ed as (_ & _ & _ & Ed). exact Ed.
  - injection H as <- _. reflexivity.
Qed.
Lemma run_accounts rng evs : forall l l' sent, ServerLoop.run rng l evs = Ok (l', sent) ->
  accounts l' = registrations sha256 iter (accounts l) (registered evs).
Proof.
  induction evs as [| ev evs IH]; intros l l' sent H; cbn [ServerLoop.run] in H; [injection H as <- _; reflexivity |].
  bind_inv H. destruct v as [l1 sent1]. bind_inv H. destruct v as [l2 sent2]. injection H as <- _.
  apply IH in Hv0 as ->. apply event_accounts in Hv as ->. rewrite <- registrations_app. f_equal. unfold registered.
  rewrite <- omap_app. reflexivity.
Qed.

Lemma registrations_path l : forall n, path (store (registrations sha256 iter n l)) = path (store n).
Proof.
  induction l as [| [u p] l IH]; intros n; [reflexivity |]. cbn [registrations]. rewrite IH.
  unfold node_register, register. repeat case_match; simplify_eq/=; reflexivity.
Qed.
Lemma open_path where_ f st : open where_ f = Ok st -> path st = where_.
Proof. unfold open. destruct f as [[c | |] |]; cbn [mbind outcome_bind]; intros [= <-]; reflexivity. Qed.

(** What a server finds that is started again after one stopped with the accounts [n] *)
Definition stopped (w : world) (n : node) : world :=
  World (read w) (var w) (exe_dir w) (Ok <$> disk n) (certs w) (keys w) (fits w) (bind w) (answers n).

(** What it takes to serve *)
Lemma serving_inv args w p : server_main args w = Serving p -> exists addr n,
  let config := server_config args (read w) in
  let where_ := SignalingServer.user_store_path config (var w) (exe_dir w) in
  Config.get_non_empty config (lit "Signaling") (lit "listen_address") = Some addr /\
  open where_ (users_file w) = Ok (store n) /\ users_file w = Ok <$> disk n /\ answers n = later w /\
  is_Some (match Tls.build_signaling_server_config config (certs w) (keys w) (fits w) with Ok v => Some v | _ => None end) /\
  bind w addr = Ok () /\ p = Process.start n.
Proof.
  unfold server_main. destruct (Config.get_non_empty _ _ _) as [addr |]; [| discriminate].
  unfold run_signaling_server_with_log, with_file_store, run.
  destruct (open _ (users_file w)) as [st | |] eqn:Eo; cbn [mbind outcome_bind map_err]; try discriminate.
  destruct (Tls.build_signaling_server_config _ _ _ _) as [v | |]; cbn [mbind outcome_bind map_err]; try discriminate.
  destruct (bind w addr) as [[] | |] eqn:Eb; cbn [mbind outcome_bind map_err]; try discriminate. intros [= <-].
  exists addr, (Node st (match users_file w with Some (Ok c) => Some c | _ => None end) (later w)). cbn zeta.
  split; [reflexivity |]. split; [reflexivity |]. split; [destruct (users_file w) as [[c | e |] |]; [reflexivity | discriminate Eo.. | reflexivity] |]. eauto 10.
Qed.
Lemma serving args w n addr :
  let config := server_config args (read w) in
  let where_ := SignalingServer.user_store_path config (var w) (exe_dir w) in
  Config.get_non_empty config (lit "Signaling") (lit "listen_address") = Some addr ->
  open where_ (users_file w) = Ok (store n) -> users_file w = Ok <$> disk n -> answers n = later w ->
  is_Some (match Tls.build_signaling_server_config config (certs w) (keys w) (fits w) with Ok v => Some v | _ => None end) ->
  bind w addr = Ok () -> server_main args w = Serving (Process.start n).
Proof.
  cbn zeta. intros Ha Ho Hu Hl [v Ht] Hb. unfold server_main, run_signaling_server_with_log, with_file_store, run. rewrite Ha, Ho.
  cbn [mbind outcome_bind map_err]. destruct (Tls.build_signaling_server_config _ _ _ _); [| discriminate Ht..].
  cbn [mbind outcome_bind map_err]. rewrite Hb. cbn. rewrite Hu, <- Hl. destruct n as [st [c |] an]; reflexivity.
Qed.

(** C29 A restart loses nothing. A server that started, then met any clients in any interleaving of its
    threads, and is stopped at any point, starts again from its files, and accepts and refuses the same
    passwords: whatever the file held at first, and whichever registrations of names that fit a line
    succeeded or failed, in the checks or in the file system, where the path of the database does not
    end in [.tmp], so that the temporary file is another. *)
Theorem server_restart_keeps_accounts args w p ls s l :
  server_main args w = Serving p -> salts_ok (later w) -> separate (later w) ->
  Process.exec_all p ls = Some s -> Process.loop s = Some l ->
  Forall (fun r => name_ok r.1 = true) (registered (Process.handled p ls)) ->
  exists p' l', server_main args (stopped w (accounts l)) = Serving p' /\ Process.loop p' = Some l' /\
    forall u pw, SigState.verify (accounts l') u pw = SigState.verify (accounts l) u pw.
Proof.
  intros Hm Hs Hsep Hx Hl Hn. destruct (serving_inv args w p Hm) as (addr & n & Ha & Ho & Hu & Hla & Ht & Hb & ->).
  destruct (Process.process_explained n ls s l Hx Hl) as (rng & sent & Hr & _).
  apply run_accounts in Hr. change (accounts (ServerLoop.new n)) with n in Hr.
  assert (Hmir : mirrored (accounts l)).
  { rewrite Hr. eapply registrations_mirrored; try eassumption; [rewrite Hla; assumption .. |].
    pose proof (open_path _ _ _ Ho) as Hp. split; [apply open_ok in Ho; exact Ho | rewrite Hp, <- Hu; exact Ho]. }
  destruct Hmir as [_ Hmir]. exists (Process.start (accounts l)), (ServerLoop.new (accounts l)). split; [| split; reflexivity].
  apply (serving args (stopped w (accounts l)) (accounts l) addr); try assumption; try reflexivity.
  cbn [stopped users_file read var exe_dir]. rewrite <- (open_path _ _ _ Ho), <- (registrations_path (registered (Process.handled (Process.start n) ls)) n), <- Hr.
  exact Hmir.
Qed.
End restart.

(** ** A server that is stopped after a registration *)
Module StartDemo.
Definition config_file : bytes := lit "[Signaling]" ++ [10] ++ lit "listen_address = 0.0.0.0:9000" ++ [10].
Definition w : world := World (fun _ => Ok config_file) None None None
  (fun _ => Ok [Ok (lit "cert")]) (fun _ => Ok [Ok Tls.OtherItem; Ok (Tls.Pkcs8Key (lit "key"))]) (fun _ _ => Ok ()) (fun _ => Ok ())
  Demo.disk_works.
Definition args : list bytes := [lit "signaling_server"].
Definition alice : tape := [Octets (frame_of (Register (lit "alice") (lit "secret1"))); Failed LinkDemo.would_block].
Definition trace : list Process.label :=
  [Process.Accept SignalingServer.Accepted alice; Process.Turn 1 ProcessDemo.fine; Process.Handle ProcessDemo.draws; Process.Handle ProcessDemo.draws].
Definition start : server := Process.start (Node (mk (lit "users.db") ∅) None Demo.disk_works).
Definition final : option server := Process.exec_all (H := backend Demo.sha256 Demo.iter) start trace.
End StartDemo.

Lemma server_restart_keeps_accounts_witness : exists s l p' l',
  StartDemo.final = Some s /\ Process.loop s = Some l /\
  server_main StartDemo.args (stopped StartDemo.w (accounts l)) = Serving p' /\ Process.loop p' = Some l' /\
  SigState.verify (AuthBackend := backend Demo.sha256 Demo.iter) (accounts l') (lit "alice") (lit "secret1") = Ok ().
Proof.
  destruct StartDemo.final as [s |] eqn:Ef; [| vm_compute in Ef; discriminate Ef].
  destruct (Process.loop s) as [l |] eqn:El; [| vm_compute in Ef; injection Ef as <-; discriminate El].
  destruct (server_restart_keeps_accounts Demo.sha256 Demo.iter Demo.sha256_length Demo.sha256_octets (fun m => reverse_Permutation _)
    StartDemo.args StartDemo.w StartDemo.start StartDemo.trace s l) as (p' & l' & Hm & Hl & Hv).
  - vm_compute. reflexivity.
  - intros i. split; [reflexivity | apply Forall_replicate; ulia].
  - intros i. reflexivity.
  - exact Ef.
  - exact El.
  - apply (bool_decide_unpack _). vm_compute. exact I.
  - exists s, l, p', l'. split; [reflexivity |]. split; [exact El |]. split; [exact Hm |]. split; [exact Hl |]. rewrite Hv.
    vm_compute in Ef. injection Ef as <-. injection El as <-. vm_compute. reflexivity.
Defined.
