(* ===== verification/Logger.v ===== *)
(** * Logging (src/log: logger.rs, logger_handle.rs)

    The name of the log file with its date, the bounded queue of messages and the worker that writes
    them to the file and passes a sample on to the interface. *)

From stdpp Require Import prelude strings.
From Stdlib Require Import ZArith Lia.
From S2P Require Import Prelude Utf8 Text Config FileTransfer.
Local Open Scope Z_scope.

(** ** Dates *)
Module SimpleUtc.
Record t : Type := mk { year : Z; mon : Z; day : Z; hour : Z; min : Z; sec : Z }.
End SimpleUtc.
Module UtcConvError.
Inductive t : Type := Year | Month | Day.
End UtcConvError.

(** [i32::try_from], [u32::try_from] *)
Definition try_from (lo hi : Z) (e : UtcConvError.t) (v : Z) : outcome UtcConvError.t Z :=
  if (lo <=? v) && (v <=? hi) then Ok v else Err e.

(** The date of a number of days since the first of March of the year 0; the divisions of [i128]
    round towards zero. *)
Definition civil (z : Z) : Z * Z * Z :=
  let era := Z.quot (if 0 <=? z then z else z - 146096) 146097 in
  let doe := z - era * 146097 in
  let yoe := Z.quot (doe - Z.quot doe 1460 + Z.quot doe 36524 - Z.quot doe 146096) 365 in
  let y := yoe + era * 400 in
  let doy := doe - (365 * yoe + Z.quot yoe 4 - Z.quot yoe 100) in
  let mp := Z.quot (5 * doy + 2) 153 in
  let d := doy - Z.quot (153 * mp + 2) 5 + 1 in
  let m := mp + (if mp <? 10 then 3 else -9) in
  (y + (if m <=? 2 then 1 else 0), m, d).

Definition unix_to_utc (s : Z) : outcome UtcConvError.t SimpleUtc.t :=
  let sec := s mod 60 in
  let s := s / 60 in
  let min := s mod 60 in
  let s := s / 60 in
  let hour := s mod 24 in
  let s := s / 24 in
  let '(year_i, m, d) := civil (s + 719468) in
  year ← try_from (-2147483648) 2147483647 UtcConvError.Year year_i;
  mon ← try_from 0 4294967295 UtcConvError.Month m;
  day ← try_from 0 4294967295 UtcConvError.Day d;
  Ok (SimpleUtc.mk year mon day hour min sec).

(** [{:0w}] of a number that is not negative *)
Definition padded (w : nat) (n : Z) : bytes := replicate (w - length (dec n)) 48 ++ dec n.
(** Years are not negative, the clock starting in 1970. *)
Definition timestamp_for_filename (secs : Z) : bytes :=
  match unix_to_utc secs with
  | Ok tm =>
      padded 4 (SimpleUtc.year tm) ++ padded 2 (SimpleUtc.mon tm) ++ padded 2 (SimpleUtc.day tm) ++ lit "_"
      ++ padded 2 (SimpleUtc.hour tm) ++ padded 2 (SimpleUtc.min tm) ++ padded 2 (SimpleUtc.sec tm)
  | _ => lit "unix_" ++ dec secs
  end.

(** ** Where the file is *)
Definition starts_with (p s : bytes) : bool := bool_decide (take (length p) s = p).
(** [home]: the variable [HOME], else [USERPROFILE] *)
Definition expand_path (path_str : bytes) (home : option bytes) : bytes :=
  if starts_with (lit "~") path_str then
    match home with
    | Some home_path =>
        if decide (path_str = lit "~") then home_path
        else if starts_with (lit "~/") path_str || starts_with (lit "~\") path_str then
          path_join home_path (drop 2 path_str)
        else path_str
    | None => path_str
    end
  else path_str.

(** [exe_dir], [cwd]: the directory of the program and the working directory, when they are known *)
Definition exe_dir_fallback_cwd (exe_dir cwd : option bytes) : bytes := default (default (lit ".") cwd) exe_dir.

Definition file_name_for (app_name : option bytes) (ts : bytes) (pid : Z) : bytes :=
  match app_name with
  | Some name => name ++ lit "-" ++ ts ++ lit "-pid" ++ dec pid ++ lit ".log"
  | None => ts ++ lit "-pid" ++ dec pid ++ lit ".log"
  end.
Definition start_in_dir (dir : bytes) (app_name : option bytes) (secs pid : Z) : bytes :=
  path_join dir (file_name_for app_name (timestamp_for_filename secs) pid).
Definition start_default (app_name exe_dir cwd : option bytes) (secs pid : Z) : bytes :=
  start_in_dir (path_join (exe_dir_fallback_cwd exe_dir cwd) (lit "logs")) app_name secs pid.
(** The path of the log file *)
Definition start (fn_key path_key : bytes) (config : Config.t) (home exe_dir cwd : option bytes) (secs pid : Z) : bytes :=
  let app_name := Config.get_non_empty config (lit "Loggin") fn_key in
  match Config.get_non_empty config (lit "Logging") path_key with
  | Some dir_str => start_in_dir (expand_path dir_str home) app_name secs pid
  | None => start_default app_name exe_dir cwd secs pid
  end.
Definition start_client (config : Config.t) (home exe_dir cwd : option bytes) (secs pid : Z) : bytes :=
  start (lit "client_log_filename") (lit "client_log_path") config home exe_dir cwd secs pid.
Definition start_server (config : Config.t) (home exe_dir cwd : option bytes) (secs pid : Z) : bytes :=
  start (lit "server_log_filename") (lit "server_log_path") config home exe_dir cwd secs pid.

(** ** The queue and the worker *)
Module Logger.
Inductive send_error : Type := Full | Disconnected.
(** [try_send] on a channel of capacity [cap]; [open]: its receiver lives *)
Definition try_send {A} (cap : nat) (open : bool) (q : list A) (v : A) : list A * outcome send_error unit :=
  if negb open then (q, Err Disconnected)
  else if (length q <? cap)%nat then (q ++ [v], Ok ()) else (q, Err Full).

(** [LoggerHandle::try_log] *)
Definition try_log (cap : nat) (worker : bool) (q : list LogMsg.t) (level : LogLevel.t) (text target : bytes) (now : Z)
  : list LogMsg.t * outcome send_error unit :=
  try_send cap worker q (LogMsg.mk level now text target).

Definition level_name (l : LogLevel.t) : bytes :=
  match l with
  | LogLevel.Trace => lit "Trace" | LogLevel.Debug => lit "Debug" | LogLevel.Info => lit "Info"
  | LogLevel.Warn => lit "Warn" | LogLevel.Error => lit "Error"
  end.
Definition FLUSH_BATCH_SIZE : Z := 1000.

(** [u32::is_multiple_of] *)
Definition is_multiple_of (n d : Z) : bool := if d =? 0 then n =? 0 else n mod d =? 0.

(** [buffered]: lines written and not yet flushed; [ui]: the queue of the interface *)
Record t : Type := mk {
  flushed : list bytes; buffered : list bytes; n : Z; lines_written : Z; dropped_to_ui : Z; ui : list bytes }.
Definition new : t := mk [] [] 0 0 0 [].

Definition file_line (m : LogMsg.t) : bytes :=
  lit "[" ++ level_name (LogMsg.level m) ++ lit "] " ++ dec (LogMsg.ts_ms m) ++ lit " | " ++ LogMsg.text m.
Definition ui_line (m : LogMsg.t) : bytes := lit "[" ++ level_name (LogMsg.level m) ++ lit "] " ++ LogMsg.text m.
Definition dropped_line (d : Z) : bytes := lit "(logger) UI log queue dropped " ++ dec d ++ lit " lines".
Definition urgent (l : LogLevel.t) : bool := match l with LogLevel.Warn | LogLevel.Error => true | _ => false end.

(** One message; [open]: the interface still receives *)
Definition on_msg (ui_cap : nat) (sample_every : Z) (open : bool) (s : t) (m : LogMsg.t) : t :=
  let lines := wrap32 (lines_written s + 1) in
  let written := buffered s ++ [file_line m] in
  let '(fl, bf) := if is_multiple_of lines FLUSH_BATCH_SIZE then (flushed s ++ written, []) else (flushed s, written) in
  let '(k, forward) :=
    if urgent (LogMsg.level m) then (n s, true)
    else let k := wrap32 (n s + 1) in (k, is_multiple_of k sample_every) in
  let '(q, dropped) :=
    if forward then
      match try_send ui_cap open (ui s) (ui_line m) with
      | (q, Ok _) => (q, dropped_to_ui s)
      | (q, _) => (q, dropped_to_ui s + 1)
      end
    else (ui s, dropped_to_ui s) in
  if 10 <=? dropped then mk fl bf k lines 0 (try_send ui_cap open q (dropped_line dropped)).1
  else mk fl bf k lines dropped q.
(** The end of the queue *)
Definition finish (s : t) : t := mk (flushed s ++ buffered s) [] (n s) (lines_written s) (dropped_to_ui s) (ui s).
Definition try_recv_ui (s : t) : option bytes * t :=
  match ui s with
  | [] => (None, s)
  | l :: q => (Some l, mk (flushed s) (buffered s) (n s) (lines_written s) (dropped_to_ui s) q)
  end.
End Logger.

(** ** The calendar *)
Definition leap (y : Z) : bool := (y mod 4 =? 0) && negb (y mod 100 =? 0) || (y mod 400 =? 0).
Definition days_in_month (y m : Z) : Z :=
  if m =? 2 then (if leap y then 29 else 28)
  else if (m =? 4) || (m =? 6) || (m =? 9) || (m =? 11) then 30 else 31.
Definition next_day (date : Z * Z * Z) : Z * Z * Z :=
  let '(y, m, d) := date in
  if d <? days_in_month y m then (y, m, d + 1)
  else if m <? 12 then (y, m + 1, 1) else (y + 1, 1, 1).

(** *** The parts of [civil] *)
Definition year_start (y : Z) : Z := 365 * y + y / 4 - y / 100.
Definition year_of (doe : Z) : Z := (doe - doe / 1460 + doe / 36524 - doe / 146096) / 365.
(** Month and day of a day of a year that starts in March *)
Definition month_day (doy : Z) : Z * Z :=
  let mp := (5 * doy + 2) / 153 in
  (mp + (if mp <? 10 then 3 else -9), doy - (153 * mp + 2) / 5 + 1).
Definition date_of (era yoe doy : Z) : Z * Z * Z :=
  let '(m, d) := month_day doy in (yoe + era * 400 + (if m <=? 2 then 1 else 0), m, d).

(** The years of an era and their days; an era has 400 years and 146097 days. *)
Definition year_end (y : Z) : Z := if y =? 399 then 146097 else year_start (y + 1).

Lemma year_of_mono a b : 0 <= a <= b -> b < 146097 -> year_of a <= year_of b.
Proof.
  intros Ha Hb. unfold year_of. apply Z.div_le_mono; [lia |].
  assert (H1 : a / 36524 <= b / 36524) by (apply Z.div_le_mono; lia).
  assert (H2 : b / 146096 - a / 146096 <= 1) by elia.
  assert (H3 : b / 1460 - a / 1460 <= (b - a) / 1460 + 1) by elia.
  assert (H4 : a / 146096 <= b / 146096) by (apply Z.div_le_mono; lia).
  destruct (Z.eq_dec a b) as [-> | Hne]; [lia |].
  destruct (Z.eq_dec (b / 146096) (a / 146096)) as [E | E]; [rewrite E; elia |].
  assert (Hb' : b = 146096) by elia. subst b. assert (a < 146096) by lia.
  destruct (Z.eq_dec a 146095) as [-> | ?]; [vm_compute; discriminate |]. elia.
Qed.
Lemma years y : 0 <= y < 400 ->
  year_of (year_start y) = y /\ year_of (year_end y - 1) = y /\
  0 <= year_start y /\ year_end y <= 146097 /\ year_end y - year_start y = (if leap (y + 1) then 366 else 365).
Proof. intros Hy. by_range 400%nat y. Qed.

Lemma year_exists doe : 0 <= doe < 146097 -> exists y, 0 <= y < 400 /\ year_start y <= doe < year_end y.
Proof.
  intros Hd. assert (H : forall n : nat, (n <= 399)%nat -> doe < year_end (Z.of_nat n) ->
    exists y, 0 <= y < 400 /\ year_start y <= doe < year_end y).
  { induction n as [| n IH]; intros Hn Hlt; [exists 0; split; [lia |]; split; [vm_compute in *; tauto | exact Hlt] |].
    destruct (Z.ltb_spec doe (year_end (Z.of_nat n))) as [Hc | Hc]; [apply IH; [lia | exact Hc] |].
    exists (Z.of_nat (S n)). split; [lia |]. split; [| exact Hlt]. unfold year_end in Hc.
    destruct (Z.eqb_spec (Z.of_nat n) 399); [lia |]. replace (Z.of_nat (S n)) with (Z.of_nat n + 1) by lia. exact Hc. }
  apply (H 399%nat); [lia |]. change (doe < 146097). lia.
Qed.
Lemma year_of_spec doe : 0 <= doe < 146097 ->
  0 <= year_of doe < 400 /\ year_start (year_of doe) <= doe < year_end (year_of doe).
Proof.
  intros Hd. destruct (year_exists doe Hd) as (y & Hy & Hs). destruct (years y Hy) as (H1 & H2 & H3 & H4 & _).
  assert (E : year_of doe = y).
  { pose proof (year_of_mono (year_start y) doe). pose proof (year_of_mono doe (year_end y - 1)). lia. }
  rewrite E. auto.
Qed.

Lemma civil_parts z : 0 <= z -> let era := z / 146097 in let doe := z mod 146097 in
  civil z = date_of era (year_of doe) (doe - year_start (year_of doe)).
Proof.
  intros Hz. unfold civil, date_of, month_day. cbv zeta.
  rewrite (proj2 (Z.leb_le 0 z) Hz), (Z.quot_div_nonneg z 146097) by lia.
  assert (Hdoe : z - z / 146097 * 146097 = z mod 146097) by elia. rewrite Hdoe.
  assert (Hd : 0 <= z mod 146097 < 146097) by (apply Z.mod_pos_bound; lia).
  destruct (year_of_spec _ Hd) as [Hy Hs]. generalize dependent (z mod 146097). intros doe _ Hd Hy Hs.
  rewrite !(Z.quot_div_nonneg doe) by lia.
  assert (E : Z.quot (doe - doe / 1460 + doe / 36524 - doe / 146096) 365 = year_of doe).
  { unfold year_of in *. rewrite Z.quot_div_nonneg; [reflexivity | elia | lia]. }
  rewrite E. rewrite !(Z.quot_div_nonneg (year_of doe)) by lia. fold (year_start (year_of doe)).
  set (doy := doe - year_start (year_of doe)) in *. assert (Hdoy : 0 <= doy) by lia.
  rewrite (Z.quot_div_nonneg (5 * doy + 2)) by lia. rewrite (Z.quot_div_nonneg (153 * ((5 * doy + 2) / 153) + 2)) by elia.
  reflexivity.
Qed.

(** *** One day after the other *)
Lemma leap_era era y : leap (y + era * 400) = leap y.
Proof.
  unfold leap. replace ((y + era * 400) mod 4) with (y mod 4) by elia.
  replace ((y + era * 400) mod 100) with (y mod 100) by elia. replace ((y + era * 400) mod 400) with (y mod 400) by elia.
  reflexivity.
Qed.

(** Within a year: the months as in the calendar, 29 days in February when [l] *)
Definition step_ok (l : bool) (doy : Z) : bool :=
  let '(m, d) := month_day doy in
  let '(m', d') := month_day (doy + 1) in
  let len := if m =? 2 then (if l then 29 else 28) else if (m =? 4) || (m =? 6) || (m =? 9) || (m =? 11) then 30 else 31 in
  if d <? len then (m' =? m) && (d' =? d + 1)
  else if m <? 12 then (m' =? m + 1) && (d' =? 1) && (Bool.eqb (m <=? 2) (m' <=? 2)) else (m' =? 1) && (d' =? 1).
Lemma steps_ok (l : bool) doy : 0 <= doy < (if l then 365 else 364) -> step_ok l doy = true.
Proof.
  intros H. destruct l; [by_range 365%nat doy | by_range 364%nat doy].
Qed.

Lemma next_within era yoe doy : 0 <= doy < (if leap (yoe + 1) then 365 else 364) ->
  date_of era yoe (doy + 1) = next_day (date_of era yoe doy).
Proof.
  intros H. pose proof (steps_ok _ _ H) as Hs. unfold step_ok in Hs. unfold date_of, next_day, days_in_month.
  destruct (month_day doy) as [m d], (month_day (doy + 1)) as [m' d'].
  assert (El : (if m =? 2 then if leap (yoe + era * 400 + (if m <=? 2 then 1 else 0)) then 29 else 28
      else if (m =? 4) || (m =? 6) || (m =? 9) || (m =? 11) then 30 else 31)
    = (if m =? 2 then if leap (yoe + 1) then 29 else 28
      else if (m =? 4) || (m =? 6) || (m =? 9) || (m =? 11) then 30 else 31)).
  { destruct (Z.eqb_spec m 2) as [-> |]; [| reflexivity]. cbn [Z.leb Z.compare Pos.compare Pos.compare_cont].
    rewrite <- (leap_era era (yoe + 1)).
    replace (yoe + 1 + era * 400) with (yoe + era * 400 + 1) by lia. reflexivity. }
  rewrite El. clear El. destruct (d <? _).
  - apply andb_prop in Hs as [->%Z.eqb_eq ->%Z.eqb_eq]. reflexivity.
  - destruct (Z.ltb_spec m 12).
    + apply andb_prop in Hs as [[->%Z.eqb_eq ->%Z.eqb_eq]%andb_prop Hb%eqb_prop]. rewrite Hb. reflexivity.
    + apply andb_prop in Hs as [->%Z.eqb_eq ->%Z.eqb_eq]. destruct (Z.leb_spec m 2); [lia |]. f_equal. f_equal. cbn. lia.
Qed.

(** The last day of a year is the last of February. *)
Lemma next_year era yoe : let last := if leap (yoe + 1) then 365 else 364 in
  next_day (date_of era yoe last) = (yoe + era * 400 + 1, 3, 1).
Proof.
  cbv zeta. unfold date_of, next_day, days_in_month. pose proof (leap_era era (yoe + 1)) as Hl.
  replace (yoe + 1 + era * 400) with (yoe + era * 400 + 1) in Hl by lia.
  destruct (leap (yoe + 1)); vm_compute month_day; cbn [Z.leb Z.eqb Z.compare Pos.compare Pos.compare_cont Pos.eqb];
    rewrite Hl; reflexivity.
Qed.
Lemma first_day era yoe : date_of era yoe 0 = (yoe + era * 400, 3, 1).
Proof. unfold date_of. vm_compute month_day. cbn [Z.leb Z.compare Pos.compare Pos.compare_cont]. f_equal. f_equal. lia. Qed.

Lemma civil_next z : 0 <= z -> civil (z + 1) = next_day (civil z).
Proof.
  intros Hz. rewrite !civil_parts by lia. set (doe := z mod 146097). set (era := z / 146097).
  assert (Hd : 0 <= doe < 146097) by (apply Z.mod_pos_bound; lia).
  destruct (year_of_spec doe Hd) as [Hy Hs]. destruct (years _ Hy) as (_ & _ & _ & Hle & Hlen).
  destruct (Z.eq_dec doe 146096) as [E | E].
  - assert (E1 : (z + 1) mod 146097 = 0) by (unfold doe in E; elia).
    assert (E2 : (z + 1) / 146097 = era + 1) by (unfold doe, era in *; elia).
    rewrite E1, E2, E. change (year_of 0) with 0. change (year_of 146096) with 399.
    change (0 - year_start 0) with 0. change (146096 - year_start 399) with 365. rewrite first_day.
    change 365 with (if leap (399 + 1) then 365 else 364). rewrite next_year. f_equal. f_equal. lia.
  - assert (E1 : (z + 1) mod 146097 = doe + 1) by (unfold doe in *; elia).
    assert (E2 : (z + 1) / 146097 = era) by (unfold doe, era in *; elia). rewrite E1, E2.
    destruct (year_of_spec (doe + 1) ltac:(lia)) as [Hy' Hs'].
    destruct (Z.ltb_spec (doe + 1) (year_end (year_of doe))) as [Hc | Hc].
    + assert (Ey : year_of (doe + 1) = year_of doe).
      { destruct (years _ Hy) as (_ & H2 & _). pose proof (year_of_mono doe (doe + 1)).
        pose proof (year_of_mono (doe + 1) (year_end (year_of doe) - 1)). lia. }
      rewrite Ey. replace (doe + 1 - year_start (year_of doe)) with (doe - year_start (year_of doe) + 1) by lia.
      apply next_within. destruct (leap (year_of doe + 1)); lia.
    + assert (Ee : year_end (year_of doe) = doe + 1) by lia.
      assert (Hn : year_of doe <> 399) by (intros E'; rewrite E' in Ee; change (year_end 399) with 146097 in Ee; lia).
      assert (Hst : year_end (year_of doe) = year_start (year_of doe + 1)) by (unfold year_end; destruct (Z.eqb_spec (year_of doe) 399); [lia | reflexivity]).
      assert (Ey : year_of (doe + 1) = year_of doe + 1) by (rewrite <- Ee, Hst; apply years; lia).
      rewrite Ey. replace (doe + 1 - year_start (year_of doe + 1)) with 0 by lia. rewrite first_day.
      replace (doe - year_start (year_of doe)) with (if leap (year_of doe + 1) then 365 else 364)
        by (destruct (leap (year_of doe + 1)); lia).
      rewrite next_year. f_equal. f_equal. lia.
Qed.

Lemma civil_days n : civil (Z.of_nat n + 719468) = Nat.iter n next_day (1970, 1, 1).
Proof.
  induction n as [| n IH]; [vm_compute; reflexivity |].
  replace (Z.of_nat (S n) + 719468) with (Z.of_nat n + 719468 + 1) by lia. rewrite civil_next, IH by lia. reflexivity.
Qed.

(** Months and days of the calendar *)
Definition date_ok (date : Z * Z * Z) : Prop :=
  let '(y, m, d) := date in 1970 <= y /\ 1 <= m <= 12 /\ 1 <= d <= days_in_month y m.
Lemma days_in_month_range y m : 28 <= days_in_month y m <= 31.
Proof. unfold days_in_month. repeat case_match; lia. Qed.
Lemma next_day_ok date : date_ok date -> date_ok (next_day date).
Proof.
  destruct date as [[y m] d]. unfold date_ok, next_day. intros (Hy & Hm & Hd). case_test; [lia |].
  case_test; [pose proof (days_in_month_range y (m + 1)); lia |]. pose proof (days_in_month_range (y + 1) 1). lia.
Qed.
Lemma iter_ok n : date_ok (Nat.iter n next_day (1970, 1, 1)).
Proof. induction n as [| n IH]; [vm_compute; intuition discriminate |]. cbn [Nat.iter]. apply next_day_ok, IH. Qed.

(** C31 The date in the name of a log file is the calendar's. The seconds since 1970 are split into
    days, hours, minutes and seconds, and the date is the one reached by counting the days one by one
    from the first of January 1970, with the leap years of the Gregorian calendar; the conversion
    fails only when the year does not fit 32 bits. *)
Theorem log_date_is_calendar s : u64 s ->
  let '(y, m, d) := Nat.iter (Z.to_nat (s / 86400)) next_day (1970, 1, 1) in
  unix_to_utc s = (if y <=? 2147483647
                   then Ok (SimpleUtc.mk y m d (s mod 86400 / 3600) (s mod 3600 / 60) (s mod 60))
                   else Err UtcConvError.Year).
Proof.
  intros [Hs _]. pose proof (iter_ok (Z.to_nat (s / 86400))) as Hok.
  pose proof (civil_days (Z.to_nat (s / 86400))) as Hc. rewrite Z2Nat.id in Hc by elia.
  destruct (Nat.iter _ next_day _) as [[y m] d]. destruct Hok as (Hy & Hm & Hd). pose proof (days_in_month_range y m).
  unfold unix_to_utc. replace (s / 60 / 60 / 24) with (s / 86400) by elia. rewrite Hc. unfold try_from.
  replace (s / 60 / 60 mod 24) with (s mod 86400 / 3600) by elia. replace (s / 60 mod 60) with (s mod 3600 / 60) by elia.
  destruct (Z.leb_spec (-2147483648) y); [| lia]. cbn [andb]. destruct (Z.leb_spec y 2147483647); [| reflexivity].
  cbn [mbind outcome_bind].
  replace ((0 <=? m) && (m <=? 4294967295)) with true by (symmetry; apply andb_true_iff; split; apply Z.leb_le; lia).
  replace ((0 <=? d) && (d <=? 4294967295)) with true by (symmetry; apply andb_true_iff; split; apply Z.leb_le; lia).
  reflexivity.
Qed.

Lemma log_date_is_calendar_witness :
  unix_to_utc 1709209845 = Ok (SimpleUtc.mk 2024 2 29 12 30 45) /\ u64 1709209845.
Proof.
  assert (H : u64 1709209845) by ulia. split; [| exact H].
  pose proof (log_date_is_calendar 1709209845 H) as E.
  replace (Nat.iter (Z.to_nat (1709209845 / 86400)) next_day (1970, 1, 1)) with (2024, 2, 29) in E by (vm_compute; reflexivity).
  exact E.
Defined.

(** ** The worker *)

(** Whatever the interface does, the file gets every message of the queue, in order. *)
Lemma worker_writes_all ui_cap sample_every (ms : list (bool * LogMsg.t)) s :
  let s' := Logger.finish (foldl (fun s p => Logger.on_msg ui_cap sample_every p.1 s p.2) s ms) in
  Logger.flushed s' = Logger.flushed s ++ Logger.buffered s ++ (Logger.file_line <$> ms.*2).
Proof.
  cbv zeta. revert s. induction ms as [| [o m] ms IH]; intros s; cbn [foldl fmap list_fmap]; [rewrite app_nil_r; reflexivity |].
  rewrite IH. assert (E : Logger.flushed (Logger.on_msg ui_cap sample_every o s m) ++ Logger.buffered (Logger.on_msg ui_cap sample_every o s m)
    = Logger.flushed s ++ Logger.buffered s ++ [Logger.file_line m]).
  { unfold Logger.on_msg. repeat case_match; simplify_eq/=; rewrite ?app_nil_r; reflexivity. }
  cbn [fst snd]. rewrite app_assoc, E, <- !app_assoc. reflexivity.
Qed.

(** The name of the log file is looked up in the section [Loggin], which no configuration file has:
    the one that is shipped sets it in [Logging], and the name is not used. *)
Lemma configured_log_name_ignored :
  let conf := Config.parse (lit "[Logging]" ++ [10] ++ lit "client_log_filename = roomrtc" ++ [10]) in
  Config.get_non_empty conf (lit "Logging") (lit "client_log_filename") = Some (lit "roomrtc") /\
  start_client conf None (Some (lit "/opt")) None 1709209845 42 = lit "/opt/logs/20240229_123045-pid42.log".
Proof. vm_compute. split; reflexivity. Qed.
