(* ===== verification/Engine.v ===== *)
(** * The engine (core/engine.rs, and the relay of core/session.rs)

    The state behind [Engine]: the connection manager, the session once a pair is nominated and the
    DTLS handshake has succeeded, the congestion controller, the media transport, whether a file
    handler exists, and the two flags of file transfers. An operation returns the messages it puts on
    the channels of the other components. The nomination and the queue of events are those of
    [poll]; what the socket and OpenSSL answer are arguments. *)

From stdpp Require Import prelude gmap strings.
From Stdlib Require Import ZArith Lia.
From S2P Require Import Prelude Utf8 Text Srtp RecvStream RtpSession Congestion AppSession Sdp Net Config Dtls Ice ConnManager MediaTransport Sctp FileTransfer.
Local Open Scope Z_scope.

(** The events of the RTP session, of the congestion controller and of the session among those of
    the engine *)
Definition of_rtp (e : RtpSession.EngineEvent) : EngineEvent.t :=
  match e with
  | EvRtpIn r => EngineEvent.RtpIn r
  | EvNetworkMetrics m => EngineEvent.NetworkMetrics m
  | EvStatus msg => EngineEvent.Status msg
  | EvUpdateBitrate bps => EngineEvent.UpdateBitrate bps
  end.
Definition of_session (e : Session.EngineEvent) : EngineEvent.t :=
  match e with
  | Session.EvEstablished => EngineEvent.Established
  | Session.EvClosing graceful => EngineEvent.Closing graceful
  | Session.EvClosed => EngineEvent.Closed
  | Session.EvError msg => EngineEvent.Error msg
  end.

(** The thread of [Session::new] that forwards the events of the data channel *)
Definition forward (ev : SctpEvents.t) : option EngineEvent.t :=
  match ev with
  | SctpEvents.ReceivedOffer p => Some (EngineEvent.ReceivedFileOffer p)
  | SctpEvents.ReceivedAccept id => Some (EngineEvent.ReceivedFileAccept id)
  | SctpEvents.ReceivedReject id => Some (EngineEvent.ReceivedFileReject id)
  | SctpEvents.ReceivedCancel id => Some (EngineEvent.ReceivedFileCancel id)
  | SctpEvents.ReceivedChunk id seq payload => Some (EngineEvent.ReceivedFileChunk id seq payload)
  | SctpEvents.ReceivedEndFile id => Some (EngineEvent.ReceivedFileEnd id)
  | SctpEvents.SendOffer p => Some (EngineEvent.SendFileOffer p)
  | SctpEvents.SendAccept id => Some (EngineEvent.SendFileAccept id)
  | SctpEvents.SendReject id => Some (EngineEvent.SendFileReject id)
  | SctpEvents.SendCancel id => Some (EngineEvent.SendFileCancel id)
  | SctpEvents.SendChunk file_id payload => Some (EngineEvent.SendFileChunk file_id payload)
  | SctpEvents.SendEndFile id => Some (EngineEvent.SendFileEnd id)
  | SctpEvents.SctpErr e => Some (EngineEvent.Error (lit "SCTP Error: " ++ e))
  | _ => None
  end.

Module Engine.
Definition MIN_BITRATE : Z := 500000.
Definition MAX_BITRATE : Z := 1500000.
Definition BITRATE : Z := 1500000.

(** What [Session] is built from, besides its own state *)
Record running : Type := Running {
  sess : Session.t;
  peer : SocketAddr.t;
  srtp_cfg : option SrtpSessionConfig.t;
  is_client : bool }.
Definition session_config : SessionConfig.t := SessionConfig.mk 10000000000 250000000 5000000000 250000000.

Record t : Type := mk {
  cm : ConnectionManager.t;
  session : option running;
  media_transport : MediaTransport.t;
  congestion_controller : CongestionController.t;
  config : Config.t;
  file_handler : bool;               (* a file handler exists *)
  sending_files : bool;
  receiving_files : bool }.

Definition with_cm (s : t) (c : ConnectionManager.t) : t :=
  mk c (session s) (media_transport s) (congestion_controller s) (config s) (file_handler s) (sending_files s) (receiving_files s).
Definition with_session (s : t) (x : option running) : t :=
  mk (cm s) x (media_transport s) (congestion_controller s) (config s) (file_handler s) (sending_files s) (receiving_files s).
Definition with_media (s : t) (m : MediaTransport.t) : t :=
  mk (cm s) (session s) m (congestion_controller s) (config s) (file_handler s) (sending_files s) (receiving_files s).
Definition with_controller (s : t) (c : CongestionController.t) : t :=
  mk (cm s) (session s) (media_transport s) c (config s) (file_handler s) (sending_files s) (receiving_files s).
Definition with_files (s : t) (fh sending receiving : bool) : t :=
  mk (cm s) (session s) (media_transport s) (congestion_controller s) (config s) fh sending receiving.

Inductive output : Type :=
| Emit (e : EngineEvent.t)                   (* event_tx *)
| ToSctp (e : SctpEvents.t)                  (* Session::send_sctp_event *)
| ToFileHandler (e : FileHandlerEvents.t)
| ToMediaTransport (e : MediaTransportEvent.t)
| SetAudioMute (mute : bool)
| ShutdownFileHandler
| OfSession (e : Session.effect)
| Datagram (d : IceAgent.datagram).

Definition emits (evs : list RtpSession.EngineEvent) : list output := (fun e => Emit (of_rtp e)) <$> evs.

Definition new (config : Config.t) (sending_files receiving_files : bool) (fingerprint : option bytes)
    (draws : nat -> nat) (now : Z) : outcome Empty_set (t * list output) :=
  let max_bitrate := MediaTransport.u32_option (Config.get config (lit "Media") (lit "max_bitrate")) MAX_BITRATE in
  let min_bitrate := MediaTransport.u32_option (Config.get config (lit "Media") (lit "min_bitrate")) MIN_BITRATE in
  let '(cc, evs) := CongestionController.new BITRATE min_bitrate max_bitrate now in
  cm ← ConnectionManager.new config fingerprint draws;
  Ok (mk cm None (MediaTransport.new config) cc config false sending_files receiving_files,
      emits evs).

(** The thread between [event_tx] and [ui_rx] *)
Definition relay (ev : EngineEvent.t) : MediaTransportEvent.t + EngineEvent.t :=
  match ev with EngineEvent.RtpIn pkt => inl (MediaTransportEvent.RtpIn pkt) | _ => inr ev end.

(** *** Signaling *)
Section hash.
Context (default_hash : bytes -> Z).

Definition encode_out (o : OutboundSdp.t) : option bytes :=
  match o with
  | OutboundSdp.Offer d | OutboundSdp.Answer d => Some (Sdp.encode d)
  | OutboundSdp.None => None
  end.
Definition map_ok {E A B} (f : A -> B) (o : outcome E A) : outcome E B :=
  match o with Ok a => Ok (f a) | Err e => Err e | Panic => Panic end.
Definition negotiate (s : t) (e : ConnectionManager.env)
  : t * list IceAgent.datagram * outcome ConnectionError.t (option bytes) :=
  let c := ConnectionManager.set_local_rtp_codecs (cm s) (MediaTransport.codec_descriptors (media_transport s)) in
  let '(c, ds, r) := ConnectionManager.negotiate default_hash e c in
  (with_cm s c, ds, map_ok encode_out r).
Definition apply_remote_sdp (s : t) (e : ConnectionManager.env) (remote_sdp : bytes)
  : t * list IceAgent.datagram * outcome ConnectionError.t (option bytes) :=
  let c := ConnectionManager.set_local_rtp_codecs (cm s) (MediaTransport.codec_descriptors (media_transport s)) in
  let '(c, ds, r) := ConnectionManager.apply_remote_sdp default_hash e remote_sdp c in
  (with_cm s c, ds, map_ok encode_out r).
End hash.
Definition apply_remote_candidate (s : t) (candidate_line : bytes)
  : t * list IceAgent.datagram * outcome ConnectionError.t unit :=
  let '(c, ds, r) := ConnectionManager.apply_remote_trickle_candidate candidate_line (cm s) in
  (with_cm s c, ds, r).
Definition local_candidates_as_sdp_lines (s : t) : list bytes :=
  ICEAndSDP.to_string <$> IceAgent.local_candidates (ConnectionManager.ice_agent (cm s)).

(** *** Life of the session *)

(** The inbound and outbound contexts that [RtpSession::new] makes of the configuration *)
Definition contexts (keystream : bytes -> bytes -> nat -> bytes) (cfg : option SrtpSessionConfig.t)
  : outcome SrtpError (option (SrtpContext.t * SrtpContext.t)) :=
  match cfg with
  | None => Ok None
  | Some c =>
      inbound ← SrtpContext.new keystream (SrtpSessionConfig.inbound c);
      outbound ← SrtpContext.new keystream (SrtpSessionConfig.outbound c);
      Ok (Some (inbound, outbound))
  end.
(** [SrtpContext::new] reports no error: a master key of a wrong length panics where it becomes the key
    of the cipher ([aes_cm_prf] of srtp/utils.rs). *)
Definition start (keystream : bytes -> bytes -> nat -> bytes) (display : RtpSessionError -> bytes) (s : t)
    (token random_ssrc : Z) (e : readings) : t * list output * outcome bytes unit :=
  match session s with
  | None => (s, [], Err (lit "no nominated pair yet"))
  | Some r =>
      match contexts keystream (srtp_cfg r) with
      | Ok srtp =>
          let '(x, effects) := Session.start display (sess r) token random_ssrc srtp e in
          (with_session s (Some (Running x (peer r) (srtp_cfg r) (is_client r))), OfSession <$> effects, Ok ())
      | _ => (s, [], Panic)
      end
  end.

Definition stop (s : t) : t * list output :=
  let '(s, closed) :=
    match session s with
    | Some r =>
        let '(x, effects) := Session.request_close (sess r) in
        (with_session s (Some (Running x (peer r) (srtp_cfg r) (is_client r))), OfSession <$> effects)
    | None => (s, [])
    end in
  let s := with_media s (MediaTransport.stop (media_transport s)) in
  if file_handler s then (with_files s false false false, closed ++ [ShutdownFileHandler])
  else (with_files s false (sending_files s) (receiving_files s), closed).

Definition close_session (s : t) (draws : nat -> nat) : outcome Empty_set t :=
  c ← ConnectionManager.reset (cm s) draws;
  Ok (with_files (with_cm (with_session s None) c) false (sending_files s) (receiving_files s)).

(** *** Files *)
Definition when_session (s : t) (e : SctpEvents.t) : list output :=
  match session s with Some _ => [ToSctp e] | None => [] end.
Definition when_handler (s : t) (e : FileHandlerEvents.t) : list output :=
  if file_handler s then [ToFileHandler e] else [].

Definition send_file (s : t) (path : bytes) (id : Z) : t * list output :=
  if file_handler s
  then (with_files s true true (receiving_files s), [ToFileHandler (FileHandlerEvents.ReadFile path id)])
  else (s, []).
Definition accept_file (s : t) (id : Z) (filename : bytes) : t * list output :=
  (with_files s (file_handler s) (sending_files s) (receiving_files s || is_some (session s)),
   when_session s (SctpEvents.SendAccept id) ++ when_handler s (FileHandlerEvents.WriteFile filename id)).
Definition reject_file (s : t) (id : Z) : list output := when_session s (SctpEvents.SendReject id).
Definition cancel_file (s : t) (id : Z) : list output :=
  when_session s (SctpEvents.SendCancel id) ++ when_handler s (FileHandlerEvents.Cancel id).
Definition set_audio_mute (mute : bool) : list output := [SetAudioMute mute].

(** The thread that asks for chunks: one wakeup. [alive]: the handler still exists;
    [send_ok]: the listener still receives. [false]: the thread ends. *)
Definition drain_turn (sending : bool) (buffered : option Z) (alive send_ok : bool)
  : list FileHandlerEvents.t * bool :=
  if sending then
    if 512000 <? default 0 buffered then ([], true)
    else if alive && send_ok then (replicate 20 FileHandlerEvents.DrainChunks, true)
    else ([], false)
  else ([], alive).

(** *** Polling *)

(** What the socket and the DTLS library answer when a pair is nominated *)
Record connect_env : Type := ConnectEnv {
  connected : outcome bytes unit;
  local_addr : option SocketAddr.t;
  dtls : openssl }.
Definition dtls_role (s : t) : DtlsRole.t :=
  match IceAgent.role (ConnectionManager.ice_agent (cm s)) with
  | Controlling => DtlsRole.Server
  | Controlled => DtlsRole.Client
  end.
Definition unspecified : SocketAddr.t := SocketAddr.mk (V4 0 0 0 0) 0.

Definition connect_nominated (s : t) (e : connect_env) : t * list output :=
  match session s, IceAgent.get_data_channel_socket (ConnectionManager.ice_agent (cm s)) with
  | None, Ok (_, peer) =>
      match connected e with
      | Err err => (s, [Emit (EngineEvent.Error (lit "socket.connect: " ++ err))])
      | _ =>
          let nominated := Emit (EngineEvent.IceNominated (default unspecified (local_addr e)) peer) in
          let s := with_cm s (ConnectionManager.stop_ice_worker (cm s)) in
          match run_dtls_handshake (dtls e) (dtls_role s) (ConnectionManager.remote_fingerprint (cm s)) (config s) with
          | Ok srtp =>
              let r := Running (Session.new (ConnectionManager.remote_codecs (cm s))) peer (Some srtp)
                         (DtlsRole.is_client (dtls_role s)) in
              (with_session (with_files s true (sending_files s) (receiving_files s)) (Some r), [nominated])
          | Err err => (s, [nominated; Emit (EngineEvent.Error (lit "DTLS handshake failed: " ++ DtlsError.to_string err))])
          | Panic => (s, [nominated])
          end
      end
  | _, _ => (s, [])
  end.

(** One event of the queue: the messages it causes, and whether it is handed to the application
    (and counted). *)
Definition on_event (s : t) (ev : EngineEvent.t) (now : Z) : outcome Empty_set (t * list output * bool) :=
  match ev with
  | EngineEvent.NetworkMetrics m =>
      '(cc, evs) ← CongestionController.on_network_metrics (congestion_controller s) m now;
      Ok (with_controller s cc, emits evs, true)
  | EngineEvent.UpdateBitrate br =>
      Ok (s, if MediaTransport.media_transport_event_tx (media_transport s)
             then [ToMediaTransport (MediaTransportEvent.UpdateBitrate br)] else [], true)
  | EngineEvent.SendFileOffer props => Ok (s, when_session s (SctpEvents.SendOffer props), false)
  | EngineEvent.SendFileChunk id payload => Ok (s, when_session s (SctpEvents.SendChunk id payload), false)
  | EngineEvent.SendFileEnd id =>
      Ok (with_files s (file_handler s) false (receiving_files s), when_session s (SctpEvents.SendEndFile id), false)
  | EngineEvent.ReceivedFileChunk id _ payload =>
      Ok (s, when_handler s (FileHandlerEvents.WriteChunk id payload), false)
  | EngineEvent.ReceivedFileEnd id => Ok (with_files s (file_handler s) (sending_files s) false, [], true)
  | EngineEvent.ReceivedFileOffer props => Ok (s, [], true)
  | EngineEvent.ReceivedFileAccept id => Ok (s, when_handler s (FileHandlerEvents.RemoteAccepted id), true)
  | EngineEvent.ToggleAudio mute => Ok (s, [SetAudioMute mute], true)
  | _ => Ok (s, [], true)
  end.

(** [clock k] is the clock at the [k]-th turn, [start] at the beginning. The result is the events
    for the application, the messages, and the events left in the queue. *)
Fixpoint event_loop (s : t) (queue : list EngineEvent.t) (start : Z) (clock : nat -> Z) (k : nat) (processed : Z)
  : outcome Empty_set (t * list EngineEvent.t * list output * list EngineEvent.t) :=
  match queue with
  | [] => Ok (s, [], [], [])
  | ev :: rest =>
      if (500 <=? processed) || (4000000 <=? Z.max 0 (clock k - start)) then Ok (s, [], [], queue)
      else
        '(s, o, counted) ← on_event s ev (clock k);
        '(s, out, o', queue') ← event_loop s rest start clock (S k) (if (counted : bool) then processed + 1 else processed);
        Ok (s, (if (counted : bool) then [ev] else []) ++ out, o ++ o', queue')
  end.

Definition poll (s : t) (e : connect_env) (queue : list EngineEvent.t) (start : Z) (clock : nat -> Z)
  : outcome Empty_set (t * list EngineEvent.t * list output * list EngineEvent.t) :=
  let '(c, ds) := ConnectionManager.drain_ice_events (cm s) in
  let '(s, o) := connect_nominated (with_cm s c) e in
  '(s, out, o', queue') ← event_loop s queue start clock 0 0;
  Ok (s, out, (Datagram <$> ds) ++ o ++ o', queue').

(** [start_media_transport] *)
Definition start_media_transport (s : t) (random_video random_audio : Z) (agent_tx : bool)
  : outcome Empty_set (t * option MediaTransport.loop * list output) :=
  '(m, l) ← MediaTransport.start_event_loops (media_transport s) random_video random_audio agent_tx;
  Ok (with_media s m, l,
      if MediaTransport.media_transport_event_tx m then [ToMediaTransport MediaTransportEvent.Established] else []).
End Engine.
