(* ===== verification/MediaTheory.v ===== *)
(** * The video path, from encoder to decoder

    An encoded frame handed to the media transport of one peer is ordered, packetized, protected and
    sent; the other peer authenticates, decrypts and routes the datagrams, and its engine and media
    transport reassemble the frame for the decoder. [linked] is the invariant of a source between the
    two sessions; [frame_delivered] composes the components. *)

From stdpp Require Import prelude gmap strings.
From Stdlib Require Import ZArith Lia.
From S2P Require Import Prelude Utf8 Text Rtp Srtp RecvStream RtpSession H264 AppSession Net Config ConnManager MediaTransport Sctp FileTransfer Engine.
Import H264Packetizer Reassembly.
Local Open Scope Z_scope.

(** ** Payloads are octets *)
Lemma fragments_ok f nalu ind base budget off : bytes_ok nalu -> u8 ind -> 0 <= base < 32 ->
  Forall bytes_ok (fragments f nalu ind base budget off).
Proof.
  intros Hn Hi Hb. revert off. induction f as [| f IH]; intros off; [apply Forall_nil_2 |].
  cbn [fragments]. case_test; [| apply Forall_nil_2]. apply Forall_cons. split; [| apply IH].
  constructor; [exact Hi |]. constructor.
  - assert (Hc : forall s e, (s = 128 \/ s = 0) -> (e = 64 \/ e = 0) -> u8 (Z.lor (Z.lor s e) base)).
    { clear - Hb. intros s e [-> | ->] [-> | ->]; by_range 32%nat base. }
    apply Hc; case_test; auto.
  - apply Forall_take, Forall_drop, Hn.
Qed.

Lemma nalu_payloads_ok max n ps : bytes_ok n -> nalu_payloads max n = Some ps -> Forall bytes_ok ps.
Proof.
  destruct n as [| h n]; [discriminate |]. intros Hn. cbn [nalu_payloads]. case_test.
  - intros [= <-]. apply Forall_singleton, Hn.
  - case_test; [discriminate |]. intros E. apply (inj Some) in E as <-. assert (Hh : u8 h) by (apply Forall_cons in Hn; tauto).
    apply fragments_ok; [exact Hn | | ]; clear - Hh; by_range 256%nat h.
Qed.

Lemma payloads_of_ok max ns : Forall bytes_ok ns -> Forall bytes_ok (payloads_of max ns).
Proof.
  intros H. unfold payloads_of. induction H as [| n ns Hn Hns IH]; [apply Forall_nil_2 |].
  cbn [map concat]. apply Forall_app. split; [| exact IH].
  destruct (nalu_payloads max n) eqn:E; [eapply nalu_payloads_ok; eauto | apply Forall_nil_2].
Qed.

(** ** One source between two sessions *)
Section media.
Context (keystream : bytes -> bytes -> nat -> bytes) (hmac_sha1 : bytes -> bytes -> bytes).
Hypothesis keystream_length : forall k iv n, length (keystream k iv n) = n.
Hypothesis hmac_length : forall k m, length (hmac_sha1 k m) = 20%nat.

(** [a] is about to send the packet of index [i] of the source, and [b] has received those before
    it and waits for it; both hold the same keys. *)
Definition linked (a b : RtpSession.t) (ssrc pt i : Z) : Prop :=
  exists st cs rs cr l,
    (RtpSession.send_streams a !! ssrc = Some st /\ RtpSendStream.local_ssrc st = ssrc /\
     RtpCodec.payload_type (RtpSendStream.codec st) = pt /\ RtpSendStream.seq st = wrap16 i /\
     RtpSession.srtp_outbound a = Some cs /\ sender_at cs ssrc i) /\
    (RtpSession.recv_streams b !! ssrc = Some rs /\ RtpRecvStream.remote_ssrc rs = Some ssrc /\
     RtpRecvStream.jitter_buffer rs = ∅ /\
     (RtpRecvStream.next_seq rs = None \/ RtpRecvStream.next_seq rs = Some (wrap16 i)) /\
     RtpSession.srtp_inbound b = Some cr /\ SrtpContext.session_keys cr = SrtpContext.session_keys cs /\
     recv_at cr ssrc l) /\
    Forall (fun j => 0 <= j < i) l /\ (last l = Some (i - 1) \/ l = [] /\ i < 65536).

Lemma highest_below l i : 0 <= i -> Forall (fun j => 0 <= j < i) l -> highest l <= i.
Proof.
  intros Hi. induction l as [| j l IH] using rev_ind; [exact (fun _ => Hi) |].
  rewrite Forall_app, Forall_singleton, highest_snoc. intros [Hl Hj]. specialize (IH Hl). lia.
Qed.

Lemma next_acceptable l i : 0 <= i < 2 ^ 48 -> Forall (fun j => 0 <= j < i) l ->
  (last l = Some (i - 1) \/ l = [] /\ i < 65536) -> acceptable l i.
Proof.
  intros Hi Hl Hlast. split; [| split; [| split; [exact Hi |]]].
  - intros Hin. rewrite Forall_forall in Hl. specialize (Hl i Hin). lia.
  - pose proof (highest_below l i ltac:(lia) Hl). lia.
  - destruct Hlast as [-> | [-> Hs]]; [lia | exact Hs].
Qed.

Lemma linked_step a b ssrc pt i payload ts marker ea eb :
  linked a b ssrc pt i -> 0 <= i < 2 ^ 48 -> u32 ssrc -> u32 ts -> bytes_ok payload ->
  0 <= pt < 128 -> marker && (72 <=? pt) && (pt <=? 78) = false ->
  exists a' dg b',
    RtpSession.send_rtp_payload keystream hmac_sha1 a ssrc payload ts marker true ea = (a', Some dg, Ok ()) /\
    RtpSession.on_datagram keystream hmac_sha1 b dg eb
      = Some (b', [EvRtpIn (RtpIn.mk pt marker ts (wrap16 i) ssrc payload)]) /\
    linked a' b' ssrc pt (i + 1).
Proof.
  intros (st & cs & rs & cr & l & (Hst & Hls & <- & Hseq & Hout & Hat) &
    (Hrs & Hrem & Hbuf & Hnext & Hin & Hkeys & Hrecv) & Hl & Hlast) Hi Hssrc Hts Hpl Hpt Hnot.
  destruct (media_packet keystream hmac_sha1 keystream_length hmac_length a b st rs cs cr ssrc i l
    payload ts marker ea eb) as (a' & dg & st' & cs' & b' & rs' & cr' & Hs & Ha & Hd & Hb);
    try assumption; [apply next_acceptable; assumption |].
  exists a', dg, b'. split; [exact Hs |]. split; [exact Hd |].
  destruct Ha as (? & ? & Hc & ? & ? & ? & ?), Hb as (? & ? & ? & ? & ? & ? & ?).
  exists st', cs', rs', cr', (l ++ [i]). rewrite Hc. split; [tauto |].
  split; [split_and!; auto; congruence |].
  rewrite Forall_app, Forall_singleton, last_snoc. split; [| left; f_equal; lia].
  split; [| lia]. eapply Forall_impl; [exact Hl |]. intros j Hj. cbv beta in Hj |- *. lia.
Qed.

(** The datagrams of a frame into a session, the clock readings of each *)
Fixpoint deliver (b : RtpSession.t) (dgs : list bytes) (eb : nat -> readings) (k : nat)
  : option (RtpSession.t * list RtpSession.EngineEvent) :=
  match dgs with
  | [] => Some (b, [])
  | dg :: dgs =>
      match RtpSession.on_datagram keystream hmac_sha1 b dg (eb k) with
      | None => None
      | Some (b, evs) =>
          match deliver b dgs eb (S k) with
          | None => None
          | Some (b, evs') => Some (b, evs ++ evs')
          end
      end
  end.

Definition accepted (c : RtpPayloadChunk.t) : RtpPayloadChunk.t * bool := (c, true).

Lemma linked_frame chunks ts ea eb ssrc pt : u32 ssrc -> u32 ts -> 0 <= pt < 128 ->
  (pt < 72 \/ 78 < pt) -> Forall (fun c => bytes_ok (RtpPayloadChunk.bytes_of c)) chunks ->
  forall a b i k, linked a b ssrc pt i -> 0 <= i -> i + Z.of_nat (length chunks) <= 2 ^ 48 ->
  exists a' dgs b',
    RtpSession.send_rtp_chunks_for_frame keystream hmac_sha1 a ssrc (accepted <$> chunks) ts ea
      = (a', dgs, Ok ()) /\
    deliver b dgs eb k
      = Some (b', (fun p => EvRtpIn (RtpIn.of_packet p)) <$> (number chunks pt ts ssrc (wrap16 i)).1) /\
    linked a' b' ssrc pt (i + Z.of_nat (length chunks)).
Proof.
  intros Hssrc Hts Hpt Hnot. induction 1 as [| c chunks Hc Hcs IH]; intros a b i k Hlink Hi Hmax.
  - exists a, [], b. rewrite Z.add_0_r. split; [| auto].
    destruct Hlink as (st & _ & _ & _ & _ & (Hst & _) & _). cbn [fmap list_fmap RtpSession.send_rtp_chunks_for_frame].
    rewrite Hst. reflexivity.
  - cbn [length] in Hmax |- *.
    destruct (linked_step a b ssrc pt i (RtpPayloadChunk.bytes_of c) ts (RtpPayloadChunk.marker c) ea (eb k))
      as (a1 & dg & b1 & Hs & Hd & Hlink1); try assumption; [lia | |].
    { destruct (RtpPayloadChunk.marker c); [| reflexivity]. cbn [andb].
      destruct (Z.leb_spec 72 pt), (Z.leb_spec pt 78); try reflexivity; lia. }
    destruct (IH a1 b1 (i + 1) (S k) Hlink1 ltac:(lia) ltac:(lia)) as (a' & dgs & b' & Hs' & Hd' & Hlink').
    exists a', (dg :: dgs), b'. split; [| split].
    + cbn [fmap list_fmap accepted RtpSession.send_rtp_chunks_for_frame]. rewrite Hs.
      change (list_fmap _ _ accepted chunks) with (accepted <$> chunks). rewrite Hs'. reflexivity.
    + cbn [deliver]. rewrite Hd, Hd'. cbn [number].
      replace (wrap16 (wrap16 i + 1)) with (wrap16 (i + 1)) by (unfold wrap16; elia).
      destruct (number chunks pt ts ssrc (wrap16 (i + 1))) as [pkts sq]. reflexivity.
    + replace (i + Z.of_nat (S (length chunks))) with (i + 1 + Z.of_nat (length chunks)) by lia. exact Hlink'.
Qed.
End media.

(** ** The receiving media transport *)
Section ingress.
Context (debug_str : bytes -> bytes) (rnd : MediaTransport.draws) (e : readings).

(** Events of the session through the engine's relay and the event loop of the transport *)
Definition ingress (l : MediaTransport.loop) (s : MediaTransport.t) (ev : RtpSession.EngineEvent) : list RtpIn.t :=
  match Engine.relay (of_rtp ev) with
  | inl m =>
      let '(_, _, _, outs) := MediaTransport.on_event debug_str l s None m true true rnd e in
      omap (fun o => match o with MediaTransport.ToDepacketizer p => Some p | _ => None end) outs
  | inr _ => []
  end.
End ingress.

(** Packets through the depacketizer worker and its relay *)
Fixpoint reassemble (allowed : gset Z) (pm : gmap Z CodecDescriptor.t) (d : H264Depacketizer.t)
    (pkts : list RtpIn.t) : H264Depacketizer.t * list MediaAgentEvent.t :=
  match pkts with
  | [] => (d, [])
  | p :: pkts =>
      let '(d, evs) := depacketizer_turn allowed pm d p in
      let '(d, evs') := reassemble allowed pm d pkts in (d, (depacketizer_relay <$> evs) ++ evs')
  end.

Lemma ingress_rtp debug_str rnd e l s (rs : list RtpIn.t) :
  mjoin (ingress debug_str rnd e l s <$> (EvRtpIn <$> rs)) = rs.
Proof. induction rs as [| r rs IH]; [reflexivity |]. cbn. f_equal. exact IH. Qed.

Lemma reassemble_video allowed pm pt desc pkts d : pt ∈ allowed -> pm !! pt = Some desc ->
  CodecDescriptor.spec desc = CodecSpec.H264 ->
  Forall (fun p => RtpHeader.payload_type (RtpPacket.header p) = pt) pkts ->
  reassemble allowed pm d (RtpIn.of_packet <$> pkts) =
  ((push_all d pkts).1, MediaAgentEvent.AnnexBFrameReady CodecSpec.H264 <$> omap id (push_all d pkts).2).
Proof.
  intros Hin Hpm Hspec Hall. revert d. induction Hall as [| p pkts Hp _ IH]; intros d; [reflexivity |].
  cbn [fmap list_fmap reassemble]. unfold depacketizer_turn. cbn [RtpIn.of_packet RtpIn.pt]. rewrite Hp.
  rewrite bool_decide_true by exact Hin. cbn [negb]. rewrite Hpm, Hspec.
  cbn [RtpIn.payload RtpIn.marker RtpIn.timestamp_90khz RtpIn.seq push_all].
  destruct (H264Depacketizer.push_rtp _ _ _ _ _) as [d1 o]. unfold fmap in IH. rewrite IH.
  destruct (push_all d1 pkts) as [d2 os]. destruct o; reflexivity.
Qed.

Lemma number_payload_type chunks pt ts ssrc sq :
  Forall (fun p => RtpHeader.payload_type (RtpPacket.header p) = pt) (number chunks pt ts ssrc sq).1.
Proof.
  revert sq. induction chunks as [| c chunks IH]; intros sq; [apply Forall_nil_2 |]. cbn [number].
  specialize (IH (wrap16 (sq + 1))). destruct (number chunks pt ts ssrc (wrap16 (sq + 1))) as [pkts sq'].
  constructor; [reflexivity | exact IH].
Qed.

Lemma packetized_ok p ns : (3 <= max_payload p)%nat -> Forall nal_ok ns -> Forall bytes_ok ns -> ns <> [] ->
  Forall (fun c => bytes_ok (RtpPayloadChunk.bytes_of c)) (packetize_annexb_to_payloads p (annexb ns)).
Proof.
  intros Hmax Hall Hb Hne. rewrite packetize_annexb by assumption.
  pose proof (payloads_of_ok (max_payload p) ns Hb) as Hps. revert Hps.
  generalize (payloads_of (max_payload p) ns). intros ps. induction 1 as [| x ps Hx Hps IH]; [apply Forall_nil_2 |].
  destruct ps as [| y ps]; [apply Forall_singleton, Hx |]. rewrite fmap_cons, fmap_cons, mark_last_cons.
  constructor; [exact Hx | exact IH].
Qed.

Lemma packetized_nonempty p ns : (3 <= max_payload p)%nat -> Forall nal_ok ns -> ns <> [] ->
  packetize_annexb_to_payloads p (annexb ns) <> [].
Proof.
  intros Hmax Hall Hne He. rewrite packetize_annexb in He by assumption.
  apply (f_equal length) in He. rewrite length_mark_last, length_fmap in He.
  apply length_zero_iff_nil, payloads_of_nonempty in He; assumption.
Qed.

Lemma depacketized p ns pt ts ssrc sq : (3 <= max_payload p)%nat -> Forall nal_ok ns -> ns <> [] ->
  no_repeat None ns = true ->
  exists n, push_all H264Depacketizer.new (number (packetize_annexb_to_payloads p (annexb ns)) pt ts ssrc sq).1
    = (H264Depacketizer.new, replicate n None ++ [Some (annexb ns)]).
Proof.
  intros Hmax Hall Hne Hr. rewrite packetize_annexb, frame_received by assumption.
  rewrite (add_no_repeat ns [] Hr). eexists. reflexivity.
Qed.

Lemma omap_nones {A} n (x : A) : omap id (replicate n None ++ [Some x]) = [x].
Proof. induction n as [| n IH]; [reflexivity | exact IH]. Qed.

(** The access unit handed to the media transport is ordered and packetized, its packets go through the
    track of the codec and the RTP session onto the socket; the peer's session decrypts and orders the
    datagrams, its engine relays the packets, and its depacketizer hands exactly the access unit to the
    media agent. Both ends are then ready for the next frame. *)
Lemma frame_delivered (keystream : bytes -> bytes -> nat -> bytes) (hmac_sha1 : bytes -> bytes -> bytes)
    (debug_str : bytes -> bytes) (display : RtpSessionError -> bytes) (ma mb : MediaTransport.t)
    (la lb : MediaTransport.loop) (sa : Session.t) (a b : RtpSession.t) (handle : OutboundTrackHandle.t)
    (desc : CodecDescriptor.t) (allowed : gset Z) (pt i t : Z) (ns : list bytes) (room : bool)
    (rnd : MediaTransport.draws) (ea e' : readings) (eb : nat -> readings) :
  (forall k iv n, length (keystream k iv n) = n) -> (forall k m, length (hmac_sha1 k m) = 20%nat) ->
  let ssrc := OutboundTrackHandle.local_ssrc handle in
  MediaTransport.find_codec (MediaTransport.payload_map ma) CodecSpec.H264 = Some pt ->
  MediaTransport.outbound_tracks ma !! pt = Some handle -> Session.rtp_session sa = Some a ->
  linked a b ssrc pt i ->
  pt ∈ allowed -> MediaTransport.payload_map mb !! pt = Some desc -> CodecDescriptor.spec desc = CodecSpec.H264 ->
  0 <= pt < 128 -> (pt < 72 \/ 78 < pt) -> u32 ssrc -> u32 (MediaTransport.video_rtp_ts la) -> 0 <= i ->
  i + Z.of_nat (length (packetize_annexb_to_payloads (H264Packetizer.new 1200) (annexb ns))) <= 2 ^ 48 ->
  MediaTransport.last_received_local_ts_ms la <> Some t ->
  Forall nal_ok ns -> Forall bytes_ok ns -> ns <> [] -> no_repeat None ns = true ->
  exists la' order frame sa' a' dgs b' evs,
    MediaTransport.on_event debug_str la ma (Some sa)
      (MediaTransportEvent.SendEncodedFrame (annexb ns) t CodecSpec.H264) true room rnd ea
      = (la', ma, Some sa, [MediaTransport.Order order]) /\
    packetizer_turn order = [frame] /\
    MediaTransport.on_frame debug_str keystream hmac_sha1 display ma (Some sa) frame (fun _ => true) ea
      = (Some sa', dgs, []) /\
    deliver keystream hmac_sha1 b dgs eb 0 = Some (b', evs) /\
    reassemble allowed (MediaTransport.payload_map mb) H264Depacketizer.new
      (mjoin (ingress debug_str rnd e' lb mb <$> evs))
      = (H264Depacketizer.new, [MediaAgentEvent.AnnexBFrameReady CodecSpec.H264 (annexb ns)]) /\
    Session.rtp_session sa' = Some a' /\
    linked a' b' ssrc pt (i + Z.of_nat (length (PacketizedFrame.chunks frame))).
Proof.
  intros Hks Hhm ssrc Hcodec Htrack Hsess Hlink Hin Hpm Hspec Hpt Hnot Hssrc Hts Hi Hmax Ht Hall Hb Hne Hr.
  set (pk := H264Packetizer.new 1200) in *. set (chunks := packetize_annexb_to_payloads pk (annexb ns)) in *.
  assert (H3 : (3 <= max_payload pk)%nat) by (change (max_payload pk) with 1188%nat; lia).
  pose proof (packetized_ok pk ns H3 Hall Hb Hne) as Hok. pose proof (packetized_nonempty pk ns H3 Hall Hne) as Hce.
  fold chunks in Hok, Hce.
  destruct (linked_frame keystream hmac_sha1 Hks Hhm chunks (MediaTransport.video_rtp_ts la) ea eb ssrc pt
    Hssrc Hts Hpt Hnot Hok a b i 0 Hlink Hi Hmax) as (a' & dgs & b' & Hs & Hd & Hlink').
  set (ts := MediaTransport.video_rtp_ts la) in *.
  eexists _, _, (PacketizedFrame.mk chunks ts CodecSpec.H264), (Session.set_rtp sa (Some a') (Session.rtp_media_tx sa)), a', dgs, b', _.
  split; [| split; [| split; [| split; [exact Hd | split; [| split; [reflexivity | exact Hlink']]]]]].
  - cbn [MediaTransport.on_event]. rewrite decide_False by exact Ht. reflexivity.
  - unfold packetizer_turn. cbn [PacketizeOrder.codec_spec PacketizeOrder.payload PacketizeOrder.rtp_ts].
    fold pk. fold chunks. destruct chunks; [contradiction | reflexivity].
  - unfold MediaTransport.on_frame. cbn [PacketizedFrame.codec_spec PacketizedFrame.chunks PacketizedFrame.rtp_ts].
    rewrite Hcodec, Htrack. unfold Session.send_rtp_chunks_for_frame. rewrite Hsess.
    replace (imap (fun _ c => (c, true)) chunks) with (accepted <$> chunks) by (symmetry; apply (imap_const accepted)).
    fold ssrc. rewrite Hs. reflexivity.
  - rewrite (list_fmap_compose RtpIn.of_packet EvRtpIn), ingress_rtp.
    rewrite (reassemble_video allowed _ pt desc) by (try assumption; apply number_payload_type).
    destruct (depacketized pk ns pt ts ssrc (wrap16 i) H3 Hall Hne Hr) as [n Hp]. fold chunks in Hp.
    rewrite Hp. cbn [fst snd]. rewrite omap_nones. reflexivity.
Qed.

Definition demo_handle : OutboundTrackHandle.t := OutboundTrackHandle.mk 9 (RtpCodec.new 96 90000).
Definition demo_media : MediaTransport.t :=
  MediaTransport.with_tracks (MediaTransport.new Config.empty) {[96 := demo_handle]}.
Definition demo_loop : MediaTransport.loop := MediaTransport.Loop None None 4294967295 0 3000.
Definition demo_session : Session.t := Session.set_rtp (Session.new []) (Some sender_session) true.
Definition demo_draws : MediaTransport.draws := fun _ => (0, (0, 0)).

Lemma demo_linked : linked sender_session receiver_session 9 96 65535.
Proof.
  exists (RtpSendStream.new (RtpSendConfig.with_ssrc (RtpCodec.new 96 90000) 9) 65535 0 sample_readings),
    toy_ctx, (RtpRecvStream.new (RtpRecvConfig.new (RtpCodec.new 96 90000) (Some 9)) 0), toy_ctx, [].
  split_and!; try reflexivity; [right; split; [reflexivity | ulia] | left; reflexivity | | apply Forall_nil_2 |].
  - split; [exact sees_new | reflexivity].
  - right. split; [reflexivity | lia].
Qed.
