(* ===== verification/FileTheory.v ===== *)
(** * File transfers, end to end

    What a peer reads from a file travels through the reader worker, the listener of the file
    handler, the engine and the sender of the data channel; at the other peer through the receiver,
    the router, the engine, the listener and the writer worker. [SctpReliable] states what is relied
    upon of the SCTP association: the messages it takes go out in order, its events are polled oldest
    first, and a message that arrived is read whole and once. [file_transfer_delivers] composes all of it. The lemmas
    at the end are about files that do not arrive. *)

From stdpp Require Import prelude gmap strings.
From Stdlib Require Import ZArith Lia.
From S2P Require Import Prelude Utf8 Text Congestion AppSession Net Config ConnManager ConnSafety MediaTransport Sctp SctpTheory FileTransfer Engine.
Import SctpEvents SctpProtocolMessage.
Local Open Scope Z_scope.

(** ** Threads as folds over their inputs *)
Fixpoint feed {S I O : Type} (f : S -> I -> outcome Empty_set (S * list O)) (s : S) (l : list I)
  : outcome Empty_set (S * list O) :=
  match l with
  | [] => Ok (s, [])
  | x :: l => '(s, o) ← f s x; '(s, o') ← feed f s l; Ok (s, o ++ o')
  end.

Lemma thread_feed_app {S I O} (f : S -> I -> outcome Empty_set (S * list O)) s l1 l2 :
  feed f s (l1 ++ l2) = ('(s, o) ← feed f s l1; '(s, o') ← feed f s l2; Ok (s, o ++ o')).
Proof.
  revert s. induction l1 as [| x l1 IH]; intros s; cbn [app feed].
  - cbn. destruct (feed f s l2) as [[s' o'] | |]; reflexivity.
  - destruct (f s x) as [[s1 o1] | |]; cbn [mbind outcome_bind]; [| reflexivity..].
    rewrite IH. destruct (feed f s1 l1) as [[s2 o2] | |]; cbn [mbind outcome_bind]; [| reflexivity..].
    destruct (feed f s2 l2) as [[s3 o3] | |]; cbn [mbind outcome_bind]; [| reflexivity..].
    rewrite app_assoc. reflexivity.
Qed.
(** A step that keeps the state *)
Lemma feed_steady {S I O} (f : S -> I -> outcome Empty_set (S * list O)) (g : I -> list O) s l :
  (forall x, x ∈ l -> f s x = Ok (s, g x)) -> feed f s l = Ok (s, mjoin (g <$> l)).
Proof.
  induction l as [| x l IH]; intros H; [reflexivity |]. cbn [feed fmap list_fmap mjoin list_join].
  rewrite H by apply list_elem_of_here. cbn [mbind outcome_bind].
  rewrite IH by (intros y Hy; apply H, list_elem_of_further, Hy). reflexivity.
Qed.

Section threads.
Context (config : Config.t).

(** The reader worker, asked for one piece per result of a read *)
Definition reader_thread (w : option ReaderWorker.t) (read : outcome bytes bytes)
  : outcome Empty_set (option ReaderWorker.t * list FileHandlerEvents.t) :=
  Ok (match w with Some w => ReaderWorker.step w ReaderCommands.GetChunk read | None => (None, []) end).
Definition listener_thread (fs : FileHandler.fs) (s : FileHandler.t) (ev : FileHandlerEvents.t)
  : outcome Empty_set (FileHandler.t * list FileHandler.output) := Ok (FileHandler.on_event config s ev fs).
Definition engine_thread (now : Z) (s : Engine.t) (ev : EngineEvent.t)
  : outcome Empty_set (Engine.t * list Engine.output) :=
  match Engine.relay ev with
  | inl _ => Ok (s, [])
  | inr ev => '(s, o, _) ← Engine.on_event s ev now; Ok (s, o)
  end.
(** The writer worker, whose writes succeed; [inr] is what became of the file *)
Definition writer_thread (w : WriterWorker.t + WriterWorker.fate) (c : WriterCommands.t)
  : outcome Empty_set ((WriterWorker.t + WriterWorker.fate) * list FileHandlerEvents.t) :=
  Ok (match w with inl w => WriterWorker.step w (WriterWorker.Command c) (Ok ()) | inr _ => (w, []) end).
End threads.

Definition to_engine (o : FileHandler.output) : option EngineEvent.t :=
  match o with FileHandler.ToEngine e => Some e | _ => None end.
Definition to_writer (id : Z) (o : FileHandler.output) : option WriterCommands.t :=
  match o with FileHandler.ToWriter i c => if i =? id then Some c else None | _ => None end.
Definition to_sctp (o : Engine.output) : option SctpEvents.t :=
  match o with Engine.ToSctp e => Some e | _ => None end.
Definition to_file_handler (o : Engine.output) : option FileHandlerEvents.t :=
  match o with Engine.ToFileHandler e => Some e | _ => None end.
(** Events from the router to the engine *)
Definition to_parent (ev : SctpEvents.t) : list EngineEvent.t :=
  match SctpSession.route ev with
  | Some l => omap (fun x => match x.1 with SctpSession.ToParent => forward x.2 | _ => None end) l
  | None => []
  end.

(** ** The sending peer *)
Section upload.
Context (config : Config.t) (fs : FileHandler.fs) (now : Z).

Definition reads_of (pieces : list bytes) : list (outcome bytes bytes) := (Ok <$> pieces) ++ [Ok []].

(** What the reader worker tells the listener *)
Fixpoint progress (id size total : Z) (pieces : list bytes) : list FileHandlerEvents.t :=
  match pieces with
  | [] => []
  | p :: pieces =>
      let total := total + Z.of_nat (length p) in
      [FileHandlerEvents.UploadProgress id total size; FileHandlerEvents.ReadChunk id p] ++ progress id size total pieces
  end.
Lemma reader_run id size total pieces : Forall (fun p => p <> []) pieces ->
  feed reader_thread (Some (ReaderWorker.mk id size total)) (reads_of pieces) =
  Ok (None, progress id size total pieces ++
            [FileHandlerEvents.ReadChunk id []; FileHandlerEvents.ReaderWorkerFinished id]).
Proof.
  unfold reads_of. intros H. revert total. induction H as [| p pieces Hp _ IH]; intros total; [reflexivity |].
  destruct p as [| b p]; [contradiction |]. rewrite fmap_cons, <- app_comm_cons. cbn [feed].
  cbn [reader_thread ReaderWorker.step ReaderWorker.id ReaderWorker.total_read ReaderWorker.file_size mbind outcome_bind].
  rewrite IH. reflexivity.
Qed.

(** What the listener tells the engine *)
Fixpoint uploads (id size total : Z) (pieces : list bytes) : list EngineEvent.t :=
  match pieces with
  | [] => []
  | p :: pieces =>
      let total := total + Z.of_nat (length p) in
      [EngineEvent.UploadProgress id total size; EngineEvent.SendFileChunk id p] ++ uploads id size total pieces
  end.
Lemma listener_upload s id size total pieces :
  exists s' o, feed (listener_thread config fs) s
    (progress id size total pieces ++ [FileHandlerEvents.ReadChunk id []; FileHandlerEvents.ReaderWorkerFinished id])
    = Ok (s', o) /\
    omap to_engine o = uploads id size total pieces ++ [EngineEvent.SendFileChunk id []; EngineEvent.SendFileEnd id] /\
    FileHandler.workers s' = delete id (FileHandler.workers s).
Proof.
  revert total. induction pieces as [| p pieces IH]; intros total.
  - eexists _, _. split; [reflexivity |]. split; reflexivity.
  - destruct (IH (total + Z.of_nat (length p))) as (s' & o & Hf & Ho & Hw). cbn [progress uploads].
    rewrite <- !app_assoc. cbn [app feed listener_thread FileHandler.on_event mbind outcome_bind].
    fold (listener_thread config fs) in *. rewrite Hf. cbn [mbind outcome_bind].
    eexists _, _. split; [reflexivity |]. split; [| exact Hw]. cbn [app omap list_omap to_engine].
    rewrite Ho. reflexivity.
Qed.

(** What the engine tells the data channel; the flag of uploads is reset *)
Lemma engine_upload s id size total pieces r : Engine.session s = Some r ->
  exists s' o, feed (engine_thread now) s
    (uploads id size total pieces ++ [EngineEvent.SendFileChunk id []; EngineEvent.SendFileEnd id]) = Ok (s', o) /\
    omap to_sctp o = (SendChunk id <$> pieces) ++ [SendChunk id []; SendEndFile id] /\
    Engine.sending_files s' = false.
Proof.
  intros Hs. revert total. induction pieces as [| p pieces IH]; intros total; cbn [uploads].
  - cbn [app feed engine_thread Engine.relay Engine.on_event mbind outcome_bind].
    unfold Engine.when_session. rewrite Hs. cbn [mbind outcome_bind].
    eexists _, _. split; [reflexivity |]. split; reflexivity.
  - destruct (IH (total + Z.of_nat (length p))) as (s' & o & Hf & Ho & Hw).
    rewrite <- !app_assoc. cbn [app feed engine_thread Engine.relay Engine.on_event mbind outcome_bind].
    fold (engine_thread now). unfold Engine.when_session. rewrite Hs, Hf. cbn [mbind outcome_bind].
    eexists _, _. split; [reflexivity |]. split; [| exact Hw]. cbn [app omap list_omap to_sctp fmap list_fmap].
    rewrite Ho. reflexivity.
Qed.
End upload.

(** ** The association *)

(** What the SCTP library keeps of an association, and what its operations do with it. Nothing is said
    of when a write is taken, nor of when messages and events arrive. *)
Class SctpReliable (Endpoint Association Event : Type) `{!SctpLib Endpoint Association Event} : Type := {
  (* the messages taken for stream 0 so far *)
  outgoing : Association -> list bytes;
  (* the whole messages that arrived on stream 0 and are not read yet *)
  incoming : Association -> list bytes;
  (* the events that [poll] has not returned yet *)
  events : Association -> list assoc_event;
  write_taken a p a' : write a p = (a', Written) -> outgoing a' = outgoing a ++ [p];
  transmit_keeps a : outgoing (poll_transmit a).1 = outgoing a /\
    incoming (poll_transmit a).1 = incoming a /\ events (poll_transmit a).1 = events a;
  timeout_keeps a now : outgoing (handle_timeout a now) = outgoing a;
  (* [poll] takes the oldest event and nothing else *)
  poll_event a ev rest : events a = ev :: rest ->
    exists a', poll a = (a', Some ev) /\ events a' = rest /\ incoming a' = incoming a;
  poll_none a : events a = [] -> exists a', poll a = (a', None);
  (* a message that fits the buffer is read whole; nothing is read when there is none *)
  read_message a m rest : incoming a = m :: rest -> (Z.of_nat (length m) <= 65535) ->
    exists a', read a 0 = (a', Some m) /\ incoming a' = rest /\ events a' = events a;
  read_none a : incoming a = [] ->
    exists a', read a 0 = (a', None) /\ incoming a' = [] /\ events a' = events a }.

Section channel.
Context {Endpoint Association Event : Type} `{!SctpLib Endpoint Association Event}
  `{!SctpReliable Endpoint Association Event}.
Abbreviation state := (SctpSession.t Endpoint Association).

(** *** Sending *)
Definition sender_thread (s : state) (x : SctpEvents.t * Z) : outcome Empty_set (state * list SctpEvents.t) :=
  SctpSession.sender_event s (Some x.1) x.2.

(** The message that an event of an upload makes the sender write *)
Definition message_of (s : state) (ev : SctpEvents.t) : option SctpProtocolMessage.t :=
  match ev with
  | SendChunk id payload => (fun st => Chunk id (SctpStream.next_seq st) payload) <$> SctpSession.streams s !! id
  | SendEndFile id => Some (EndFile id)
  | _ => None
  end.
(** The association exists and takes the message of each event when its turn comes. *)
Fixpoint all_taken (s : state) (xs : list (SctpEvents.t * Z)) : Prop :=
  match xs with
  | [] => True
  | x :: xs =>
      (exists a m, SctpSession.association s = Some a /\ message_of s x.1 = Some m /\ (write a (serialize m)).2 = Written) /\
      match sender_thread s x with Ok (s', _) => all_taken s' xs | _ => False end
  end.

(** The association has taken [l]; the transfer [id] is at [seq]. *)
Definition sending (s : state) (l : list bytes) (id seq : Z) : Prop :=
  (exists a, SctpSession.association s = Some a /\ outgoing a = l) /\
  (exists st, SctpSession.streams s !! id = Some st /\ SctpStream.next_seq st = seq).

Lemma send_message_taken (s : state) a m : SctpSession.association s = Some a -> (write a (serialize m)).2 = Written ->
  exists s' a' o, SctpSession.send_message s m = (s', o) /\ SctpSession.association s' = Some a' /\
    outgoing a' = outgoing a ++ [serialize m] /\ SctpSession.streams s' = SctpSession.streams s.
Proof.
  intros Ha Hw. destruct (write a (serialize m)) as [a1 res] eqn:E. cbn [snd] in Hw. subst res.
  pose proof (write_taken _ _ _ E) as Ho1. destruct (transmit_keeps a1) as [Ho2 _]. destruct (poll_transmit a1) as [a2 packets] eqn:Ht.
  unfold SctpSession.send_message, SctpSession.ensure_connection. rewrite Ha, Ha, E, Ht.
  eexists _, a2, _. split; [reflexivity |]. split; [reflexivity |]. cbn [fst] in Ho2. split; [congruence | reflexivity].
Qed.

Lemma expire_keeps a now : outgoing (SctpSession.expire a now) = outgoing a.
Proof. unfold SctpSession.expire. destruct (poll_timeout a); [| reflexivity]. case_test; [apply timeout_keeps | reflexivity]. Qed.

(** A turn that sends one message *)
Lemma sender_turn (s s1 : state) ev m now a : SctpSession.association s1 = Some a -> (write a (serialize m)).2 = Written ->
  SctpSession.sender_match s (Some ev) now = Ok (SctpSession.send_message s1 m) ->
  exists s' a' o, SctpSession.sender_event s (Some ev) now = Ok (s', o) /\
    SctpSession.association s' = Some a' /\ outgoing a' = outgoing a ++ [serialize m] /\
    SctpSession.streams s' = SctpSession.streams s1.
Proof.
  intros Ha Hw Hm. destruct (send_message_taken s1 a m Ha Hw) as (s2 & a2 & o & Hs & Ha2 & Ho2 & Hst).
  unfold SctpSession.sender_event. rewrite Hm, Hs. cbn [mbind outcome_bind]. rewrite Ha2.
  pose proof (expire_keeps a2 now) as Ho3. destruct (transmit_keeps (SctpSession.expire a2 now)) as [Ho4 _].
  destruct (poll_transmit (SctpSession.expire a2 now)) as [a4 packets].
  eexists _, a4, _. split; [reflexivity |]. split; [reflexivity |]. cbn [fst] in Ho4. split; [congruence | exact Hst].
Qed.

Fixpoint chunks_from (id seq : Z) (pieces : list bytes) : list SctpProtocolMessage.t :=
  match pieces with [] => [] | p :: pieces => Chunk id seq p :: chunks_from id (seq + 1) pieces end.

Lemma sender_chunks id pieces : forall (s : state) l seq xs,
  sending s l id seq -> seq + Z.of_nat (length pieces) <= u64_max ->
  xs.*1 = (SendChunk id <$> pieces) -> all_taken s xs ->
  exists s' o, feed sender_thread s xs = Ok (s', o) /\
    sending s' (l ++ (serialize <$> chunks_from id seq pieces)) id (seq + Z.of_nat (length pieces)).
Proof.
  induction pieces as [| p pieces IH]; intros s l seq xs Hs Hmax Hxs Htk.
  - apply fmap_nil_inv in Hxs as ->. exists s, []. split; [reflexivity |].
    cbn. rewrite app_nil_r, Z.add_0_r. exact Hs.
  - destruct xs as [| [ev t] xs]; [discriminate |]. rewrite !fmap_cons in Hxs. injection Hxs as -> Hxs.
    cbn [length] in Hmax. destruct Hs as [(a & Ha & <-) (st & Hst & <-)].
    destruct Htk as [(a0 & m0 & Ha0 & Hm0 & Hw) Htk]. rewrite Ha in Ha0. injection Ha0 as <-.
    cbn [message_of fst] in Hm0. rewrite Hst in Hm0. injection Hm0 as <-.
    set (s1 := SctpSession.with_streams s (<[id := SctpStream.mk (SctpStream.properties st) t
      (SctpStream.next_seq st + 1) (SctpStream.timeout st)]> (SctpSession.streams s))).
    destruct (sender_turn s s1 (SendChunk id p) (Chunk id (SctpStream.next_seq st) p) t a Ha Hw)
      as (s2 & a2 & o & He & Ha2 & Ho2 & Hst2).
    { cbn [SctpSession.sender_match]. rewrite Hst. case_test; [lia | reflexivity]. }
    destruct (IH s2 (outgoing a2) (SctpStream.next_seq st + 1) xs) as (s' & o' & Hf & Hs'); [| lia | exact Hxs | |].
    { split; [exists a2; auto |]. eexists. split; [rewrite Hst2; apply lookup_insert_eq | reflexivity]. }
    { change (sender_thread s (SendChunk id p, t)) with (SctpSession.sender_event s (Some (SendChunk id p)) t) in Htk.
      rewrite He in Htk. exact Htk. }
    eexists _, _. split.
    { cbn [feed]. change (sender_thread s (SendChunk id p, t)) with (SctpSession.sender_event s (Some (SendChunk id p)) t).
      rewrite He. cbn [mbind outcome_bind]. rewrite Hf. reflexivity. }
    cbn [chunks_from fmap list_fmap length].
    replace (SctpStream.next_seq st + Z.of_nat (S (length pieces)))
      with (SctpStream.next_seq st + 1 + Z.of_nat (length pieces)) by lia.
    rewrite Ho2, <- app_assoc in Hs'. exact Hs'.
Qed.

Lemma all_taken_app xs ys : forall s : state, all_taken s (xs ++ ys) ->
  all_taken s xs /\ forall s' o, feed sender_thread s xs = Ok (s', o) -> all_taken s' ys.
Proof.
  induction xs as [| x xs IH]; intros s; cbn [all_taken feed app].
  - intros H. split; [exact I |]. intros s' o [= <- _]. exact H.
  - intros [H1 H2]. destruct (sender_thread s x) as [[s1 o1] | |]; [| contradiction ..].
    destruct (IH s1 H2) as [H3 H4]. split; [auto |]. cbn [mbind outcome_bind]. intros s' o H.
    destruct (feed sender_thread s1 xs) as [[s2 o2] | |] eqn:E; [| discriminate ..]. injection H as <- _. eauto.
Qed.

(** A whole upload: the pieces, the empty piece that ends the file, and the end of the transfer *)
Definition upload_messages (id seq : Z) (pieces : list bytes) : list SctpProtocolMessage.t :=
  chunks_from id seq (pieces ++ [[]]) ++ [EndFile id].

Lemma sender_upload id pieces (s : state) l seq xs :
  sending s l id seq -> seq + Z.of_nat (length pieces) + 1 <= u64_max ->
  xs.*1 = (SendChunk id <$> pieces) ++ [SendChunk id []; SendEndFile id] -> all_taken s xs ->
  exists s' a' o, feed sender_thread s xs = Ok (s', o) /\ SctpSession.association s' = Some a' /\
    outgoing a' = l ++ (serialize <$> upload_messages id seq pieces).
Proof.
  intros Hs Hmax Hxs Htk.
  assert (Hsplit : (SendChunk id <$> pieces) ++ [SendChunk id []; SendEndFile id]
    = (SendChunk id <$> (pieces ++ [[]])) ++ [SendEndFile id]) by (rewrite fmap_app, <- app_assoc; reflexivity).
  rewrite Hsplit in Hxs. apply fmap_app_inv in Hxs as (xs1 & xs2 & Hx1 & Hx2 & ->).
  destruct xs2 as [| [ev t] [|]]; try discriminate Hx2. injection Hx2 as <-.
  apply all_taken_app in Htk as [Htk1 Htk2].
  destruct (sender_chunks id (pieces ++ [[]]) s l seq xs1 Hs) as (s1 & o1 & Hf & [(a & Ha & Ho) _]);
    [rewrite length_app; cbn [length]; lia | auto | exact Htk1 |].
  destruct (Htk2 s1 o1 Hf) as [(a0 & m0 & Ha0 & Hm0 & Hw) _]. rewrite Ha in Ha0. injection Ha0 as <-. injection Hm0 as <-.
  destruct (sender_turn s1 (SctpSession.with_streams s1 (delete id (SctpSession.streams s1))) (SendEndFile id)
    (EndFile id) t a Ha Hw eq_refl) as (s2 & a2 & o2 & He & Ha2 & Ho2 & _).
  exists s2, a2. rewrite thread_feed_app, Hf. cbn [mbind outcome_bind feed].
  change (sender_thread s1 (SendEndFile id, t)) with (SctpSession.sender_event s1 (Some (SendEndFile id)) t).
  rewrite He. cbn [mbind outcome_bind]. eexists. split; [reflexivity |]. split; [exact Ha2 |].
  unfold upload_messages. rewrite Ho2, Ho, fmap_app, <- app_assoc. reflexivity.
Qed.

(** *** Receiving *)
Definition msg_event (m : SctpProtocolMessage.t) : SctpEvents.t :=
  match m with
  | Offer id filename file_size => ReceivedOffer (SctpFileProperties.mk filename file_size id)
  | Accept id => ReceivedAccept id
  | Reject id => ReceivedReject id
  | Cancel id => ReceivedCancel id
  | Chunk id seq payload => ReceivedChunk id (wrap32 seq) payload
  | EndFile id => ReceivedEndFile id
  end.
Lemma handle_message (s : state) m now : msg_ok m ->
  exists s', SctpSession.handle_chunk_data s (serialize m) now = (s', [msg_event m]).
Proof.
  intros Hm. unfold SctpSession.handle_chunk_data.
  rewrite <- (app_nil_r (serialize m)), deserialize_app by exact Hm.
  destruct m; eexists; reflexivity.
Qed.

Definition fits (m : SctpProtocolMessage.t) : Prop := msg_ok m /\ Z.of_nat (length (serialize m)) <= 65535.
Definition is_readable (ev : assoc_event) : bool := match ev with Readable _ => true | _ => false end.
(** Every message that waits was announced; events of any other kind may be in between, and so may
    announcements of messages that were read already. *)
Definition announced (a : Association) : Prop :=
  Forall (fun ev => match ev with Readable id => id = 0 | _ => True end) (events a) /\
  (length (incoming a) <= length (filter (fun ev => is_readable ev = true) (events a)))%nat.

Lemma to_parent_app o o' : mjoin (to_parent <$> (o ++ o')) = mjoin (to_parent <$> o) ++ mjoin (to_parent <$> o').
Proof. rewrite fmap_app, join_app. reflexivity. Qed.

Lemma poll_messages now evs : forall msgs fuel (s : state) a, events a = evs -> announced a ->
  incoming a = serialize <$> msgs -> Forall fits msgs -> (length evs < fuel)%nat ->
  exists s' a' o, SctpSession.poll_events fuel s a now = (s', a', o) /\
    mjoin (to_parent <$> o) = mjoin (to_parent ∘ msg_event <$> msgs).
Proof.
  induction evs as [| ev evs IH]; intros msgs fuel s a Hev [H0 Hn] Hin Hfit Hf; rewrite Hev in H0, Hn; rewrite Hin, length_fmap in Hn;
    (destruct fuel as [| fuel]; [cbn in Hf; lia |]); cbn [SctpSession.poll_events].
  - destruct msgs; [| cbn in Hn; lia]. destruct (poll_none a Hev) as [a' ->]. do 3 eexists. split; reflexivity.
  - destruct (poll_event a ev evs Hev) as (a1 & -> & Hev1 & Hin1). apply Forall_cons in H0 as [Hid H0].
    rewrite filter_cons in Hn. rewrite <- Hin1 in Hin. cbn [length] in Hf.
    destruct ev as [| | id |]; cbn [is_readable] in Hn;
      try (rewrite decide_False in Hn by discriminate;
           destruct (IH msgs fuel s a1 Hev1) as (s' & a' & o & -> & Ho);
             [split; rewrite Hev1; [exact H0 | rewrite Hin, length_fmap; exact Hn] | exact Hin | exact Hfit | lia |];
           do 3 eexists; split; [reflexivity | exact Ho]).
    rewrite decide_True in Hn by reflexivity. cbn in Hid. subst id. destruct msgs as [| m msgs].
    + destruct (read_none a1 Hin) as (a2 & -> & Hin2 & Hev2). rewrite Hev1 in Hev2.
      destruct (IH [] fuel s a2 Hev2) as (s' & a' & o & -> & Ho); [| exact Hin2 | exact Hfit | lia |].
      { split; rewrite Hev2; [exact H0 | rewrite Hin2; cbn; lia]. }
      do 3 eexists. split; [reflexivity | exact Ho].
    + apply Forall_cons in Hfit as [[Hm Hlen] Hfit]. rewrite fmap_cons in Hin.
      destruct (read_message a1 _ _ Hin Hlen) as (a2 & -> & Hin2 & Hev2). rewrite Hev1 in Hev2.
      destruct (handle_message s m now Hm) as (s1 & ->).
      destruct (IH msgs fuel s1 a2 Hev2) as (s' & a' & o & -> & Ho); [| exact Hin2 | exact Hfit | lia |].
      { split; rewrite Hev2; [exact H0 | rewrite Hin2, length_fmap; cbn [length] in Hn; lia]. }
      do 3 eexists. split; [reflexivity |]. rewrite to_parent_app, Ho, !fmap_cons. cbn [mjoin list_join fmap list_fmap].
      rewrite app_nil_r. reflexivity.
Qed.

(** A turn of the receiver that finds the messages *)
Lemma receiver_messages fuel (s : state) a msgs now : SctpSession.association s = Some a ->
  incoming a = serialize <$> msgs -> announced a -> Forall fits msgs -> (length (events a) < fuel)%nat ->
  exists s' o, SctpSession.poll_association fuel s now = (s', o) /\
    mjoin (to_parent <$> o) = mjoin (to_parent ∘ msg_event <$> msgs).
Proof.
  intros Ha Hin Han Hall Hf. unfold SctpSession.poll_association. rewrite Ha.
  destruct (transmit_keeps a) as (_ & Hi & He). destruct (poll_transmit a) as [a1 packets]. cbn [fst] in *.
  destruct (poll_messages now (events a) msgs fuel s a1) as (s' & a' & o & -> & Ho); [exact He | | congruence | exact Hall | exact Hf |].
  { unfold announced. rewrite Hi, He. exact Han. }
  do 2 eexists. split; [reflexivity |]. rewrite to_parent_app, Ho.
  replace (mjoin (to_parent <$> (TransmitSctpPacket <$> packets))) with (@nil EngineEvent.t); [reflexivity |].
  induction packets as [| p packets IH]; [reflexivity | exact IH].
Qed.

(** Turns of the receiver: what the library has made of the association by each of them, and the time *)
Fixpoint receive_turns (fuel : nat) (s : state) (turns : list (Association * Z)) : state * list SctpEvents.t :=
  match turns with
  | [] => (s, [])
  | (a, now) :: turns =>
      let '(s, o) := SctpSession.poll_association fuel (SctpSession.with_association s (Some a)) now in
      let '(s, o') := receive_turns fuel s turns in (s, o ++ o')
  end.
Definition arrivals (turns : list (Association * Z)) : list bytes := mjoin (incoming <$> turns.*1).

Lemma turns_messages fuel turns : Forall (fun a => announced a /\ (length (events a) < fuel)%nat) turns.*1 ->
  forall (s : state) msgs, arrivals turns = serialize <$> msgs -> Forall fits msgs ->
  exists s' o, receive_turns fuel s turns = (s', o) /\ mjoin (to_parent <$> o) = mjoin (to_parent ∘ msg_event <$> msgs).
Proof.
  induction turns as [| [a now] turns IH]; intros Hall s msgs Hin Hfit; cbn [receive_turns].
  - destruct msgs; [| discriminate Hin]. do 2 eexists. split; reflexivity.
  - rewrite fmap_cons in Hall. apply Forall_cons in Hall as [[Han Hf] Hall].
    change (arrivals ((a, now) :: turns)) with (incoming a ++ arrivals turns) in Hin. symmetry in Hin.
    apply fmap_app_inv in Hin as (m1 & m2 & H1 & H2 & ->). apply Forall_app in Hfit as [F1 F2].
    destruct (receiver_messages fuel (SctpSession.with_association s (Some a)) a m1 now eq_refl H1 Han F1 Hf) as (s1 & o1 & -> & Ho1).
    destruct (IH Hall s1 m2 H2 F2) as (s2 & o2 & -> & Ho2). do 2 eexists. split; [reflexivity |].
    rewrite to_parent_app, Ho1, Ho2, fmap_app, join_app. reflexivity.
Qed.
End channel.

(** ** The receiving peer *)
Section download.
Context (config : Config.t) (fs : FileHandler.fs) (now : Z).

(** Chunks of one transfer through the engine and the listener to its writer *)
Definition chunk_events (id seq : Z) (pieces : list bytes) : list EngineEvent.t :=
  mjoin (to_parent ∘ msg_event <$> chunks_from id seq pieces).
Lemma chunk_events_cons id seq p pieces :
  chunk_events id seq (p :: pieces) = EngineEvent.ReceivedFileChunk id (wrap32 seq) p :: chunk_events id (seq + 1) pieces.
Proof. reflexivity. Qed.

Lemma engine_download s id seq pieces : Engine.file_handler s = true ->
  exists s' o, feed (engine_thread now) s (chunk_events id seq pieces ++ [EngineEvent.ReceivedFileEnd id]) = Ok (s', o) /\
    omap to_file_handler o = FileHandlerEvents.WriteChunk id <$> pieces /\ Engine.receiving_files s' = false.
Proof.
  intros Hs. revert seq. induction pieces as [| p pieces IH]; intros seq.
  - eexists _, _. split; [reflexivity |]. split; reflexivity.
  - destruct (IH (seq + 1)) as (s' & o & Hf & Ho & Hr). rewrite chunk_events_cons, <- app_comm_cons.
    cbn [feed engine_thread Engine.relay Engine.on_event mbind outcome_bind].
    fold (engine_thread now). unfold Engine.when_handler. rewrite Hs, Hf. cbn [mbind outcome_bind].
    eexists _, _. split; [reflexivity |]. split; [| exact Hr]. cbn [app omap list_omap to_file_handler fmap list_fmap].
    rewrite Ho. reflexivity.
Qed.

Lemma listener_download s id pieces : FileHandler.workers s !! id = Some FileHandler.Writer ->
  exists o, feed (listener_thread config fs) s (FileHandlerEvents.WriteChunk id <$> pieces) = Ok (s, o) /\
    omap (to_writer id) o = WriterCommands.WriteChunk <$> pieces.
Proof.
  intros Hs. rewrite (feed_steady _ (fun ev => (FileHandler.on_event config s ev fs).2)).
  - eexists. split; [reflexivity |]. induction pieces as [| p pieces IH]; [reflexivity |].
    rewrite !fmap_cons. cbn [mjoin list_join FileHandler.on_event snd]. unfold FileHandler.write_chunk at 1. rewrite Hs, <- IH.
    cbn [app omap list_omap to_writer]. rewrite Z.eqb_refl. reflexivity.
  - intros ev Hev. apply list_elem_of_fmap in Hev as (p & -> & _). reflexivity.
Qed.

Lemma writer_run id path content total pieces : Forall (fun p => p <> []) pieces ->
  exists o, feed writer_thread (inl (WriterWorker.mk id path content total)) (WriterCommands.WriteChunk <$> (pieces ++ [[]]))
    = Ok (inr (WriterWorker.Kept path (content ++ mjoin pieces)), o) /\
    last o = Some (FileHandlerEvents.WriterWorkerFinished id).
Proof.
  intros H. revert content total. induction H as [| p pieces Hp _ IH]; intros content total.
  - eexists. split; [cbn; rewrite app_nil_r; reflexivity | reflexivity].
  - destruct p as [| b p]; [contradiction |].
    destruct (IH (content ++ b :: p) (total + Z.of_nat (length (b :: p)))) as (o & Hf & Ho).
    eexists. split.
    + rewrite <- app_comm_cons, fmap_cons. cbn [feed writer_thread WriterWorker.step WriterWorker.id WriterWorker.path
        WriterWorker.content WriterWorker.total_written mbind outcome_bind].
      rewrite Hf. cbn [mbind outcome_bind mjoin list_join]. rewrite <- app_assoc. reflexivity.
    + cbn [app]. rewrite last_cons, Ho. reflexivity.
Qed.
End download.

(** ** The composition *)
Definition piece_ok (p : bytes) : Prop := p <> [] /\ Z.of_nat (length p) <= ReaderWorker.CHUNK_SIZE.

Lemma chunks_fit id pieces : u32 id -> Forall (fun p => Z.of_nat (length p) <= ReaderWorker.CHUNK_SIZE) pieces ->
  forall seq, 0 <= seq -> seq + Z.of_nat (length pieces) <= u64_max -> Forall fits (chunks_from id seq pieces).
Proof.
  intros Hid. unfold ReaderWorker.CHUNK_SIZE, u64_max.
  induction 1 as [| p pieces Hp _ IH]; intros seq H0 Hmax; [apply Forall_nil_2 |].
  cbn [chunks_from length] in *. constructor; [| apply IH; lia]. split.
  - cbn [msg_ok]. split; [exact Hid |]. split; ulia.
  - cbn [serialize]. rewrite !length_app, !length_to_be. lia.
Qed.

Lemma upload_fits id seq pieces : u32 id -> Forall piece_ok pieces -> 0 <= seq ->
  seq + Z.of_nat (length pieces) + 1 <= u64_max -> Forall fits (upload_messages id seq pieces).
Proof.
  intros Hid Hps H0 Hmax. unfold upload_messages. apply Forall_app. split.
  - apply chunks_fit; [exact Hid | | exact H0 | rewrite length_app; cbn [length]; lia].
    apply Forall_app. split; [eapply Forall_impl; [exact Hps | intros p Hp; apply Hp] |].
    apply Forall_singleton. vm_compute. discriminate.
  - apply Forall_singleton. split; [exact Hid |]. cbn [serialize]. rewrite length_app, !length_to_be. lia.
Qed.

Lemma upload_parent id seq pieces :
  mjoin (to_parent ∘ msg_event <$> upload_messages id seq pieces)
  = chunk_events id seq (pieces ++ [[]]) ++ [EngineEvent.ReceivedFileEnd id].
Proof. unfold upload_messages. rewrite fmap_app, join_app. reflexivity. Qed.

(** C3 A file arrives as it was read. The pieces that the reader worker reads from the file reach the
    sender of the data channel through the listener and the engine; when the association takes every
    message, it has taken the messages of the upload after what it had taken before. When these
    messages have arrived at the peer, over any number of turns of its receiver and with whatever other
    events the association reports, each message announced by an event of its own, the peer's receiver,
    router, engine and file handler hand the pieces to the writer, which has written their
    concatenation, keeps the file and reports it. *)
Theorem file_transfer_delivers {Endpoint Association Event : Type} `{!SctpLib Endpoint Association Event}
    `{!SctpReliable Endpoint Association Event} (config : Config.t) (fs : FileHandler.fs) (now : Z)
    (id size seq : Z) (pieces : list bytes) (fa fb : FileHandler.t) (ea eb : Engine.t) r
    (sa sb : SctpSession.t Endpoint Association) (l : list bytes) (path : bytes) (fuel : nat) :
  u32 id -> Forall piece_ok pieces -> 0 <= seq -> seq + Z.of_nat (length pieces) + 1 <= u64_max ->
  Engine.session ea = Some r -> sending sa l id seq ->
  Engine.file_handler eb = true -> FileHandler.workers fb !! id = Some FileHandler.Writer ->
  exists evs fa' oa ea' oe,
    feed reader_thread (Some (ReaderWorker.new id size)) (reads_of pieces) = Ok (None, evs) /\
    feed (listener_thread config fs) fa evs = Ok (fa', oa) /\
    feed (engine_thread now) ea (omap to_engine oa) = Ok (ea', oe) /\
    forall xs, xs.*1 = omap to_sctp oe -> all_taken sa xs ->
    exists sa' a os, feed sender_thread sa xs = Ok (sa', os) /\ SctpSession.association sa' = Some a /\
      outgoing a = l ++ (serialize <$> upload_messages id seq pieces) /\
    forall turns, outgoing a = l ++ arrivals turns ->
      Forall (fun b => announced b /\ (length (events b) < fuel)%nat) turns.*1 ->
    exists sb' ob eb' oe' fb' ol ow,
      receive_turns fuel sb turns = (sb', ob) /\
      feed (engine_thread now) eb (mjoin (to_parent <$> ob)) = Ok (eb', oe') /\
      feed (listener_thread config fs) fb (omap to_file_handler oe') = Ok (fb', ol) /\
      feed writer_thread (inl (WriterWorker.new id path)) (omap (to_writer id) ol)
        = Ok (inr (WriterWorker.Kept path (mjoin pieces)), ow) /\
      last ow = Some (FileHandlerEvents.WriterWorkerFinished id).
Proof.
  intros Hid Hps H0 Hmax Hr Hs Hfh Hw.
  assert (Hne : Forall (fun p => p <> []) pieces) by (eapply Forall_impl; [exact Hps | intros p Hp; apply Hp]).
  destruct (listener_upload config fs fa id size 0 pieces) as (fa' & oa & Hl & Hoa & _).
  destruct (engine_upload now ea id size 0 pieces r Hr) as (ea' & oe & He & Hoe & _).
  eexists _, fa', oa, ea', oe. split; [apply (reader_run id size 0), Hne |]. split; [exact Hl |].
  rewrite Hoa. split; [exact He |]. intros xs Hxs Htk. rewrite Hoe in Hxs.
  destruct (sender_upload id pieces sa l seq xs Hs Hmax Hxs Htk) as (sa' & a & os & Hf & Ha & Hout).
  exists sa', a, os. split; [exact Hf |]. split; [exact Ha |]. split; [exact Hout |]. intros turns Hnet Hturns.
  assert (Hin : arrivals turns = serialize <$> upload_messages id seq pieces).
  { rewrite Hout in Hnet. apply app_inv_head in Hnet. auto. }
  destruct (turns_messages fuel turns Hturns sb _ Hin (upload_fits id seq pieces Hid Hps H0 Hmax)) as (sb' & ob & Hp & Hob).
  destruct (engine_download now eb id seq (pieces ++ [[]]) Hfh) as (eb' & oe' & He' & Hoe' & _).
  destruct (listener_download config fs fb id (pieces ++ [[]]) Hw) as (ol & Hl' & Hol).
  destruct (writer_run id path [] 0 pieces Hne) as (ow & Hwr & Hlast).
  exists sb', ob, eb', oe', fb, ol, ow. split; [exact Hp |].
  rewrite Hob, upload_parent, Hoe', Hol. auto.
Qed.

(** ** An association between two ends of one host *)
Module Peers.
Import Loopback.
#[global] Instance loopback_reliable : SctpReliable unit association unit.
Proof.
  refine {| outgoing := taken; incoming := arrived; events := pending |}; cbn; auto.
  - intros a p a' [= <-]. reflexivity.
  - intros a ev rest ->. eexists. auto.
  - intros a ->. eexists. auto.
  - intros a m rest -> _. eexists. auto.
  - intros a H. rewrite H. eexists. auto.
Defined.

Definition engine : Engine.t :=
  Engine.mk Call.alice (Some (Engine.Running (Session.new []) Engine.unspecified None true))
    (MediaTransport.new Config.empty) (CongestionController.new 1500000 500000 1500000 0).1 Config.empty true true false.
Definition no_fs : FileHandler.fs := FileHandler.Fs None (Ok ()) (Ok ()) (Ok ()).
Definition downloading : FileHandler.t := FileHandler.mk {[5 := FileHandler.Writer]} ∅.
Definition sender : SctpSession.t unit association :=
  SctpSession.mk (Some (Assoc [] [] [])) () {[5 := SctpStream.new (SctpSession.unnamed 5) 0]} [] true.
Definition pieces : list bytes := [[1; 2; 3]; [4; 5]].
Definition receiver : SctpSession.t unit association := SctpSession.mk None () ∅ [] false.
(** The association connects; two messages arrive, then the other two with an event too many. *)
Definition turns : list (association * Z) :=
  [(Assoc [] [] [Connected], 1);
   (Assoc [] (serialize <$> [Chunk 5 0 [1; 2; 3]; Chunk 5 1 [4; 5]]) [Readable 0; OtherEvent; Readable 0], 2);
   (Assoc [] (serialize <$> [Chunk 5 2 []; EndFile 5]) [Readable 0; Readable 0; Readable 0], 3)].
End Peers.

Lemma file_transfer_delivers_witness :
  exists eb' oe' fb' ol ow,
    feed (engine_thread 0) Peers.engine
      (mjoin (to_parent <$> (receive_turns 9 Peers.receiver Peers.turns).2)) = Ok (eb', oe') /\
    feed (listener_thread Config.empty Peers.no_fs) Peers.downloading (omap to_file_handler oe') = Ok (fb', ol) /\
    feed writer_thread (inl (WriterWorker.new 5 (lit "copy"))) (omap (to_writer 5) ol)
      = Ok (inr (WriterWorker.Kept (lit "copy") [1; 2; 3; 4; 5]), ow).
Proof.
  destruct (file_transfer_delivers Config.empty Peers.no_fs 0 5 5 0 Peers.pieces FileHandler.new
    Peers.downloading Peers.engine Peers.engine (Engine.Running (Session.new []) Engine.unspecified None true)
    Peers.sender Peers.receiver [] (lit "copy") 9) as (evs & fa' & oa & ea' & oe & Hr & Hl & He & Hnext);
    try reflexivity; try ulia.
  - repeat (apply Forall_cons; split; [split; [discriminate | vm_compute; discriminate] |]). apply Forall_nil_2.
  - vm_compute. discriminate.
  - split; [exists (Loopback.Assoc [] [] []); split; reflexivity |].
    exists (SctpStream.new (SctpSession.unnamed 5) 0). split; reflexivity.
  - vm_compute in Hr. injection Hr as <-. vm_compute in Hl. injection Hl as _ <-.
    vm_compute in He. injection He as _ <-.
    destruct (Hnext [(SendChunk 5 [1; 2; 3], 0); (SendChunk 5 [4; 5], 1); (SendChunk 5 [], 2); (SendEndFile 5, 3)] eq_refl)
      as (sa' & a & os & Hf & Ha & _ & Hrecv).
    { vm_compute. repeat (split; [eexists _, _; split_and!; reflexivity |]). exact I. }
    vm_compute in Hf. injection Hf as <- _. vm_compute in Ha. injection Ha as <-.
    destruct (Hrecv Peers.turns) as (sb' & ob & eb' & oe' & fb' & ol & ow & Hp & He' & Hl' & Hw & _).
    { vm_compute. reflexivity. }
    { repeat constructor; cbn; lia. }
    exists eb', oe', fb', ol, ow. rewrite Hp. auto.
Defined.

(** ** Where a download is written *)

(** The name the peer offers decides where the file goes: an absolute one replaces the storage
    directory, and the components of a relative one are kept as they are. *)
Lemma absolute_name_escapes config s id name fs : head name = Some 47 ->
  FileHandler.parent_created fs = Ok () -> FileHandler.created fs = Ok () ->
  (FileHandler.on_event config s (FileHandlerEvents.WriteFile name id) fs).2 = [FileHandler.SpawnWriter id name].
Proof.
  intros Hh Hp Hc. cbn [FileHandler.on_event]. unfold FileHandler.write_file. rewrite Hp, Hc. cbn [snd]. unfold path_join.
  rewrite decide_True by exact Hh. reflexivity.
Qed.
Lemma relative_name_escapes :
  path_join (lit "./downloads") (lit "../.ssh/authorized_keys") = lit "./downloads/../.ssh/authorized_keys".
Proof. reflexivity. Qed.

(** A writer that fails stays in the table of workers. *)
Lemma failed_writer_stays config s id e fs :
  FileHandler.workers (FileHandler.on_event config s (FileHandlerEvents.Err e) fs).1 !! id = FileHandler.workers s !! id.
Proof. reflexivity. Qed.
