(* ===== verification/EngineTheory.v ===== *)
(** * The engine: theorems

    A poll handles the queued events in order, loses none and stops after 500 of those that go to
    the application or after four milliseconds. The two ends of a call take opposite DTLS roles. The lemmas at the end
    are about states in which the engine fails: a second [Established], a second upload. *)

From stdpp Require Import prelude gmap strings.
From Stdlib Require Import ZArith Lia.
From S2P Require Import Prelude Utf8 Text Srtp RecvStream RtpSession Congestion AppSession Net Config Dtls Ice IceTheory ConnManager ConnSafety MediaTransport Sctp FileTransfer Engine.
Local Open Scope Z_scope.

(** ** Polling *)

(** The events that [poll] returns; the others are messages between components. *)
Definition for_application (ev : EngineEvent.t) : bool :=
  match ev with
  | EngineEvent.SendFileOffer _ | EngineEvent.SendFileChunk _ _ | EngineEvent.SendFileEnd _
  | EngineEvent.ReceivedFileChunk _ _ _ => false
  | _ => true
  end.
Definition metrics_ok (ev : EngineEvent.t) : Prop :=
  match ev with EngineEvent.NetworkMetrics m => u8 (NetworkMetrics.fraction_lost m) | _ => True end.

Lemma on_event_total s ev now : controller_ok (Engine.congestion_controller s) -> metrics_ok ev ->
  exists s' o, Engine.on_event s ev now = Ok (s', o, for_application ev) /\
    controller_ok (Engine.congestion_controller s').
Proof.
  intros Hc Hm. destruct ev; cbn [Engine.on_event for_application]; try (do 2 eexists; split; [reflexivity | exact Hc]).
  destruct (metrics_total (Engine.congestion_controller s) m now Hc Hm) as (cc & evs & He & Hcc).
  rewrite He. cbn [mbind outcome_bind]. do 2 eexists. split; [reflexivity | exact Hcc].
Qed.

Lemma event_loop_total start clock queue : Forall metrics_ok queue -> forall s k processed,
  controller_ok (Engine.congestion_controller s) -> processed <= 500 ->
  exists s' taken o rest, Engine.event_loop s queue start clock k processed
      = Ok (s', filter (fun ev => for_application ev = true) taken, o, rest) /\
    queue = taken ++ rest /\ controller_ok (Engine.congestion_controller s') /\
    let n := Z.of_nat (length (filter (fun ev => for_application ev = true) taken)) in
    processed + n <= 500 /\
    (rest <> [] -> processed + n = 500 \/ 4000000 <= clock (k + length taken)%nat - start).
Proof.
  induction 1 as [| ev queue Hev Hq IH]; intros s k processed Hc Hp.
  - exists s, [], [], []. cbn. split_and!; [reflexivity | reflexivity | exact Hc | lia | contradiction].
  - cbn [Engine.event_loop]. destruct (Z.leb_spec 500 processed) as [H5 | H5]; cbn [orb].
    { exists s, [], [], (ev :: queue). cbn. split_and!; [reflexivity | reflexivity | exact Hc | lia | intros _; left; lia]. }
    destruct (Z.leb_spec 4000000 (Z.max 0 (clock k - start))) as [Ht | Ht].
    { exists s, [], [], (ev :: queue). cbn. split_and!; [reflexivity | reflexivity | exact Hc | lia |]. intros _. right.
      rewrite Nat.add_0_r. lia. }
    destruct (on_event_total s ev (clock k) Hc Hev) as (s1 & o1 & He & Hc1). rewrite He. cbn [mbind outcome_bind].
    destruct (IH s1 (S k) (if for_application ev then processed + 1 else processed) Hc1)
      as (s' & taken & o & rest & Hl & -> & Hc' & Hn & Hr); [case_test; lia |].
    rewrite Hl. cbn [mbind outcome_bind]. exists s', (ev :: taken), (o1 ++ o), rest. rewrite filter_cons.
    destruct (for_application ev) eqn:Hf.
    + rewrite decide_True by reflexivity. cbn [length]. split_and!; [reflexivity | reflexivity | exact Hc' | lia |].
      intros Hne. destruct (Hr Hne) as [|Hk]; [left; lia | right]. replace (k + S (length taken))%nat with (S k + length taken)%nat by lia. exact Hk.
    + rewrite decide_False by discriminate. cbn [length]. split_and!; [reflexivity | reflexivity | exact Hc' | lia |].
      intros Hne. destruct (Hr Hne) as [|Hk]; [left; lia | right]. replace (k + S (length taken))%nat with (S k + length taken)%nat by lia. exact Hk.
Qed.

(** C27 A poll never fails while the bitrate is within its limits. It takes events from the
    front of the queue, in order and each once; those that are not internal to file transfers are
    returned to the application in that order, at most 500 of them; events are left in the queue only
    when 500 were returned or four milliseconds have passed. *)
Theorem poll_takes_in_order s e queue start clock :
  controller_ok (Engine.congestion_controller s) -> Forall metrics_ok queue ->
  exists s' taken o rest, Engine.poll s e queue start clock
      = Ok (s', filter (fun ev => for_application ev = true) taken, o, rest) /\
    queue = taken ++ rest /\ controller_ok (Engine.congestion_controller s') /\
    let n := Z.of_nat (length (filter (fun ev => for_application ev = true) taken)) in
    n <= 500 /\ (rest <> [] -> n = 500 \/ 4000000 <= clock (length taken) - start).
Proof.
  intros Hc Hq. unfold Engine.poll. destruct (ConnectionManager.drain_ice_events (Engine.cm s)) as [c ds].
  assert (Hc1 : controller_ok (Engine.congestion_controller (Engine.connect_nominated (Engine.with_cm s c) e).1)).
  { unfold Engine.connect_nominated. repeat (case_match; try exact Hc). }
  destruct (Engine.connect_nominated (Engine.with_cm s c) e) as [s1 o1]. cbn [fst] in Hc1.
  destruct (event_loop_total start clock queue Hq s1 0 0 Hc1 ltac:(lia)) as (s' & taken & o & rest & Hl & Hqt & Hc' & Hn).
  rewrite Hl. cbn [mbind outcome_bind]. eexists s', taken, _, rest. split; [reflexivity |]. auto.
Qed.

Definition quiet_env : Engine.connect_env := Engine.ConnectEnv (Ok ()) None demo_openssl.
Definition idle_engine : Engine.t :=
  Engine.mk Call.alice None (MediaTransport.new Config.empty)
    (CongestionController.new 1500000 500000 1500000 0).1 Config.empty true true false.
Definition demo_queue : list EngineEvent.t :=
  [EngineEvent.Established; EngineEvent.ReceivedFileChunk 5 0 [1]; EngineEvent.NetworkMetrics demo_loss; EngineEvent.Closed].
Lemma poll_takes_in_order_witness :
  exists s' taken o rest, Engine.poll idle_engine quiet_env demo_queue 0 (fun _ => 0)
      = Ok (s', filter (fun ev => for_application ev = true) taken, o, rest) /\
    demo_queue = taken ++ rest /\ controller_ok (Engine.congestion_controller s') /\
    let n := Z.of_nat (length (filter (fun ev => for_application ev = true) taken)) in
    n <= 500 /\ (rest <> [] -> n = 500 \/ 4000000 <= 0 - 0).
Proof.
  apply (poll_takes_in_order idle_engine quiet_env demo_queue 0 (fun _ => 0)).
  - apply controller_new; lia.
  - repeat (apply Forall_cons_2; [first [exact I | vm_compute; intuition discriminate] |]). apply Forall_nil_2.
Defined.

(** ** The session *)

(** What the engine hands to the session and its data channel *)
Definition to_session (x : Engine.output) : bool :=
  match x with Engine.ToSctp _ | Engine.OfSession _ => true | _ => false end.

Lemma on_event_session s ev now s' o b : Engine.on_event s ev now = Ok (s', o, b) ->
  Engine.session s' = Engine.session s /\ Engine.file_handler s' = Engine.file_handler s /\
  (Engine.session s = None -> Forall (fun x => to_session x = false) o).
Proof.
  assert (Hw : forall x, Engine.session s = None -> Forall (fun x => to_session x = false) (Engine.when_session s x))
    by (intros x Hn; unfold Engine.when_session; rewrite Hn; constructor).
  destruct ev; cbn [Engine.on_event]; intros H;
    try (injection H as <- <- <-; unfold Engine.when_handler; split_and!; try reflexivity; intros Hn; auto; repeat case_match; repeat constructor; fail).
  bind_inv H. destruct v as [cc evs]. injection H as <- <- <-. split_and!; try reflexivity. intros _.
  apply Forall_fmap, Forall_true. reflexivity.
Qed.
Lemma event_loop_session queue start clock : forall s k processed s' out o rest,
  Engine.event_loop s queue start clock k processed = Ok (s', out, o, rest) ->
  Engine.session s' = Engine.session s /\ Engine.file_handler s' = Engine.file_handler s /\
  (Engine.session s = None -> Forall (fun x => to_session x = false) o).
Proof.
  induction queue as [| ev queue IH]; intros s k processed s' out o rest; cbn [Engine.event_loop].
  { intros [= <- <- <- <-]. split_and!; constructor. }
  case_match; [intros [= <- <- <- <-]; split_and!; constructor |]. intros H1.
  bind_inv H1. destruct v as [[s1 o1] counted]. bind_inv H1. destruct v as [[[s2 out2] o2] rest2]. injection H1 as <- <- <- <-.
  apply on_event_session in Hv as (A1 & A2 & A3). apply IH in Hv0 as (B1 & B2 & B3).
  split_and!; [congruence | congruence |]. intros Hn. apply Forall_app. split; [auto | apply B3; congruence].
Qed.
Lemma drained_fingerprint c : ConnectionManager.remote_fingerprint (ConnectionManager.drain_ice_events c).1 = ConnectionManager.remote_fingerprint c.
Proof.
  unfold ConnectionManager.drain_ice_events. destruct (ConnectionManager.ice_worker c) as [w |];
    [destruct (ConnectionManager.handle_all _ _) as [a ds] |]; case_match; reflexivity.
Qed.

(** The peer of the data channel is the remote end of the nominated pair. *)
Lemma data_channel_peer agent sock peer : IceAgent.get_data_channel_socket agent = Ok (sock, peer) ->
  exists np, IceAgent.nominated_pair agent = Some np /\ CandidatePair.state np = CandidatePairState.Succeeded /\
    peer = Candidate.address (CandidatePair.remote np).
Proof.
  unfold IceAgent.get_data_channel_socket. intros H. destruct (IceAgent.nominated_pair agent) as [np |]; [| discriminate].
  cbn [ok_or mbind outcome_bind] in H. case_bool_decide as Hs; [| discriminate H]. cbn [negb] in H.
  destruct (IceAgent.find_pair np (IceAgent.candidate_pairs agent)) as [pr |] eqn:Hf; [| discriminate H]. cbn [ok_or mbind outcome_bind] in H.
  bind_inv H. injection H as _ <-. exists np. split_and!; [reflexivity | exact Hs |].
  clear -Hf. induction (IceAgent.candidate_pairs agent) as [| q l IH]; [discriminate |]. cbn [IceAgent.find_pair] in Hf.
  destruct (IceAgent.same_addresses q np) eqn:E; [| auto]. injection Hf as ->. apply same_addresses_spec in E as [_ E]. exact E.
Qed.

(** A connection attempt makes a session only after a handshake. *)
Lemma connect_session s e s' o : Engine.connect_nominated s e = (s', o) -> Engine.session s = None ->
  Forall (fun x => to_session x = false) o /\
  match Engine.session s' with
  | None => True
  | Some r =>
      (exists sock, IceAgent.get_data_channel_socket (ConnectionManager.ice_agent (Engine.cm s)) = Ok (sock, Engine.peer r)) /\
      (exists cfg, run_dtls_handshake (Engine.dtls e) (Engine.dtls_role s) (ConnectionManager.remote_fingerprint (Engine.cm s)) (Engine.config s) = Ok cfg /\
         Engine.srtp_cfg r = Some cfg) /\
      Engine.is_client r = DtlsRole.is_client (Engine.dtls_role s) /\
      Engine.sess r = Session.new (ConnectionManager.remote_codecs (Engine.cm s)) /\ Engine.file_handler s' = true
  end.
Proof.
  intros H Hs. unfold Engine.connect_nominated in H. rewrite Hs in H.
  destruct (IceAgent.get_data_channel_socket _) as [[sock peer] | |] eqn:Eg; [| simplify_eq; rewrite Hs; repeat constructor ..].
  destruct (Engine.connected e); [| simplify_eq; rewrite Hs; repeat constructor |];
    (destruct (run_dtls_handshake _ _ _ _) as [cfg | |] eqn:Ed in H; simplify_eq; cbn; rewrite ?Hs; split; try repeat constructor; eauto).
Qed.

(** C7 Media and files flow only over a session that DTLS has established with the peer of the nominated
    pair. A poll that finds no session and leaves none hands nothing to a session or its data channel.
    When it leaves one, the agent has nominated a pair that succeeded and the session is with the
    remote end of it; the handshake, run as server by the controlling end and as client by the other,
    succeeded, and the session has the keys it exported; and when the peer signaled a fingerprint, the
    certificate presented in the handshake has that fingerprint, so that its digest is the one whose
    text was signaled. (Without a signaled fingerprint the code verifies no certificate.) The library
    rejects what the callback rejects of the certificate presented, whose digest is of octets. *)
Theorem session_needs_dtls s e queue start clock s' out o rest presented :
  Engine.poll s e queue start clock = Ok (s', out, o, rest) -> Engine.session s = None ->
  (forall role v, handshake (Engine.dtls e) role (Some v) = Completed -> v presented = true) -> digested presented ->
  let agent := ConnectionManager.ice_agent (ConnectionManager.drain_ice_events (Engine.cm s)).1 in
  match Engine.session s' with
  | None => Forall (fun x => to_session x = false) o
  | Some r =>
      (exists np, IceAgent.nominated_pair agent = Some np /\ CandidatePair.state np = CandidatePairState.Succeeded /\
         Engine.peer r = Candidate.address (CandidatePair.remote np)) /\
      (forall fp, ConnectionManager.remote_fingerprint (Engine.cm s) = Some fp ->
         exists d, presented = Some (Ok d) /\ eq_ignore_ascii_case (fingerprint_text d) fp = true /\
           forall d0, bytes_ok d0 -> fp = fingerprint_text d0 -> d = d0) /\
      (exists key_mat, export_keying_material (Engine.dtls e) = Ok key_mat /\
         Engine.srtp_cfg r = Some (split_keys (match IceAgent.role agent with Controlling => DtlsRole.Server | Controlled => DtlsRole.Client end) key_mat)) /\
      Engine.is_client r = bool_decide (IceAgent.role agent = Controlled) /\ Engine.file_handler s' = true
  end.
Proof.
  intros H Hs Hlaw Hd. cbv zeta. unfold Engine.poll in H. pose proof (drained_fingerprint (Engine.cm s)) as Hfp.
  destruct (ConnectionManager.drain_ice_events (Engine.cm s)) as [c ds]. cbn [fst] in *.
  destruct (Engine.connect_nominated (Engine.with_cm s c) e) as [s1 o1] eqn:Ec.
  apply connect_session in Ec as [Ho1 Ec]; [| exact Hs].
  bind_inv H. destruct v as [[[s2 out2] o2] rest2]. injection H as <- <- <- <-. apply event_loop_session in Hv as (L1 & L2 & L3).
  rewrite L1, L2. destruct (Engine.session s1) as [r |].
  - destruct Ec as ((sock & Hg) & (cfg & Hr & Hk) & Hcl & _ & Hfh). cbn [Engine.cm Engine.with_cm] in *.
    destruct (run_keys _ _ _ _ _ Hr) as (km & Hx & ->). split_and!; [eapply data_channel_peer, Hg | | | | exact Hfh].
    + intros fp Hf. rewrite Hfp, Hf in Hr. apply (run_verified _ _ _ _ presented) in Hr; [| apply Hlaw]. cbn in Hr.
      destruct presented as [[d | |] |]; try discriminate Hr. exists d. split_and!; [reflexivity | exact Hr |].
      intros d0 H0 ->. apply (verify_exact d0 (Some (Ok d)) H0 Hd) in Hr. congruence.
    + exists km. split; [exact Hx |]. rewrite Hk. reflexivity.
    + rewrite Hcl. unfold Engine.dtls_role. cbn. destruct (IceAgent.role _); reflexivity.
  - apply Forall_app. split; [apply Forall_fmap, Forall_true; reflexivity |]. apply Forall_app. split; [exact Ho1 | auto].
Qed.

Definition demo_candidate (addr : SocketAddr.t) : Candidate.t :=
  Candidate.mk (lit "1") 1 (lit "udp") 100 addr CandidateType.Host None (Some 7).
Definition demo_pair : CandidatePair.t :=
  CandidatePair.mk (demo_candidate (SocketAddr.mk (V4 10 0 0 1) 4000)) (demo_candidate (SocketAddr.mk (V4 10 0 0 2) 5000))
    1 CandidatePairState.Succeeded true.
Definition nominated_manager : ConnectionManager.t :=
  ConnectionManager.with_fingerprint
    (ConnectionManager.with_agent Call.alice
       (IceAgent.mk IceAgent.DEFAULT_STUN_SERVER 2 100 [CandidatePair.local demo_pair] [CandidatePair.remote demo_pair]
          [demo_pair] Controlled (lit "a") (lit "b") [] [] (Some demo_pair)))
    (Some (fingerprint_text [171; 1])).
Definition nominated_engine : Engine.t := Engine.with_cm idle_engine nominated_manager.
Definition connected_session : Engine.running :=
  Engine.Running (Session.new []) (SocketAddr.mk (V4 10 0 0 2) 5000) (Some (split_keys DtlsRole.Client (replicate 60 7))) true.
Lemma session_needs_dtls_witness :
  exists s' out o rest, Engine.poll nominated_engine quiet_env [] 0 (fun _ => 0) = Ok (s', out, o, rest) /\
    Engine.session s' = Some connected_session /\
    (exists np, IceAgent.nominated_pair (ConnectionManager.ice_agent nominated_manager) = Some np /\
       SocketAddr.mk (V4 10 0 0 2) 5000 = Candidate.address (CandidatePair.remote np)) /\
    ConnectionManager.remote_fingerprint nominated_manager = Some (fingerprint_text [171; 1]).
Proof.
  destruct (Engine.poll nominated_engine quiet_env [] 0 (fun _ => 0)) as [[[[s' out] o] rest] | |] eqn:E;
    [| vm_compute in E; discriminate E ..].
  exists s', out, o, rest. split; [reflexivity |].
  assert (Hs : Engine.session s' = Some connected_session).
  { transitivity (match Engine.poll nominated_engine quiet_env [] 0 (fun _ => 0) with Ok (x, _, _, _) => Engine.session x | _ => None end);
      [rewrite E; reflexivity | vm_compute; reflexivity]. }
  assert (Hb : bytes_ok [171; 1]) by (repeat (apply Forall_cons_2; [ulia |]); apply Forall_nil_2).
  pose proof (session_needs_dtls nominated_engine quiet_env [] 0 (fun _ => 0) s' out o rest (Some (Ok [171; 1])) E eq_refl) as H.
  cbv zeta in H. rewrite Hs in H. destruct H as ((np & H1 & _ & H2) & _).
  - intros role v. cbn. destruct (v _); [reflexivity | discriminate].
  - intros d [= <-]. exact Hb.
  - split; [exact Hs |]. split; [exists np; split; [exact H1 | exact H2] | reflexivity].
Defined.

(** The keys of the two ends of one handshake *)
Lemma context_of keystream k : length (SrtpEndpointKeys.master_key k) = 16%nat ->
  exists c, SrtpContext.new keystream k = Ok c /\ SrtpContext.last_seqs c = ∅ /\ SrtpContext.replay_windows c = ∅.
Proof.
  intros Hk. unfold SrtpContext.new, SrtpContext.derive_session_keys, SrtpContext.aes_cm_prf. rewrite Hk.
  cbn. eexists. split; [reflexivity |]. split; reflexivity.
Qed.

(** C23 The two ends of a call hold the same SRTP keys. From the keying material of one handshake the
    client and the server build their contexts without failing; what one protects with, the other
    unprotects with, in both directions, and every source can start at any 16-bit number. *)
Theorem srtp_contexts_agree keystream key_mat : length key_mat = 60%nat ->
  exists ci co si so,
    Engine.contexts keystream (Some (split_keys DtlsRole.Client key_mat)) = Ok (Some (ci, co)) /\
    Engine.contexts keystream (Some (split_keys DtlsRole.Server key_mat)) = Ok (Some (si, so)) /\
    SrtpContext.session_keys co = SrtpContext.session_keys si /\
    SrtpContext.session_keys so = SrtpContext.session_keys ci /\
    forall ssrc i, u16 i -> sender_at co ssrc i /\ recv_at si ssrc [] /\ sender_at so ssrc i /\ recv_at ci ssrc [].
Proof.
  intros Hl.
  set (ck := SrtpEndpointKeys.mk (take 16 key_mat) (take 14 (drop 16 (drop 16 key_mat)))).
  set (sk := SrtpEndpointKeys.mk (take 16 (drop 16 key_mat)) (take 14 (drop 14 (drop 16 (drop 16 key_mat))))).
  destruct (context_of keystream ck) as (c & Hc & Hcl & Hcw); [cbn; rewrite length_take; lia |].
  destruct (context_of keystream sk) as (d & Hd & Hdl & Hdw); [cbn; rewrite length_take, length_drop; lia |].
  exists d, c, c, d. unfold Engine.contexts, split_keys. cbn [SrtpSessionConfig.inbound SrtpSessionConfig.outbound].
  fold ck sk. rewrite Hc, Hd. cbn [mbind outcome_bind].
  split; [reflexivity |]. split; [reflexivity |]. split; [reflexivity |]. split; [reflexivity |].
  intros ssrc i Hi. unfold sender_at, recv_at. rewrite Hcl, Hdl, Hcw, Hdw, !lookup_empty.
  split_and!; auto; first [exact sees_new | reflexivity].
Qed.
Lemma srtp_contexts_agree_witness :
  exists ci co si so,
    Engine.contexts toy_keystream (Some (split_keys DtlsRole.Client (replicate 16 1 ++ replicate 44 2))) = Ok (Some (ci, co)) /\
    Engine.contexts toy_keystream (Some (split_keys DtlsRole.Server (replicate 16 1 ++ replicate 44 2))) = Ok (Some (si, so)) /\
    SrtpContext.session_keys co = SrtpContext.session_keys si.
Proof.
  destruct (srtp_contexts_agree toy_keystream (replicate 16 1 ++ replicate 44 2) eq_refl) as (ci & co & si & so & H1 & H2 & H3 & _).
  exists ci, co, si, so. auto.
Defined.

(** ** Where the engine fails *)

(** The media transport can be started once: the application calls this for every [Established], and
    a session can report a second one. *)
Lemma second_start_panics s rv ra agent s' l o rv' ra' agent' :
  Engine.start_media_transport s rv ra agent = Ok (s', l, o) ->
  Engine.start_media_transport s' rv' ra' agent' = Panic.
Proof.
  unfold Engine.start_media_transport, MediaTransport.start_event_loops. intros H. apply bind_Ok_inv in H as ([m l'] & Hm & H).
  injection H as <- <- <-. destruct (MediaTransport.media_transport_event_rx (Engine.media_transport s)) eqn:E;
    cbn [MediaTransport.media_transport_event_rx negb] in Hm; [| discriminate Hm].
  destruct agent; [bind_inv Hm |]; injection Hm as <- <-; reflexivity.
Qed.

(** The end of one upload stops the requests for chunks of every other. *)
Lemma second_upload_stalls s id now s' o c : Engine.on_event s (EngineEvent.SendFileEnd id) now = Ok (s', o, c) ->
  Engine.sending_files s' = false /\
  forall buffered send_ok, Engine.drain_turn (Engine.sending_files s') buffered true send_ok = ([], true).
Proof. intros [= <- _ _]. auto. Qed.

(** Limits of the bitrate that are configured out of order make the next report panic. *)
Lemma inverted_limits_panic s m now :
  CongestionController.max_bitrate_bps (Engine.congestion_controller s)
    < CongestionController.min_bitrate_bps (Engine.congestion_controller s) ->
  Engine.on_event s (EngineEvent.NetworkMetrics m) now = Panic.
Proof.
  intros H. cbn [Engine.on_event]. unfold CongestionController.on_network_metrics, clamp.
  rewrite (proj2 (Z.ltb_lt _ _) H). reflexivity.
Qed.

(** A frame rate of zero panics when the call is established. *)
Lemma zero_fps_panics s rv ra : MediaTransport.target_fps s = 0 -> MediaTransport.start_event_loops s rv ra true = Panic.
Proof.
  intros H. unfold MediaTransport.start_event_loops. cbv zeta. case_match; [reflexivity |].
  cbn [MediaTransport.target_fps]. unfold MediaTransport.start_loop. rewrite H. reflexivity.
Qed.
