(* ===== verification/Video.v ===== *)
(** * Video frames (src/media_agent: video_frame.rs, h264_decoder.rs; src/app: gpu_yuv_renderer.rs,
    utils.rs)

    Frames and their planes: the test patterns, the copy of a decoded picture into rows that the
    graphics card takes, the upload of a plane and the textures that are kept from frame to frame. A
    picture of OpenH264 is a record of what the program reads of it. *)

From stdpp Require Import prelude strings.
From Stdlib Require Import ZArith Lia.
From S2P Require Import Prelude Utf8 Text MediaTransport.
Local Open Scope Z_scope.

Definition div_ceil (a b : Z) : Z := (a + b - 1) / b.
(** [usize] and [u32] values that count octets *)
Definition count (v : Z) : nat := Z.to_nat v.

(** ** Test patterns *)
Definition synthetic_rgb (width height tick now : Z) : VideoFrame.t :=
  let data :=
    y ← seqZ 0 height;
    x ← seqZ 0 width;
    [Z.lxor (wrap8 x) tick; Z.lxor (wrap8 y) tick; Z.lxor (wrap8 (wrap32 (x + y))) tick] in
  VideoFrame.mk width height now FrameFormat.Rgb (VideoFrameData.Rgb data).

(** Each octet of a plane is written once, row after row. *)
Definition plane (w h : Z) (f : Z -> Z -> Z) : bytes := yy ← seqZ 0 h; (fun xx => f xx yy) <$> seqZ 0 w.
Definition synthetic_yuv420 (width height tick now : Z) : VideoFrame.t :=
  let uv_w := div_ceil width 2 in
  let uv_h := div_ceil height 2 in
  let y := plane width height (fun xx yy => wrap8 (wrap8 (Z.lxor xx yy) + tick)) in
  let u := plane uv_w uv_h (fun xx yy => wrap8 (128 + wrap8 (wrap8 (xx + yy) + tick))) in
  let v := plane uv_w uv_h (fun xx yy => wrap8 (128 - wrap8 (wrap8 (xx + yy) + tick))) in
  VideoFrame.mk width height now FrameFormat.Yuv420 (VideoFrameData.Yuv420 y u v width uv_w uv_w).

Definition as_rgb_bytes (f : VideoFrame.t) : option bytes :=
  match VideoFrame.data f with VideoFrameData.Rgb buf => Some buf | _ => None end.
Definition as_yuv_planes (f : VideoFrame.t) : option (bytes * bytes * bytes * Z * Z * Z) :=
  match VideoFrame.data f with
  | VideoFrameData.Yuv420 y u v ys us vs => Some (y, u, v, ys, us, vs)
  | _ => None
  end.

(** ** Decoded pictures *)

(** What the program reads of a [DecodedYUV]: the timestamp is in milliseconds, [rgb8] what
    [write_rgb8] writes. *)
Module DecodedYUV.
Record t : Type := mk {
  dimensions : Z * Z;
  strides : Z * Z * Z;
  y : bytes; u : bytes; v : bytes;
  timestamp : Z;
  rgb8 : bytes }.
End DecodedYUV.

Definition ALIGNMENT : Z := 256.
Definition aligned_stride (width : Z) : Z := div_ceil width ALIGNMENT * ALIGNMENT.

(** [dst[d..d + w].copy_from_slice(&src[s..s + w])] *)
Definition copy_row (dst src : bytes) (d s w : nat) : outcome Empty_set bytes :=
  _ ← slice dst d (d + w);
  row ← slice src s (s + w);
  Ok (take d dst ++ row ++ drop (d + w) dst).
(** The rows from [row] on, [n] of them *)
Fixpoint copy_rows (dst src : bytes) (stride_orig stride_new w row n : nat) : outcome Empty_set bytes :=
  match n with
  | O => Ok dst
  | S n =>
      dst ← copy_row dst src (row * stride_new) (row * stride_orig) w;
      copy_rows dst src stride_orig stride_new w (S row) n
  end.
Definition copy_plane (src : bytes) (stride_orig stride_new w h : Z) : outcome Empty_set bytes :=
  copy_rows (replicate (count (stride_new * h)) 0) src (count stride_orig) (count stride_new) (count w) 0 (count h).

Definition yuv_to_rgbframe (yuv : DecodedYUV.t) (now : Z) : VideoFrame.t :=
  let '(w, h) := DecodedYUV.dimensions yuv in
  VideoFrame.mk (wrap32 w) (wrap32 h) (if DecodedYUV.timestamp yuv =? 0 then now else DecodedYUV.timestamp yuv)
    FrameFormat.Rgb (VideoFrameData.Rgb (DecodedYUV.rgb8 yuv)).
Definition yuv_to_yuv420frame (yuv : DecodedYUV.t) (now : Z) : outcome Empty_set VideoFrame.t :=
  let '(w, h) := DecodedYUV.dimensions yuv in
  let '(y_stride_orig, u_stride_orig, v_stride_orig) := DecodedYUV.strides yuv in
  let y_stride_new := aligned_stride w in
  let uv_w := div_ceil w 2 in
  let uv_stride_new := aligned_stride uv_w in
  let uv_h := div_ceil h 2 in
  y_plane ← copy_plane (DecodedYUV.y yuv) y_stride_orig y_stride_new w h;
  u_plane ← copy_plane (DecodedYUV.u yuv) u_stride_orig uv_stride_new uv_w uv_h;
  v_plane ← copy_plane (DecodedYUV.v yuv) v_stride_orig uv_stride_new uv_w uv_h;
  Ok (VideoFrame.mk (wrap32 w) (wrap32 h) (if DecodedYUV.timestamp yuv =? 0 then now else DecodedYUV.timestamp yuv) FrameFormat.Yuv420
        (VideoFrameData.Yuv420 y_plane u_plane v_plane y_stride_new uv_stride_new uv_stride_new)).
Definition yuv_to_videoframe (yuv : DecodedYUV.t) (frame_format : FrameFormat.t) (now : Z) : outcome Empty_set VideoFrame.t :=
  match frame_format with
  | FrameFormat.Rgb => Ok (yuv_to_rgbframe yuv now)
  | FrameFormat.Yuv420 => yuv_to_yuv420frame yuv now
  end.

(** ** Upload to the graphics card *)

(** [write_texture]: the octets, how many of them make a row, and the size of the texture *)
Module Upload.
Record t : Type := mk { contents : bytes; bytes_per_row : Z; size : Z * Z }.
(** The texel at column [x] of row [r] *)
Definition texel (up : t) (x r : nat) : option Z := contents up !! (r * count (bytes_per_row up) + x)%nat.
End Upload.

Definition upload_row (data : bytes) (w stride row_idx : nat) : bytes :=
  let src_start := (row_idx * stride)%nat in
  let src_end := (src_start + w)%nat in
  if (length data <? src_end)%nat then
    let valid_len := (length data - src_start)%nat in
    take valid_len (drop src_start data) ++ replicate (w - valid_len) 0
  else take w (drop src_start data).
Definition upload_plane (data : bytes) (width height stride : Z) : Upload.t :=
  let aligned_bpr := wrap32 (div_ceil width 256 * 256) in
  if wrap32 stride =? aligned_bpr then Upload.mk data aligned_bpr (width, height)
  else
    let padding := replicate (count aligned_bpr - count width) 0 in
    Upload.mk (mjoin ((fun k => upload_row data (count width) (count stride) k ++ padding) <$> seq 0 (count height)))
      aligned_bpr (width, height).

(** The textures of a renderer, by their size *)
Module GpuYuvRenderer.
Record t : Type := mk {
  tex_y : option (Z * Z); tex_u : option (Z * Z); tex_v : option (Z * Z);
  output_texture : option (Z * Z); y_size : Z * Z; uv_size : Z * Z }.
Definition new : t := mk None None None None (0, 0) (0, 0).

(** The textures of the planes are made again when the size changes, and the one that is shown when
    there is none. *)
Definition resize_y (s : t) (y_w y_h : Z) : t :=
  if negb (bool_decide (y_size s = (y_w, y_h))) || negb (is_some (tex_y s))
  then mk (Some (y_w, y_h)) (tex_u s) (tex_v s) (output_texture s) (y_w, y_h) (uv_size s) else s.
Definition resize_uv (s : t) (uv_w uv_h : Z) : t :=
  if negb (bool_decide (uv_size s = (uv_w, uv_h))) || negb (is_some (tex_u s)) || negb (is_some (tex_v s))
  then mk (tex_y s) (Some (uv_w, uv_h)) (Some (uv_w, uv_h)) (output_texture s) (y_size s) (uv_w, uv_h) else s.
Definition resize_output (s : t) (y_w y_h : Z) : t :=
  if negb (is_some (output_texture s)) || negb ((y_size s).1 =? y_w)
  then mk (tex_y s) (tex_u s) (tex_v s) (Some (y_w, y_h)) (y_size s) (uv_size s) else s.

Definition update_frame (s : t) (frame : VideoFrame.t) : t * list Upload.t :=
  match VideoFrame.data frame with
  | VideoFrameData.Yuv420 y_plane u_plane v_plane y_stride u_stride v_stride =>
      let y_w := VideoFrame.width frame in
      let y_h := VideoFrame.height frame in
      let uv_w := div_ceil y_w 2 in
      let uv_h := div_ceil y_h 2 in
      let s := resize_output (resize_uv (resize_y s y_w y_h) uv_w uv_h) y_w y_h in
      (s, [upload_plane y_plane y_w y_h y_stride; upload_plane u_plane uv_w uv_h u_stride;
           upload_plane v_plane uv_w uv_h v_stride])
  | _ => (s, [])
  end.
End GpuYuvRenderer.

(** ** Textures of the interface *)
Module Texture.
(** The identifier of the texture and the size recorded for it *)
Definition t : Type := option (Z * (Z * Z)).
Inductive output : Type :=
| Alloc (id : Z)               (* a new texture, registered or allocated *)
| Free (id : Z)
| Refresh (id : Z).            (* new contents for a texture of the same size *)

(** [update_rgb_texture] after the image has been built, and the second half of [update_yuv_texture]:
    [fresh] is the identifier that a new texture gets. *)
Definition show (texture : t) (width height fresh : Z) : t * list output :=
  match texture with
  | Some (id, (prev_w, prev_h)) =>
      if negb (prev_w =? width) || negb (prev_h =? height)
      then (Some (fresh, (width, height)), [Free id; Alloc fresh])
      else (texture, [Refresh id])
  | None => (Some (fresh, (width, height)), [Alloc fresh])
  end.
Definition update_rgb_texture (from_rgb : Z * Z -> bytes -> outcome Empty_set unit) (texture : t) (width height : Z)
    (rgb : bytes) (fresh : Z) : outcome Empty_set (t * list output) :=
  _ ← from_rgb (width, height) rgb;
  Ok (show texture width height fresh).
(** [None] for a renderer: there is no graphics card. *)
Definition update_yuv_texture (frame : VideoFrame.t) (texture : t) (yuv_renderer : option GpuYuvRenderer.t)
    (render_state : bool) (fresh : Z) : t * option GpuYuvRenderer.t * list output * list Upload.t :=
  match yuv_renderer, render_state with
  | Some renderer, true =>
      let '(renderer, ups) := GpuYuvRenderer.update_frame renderer frame in
      match GpuYuvRenderer.output_texture renderer with
      | None => (texture, Some renderer, [], ups)
      | Some _ =>
          let '(texture, os) := show texture (VideoFrame.width frame) (VideoFrame.height frame) fresh in
          (texture, Some renderer, os, ups)
      end
  | _, _ => (texture, yuv_renderer, [], [])
  end.
Definition update_texture_from_frame (from_rgb : Z * Z -> bytes -> outcome Empty_set unit) (frame : VideoFrame.t) (texture : t)
    (yuv_renderer : option GpuYuvRenderer.t) (render_state : bool) (fresh : Z)
  : outcome Empty_set (t * option GpuYuvRenderer.t * list output * list Upload.t) :=
  if (VideoFrame.width frame =? 0) || (VideoFrame.height frame =? 0) then Ok (texture, yuv_renderer, [], [])
  else
    match VideoFrame.data frame with
    | VideoFrameData.Rgb rgb =>
        '(texture, os) ← update_rgb_texture from_rgb texture (VideoFrame.width frame) (VideoFrame.height frame) rgb fresh;
        Ok (texture, yuv_renderer, os, [])
    | VideoFrameData.Yuv420 _ _ _ _ _ _ => Ok (update_yuv_texture frame texture yuv_renderer render_state fresh)
    end.
End Texture.

(** [summarize_frame] of the application *)
Definition summarize_frame (frame : option VideoFrame.t) : bytes :=
  match frame with
  | None => lit "no frame"
  | Some f =>
      let n := match VideoFrame.data f with
               | VideoFrameData.Rgb d => length d
               | VideoFrameData.Yuv420 y u v _ _ _ => (length y + length u + length v)%nat
               end in
      if (0 <? VideoFrame.width f) && (0 <? VideoFrame.height f) then
        dec (VideoFrame.width f) ++ lit "x" ++ dec (VideoFrame.height f) ++ lit " ("
          ++ (match VideoFrame.format f with FrameFormat.Rgb => lit "Rgb" | FrameFormat.Yuv420 => lit "Yuv420" end)
          ++ lit ") • " ++ dec (Z.of_nat n) ++ lit " bytes"
      else dec (Z.of_nat n) ++ lit " bytes (pending decode)"
  end.

(** ** Rows *)
Lemma rows_lookup {A} (f : nat -> list A) len n : (forall k, (k < n)%nat -> length (f k) = len) ->
  forall r x, (r < n)%nat -> (x < len)%nat -> mjoin (f <$> seq 0 n) !! (r * len + x)%nat = f r !! x.
Proof.
  intros Hf r x Hr Hx. assert (H : forall j m, (j + m <= n)%nat -> (r < j + m)%nat -> (j <= r)%nat ->
    mjoin (f <$> seq j m) !! ((r - j) * len + x)%nat = f r !! x).
  { intros j m. revert j. induction m as [| m IH]; intros j Hm Hr' Hj; [lia |]. cbn [seq fmap list_fmap mjoin list_join].
    destruct (decide (r = j)) as [-> |].
    - rewrite Nat.sub_diag. apply lookup_app_l. rewrite Hf by lia. lia.
    - rewrite lookup_app_r by (rewrite Hf by lia; nia). rewrite Hf by lia.
      replace ((r - j) * len + x - len)%nat with ((r - S j) * len + x)%nat by nia. apply IH; lia. }
  specialize (H 0%nat n ltac:(lia) ltac:(lia) ltac:(lia)). rewrite Nat.sub_0_r in H. exact H.
Qed.
Lemma rows_length {A} (f : nat -> list A) len j n : (forall k, (j <= k < j + n)%nat -> length (f k) = len) ->
  length (mjoin (f <$> seq j n)) = (n * len)%nat.
Proof.
  revert j. induction n as [| n IH]; intros j Hf; [reflexivity |]. cbn [seq fmap list_fmap mjoin list_join].
  rewrite length_app, Hf, IH by (intros; apply Hf; lia) || lia. lia.
Qed.
Lemma row_lookup (data : bytes) w s x : (x < w)%nat -> take w (drop s data) !! x = data !! (s + x)%nat.
Proof. intros Hx. rewrite lookup_take_lt by exact Hx. apply lookup_drop. Qed.
Lemma row_length (data : bytes) w s : (s + w <= length data)%nat -> length (take w (drop s data)) = w.
Proof. intros H. rewrite length_take, length_drop. lia. Qed.

(** A row of the copy: the octets of the picture, then zeros *)
Definition padded_row (src : bytes) (stride_orig stride_new w k : nat) : bytes :=
  take w (drop (k * stride_orig) src) ++ replicate (stride_new - w) 0.
Lemma copy_rows_run src so sn w n : (w <= sn)%nat -> forall r d, length d = (r * sn)%nat ->
  (forall k, (r <= k < r + n)%nat -> (k * so + w <= length src)%nat) ->
  copy_rows (d ++ replicate (n * sn) 0) src so sn w r n = Ok (d ++ mjoin (padded_row src so sn w <$> seq r n)).
Proof.
  intros Hw. induction n as [| n IH]; intros r d Hd Hk; [reflexivity |]. cbn [copy_rows]. unfold copy_row.
  rewrite (slice_Ok (d ++ _)) by (rewrite length_app, length_replicate; lia). cbn [mbind outcome_bind].
  rewrite (slice_Ok src) by (specialize (Hk r ltac:(lia)); lia). cbn [mbind outcome_bind].
  replace (r * so + w - r * so)%nat with w by lia.
  rewrite (take_app_length' d) by (symmetry; exact Hd).
  replace (drop (r * sn + w) (d ++ replicate (S n * sn) 0)) with (replicate (sn - w) 0 ++ replicate (n * sn) 0).
  2: { rewrite <- Hd, drop_app_add', drop_replicate by reflexivity. rewrite <- replicate_add. f_equal. lia. }
  rewrite !(assoc_L (++)). rewrite (IH (S r)).
  - cbn [seq fmap list_fmap mjoin list_join]. unfold padded_row at 2. rewrite <- !(assoc_L (++)). reflexivity.
  - rewrite !length_app, Hd, length_replicate, row_length by (specialize (Hk r ltac:(lia)); lia). lia.
  - intros k Hkr. apply Hk. lia.
Qed.

(** A plane of [w] times [h] octets in rows [stride] apart *)
Definition plane_ok (data : bytes) (stride w h : Z) : Prop :=
  w <= stride /\ stride * (h - 1) + w <= Z.of_nat (length data).
Lemma plane_row data stride w h k : 0 <= w -> plane_ok data stride w h -> (k < count h)%nat ->
  (k * count stride + count w <= length data)%nat.
Proof. unfold count. intros Hw [H1 H2] Hk. nia. Qed.

Lemma copy_plane_run src so sn w h : 0 <= w -> w <= sn -> 0 <= h -> plane_ok src so w h ->
  copy_plane src so sn w h = Ok (mjoin (padded_row src (count so) (count sn) (count w) <$> seq 0 (count h))).
Proof.
  intros Hw Hsn Hh Hp. unfold copy_plane. replace (count (sn * h)) with (count h * count sn)%nat by (unfold count; nia).
  apply (copy_rows_run src (count so) (count sn) (count w) (count h) ltac:(unfold count; lia) 0 []); [reflexivity |].
  intros k Hk. eapply plane_row; [eassumption .. | lia].
Qed.
Lemma aligned_stride_spec w : 0 <= w -> w <= aligned_stride w < w + 256 /\ aligned_stride w mod 256 = 0.
Proof. intros Hw. unfold aligned_stride, div_ceil, ALIGNMENT. split; [elia | apply Z.mod_mul; lia]. Qed.

(** ** The upload *)

(** Whatever its stride, the texture has the octets of the plane. *)
Lemma upload_exact data w h stride x r : 0 < w -> w + 256 < 2 ^ 32 -> 0 <= stride < 2 ^ 32 -> plane_ok data stride w h ->
  (x < count w)%nat -> (r < count h)%nat ->
  Upload.texel (upload_plane data w h stride) x r = data !! (r * count stride + x)%nat.
Proof.
  intros Hw Hmax Hs Hp Hx Hr. destruct (aligned_stride_spec w ltac:(lia)) as [Ha _].
  unfold upload_plane, Upload.texel. change (div_ceil w 256 * 256) with (aligned_stride w).
  rewrite (wrap32_small (aligned_stride w)), (wrap32_small stride) by ulia.
  destruct (Z.eqb_spec stride (aligned_stride w)) as [<- | Hne]; cbn [Upload.contents Upload.bytes_per_row]; [reflexivity |].
  pose proof (plane_row data stride w h) as Hrow.
  assert (Hlen : forall k, (k < count h)%nat -> upload_row data (count w) (count stride) k = take (count w) (drop (k * count stride) data)).
  { intros k Hk. unfold upload_row. specialize (Hrow k ltac:(lia) Hp Hk). destruct (Nat.ltb_spec (length data) (k * count stride + count w)); [lia | reflexivity]. }
  rewrite (rows_lookup _ (count (aligned_stride w))).
  - rewrite Hlen by exact Hr. rewrite lookup_app_l by (rewrite row_length; [exact Hx | apply Hrow; auto; lia]). apply row_lookup, Hx.
  - intros k Hk. rewrite Hlen by exact Hk. rewrite length_app, row_length, length_replicate by (apply Hrow; auto; lia). unfold count. lia.
  - exact Hr.
  - unfold count in *. lia.
Qed.

(** The copy is a plane again, with the octets of the picture. *)
Lemma copied_plane src so sn w h out : 0 <= w -> w <= sn -> 0 < h -> plane_ok src so w h -> copy_plane src so sn w h = Ok out ->
  plane_ok out sn w h /\ Z.of_nat (length out) = sn * h /\
  forall x r, (x < count w)%nat -> (r < count h)%nat -> out !! (r * count sn + x)%nat = src !! (r * count so + x)%nat.
Proof.
  intros Hw Hsn Hh Hp. rewrite copy_plane_run by (assumption || lia). intros [= <-].
  assert (Hlen : forall k, (k < count h)%nat -> length (padded_row src (count so) (count sn) (count w) k) = count sn).
  { intros k Hk. unfold padded_row. rewrite length_app, row_length, length_replicate by (eapply plane_row; eassumption). unfold count. lia. }
  assert (Hl : Z.of_nat (length (mjoin (padded_row src (count so) (count sn) (count w) <$> seq 0 (count h)))) = sn * h).
  { rewrite (rows_length _ (count sn)) by (intros; apply Hlen; lia). unfold count. rewrite Nat2Z.inj_mul, !Z2Nat.id by lia. lia. }
  split; [split; [exact Hsn | rewrite Hl; lia] |]. split; [exact Hl |]. intros x r Hx Hr.
  rewrite (rows_lookup _ (count sn)) by (assumption || (unfold count in *; lia)). unfold padded_row.
  rewrite lookup_app_l by (rewrite row_length; [exact Hx | eapply plane_row; eassumption]). apply row_lookup, Hx.
Qed.

(** What a decoder promises of its picture: its planes have the rows of its dimensions. *)
Record picture_ok (yuv : DecodedYUV.t) (w h : Z) : Prop := {
  p_dims : DecodedYUV.dimensions yuv = (w, h);
  p_y : plane_ok (DecodedYUV.y yuv) (DecodedYUV.strides yuv).1.1 w h;
  p_u : plane_ok (DecodedYUV.u yuv) (DecodedYUV.strides yuv).1.2 (div_ceil w 2) (div_ceil h 2);
  p_v : plane_ok (DecodedYUV.v yuv) (DecodedYUV.strides yuv).2 (div_ceil w 2) (div_ceil h 2) }.
Lemma decoded_frame yuv w h now : picture_ok yuv w h -> 0 < w -> 0 < h ->
  let sy := aligned_stride w in let sc := aligned_stride (div_ceil w 2) in
  exists py pu pv,
    yuv_to_yuv420frame yuv now = Ok (VideoFrame.mk (wrap32 w) (wrap32 h) (if DecodedYUV.timestamp yuv =? 0 then now else DecodedYUV.timestamp yuv)
      FrameFormat.Yuv420 (VideoFrameData.Yuv420 py pu pv sy sc sc)) /\
    copy_plane (DecodedYUV.y yuv) (DecodedYUV.strides yuv).1.1 sy w h = Ok py /\
    copy_plane (DecodedYUV.u yuv) (DecodedYUV.strides yuv).1.2 sc (div_ceil w 2) (div_ceil h 2) = Ok pu /\
    copy_plane (DecodedYUV.v yuv) (DecodedYUV.strides yuv).2 sc (div_ceil w 2) (div_ceil h 2) = Ok pv.
Proof.
  intros [Hd Hy Hu Hv] Hw Hh. cbv zeta. unfold yuv_to_yuv420frame. rewrite Hd. destruct (DecodedYUV.strides yuv) as [[ys us] vs].
  cbn [fst snd] in *. assert (H2 : 0 < div_ceil w 2 /\ 0 < div_ceil h 2) by (unfold div_ceil; elia).
  destruct (aligned_stride_spec w ltac:(lia)) as [A1 _]. destruct (aligned_stride_spec (div_ceil w 2) ltac:(lia)) as [A2 _].
  rewrite !copy_plane_run by (assumption || lia). cbn [mbind outcome_bind]. eauto 10.
Qed.

Lemma sizes_recorded s y_w y_h uv_w uv_h :
  let s' := GpuYuvRenderer.resize_output (GpuYuvRenderer.resize_uv (GpuYuvRenderer.resize_y s y_w y_h) uv_w uv_h) y_w y_h in
  GpuYuvRenderer.y_size s' = (y_w, y_h) /\ GpuYuvRenderer.uv_size s' = (uv_w, uv_h).
Proof.
  assert (Hy : forall s, GpuYuvRenderer.y_size (GpuYuvRenderer.resize_y s y_w y_h) = (y_w, y_h)).
  { intros x. unfold GpuYuvRenderer.resize_y. case_bool_decide; [destruct (negb (is_some _)); [reflexivity | assumption] | reflexivity]. }
  assert (Hu : forall s, GpuYuvRenderer.uv_size (GpuYuvRenderer.resize_uv s uv_w uv_h) = (uv_w, uv_h)).
  { intros x. unfold GpuYuvRenderer.resize_uv. case_bool_decide; [destruct (_ || _); [reflexivity | assumption] | reflexivity]. }
  cbv zeta. unfold GpuYuvRenderer.resize_output. set (x := GpuYuvRenderer.resize_uv _ _ _).
  assert (Hx : GpuYuvRenderer.y_size x = (y_w, y_h) /\ GpuYuvRenderer.uv_size x = (uv_w, uv_h)).
  { split; [| apply Hu]. unfold x, GpuYuvRenderer.resize_uv. destruct (_ || _); apply Hy. }
  destruct (_ || _); exact Hx.
Qed.

(** The three uploads hold exactly the octets of the three planes of a picture, in rows of a multiple of
    256 octets. *)
Record shows (yuv : DecodedYUV.t) (w h : Z) (py pu pv : Upload.t) : Prop := {
  s_y : forall x r, (x < count w)%nat -> (r < count h)%nat ->
    Upload.texel py x r = DecodedYUV.y yuv !! (r * count (DecodedYUV.strides yuv).1.1 + x)%nat;
  s_uv : forall x r, (x < count (div_ceil w 2))%nat -> (r < count (div_ceil h 2))%nat ->
    Upload.texel pu x r = DecodedYUV.u yuv !! (r * count (DecodedYUV.strides yuv).1.2 + x)%nat /\
    Upload.texel pv x r = DecodedYUV.v yuv !! (r * count (DecodedYUV.strides yuv).2 + x)%nat;
  s_rows : Forall (fun p => Upload.bytes_per_row p mod 256 = 0) [py; pu; pv] }.

(** Whatever rows the decoder leaves between its lines, the frame made of a picture is built without a
    panic, and its three textures show the picture; they have the size of the frame, and half of it,
    rounded up, for the colours. *)
Lemma picture_shown yuv w h now renderer : picture_ok yuv w h -> 0 < w -> 0 < h -> w + 256 < 2 ^ 32 -> h < 2 ^ 32 ->
  exists f renderer' py pu pv,
    yuv_to_videoframe yuv FrameFormat.Yuv420 now = Ok f /\
    GpuYuvRenderer.update_frame renderer f = (renderer', [py; pu; pv]) /\ shows yuv w h py pu pv /\
    GpuYuvRenderer.y_size renderer' = (w, h) /\ GpuYuvRenderer.uv_size renderer' = (div_ceil w 2, div_ceil h 2).
Proof.
  intros Hp Hw Hh Hmax Hmh. destruct (decoded_frame yuv w h now Hp Hw Hh) as (cy & cu & cv & Hf & Ey & Eu & Ev).
  rewrite (wrap32_small w), (wrap32_small h) in Hf by ulia.
  assert (H2 : 0 < div_ceil w 2 <= w /\ 0 < div_ceil h 2) by (unfold div_ceil; elia).
  destruct (aligned_stride_spec w ltac:(lia)) as [A1 M1]. destruct (aligned_stride_spec (div_ceil w 2) ltac:(lia)) as [A2 M2].
  destruct Hp as [_ Hy Hu Hv].
  destruct (copied_plane _ _ (aligned_stride w) w h _ ltac:(lia) ltac:(lia) Hh Hy Ey) as (Py & _ & Ly).
  destruct (copied_plane _ _ (aligned_stride (div_ceil w 2)) (div_ceil w 2) (div_ceil h 2) _ ltac:(lia) ltac:(lia) ltac:(lia) Hu Eu) as (Pu & _ & Lu).
  destruct (copied_plane _ _ (aligned_stride (div_ceil w 2)) (div_ceil w 2) (div_ceil h 2) _ ltac:(lia) ltac:(lia) ltac:(lia) Hv Ev) as (Pv & _ & Lv).
  eexists _, _, _, _, _. split; [exact Hf |]. split; [reflexivity |].
  cbn [VideoFrame.width VideoFrame.height].
  split; [split |].
  - intros; rewrite upload_exact by (assumption || lia); auto.
  - intros; rewrite !upload_exact by (assumption || lia); auto.
  - unfold upload_plane. change (div_ceil w 256 * 256) with (aligned_stride w).
    change (div_ceil (div_ceil w 2) 256 * 256) with (aligned_stride (div_ceil w 2)).
    rewrite !(wrap32_small (aligned_stride _)) by ulia.
    rewrite !Z.eqb_refl. repeat constructor; assumption.
  - split; [apply sizes_recorded | apply sizes_recorded].
Qed.

(** A picture of three by three pixels in rows of four octets *)
Definition demo_picture : DecodedYUV.t :=
  DecodedYUV.mk (3, 3) (4, 4, 4) [1; 2; 3; 0; 4; 5; 6; 0; 7; 8; 9; 0] [10; 11; 0; 0; 12; 13] [20; 21; 0; 0; 22; 23] 0 [].
Lemma demo_picture_ok : picture_ok demo_picture 3 3.
Proof. split; [reflexivity | split; vm_compute; discriminate ..]. Qed.

(** The texture into which frames are rendered keeps the size of the first frame: the size of the
    frame is recorded before it is compared. *)
Lemma output_size_kept s f sz : GpuYuvRenderer.output_texture s = Some sz ->
  GpuYuvRenderer.output_texture (GpuYuvRenderer.update_frame s f).1 = Some sz.
Proof.
  intros H. unfold GpuYuvRenderer.update_frame. destruct (VideoFrame.data f); [exact H |]. cbn [fst].
  assert (H1 : GpuYuvRenderer.output_texture (GpuYuvRenderer.resize_y s (VideoFrame.width f) (VideoFrame.height f)) = Some sz)
    by (unfold GpuYuvRenderer.resize_y; destruct (_ || _); exact H).
  set (s1 := GpuYuvRenderer.resize_y _ _ _) in *.
  assert (Hy : (GpuYuvRenderer.y_size s1).1 = VideoFrame.width f).
  { unfold s1, GpuYuvRenderer.resize_y. case_bool_decide as E; cbn [negb orb]; [| reflexivity].
    destruct (negb _); [reflexivity | rewrite E; reflexivity]. }
  set (s2 := GpuYuvRenderer.resize_uv _ _ _). assert (H2 : GpuYuvRenderer.output_texture s2 = Some sz /\ GpuYuvRenderer.y_size s2 = GpuYuvRenderer.y_size s1)
    by (unfold s2, GpuYuvRenderer.resize_uv; destruct (_ || _ || _); split; assumption || reflexivity).
  destruct H2 as [H2 H3]. unfold GpuYuvRenderer.resize_output. rewrite H2, H3, Hy, Z.eqb_refl. exact H2.
Qed.
