(* ===== verification/Audio.v ===== *)
(** * Audio capture and playback (src/media_agent: audio_frame.rs, audio_capture_error.rs,
    audio_capture_worker.rs, audio_player_worker.rs)

    The two threads at the ends of the audio path. What the sound device does with them is an argument:
    the capture is driven by the blocks of samples that it delivers, the player by the blocks it asks
    for. Samples are binary32. *)

From stdpp Require Import prelude strings.
From Stdlib Require Import ZArith Lia SpecFloat Sorted.
From S2P Require Import Prelude Utf8 Text.
Local Open Scope Z_scope.

(** 0.0 *)
Definition silence : spec_float := S754_zero false.

Module AudioFrame.
Record t : Type := mk { data : list spec_float; samples : Z; sample_rate : Z; channels : Z; timestamp_ms : Z }.
End AudioFrame.
Module AudioCaptureError.
Inductive t : Type := StreamConfig (e : bytes) | StreamBuild (e : bytes) | StreamPlay (e : bytes) | Runtime (e : bytes).
Definition to_string (e : t) : bytes :=
  match e with
  | StreamConfig e => lit "Stream Config Error: " ++ e
  | StreamBuild e => lit "Stream Build Error: " ++ e
  | StreamPlay e => lit "Stream Play Error: " ++ e
  | Runtime e => lit "Runtime Error: " ++ e
  end.
End AudioCaptureError.
Module AudioCaptureEvent.
Inductive t : Type := Frame (f : AudioFrame.t) | Error (e : AudioCaptureError.t).
End AudioCaptureEvent.
Module MediaAgentError.
Inductive t : Type := Camera (e : bytes) | Codec (e : bytes) | Send (e : bytes) | Io (e : bytes) | EncoderSpawn (e : bytes).
Definition to_string (e : t) : bytes :=
  match e with
  | Camera e => lit "Camera error: " ++ e
  | Codec e => lit "Codec error: " ++ e
  | Send e => lit "Send error: " ++ e
  | Io e => lit "Io error: " ++ e
  | EncoderSpawn e => lit "Encoder Spawn error: " ++ e
  end.
End MediaAgentError.

(** ** Capture *)
Module Capture.
(** [while buf.len() >= 160]: each turn takes 160 samples, so the length bounds the turns. [now] is
    read for each frame. *)
Fixpoint frames (fuel : nat) (buf : list spec_float) (now : nat -> Z) : list spec_float * list AudioFrame.t :=
  match fuel with
  | O => (buf, [])
  | S fuel =>
      if (160 <=? length buf)%nat then
        let '(rest, fs) := frames fuel (drop 160 buf) (fun k => now (S k)) in
        (rest, AudioFrame.mk (take 160 buf) 160 8000 1 (now 0%nat) :: fs)
      else (buf, [])
  end.
(** The callback of the input stream *)
Definition on_data (buf : list spec_float) (is_muted : bool) (data : list spec_float) (now : nat -> Z)
  : list spec_float * list AudioFrame.t :=
  let buf := buf ++ (if is_muted then replicate (length data) silence else data) in
  frames (length buf) buf now.

(** What the device does: it delivers a block, while the user is muted or not, or it fails. *)
Inductive input : Type := Data (is_muted : bool) (data : list spec_float) (now : nat -> Z) | StreamError (err : bytes).
Definition on_input (buf : list spec_float) (i : input) : list spec_float * list AudioCaptureEvent.t :=
  match i with
  | Data muted data now => let '(buf, fs) := on_data buf muted data now in (buf, AudioCaptureEvent.Frame <$> fs)
  | StreamError err => (buf, [AudioCaptureEvent.Error (AudioCaptureError.StreamPlay err)])
  end.
Fixpoint inputs (buf : list spec_float) (l : list input) : list spec_float * list AudioCaptureEvent.t :=
  match l with
  | [] => (buf, [])
  | i :: l => let '(buf, es) := on_input buf i in let '(buf, es') := inputs buf l in (buf, es ++ es')
  end.

(** [run_audio_capture]: whether there is a device, and what building and starting the stream
    answer *)
Definition run_audio_capture (device : bool) (built played : outcome bytes unit) (l : list input)
  : list AudioCaptureEvent.t * outcome MediaAgentError.t unit :=
  if device then
    match built with
    | Err e => ([], Err (MediaAgentError.Io (lit "Failed to build input stream: " ++ e)))
    | _ =>
        match played with
        | Err e => ([], Err (MediaAgentError.Io (lit "Failed to play stream: " ++ e)))
        | _ => ((inputs [] l).2, Ok ())
        end
    end
  else ([], Err (MediaAgentError.Io (lit "Failed to get default input device"))).
(** The thread: an error is reported as an event. *)
Definition worker (device : bool) (built played : outcome bytes unit) (l : list input) : list AudioCaptureEvent.t :=
  let '(es, r) := run_audio_capture device built played l in
  es ++ match r with
        | Err e => [AudioCaptureEvent.Error (AudioCaptureError.Runtime (MediaAgentError.to_string e))]
        | _ => []
        end.
End Capture.

(** ** Playback *)
Module AudioPlayer.
Inductive command : Type := PlayFrame (samples : list spec_float).
Definition MAX_BUFFER_SIZE : nat := 4000.

Definition on_command (buf : list spec_float) (c : command) : list spec_float :=
  match c with
  | PlayFrame samples =>
      let current_len := length buf in
      let incoming_len := length samples in
      let buf :=
        if (MAX_BUFFER_SIZE <? current_len + incoming_len)%nat
        then drop ((current_len + incoming_len - MAX_BUFFER_SIZE) `min` current_len)%nat buf else buf in
      buf ++ samples
  end.
(** The callback of the output stream fills [n] samples. *)
Fixpoint on_output (n : nat) (buf : list spec_float) : list spec_float * list spec_float :=
  match n with
  | O => (buf, [])
  | S n =>
      match buf with
      | s :: buf => let '(buf, out) := on_output n buf in (buf, s :: out)
      | [] => let '(buf, out) := on_output n [] in (buf, silence :: out)
      end
  end.

Inductive event : Type := Command (c : command) | Fill (n : nat).
Definition step (buf : list spec_float) (e : event) : list spec_float * list spec_float :=
  match e with
  | Command c => (on_command buf c, [])
  | Fill n => on_output n buf
  end.
Fixpoint run (buf : list spec_float) (l : list event) : list spec_float * list spec_float :=
  match l with
  | [] => (buf, [])
  | e :: l => let '(buf, out) := step buf e in let '(buf, out') := run buf l in (buf, out ++ out')
  end.
(** [spawn_audio_player_worker]: without a device, or when its stream cannot be built or started, the
    thread ends. *)
Definition worker (device : bool) (built played : outcome bytes unit) (l : list event) : list spec_float :=
  match device, built, played with
  | true, Ok _, Ok _ => (run [] l).2
  | _, _, _ => []
  end.
End AudioPlayer.

(** ** The captured samples *)

(** What the device delivered, with silence while muted *)
Definition heard (i : Capture.input) : list spec_float :=
  match i with
  | Capture.Data true data _ => replicate (length data) silence
  | Capture.Data false data _ => data
  | Capture.StreamError _ => []
  end.
Definition frames_of (es : list AudioCaptureEvent.t) : list AudioFrame.t :=
  omap (fun e => match e with AudioCaptureEvent.Frame f => Some f | _ => None end) es.
Definition frame_ok (f : AudioFrame.t) : Prop :=
  length (AudioFrame.data f) = 160%nat /\ AudioFrame.samples f = 160 /\ AudioFrame.sample_rate f = 8000 /\ AudioFrame.channels f = 1.

Lemma frames_run fuel : forall buf now rest fs, (length buf <= fuel)%nat -> Capture.frames fuel buf now = (rest, fs) ->
  mjoin (AudioFrame.data <$> fs) ++ rest = buf /\ Forall frame_ok fs /\ (length rest < 160)%nat.
Proof.
  induction fuel as [| fuel IH]; intros buf now rest fs Hl; cbn [Capture.frames].
  - intros [= <- <-]. split_and!; [reflexivity | constructor | lia].
  - destruct (Nat.leb_spec 160 (length buf)) as [Hb |]; [| intros [= <- <-]; split_and!; [reflexivity | constructor | lia]].
    destruct (Capture.frames fuel _ _) as [rest' fs'] eqn:E. intros [= <- <-].
    apply IH in E as (H1 & H2 & H3); [| rewrite length_drop; lia]. cbn [fmap list_fmap mjoin list_join AudioFrame.data].
    split_and!; [| constructor; [split_and!; [cbn; rewrite length_take; lia | reflexivity ..] | exact H2] | exact H3].
    transitivity (take 160 buf ++ (mjoin (AudioFrame.data <$> fs') ++ rest')); [symmetry; apply (assoc_L (++)) | rewrite H1; apply take_drop].
Qed.
Lemma frames_of_frames fs : frames_of (AudioCaptureEvent.Frame <$> fs) = fs.
Proof. induction fs as [| f fs IH]; [reflexivity |]. unfold frames_of in *. cbn. rewrite IH. reflexivity. Qed.
Lemma input_run buf i buf' es : (length buf < 160)%nat -> Capture.on_input buf i = (buf', es) ->
  mjoin (AudioFrame.data <$> frames_of es) ++ buf' = buf ++ heard i /\ Forall frame_ok (frames_of es) /\ (length buf' < 160)%nat.
Proof.
  intros Hl. destruct i as [muted data now | err]; cbn [Capture.on_input].
  - unfold Capture.on_data. destruct (Capture.frames _ _ _) as [rest fs] eqn:E. intros [= <- <-].
    apply frames_run in E; [| reflexivity]. rewrite frames_of_frames. destruct muted; exact E.
  - intros [= <- <-]. cbn [heard frames_of omap]. rewrite app_nil_r. split_and!; [reflexivity | constructor | exact Hl].
Qed.

(** Nothing that the microphone hears is lost or reordered, and nothing is heard while muted. However
    the device cuts its blocks, and whatever errors it reports between them, the frames that the
    capture thread emits are of 160 samples each, and one after the other they are the samples of
    the blocks, with silence for those of muted blocks, up to fewer than 160 samples that wait for
    the next block. *)
Theorem capture_keeps_stream l buf es : Capture.inputs [] l = (buf, es) ->
  mjoin (AudioFrame.data <$> frames_of es) ++ buf = mjoin (heard <$> l) /\ Forall frame_ok (frames_of es) /\ (length buf < 160)%nat.
Proof.
  enough (H : forall buf0, (length buf0 < 160)%nat -> Capture.inputs buf0 l = (buf, es) ->
    mjoin (AudioFrame.data <$> frames_of es) ++ buf = buf0 ++ mjoin (heard <$> l) /\ Forall frame_ok (frames_of es) /\ (length buf < 160)%nat).
  { intros E. apply (H []); [cbn; lia | exact E]. }
  revert es. induction l as [| i l IH]; intros es buf0 H0; cbn [Capture.inputs].
  - intros [= <- <-]. cbn. rewrite app_nil_r. split_and!; [reflexivity | constructor | exact H0].
  - destruct (Capture.on_input buf0 i) as [b1 e1] eqn:E1. destruct (Capture.inputs b1 l) as [b2 e2] eqn:E2. intros [= <- <-].
    apply input_run in E1 as (A1 & A2 & A3); [| exact H0]. apply IH in E2 as (B1 & B2 & B3); [| exact A3].
    unfold frames_of. rewrite omap_app. fold (frames_of e1). fold (frames_of e2). rewrite fmap_app, join_app.
    split_and!; [| apply Forall_app; auto | exact B3].
    rewrite <- (assoc_L (++)), B1, (assoc_L (++)), A1, <- (assoc_L (++)). reflexivity.
Qed.
Definition demo_block (n : nat) (v : spec_float) : Capture.input := Capture.Data false (replicate n v) (fun _ => 5).
Lemma capture_keeps_stream_witness :
  let l := [demo_block 100 S754_nan; Capture.StreamError []; Capture.Data true (replicate 100 S754_nan) (fun _ => 6)] in
  exists buf es, Capture.inputs [] l = (buf, es) /\
    mjoin (AudioFrame.data <$> frames_of es) ++ buf = replicate 100 S754_nan ++ replicate 100 silence /\
    Forall frame_ok (frames_of es) /\ (length buf < 160)%nat.
Proof.
  cbv zeta. eexists _, _. split; [apply surjective_pairing |].
  apply (capture_keeps_stream [demo_block 100 S754_nan; Capture.StreamError []; Capture.Data true (replicate 100 S754_nan) (fun _ => 6)]).
  apply surjective_pairing.
Defined.

(** ** The samples played *)
Definition pushed (e : AudioPlayer.event) : list spec_float :=
  match e with AudioPlayer.Command (AudioPlayer.PlayFrame samples) => samples | AudioPlayer.Fill _ => [] end.
Definition asked (e : AudioPlayer.event) : nat := match e with AudioPlayer.Fill n => n | _ => 0%nat end.
(** No frame finds too little room. *)
Fixpoint fits (buf : list spec_float) (l : list AudioPlayer.event) : bool :=
  match l with
  | [] => true
  | e :: l => (length buf + length (pushed e) <=? AudioPlayer.MAX_BUFFER_SIZE)%nat && fits (AudioPlayer.step buf e).1 l
  end.

(** ** What the player promises *)

(** A cursor over the stream of all samples received: those before [pos] were played or skipped *)
Record cursor : Type := Cursor { stream : list spec_float; pos : nat }.
(** A frame is appended to the stream, and the cursor skips the oldest waiting samples so that 4000
    wait, as far as those before the frame go. A request plays the waiting samples from the cursor
    on, and silence only for what is left of it then. *)
Definition follow_step (c : cursor) (e : AudioPlayer.event) : cursor * list (option nat) :=
  match e with
  | AudioPlayer.Command (AudioPlayer.PlayFrame samples) =>
      let all := stream c ++ samples in
      (Cursor all (pos c `max` ((length all - AudioPlayer.MAX_BUFFER_SIZE) `min` length (stream c)))%nat, [])
  | AudioPlayer.Fill n =>
      let k := (n `min` (length (stream c) - pos c))%nat in
      (Cursor (stream c) (pos c + k), (Some <$> seq (pos c) k) ++ replicate (n - k) None)
  end.
Fixpoint follow (c : cursor) (l : list AudioPlayer.event) : cursor * list (option nat) :=
  match l with
  | [] => (c, [])
  | e :: l => let '(c, slots) := follow_step c e in let '(c, slots') := follow c l in (c, slots ++ slots')
  end.
(** The sample that sounds at a slot of the output *)
Definition sound (stream : list spec_float) (slot : option nat) : spec_float :=
  default silence (slot ≫= fun i => stream !! i).
Definition waiting (c : cursor) : list spec_float := drop (pos c) (stream c).

Lemma output_filled n : forall buf,
  AudioPlayer.on_output n buf = (drop n buf, take n buf ++ replicate (n - length buf) silence).
Proof.
  induction n as [| n IH]; intros buf; [reflexivity |]. cbn [AudioPlayer.on_output]. destruct buf as [| s buf]; rewrite IH.
  - rewrite drop_nil, !take_nil, Nat.sub_0_r. reflexivity.
  - reflexivity.
Qed.
Lemma sounds_seq l i k : (i + k <= length l)%nat -> sound l <$> (Some <$> seq i k) = take k (drop i l).
Proof.
  revert i. induction k as [| k IH]; intros i Hk; [reflexivity |]. cbn [seq fmap list_fmap].
  destruct (lookup_lt_is_Some_2 l i) as [x Hx]; [lia |].
  rewrite (drop_S l x i Hx). cbn [take]. f_equal; [| apply IH; lia]. unfold sound. cbn. rewrite Hx. reflexivity.
Qed.
(** The slots of a prefix of the stream sound the same in all of it. *)
Lemma sound_app l l' slots : Forall (fun i => (i < length l)%nat) (omap id slots) -> sound (l ++ l') <$> slots = sound l <$> slots.
Proof.
  induction slots as [| [i |] slots IH]; [reflexivity | |]; cbn.
  - intros [Hi Hs]%Forall_cons. unfold id in Hi. rewrite IH by exact Hs. f_equal. unfold sound. cbn. rewrite lookup_app_l by exact Hi. reflexivity.
  - intros Hs. rewrite IH by exact Hs. reflexivity.
Qed.
Lemma omap_slots i k n : omap id ((Some <$> seq i k) ++ replicate n None) = seq i k.
Proof.
  rewrite omap_app. replace (omap id (replicate n None)) with (@nil nat) by (induction n; auto). rewrite app_nil_r.
  revert i. induction k as [| k IH]; intros i; [reflexivity |]. cbn. f_equal. apply IH.
Qed.

(** One event: the buffer is what waits at the cursor, and the output sounds as its slots. *)
Lemma player_step c e c' slots : (pos c <= length (stream c))%nat -> follow_step c e = (c', slots) ->
  AudioPlayer.step (waiting c) e = (waiting c', sound (stream c') <$> slots) /\
  stream c' = stream c ++ pushed e /\ (pos c <= pos c' <= length (stream c'))%nat /\
  (exists k, omap id slots = seq (pos c) k /\ (pos c + k <= pos c')%nat) /\ length slots = asked e /\
  (forall B, (AudioPlayer.MAX_BUFFER_SIZE <= B)%nat -> (length (pushed e) <= B)%nat -> (length (waiting c) <= B)%nat ->
     (length (waiting c') <= B)%nat) /\
  ((length (waiting c) + length (pushed e) <= AudioPlayer.MAX_BUFFER_SIZE)%nat -> omap id slots = seq (pos c) (pos c' - pos c)).
Proof.
  intros Hp. destruct c as [st p], e as [[samples] | n]; unfold waiting in *; cbn [stream pos] in *; intros [= <- <-];
    cbn [AudioPlayer.step pushed asked stream pos length fmap list_fmap omap list_omap].
  - rewrite length_app. split_and!; try lia; auto.
    + unfold AudioPlayer.on_command. rewrite length_drop. f_equal.
      destruct (Nat.ltb_spec AudioPlayer.MAX_BUFFER_SIZE (length st - p + length samples)).
      * rewrite drop_drop, <- drop_app_le by lia. f_equal. lia.
      * rewrite <- drop_app_le by lia. f_equal. lia.
    + exists 0%nat. split; [reflexivity | lia].
    + intros B. rewrite !length_drop, length_app. lia.
    + rewrite length_drop. intros Hr. replace (_ - p)%nat with 0%nat by lia. reflexivity.
  - rewrite output_filled, fmap_app, sounds_seq, fmap_replicate, app_nil_r, length_app, length_fmap, length_seq, length_replicate, omap_slots by lia.
    rewrite drop_drop, length_drop. split_and!; try lia; auto.
    + f_equal; [| f_equal; [| f_equal; lia]].
      * destruct (Nat.min_spec n (length st - p)) as [[_ ->] | [? ->]]; [reflexivity |]. rewrite !drop_ge by lia. reflexivity.
      * destruct (Nat.min_spec n (length st - p)) as [[_ ->] | [? ->]]; [reflexivity |]. rewrite !take_ge by (rewrite length_drop; lia). reflexivity.
    + eexists. split; [reflexivity | lia].
    + intros B. rewrite !length_drop. lia.
    + intros _. f_equal. lia.
Qed.

Lemma seq_sorted i k : StronglySorted lt (seq i k).
Proof. revert i. induction k as [| k IH]; intros i; cbn; constructor; [apply IH | apply Forall_seq; lia]. Qed.
Lemma sorted_app n l l' : StronglySorted lt l -> StronglySorted lt l' ->
  Forall (fun i => i < n)%nat l -> Forall (fun i => n <= i)%nat l' -> StronglySorted lt (l ++ l').
Proof.
  intros H1 H' Hl Hl'. induction H1 as [| i l H1 IH Hi]; [exact H' |]. apply Forall_cons in Hl as [Hn Hl]. cbn.
  constructor; [exact (IH Hl) |]. apply Forall_app. split; [exact Hi |]. eapply Forall_impl; [exact Hl' |]. intros j Hj. cbn in *. lia.
Qed.

(** Any sequence of frames and requests, from any position *)
Lemma player_run l : forall c c' slots, (pos c <= length (stream c))%nat -> follow c l = (c', slots) ->
  AudioPlayer.run (waiting c) l = (waiting c', sound (stream c') <$> slots) /\
  stream c' = stream c ++ mjoin (pushed <$> l) /\ (pos c <= pos c' <= length (stream c'))%nat /\
  Forall (fun i => pos c <= i < pos c')%nat (omap id slots) /\ StronglySorted lt (omap id slots) /\
  length slots = sum_list (asked <$> l) /\
  (forall B, (AudioPlayer.MAX_BUFFER_SIZE <= B)%nat -> Forall (fun e => (length (pushed e) <= B)%nat) l ->
     (length (waiting c) <= B)%nat -> (length (waiting c') <= B)%nat) /\
  (fits (waiting c) l = true -> omap id slots = seq (pos c) (pos c' - pos c)).
Proof.
  induction l as [| e l IH]; intros c c' slots Hc; cbn [follow].
  { intros [= <- <-]. cbn. rewrite app_nil_r. split_and!; auto; try constructor. intros _. rewrite Nat.sub_diag. reflexivity. }
  destruct (follow_step c e) as [c1 s1] eqn:E1. destruct (follow c1 l) as [c2 s2] eqn:E2. intros [= <- <-].
  apply player_step in E1 as (A1 & A2 & A3 & (k & A4 & Ak) & A5 & A6 & A7); [| exact Hc].
  apply IH in E2 as (B1 & B2 & B3 & B4 & B5 & B6 & B7 & B8); [| lia].
  assert (Hk : Forall (fun i => pos c <= i < pos c1)%nat (omap id s1)).
  { rewrite A4. apply Forall_seq. lia. }
  cbn [AudioPlayer.run fits fmap list_fmap sum_list]. rewrite A1, B1, omap_app, length_app, A5, B6. cbn [fst].
  split_and!; auto; try lia.
  - f_equal. rewrite fmap_app, B2. f_equal. symmetry. apply sound_app. eapply Forall_impl; [exact Hk |]. intros i Hi. cbn in *. lia.
  - rewrite B2, A2. symmetry. apply (assoc_L (++)).
  - apply Forall_app. split; eapply Forall_impl; [exact Hk | | exact B4 |]; intros i Hi; cbn in *; lia.
  - apply (sorted_app (pos c1)); [rewrite A4; apply seq_sorted | exact B5 | |]; eapply Forall_impl; [exact Hk | | exact B4 |]; intros i Hi; cbn in *; lia.
  - intros B HB [He Hl]%Forall_cons Hw. apply B7; auto.
  - intros [Hf1 Hf2]%andb_true_iff. apply Nat.leb_le in Hf1. rewrite A7, B8 by assumption.
    replace (pos c2 - pos c)%nat with ((pos c1 - pos c) + (pos c2 - pos c1))%nat by lia.
    rewrite seq_app. do 2 f_equal. lia.
Qed.

(** C30 The player implements its cursor. Whatever the order of frames and of requests for output, each
    request is answered in full by the samples waiting at that moment, oldest first, and by silence
    only beyond them; what waits afterwards is exactly what was not played or skipped. Samples are
    skipped, the oldest first, only when a frame finds more than 4000: the samples played are those of
    the received stream at strictly increasing positions, and all of them up to the cursor as long as
    every frame fits. When no frame is longer than a bound of at least 4000 samples, never more than
    that bound wait: 4000 for the frames of 160 samples that the peer's program sends. *)
Theorem player_in_order l c slots : follow (Cursor [] 0) l = (c, slots) ->
  AudioPlayer.run [] l = (waiting c, sound (stream c) <$> slots) /\
  stream c = mjoin (pushed <$> l) /\ length slots = sum_list (asked <$> l) /\ (pos c <= length (stream c))%nat /\
  StronglySorted lt (omap id slots) /\ Forall (fun i => i < pos c)%nat (omap id slots) /\
  (forall B, (AudioPlayer.MAX_BUFFER_SIZE <= B)%nat -> Forall (fun e => (length (pushed e) <= B)%nat) l ->
     (length (waiting c) <= B)%nat) /\
  (fits [] l = true -> omap id slots = seq 0 (pos c)).
Proof.
  intros H. apply player_run in H as (H1 & H2 & H3 & H4 & H5 & H6 & H7 & H8); [| cbn; lia].
  cbn [stream pos waiting] in *. rewrite Nat.sub_0_r in H8. split_and!; auto; try lia.
  - eapply Forall_impl; [exact H4 |]. intros i Hi. cbn in *. lia.
  - intros B HB Hl. apply H7; [exact HB | exact Hl | cbn; lia].
Qed.
Lemma player_in_order_witness :
  let l := [AudioPlayer.Command (AudioPlayer.PlayFrame [S754_nan; S754_infinity true]); AudioPlayer.Fill 3;
            AudioPlayer.Command (AudioPlayer.PlayFrame [S754_infinity false; S754_nan]); AudioPlayer.Fill 1] in
  exists c slots, follow (Cursor [] 0) l = (c, slots) /\ slots = [Some 0%nat; Some 1%nat; None; Some 2%nat] /\
    AudioPlayer.run [] l = ([S754_nan], [S754_nan; S754_infinity true; silence; S754_infinity false]).
Proof.
  cbv zeta. set (l := [_; _; _; _]). destruct (follow (Cursor [] 0) l) as [c slots] eqn:E. exists c, slots.
  destruct (player_in_order l c slots E) as (H & _). vm_compute in E. injection E as <- <-.
  split_and!; [reflexivity .. |]. rewrite H. reflexivity.
Defined.
