(* ===== verification/MediaAgent.v ===== *)
(** * Media agent (src/media_agent: media_agent_c.rs, h264_encoder.rs, h264_decoder.rs,
    encoder_worker.rs, decoder_worker.rs, encoder_instruction.rs, decoder_event.rs, constants.rs)

    The listener between the camera, the sound devices, the codecs and the media transport, and the two
    codec threads. Each function is one turn of one thread; the messages that it puts on channels are
    its result, and a message to a thread that has ended is lost. OpenH264 is a class of what the
    program calls of it. *)

From stdpp Require Import prelude strings.
From Stdlib Require Import ZArith Lia SpecFloat.
From S2P Require Import Prelude Utf8 Text Config AppSession ConnManager G711 MediaTransport Video Audio.
Local Open Scope Z_scope.

(** ** Constants *)
Definition TARGET_FPS : Z := 30.
Definition BITRATE : Z := 1500000.
Definition KEYINT : Z := 90.
Definition DEFAULT_CAMERA_ID : Z := 0.

Definition setting (config : Config.t) (key : bytes) (dflt : Z) : Z :=
  MediaTransport.u32_option (Config.get config (lit "Media") key) dflt.
(** [parse] of an [i32] *)
Definition parse_i32 (s : bytes) : option Z :=
  match s with
  | 45 :: c :: r =>
      match digits_acc 10 2147483648 0 (c :: r) with Ok v => Some (- v) | _ => None end
  | _ => match from_str_radix 10 2147483647 s with Ok v => Some v | _ => None end
  end.

(** ** OpenH264 *)

(** An encoder of a frame rate, bit rate and key frame interval, if it can be made; the conversion of
    pixels, which panics when their number is not that of the dimensions; encoding and decoding, each
    with the next state. *)
Class OpenH264 (Enc Dec Yuv : Type) : Type := {
  with_api_config : Z -> Z -> Z -> option Enc;
  from_rgb_source : bytes -> Z -> Z -> outcome Empty_set Yuv;
  encode_yuv : Enc -> Yuv -> Enc * outcome bytes bytes;
  force_intra_frame : Enc -> Enc;
  decoder_new : option Dec;
  decode_annexb : Dec -> bytes -> Dec * outcome bytes (option DecodedYUV.t) }.

Module EncoderInstruction.
Inductive t : Type := Encode (frame : VideoFrame.t) (force_keyframe : bool) | SetConfig (fps bitrate keyint : Z).
End EncoderInstruction.
Module DecoderEvent.
Inductive t : Type := AnnexBFrameReady (codec_spec : CodecSpec.t) (data : bytes).
End DecoderEvent.

Section codecs.
Context {Enc Dec Yuv : Type} `{OpenH264 Enc Dec Yuv}.

(** ** Encoder *)
Record H264Encoder : Type := Encoder { enc : option Enc; target_fps : Z; target_bps : Z; keyint : Z }.
Definition init_encoder (s : H264Encoder) : H264Encoder :=
  Encoder (with_api_config (target_fps s) (target_bps s) (keyint s)) (target_fps s) (target_bps s) (keyint s).
Definition encoder_new (frame_rate bit_rate key : Z) : H264Encoder := init_encoder (Encoder None frame_rate bit_rate key).
Definition encode_frame_to_h264 (s : H264Encoder) (frame : VideoFrame.t) : H264Encoder * outcome MediaAgentError.t bytes :=
  match enc s with
  | None => (s, Err (MediaAgentError.Codec (lit "openh264 encoder unavailable")))
  | Some e =>
      match VideoFrame.data frame with
      | VideoFrameData.Rgb buf =>
          match from_rgb_source buf (VideoFrame.width frame) (VideoFrame.height frame) with
          | Ok yuv =>
              let '(e, r) := encode_yuv e yuv in
              (Encoder (Some e) (target_fps s) (target_bps s) (keyint s), map_err MediaAgentError.Codec r)
          | _ => (s, Panic)
          end
      | VideoFrameData.Yuv420 _ _ _ _ _ _ => (s, Panic)
      end
  end.
Definition request_keyframe (s : H264Encoder) : H264Encoder :=
  Encoder (force_intra_frame <$> enc s) (target_fps s) (target_bps s) (keyint s).
Definition should_skip_update (s : H264Encoder) (fps bitrate key : Z) : bool :=
  (fps =? target_fps s) && (bitrate =? target_bps s) && (key =? keyint s).
Definition set_config (s : H264Encoder) (fps bitrate key : Z) : H264Encoder * outcome MediaAgentError.t bool :=
  if should_skip_update s fps bitrate key then (s, Ok false)
  else
    let s := init_encoder (Encoder (enc s) fps bitrate key) in
    (s, match enc s with
        | None => Err (MediaAgentError.Codec (lit "Failed to re-initialize H264 encoder with new config"))
        | Some _ => Ok true
        end).

(** The encoder thread: how it starts, and what it does with an instruction. A panic ends it. *)
Definition encoder_start (config : Config.t) : H264Encoder :=
  encoder_new (setting config (lit "fps") TARGET_FPS) (setting config (lit "bitrate") BITRATE) (setting config (lit "keyint") KEYINT).
Definition encoder_turn (s : H264Encoder) (order : EncoderInstruction.t) : outcome Empty_set (H264Encoder * list MediaAgentEvent.t) :=
  match order with
  | EncoderInstruction.Encode frame force_keyframe =>
      let s := if force_keyframe then request_keyframe s else s in
      let '(s, r) := encode_frame_to_h264 s frame in
      match r with
      | Ok annexb_frame => Ok (s, [MediaAgentEvent.EncodedVideoFrame annexb_frame (VideoFrame.timestamp_ms frame) CodecSpec.H264])
      | Err _ => Ok (s, [])
      | Panic => Panic
      end
  | EncoderInstruction.SetConfig fps bitrate key => Ok ((set_config s fps bitrate key).1, [])
  end.

(** ** Decoder *)
Definition H264Decoder : Type := option Dec.
Definition decode_frame (s : H264Decoder) (data : bytes) (format : FrameFormat.t) (now : Z)
  : H264Decoder * outcome MediaAgentError.t (option VideoFrame.t) :=
  match s with
  | None => (None, Err (MediaAgentError.Codec (lit "openh264 decoder unavailable")))
  | Some d =>
      let '(d, r) := decode_annexb d data in
      match r with
      | Ok (Some yuv) =>
          (Some d, match yuv_to_videoframe yuv format now with Ok frame => Ok (Some frame) | _ => Panic end)
      | Ok None => (Some d, Ok None)
      | Err e => (decoder_new, Err (MediaAgentError.Codec (lit "openh264 decode error: " ++ e)))
      | Panic => (Some d, Panic)
      end
  end.
Definition FRAME_FORMAT : FrameFormat.t := FrameFormat.Yuv420.
Definition decoder_turn (s : H264Decoder) (event : DecoderEvent.t) (now : Z) : outcome Empty_set (H264Decoder * list MediaAgentEvent.t) :=
  match event with
  | DecoderEvent.AnnexBFrameReady CodecSpec.H264 data =>
      let '(s, r) := decode_frame s data FRAME_FORMAT now in
      match r with
      | Ok (Some frame) => Ok (s, [MediaAgentEvent.DecodedVideoFrame frame])
      | Ok None | Err _ => Ok (s, [])
      | Panic => Panic
      end
  | DecoderEvent.AnnexBFrameReady _ _ => Ok (s, [])
  end.
End codecs.
Arguments H264Encoder : clear implicits.

(** ** The agent *)
Module MediaAgent.
(** The threads and channels by whether they are there *)
Record t : Type := mk {
  local_frame : option VideoFrame.t;
  remote_frame : option VideoFrame.t;
  decoder_handle : bool; encoder_handle : bool; listener_handle : bool;
  camera_handle : bool; audio_handle : bool; audio_player_handle : bool;
  sent_any_frame : bool;
  media_agent_event_tx : bool; ma_encoder_event_tx : bool; audio_player_tx : bool;
  running : bool;
  is_audio_muted : bool;
  config : Config.t }.
Definition new (cfg : Config.t) : t :=
  mk None None false false false false false false false false false false false false cfg.

Inductive output : Type :=
| ToEncoder (i : EncoderInstruction.t)
| ToDecoder (e : DecoderEvent.t)
| ToPlayer (c : AudioPlayer.command)
| ToTransport (e : MediaTransportEvent.t).

(** [start]: the camera that answers first, the status of its worker, and whether the threads could be
    made; the encoder's failure is the only one that is an error. *)
Record spawned : Type := Spawned {
  discovered : option Z; status : option bytes; camera : bool; audio : bool; encoder : outcome bytes unit; listener : bool }.
Definition camera_id (s : t) (e : spawned) : Z :=
  default (default DEFAULT_CAMERA_ID (Config.get (config s) (lit "Media") (lit "default_camera") ≫= parse_i32)) (discovered e).
Definition start (s : t) (e : spawned) : t * list bytes * outcome MediaAgentError.t unit :=
  let told := match status e with Some msg => [lit "[MediaAgent] " ++ msg] | None => [] end in
  match encoder e with
  | Err err =>
      (mk (local_frame s) (remote_frame s) true (encoder_handle s) (listener_handle s) (camera e) (audio e) true (sent_any_frame s)
         true true true true (is_audio_muted s) (config s), told, Err (MediaAgentError.EncoderSpawn err))
  | _ =>
      (mk (local_frame s) (remote_frame s) true true (listener e) (camera e) (audio e) true (sent_any_frame s)
         true true true true (is_audio_muted s) (config s), told, Ok ())
  end.
(** [stop] joins every thread that is there. *)
Definition stop (s : t) : t :=
  mk None None false false false false false false false false false (audio_player_tx s) false (is_audio_muted s) (config s).
Definition set_audio_mute (s : t) (mute : bool) : t :=
  mk (local_frame s) (remote_frame s) (decoder_handle s) (encoder_handle s) (listener_handle s) (camera_handle s) (audio_handle s)
    (audio_player_handle s) (sent_any_frame s) (media_agent_event_tx s) (ma_encoder_event_tx s) (audio_player_tx s) (running s)
    mute (config s).
Definition post_event (s : t) (event : MediaAgentEvent.t) : list MediaAgentEvent.t := if media_agent_event_tx s then [event] else [].
Definition snapshot_frames (s : t) : option VideoFrame.t * option VideoFrame.t := (local_frame s, remote_frame s).
Definition set_frames (s : t) (l r : option VideoFrame.t) (sent : bool) : t :=
  mk l r (decoder_handle s) (encoder_handle s) (listener_handle s) (camera_handle s) (audio_handle s)
    (audio_player_handle s) sent (media_agent_event_tx s) (ma_encoder_event_tx s) (audio_player_tx s) (running s)
    (is_audio_muted s) (config s).

(** *** The listener *)
Definition handle_local_frame (s : t) (frame : VideoFrame.t) : t * list output :=
  (set_frames s (Some frame) (remote_frame s) true, [ToEncoder (EncoderInstruction.Encode frame (negb (sent_any_frame s)))]).
Fixpoint drain_camera_frames (s : t) (frames : list VideoFrame.t) : t * list output :=
  match frames with
  | [] => (s, [])
  | f :: frames =>
      let '(s, os) := handle_local_frame s f in
      let '(s, os') := drain_camera_frames s frames in
      (s, os ++ os')
  end.
Definition drain_audio_frames (events : list AudioCaptureEvent.t) : list output :=
  mjoin ((fun e => match e with
                   | AudioCaptureEvent.Frame f =>
                       [ToTransport (MediaTransportEvent.SendEncodedAudioFrame (G711.encode (AudioFrame.data f)) (AudioFrame.timestamp_ms f) CodecSpec.G711U)]
                   | AudioCaptureEvent.Error _ => []
                   end) <$> events).
Definition handle_media_agent_event (s : t) (event : MediaAgentEvent.t) : t * list output :=
  match event with
  | MediaAgentEvent.DecodedVideoFrame frame => (set_frames s (local_frame s) (Some frame) (sent_any_frame s), [])
  | MediaAgentEvent.EncodedVideoFrame annexb_frame timestamp_ms codec_spec =>
      (s, [ToTransport (MediaTransportEvent.SendEncodedFrame annexb_frame timestamp_ms codec_spec)])
  | MediaAgentEvent.AnnexBFrameReady codec_spec data => (s, [ToDecoder (DecoderEvent.AnnexBFrameReady codec_spec data)])
  | MediaAgentEvent.UpdateBitrate b =>
      (s, [ToEncoder (EncoderInstruction.SetConfig (setting (config s) (lit "fps") TARGET_FPS) b
                        (setting (config s) (lit "keyframe_interval") KEYINT))])
  | MediaAgentEvent.EncodedAudioFrame payload codec_spec => (s, [ToPlayer (AudioPlayer.PlayFrame (G711.decode payload))])
  end.
(** One turn: the frames and the audio that wait, then one event, if there is one in time *)
Record arrivals : Type := Arrivals {
  frames : list VideoFrame.t; audio_events : list AudioCaptureEvent.t; event : option MediaAgentEvent.t }.
Definition turn (s : t) (a : arrivals) : t * list output :=
  let '(s, os1) := drain_camera_frames s (frames a) in
  let os2 := drain_audio_frames (audio_events a) in
  let '(s, os3) := match event a with Some ev => handle_media_agent_event s ev | None => (s, []) end in
  (s, os1 ++ os2 ++ os3).
(** [listener_loop] over the turns made while the agent runs *)
Fixpoint listener_loop (s : t) (l : list arrivals) : t * list output :=
  match l with
  | [] => (s, [])
  | a :: l => let '(s, os) := turn s a in let '(s, os') := listener_loop s l in (s, os ++ os')
  end.
End MediaAgent.
