(* ===== verification/AgentTheory.v ===== *)
(** * The media agent: voice and pictures

    The voice path from one microphone to the other speaker, through the agents, the transport and the
    sessions, and the pipeline of the camera and the encoder. *)

From stdpp Require Import prelude gmap strings.
From Stdlib Require Import ZArith Lia SpecFloat.
From S2P Require Import Prelude Utf8 Text Rtp Srtp RecvStream RtpSession H264 AppSession Config ConnManager G711 MediaTransport Engine MediaTheory Video Audio MediaAgent.
Local Open Scope Z_scope.

(** ** Voice *)

(** The 16-bit sample that the codec takes for a binary32 one *)
Definition pcm (x : spec_float) : Z := Z.max (-32768) (Z.min 32767 (f32_as_i32 (SFmul 24 128 x (f32_of_Z 32767)))).
(** [y] is the sample [x] after the codec: of the same sign, and within a 32nd of its magnitude plus
    the bias. *)
Definition close (x y : spec_float) : Prop :=
  let m := Z.min CLIP (Z.abs (pcm x)) in
  exists v, y = SFdiv 24 128 (f32_of_Z v) (f32_of_Z 32767) /\ 32 * Z.abs (Z.abs v - m) <= m + BIAS /\
    (if pcm x <? 0 then v <= 0 else 0 <= v).

Lemma pcm_range x : i16 (pcm x).
Proof. unfold pcm, i16. lia. Qed.
Lemma coded_close x : close x (decode_sample (encode_sample x)).
Proof.
  destruct (ulaw_error (pcm x) (pcm_range x)) as (_ & H2 & H3). exists (ulaw_to_linear (linear_to_ulaw (pcm x))).
  split; [reflexivity |]. split; [exact H2 | exact H3].
Qed.
Lemma coded_octets l : bytes_ok (encode l).
Proof. apply Forall_fmap, Forall_true. intros x. apply (ulaw_error (pcm x) (pcm_range x)). Qed.
Lemma decoded_close l : Forall2 close l (decode (encode l)).
Proof. induction l as [| x l IH]; constructor; [apply coded_close | exact IH]. Qed.

(** The transports of two peers carry a codec under the payload type [pt]: the sender has a track and a
    session, the receiver knows the payload type and allows it, and the packet of index [i] of the
    track's source is next. *)
Record carries (codec : CodecSpec.t) (ma mb : MediaTransport.t) (sa : Session.t) (a b : RtpSession.t)
    (handle : OutboundTrackHandle.t) (desc : CodecDescriptor.t) (allowed : gset Z) (pt i : Z) : Prop := {
  c_codec : MediaTransport.find_codec (MediaTransport.payload_map ma) codec = Some pt;
  c_track : MediaTransport.outbound_tracks ma !! pt = Some handle;
  c_session : Session.rtp_session sa = Some a;
  c_linked : linked a b (OutboundTrackHandle.local_ssrc handle) pt i;
  c_ssrc : u32 (OutboundTrackHandle.local_ssrc handle);
  c_allowed : pt ∈ allowed;
  c_known : MediaTransport.payload_map mb !! pt = Some desc;
  c_spec : CodecDescriptor.spec desc = codec;
  c_pt : 0 <= pt < 128 /\ (pt < 72 \/ 78 < pt) }.

Lemma reassemble_voice allowed pm pt desc p d : pt ∈ allowed -> pm !! pt = Some desc -> CodecDescriptor.spec desc = CodecSpec.G711U ->
  RtpIn.pt p = pt -> reassemble allowed pm d [p] = (d, [MediaAgentEvent.EncodedAudioFrame (RtpIn.payload p) CodecSpec.G711U]).
Proof.
  intros Hin Hpm Hspec Hp. cbn [reassemble]. unfold depacketizer_turn. rewrite Hp, bool_decide_true by exact Hin. cbn [negb].
  rewrite Hpm, Hspec. reflexivity.
Qed.

(** C4 A voice frame reaches the speaker of the peer, when its time stamp is of another millisecond than
    that of the frame before it (a frame of the same millisecond is dropped: [block_loses_audio]). The
    frame that the capture thread emits is coded by the agent and handed to the media transport, which
    orders and packetizes it; the packet goes through the track of the codec and the session onto the
    socket; when the network delivers it, the peer's session decrypts it, its engine and its
    depacketizer relay it, and its agent gives the player the same number of samples, each as close to
    the captured one as the codec allows. Both ends are then ready for any frame of another
    millisecond than this one. *)
Theorem voice_delivered (keystream : bytes -> bytes -> nat -> bytes) (hmac_sha1 : bytes -> bytes -> bytes)
    (debug_str : bytes -> bytes) (display : RtpSessionError -> bytes) (ma mb : MediaTransport.t)
    (la lb : MediaTransport.loop) (sa : Session.t) (a b : RtpSession.t) (handle : OutboundTrackHandle.t)
    (desc : CodecDescriptor.t) (allowed : gset Z) (pt i : Z) (f : AudioFrame.t) (agent : MediaAgent.t) (d : H264Depacketizer.t)
    (room : bool) (rnd : MediaTransport.draws) (ea e' : readings) (eb : nat -> readings) :
  (forall k iv n, length (keystream k iv n) = n) -> (forall k m, length (hmac_sha1 k m) = 20%nat) ->
  carries CodecSpec.G711U ma mb sa a b handle desc allowed pt i ->
  u32 (MediaTransport.audio_rtp_ts la) -> 0 <= i < 2 ^ 48 ->
  MediaTransport.last_received_audio_ts_ms la <> Some (AudioFrame.timestamp_ms f) ->
  exists m la' order frame sa' a' dgs b' evs ev samples,
    MediaAgent.drain_audio_frames [AudioCaptureEvent.Frame f] = [MediaAgent.ToTransport m] /\
    MediaTransport.on_event debug_str la ma (Some sa) m true room rnd ea = (la', ma, Some sa, [MediaTransport.Order order]) /\
    packetizer_turn order = [frame] /\
    MediaTransport.on_frame debug_str keystream hmac_sha1 display ma (Some sa) frame (fun _ => true) ea = (Some sa', dgs, []) /\
    deliver keystream hmac_sha1 b dgs eb 0 = Some (b', evs) /\
    reassemble allowed (MediaTransport.payload_map mb) d (mjoin (ingress debug_str rnd e' lb mb <$> evs)) = (d, [ev]) /\
    MediaAgent.handle_media_agent_event agent ev = (agent, [MediaAgent.ToPlayer (AudioPlayer.PlayFrame samples)]) /\
    Forall2 close (AudioFrame.data f) samples /\
    carries CodecSpec.G711U ma mb sa' a' b' handle desc allowed pt (i + 1) /\
    MediaTransport.last_received_audio_ts_ms la' = Some (AudioFrame.timestamp_ms f) /\ u32 (MediaTransport.audio_rtp_ts la').
Proof.
  intros Hks Hhm [Hcodec Htrack Hsess Hlink Hssrc Hin Hpm Hspec [Hpt Hnot]] Hts Hi Ht.
  set (chunks := [RtpPayloadChunk.mk (encode (AudioFrame.data f)) true]).
  destruct (linked_frame keystream hmac_sha1 Hks Hhm chunks (MediaTransport.audio_rtp_ts la) ea eb
    (OutboundTrackHandle.local_ssrc handle) pt Hssrc Hts Hpt Hnot) with (a := a) (b := b) (i := i) (k := 0%nat)
    as (a' & dgs & b' & Hs & Hd & Hlink'); [apply Forall_singleton, coded_octets | exact Hlink | lia | cbn; lia |].
  eexists _, _, _, (PacketizedFrame.mk chunks (MediaTransport.audio_rtp_ts la) CodecSpec.G711U),
    (Session.set_rtp sa (Some a') (Session.rtp_media_tx sa)), a', dgs, b', _, _, (decode (encode (AudioFrame.data f))).
  split; [reflexivity |]. split; [| split; [| split; [| split; [exact Hd | split; [| split; [| split; [apply decoded_close | split]]]]]]].
  - cbn [MediaTransport.on_event]. rewrite decide_False by exact Ht. reflexivity.
  - reflexivity.
  - unfold MediaTransport.on_frame. cbn [PacketizedFrame.codec_spec PacketizedFrame.chunks PacketizedFrame.rtp_ts].
    rewrite Hcodec, Htrack. unfold Session.send_rtp_chunks_for_frame. rewrite Hsess.
    change (imap (fun _ c => (c, true)) chunks) with (accepted <$> chunks). rewrite Hs. reflexivity.
  - rewrite (list_fmap_compose RtpIn.of_packet EvRtpIn), ingress_rtp.
    apply (reassemble_voice allowed _ pt desc); try assumption. reflexivity.
  - reflexivity.
  - split; try assumption; [reflexivity | auto].
  - split; [reflexivity |]. cbn. apply wrap32_range.
Qed.

Module Voice.
Definition sender : RtpSession.t :=
  (RtpSession.add_send_stream (RtpSession.mk ∅ [] ∅ false true 77 (lit "roomrtc@local") None (Some toy_ctx))
     (RtpSendConfig.with_ssrc (RtpCodec.new 0 8000) 9) (65535, 0) sample_readings).1.
Definition receiver : RtpSession.t :=
  RtpSession.add_recv_stream (RtpSession.mk ∅ [] ∅ false true 78 (lit "roomrtc@local") (Some toy_ctx) None)
    (RtpRecvConfig.new (RtpCodec.new 0 8000) (Some 9)) sample_readings.
Definition handle : OutboundTrackHandle.t := OutboundTrackHandle.mk 9 (RtpCodec.new 0 8000).
Definition media : MediaTransport.t := MediaTransport.with_tracks (MediaTransport.new Config.empty) {[0 := handle]}.
Definition session : Session.t := Session.set_rtp (Session.new []) (Some sender) true.
Definition frame : AudioFrame.t := AudioFrame.mk [silence; f32_of_Z 1; f32_of_Z (-1)] 3 8000 1 7.
End Voice.

Lemma voice_carried : carries CodecSpec.G711U Voice.media Voice.media Voice.session Voice.sender Voice.receiver Voice.handle
  (CodecDescriptor.pcmu_dynamic 0) {[0]} 0 65535.
Proof.
  split; try reflexivity; [| unfold u32; cbn; lia | lia].
  exists (RtpSendStream.new (RtpSendConfig.with_ssrc (RtpCodec.new 0 8000) 9) 65535 0 sample_readings),
    toy_ctx, (RtpRecvStream.new (RtpRecvConfig.new (RtpCodec.new 0 8000) (Some 9)) 0), toy_ctx, [].
  split_and!; try reflexivity; [right; split; [reflexivity | ulia] | left; reflexivity | | apply Forall_nil_2 |].
  - split; [exact sees_new | reflexivity].
  - right. split; [reflexivity | lia].
Qed.
Lemma voice_delivered_witness :
  exists frame dgs sa' b' evs ev samples,
    MediaTransport.on_frame id toy_keystream toy_hmac (fun _ => []) Voice.media (Some Voice.session) frame (fun _ => true) sample_readings
      = (Some sa', dgs, []) /\
    deliver toy_keystream toy_hmac Voice.receiver dgs (fun _ => sample_readings) 0 = Some (b', evs) /\
    (reassemble {[0]} (MediaTransport.payload_map Voice.media) H264Depacketizer.new
       (mjoin (ingress id demo_draws sample_readings demo_loop Voice.media <$> evs))).2 = [ev] /\
    MediaAgent.handle_media_agent_event (MediaAgent.new Config.empty) ev
      = (MediaAgent.new Config.empty, [MediaAgent.ToPlayer (AudioPlayer.PlayFrame samples)]) /\
    Forall2 close (AudioFrame.data Voice.frame) samples.
Proof.
  destruct (voice_delivered toy_keystream toy_hmac id (fun _ => []) Voice.media Voice.media demo_loop demo_loop
    Voice.session Voice.sender Voice.receiver Voice.handle (CodecDescriptor.pcmu_dynamic 0) {[0]} 0 65535 Voice.frame
    (MediaAgent.new Config.empty) H264Depacketizer.new true demo_draws sample_readings sample_readings (fun _ => sample_readings)
    toy_keystream_length toy_hmac_length voice_carried)
    as (m & la' & order & frame & sa' & a' & dgs & b' & evs & ev & samples & _ & _ & _ & Hf & Hd & Hr & Ha & Hc & _).
  - unfold u32. cbn. lia.
  - lia.
  - discriminate.
  - exists frame, dgs, sa', b', evs, ev, samples. rewrite Hr. auto 10.
Defined.

(** Frames cut from one block carry the same millisecond, and the transport drops a frame whose
    time is that of the one before: only the first frame of a block is sent. *)
Lemma frames_same_time t fuel : forall buf, Forall (fun f => AudioFrame.timestamp_ms f = t) (Capture.frames fuel buf (fun _ => t)).2.
Proof.
  induction fuel as [| fuel IH]; intros buf; [constructor |]. cbn [Capture.frames]. destruct (160 <=? length buf)%nat; [| constructor].
  specialize (IH (drop 160 buf)). destruct (Capture.frames fuel _ _). constructor; [reflexivity | exact IH].
Qed.
Lemma block_loses_audio debug_str l s session rnd e buf data t rest f1 f2 fs :
  Capture.on_data buf false data (fun _ => t) = (rest, f1 :: f2 :: fs) ->
  let send f := MediaTransportEvent.SendEncodedAudioFrame (encode (AudioFrame.data f)) (AudioFrame.timestamp_ms f) CodecSpec.G711U in
  exists l' s' session' os, MediaTransport.on_event debug_str l s session (send f1) true true rnd e = (l', s', session', os) /\
    MediaTransport.on_event debug_str l' s' session' (send f2) true true rnd e = (l', s', session', []).
Proof.
  intros H. cbv zeta. pose proof (frames_same_time t (length (buf ++ data)) (buf ++ data)) as Ht.
  unfold Capture.on_data in H. rewrite H in Ht. apply Forall_cons in Ht as [E1 Ht]. apply Forall_cons in Ht as [E2 _].
  cbn [MediaTransport.on_event]. rewrite E1, E2.
  destruct (decide (MediaTransport.last_received_audio_ts_ms l = Some t)) as [E |]; do 4 eexists; (split; [reflexivity |]).
  - rewrite decide_True by exact E. reflexivity.
  - rewrite decide_True by reflexivity. reflexivity.
Qed.

(** ** Pictures *)

(** What an encoder makes of a picture: NAL units, none of them twice in a row *)
Record access_unit (ns : list bytes) : Prop := {
  au_nals : Forall nal_ok ns; au_octets : Forall bytes_ok ns; au_some : ns <> []; au_distinct : no_repeat None ns = true }.

Section picture.
Context {Enc Dec Yuv : Type} `{OpenH264 Enc Dec Yuv}.

(** C1 A picture of the camera reaches the screen of the peer. The agent shows it and gives it to the
    encoder thread, whose access unit it hands to the media transport; there it is ordered and
    packetized, its packets go through the track of the codec and the session onto the socket; the
    peer's session decrypts and orders the datagrams, its engine relays the packets, its depacketizer
    rebuilds exactly the access unit, and its agent gives it to the decoder thread. The picture that
    the decoder makes of it is then the one that the agent shows, and the textures made for it hold its
    octets. Both ends are then ready for the next picture. *)
Theorem picture_delivered (keystream : bytes -> bytes -> nat -> bytes) (hmac_sha1 : bytes -> bytes -> bytes)
    (debug_str : bytes -> bytes) (display : RtpSessionError -> bytes) (ma mb : MediaTransport.t)
    (la lb : MediaTransport.loop) (sa : Session.t) (a b : RtpSession.t) (handle : OutboundTrackHandle.t)
    (desc : CodecDescriptor.t) (allowed : gset Z) (pt i : Z) (room : bool) (rnd : MediaTransport.draws) (ea e' : readings)
    (eb : nat -> readings) (local remote : MediaAgent.t) (frame : VideoFrame.t) (enc enc' : H264Encoder Enc) (dec dec' : Dec)
    (ns : list bytes) (picture : DecodedYUV.t) (w h now : Z) (renderer : GpuYuvRenderer.t) :
  (forall k iv n, length (keystream k iv n) = n) -> (forall k m, length (hmac_sha1 k m) = 20%nat) ->
  carries CodecSpec.H264 ma mb sa a b handle desc allowed pt i ->
  u32 (MediaTransport.video_rtp_ts la) -> 0 <= i ->
  i + Z.of_nat (length (H264Packetizer.packetize_annexb_to_payloads (H264Packetizer.new 1200) (annexb ns))) <= 2 ^ 48 ->
  MediaTransport.last_received_local_ts_ms la <> Some (VideoFrame.timestamp_ms frame) ->
  encode_frame_to_h264 (if negb (MediaAgent.sent_any_frame local) then request_keyframe enc else enc) frame = (enc', Ok (annexb ns)) ->
  access_unit ns -> decode_annexb dec (annexb ns) = (dec', Ok (Some picture)) ->
  picture_ok picture w h -> 0 < w -> 0 < h -> w + 256 < 2 ^ 32 -> h < 2 ^ 32 ->
  exists local' order ev m la' porder pframe sa' a' dgs b' evs ev' dorder shown remote' renderer' py pu pv,
    (MediaAgent.handle_local_frame local frame = (local', [MediaAgent.ToEncoder order]) /\
     MediaAgent.local_frame local' = Some frame /\ encoder_turn enc order = Ok (enc', [ev]) /\
     MediaAgent.handle_media_agent_event local' ev = (local', [MediaAgent.ToTransport m])) /\
    (MediaTransport.on_event debug_str la ma (Some sa) m true room rnd ea = (la', ma, Some sa, [MediaTransport.Order porder]) /\
     packetizer_turn porder = [pframe] /\
     MediaTransport.on_frame debug_str keystream hmac_sha1 display ma (Some sa) pframe (fun _ => true) ea = (Some sa', dgs, []) /\
     deliver keystream hmac_sha1 b dgs eb 0 = Some (b', evs) /\
     reassemble allowed (MediaTransport.payload_map mb) H264Depacketizer.new (mjoin (ingress debug_str rnd e' lb mb <$> evs))
       = (H264Depacketizer.new, [ev'])) /\
    (MediaAgent.handle_media_agent_event remote ev' = (remote, [MediaAgent.ToDecoder dorder]) /\
     decoder_turn (Some dec) dorder now = Ok (Some dec', [MediaAgentEvent.DecodedVideoFrame shown]) /\
     MediaAgent.handle_media_agent_event remote (MediaAgentEvent.DecodedVideoFrame shown) = (remote', []) /\
     MediaAgent.snapshot_frames remote' = (MediaAgent.local_frame remote, Some shown) /\
     GpuYuvRenderer.update_frame renderer shown = (renderer', [py; pu; pv]) /\ shows picture w h py pu pv) /\
    carries CodecSpec.H264 ma mb sa' a' b' handle desc allowed pt (i + Z.of_nat (length (PacketizedFrame.chunks pframe))).
Proof.
  intros Hks Hhm [Hcodec Htrack Hsess Hlink Hssrc Hin Hpm Hspec [Hpt Hnot]] Hts Hi Hmax Ht Henc [Hn Ho Hne Hd] Hdec Hp Hw Hh Hwm Hhm'.
  destruct (frame_delivered keystream hmac_sha1 debug_str display ma mb la lb sa a b handle desc allowed pt i
    (VideoFrame.timestamp_ms frame) ns room rnd ea e' eb Hks Hhm Hcodec Htrack Hsess Hlink Hin Hpm Hspec Hpt Hnot Hssrc Hts Hi Hmax Ht Hn Ho Hne Hd)
    as (la' & porder & pframe & sa' & a' & dgs & b' & evs & Q1 & Q2 & Q3 & Q4 & Q5 & Q6 & Q7).
  destruct (picture_shown picture w h now renderer Hp Hw Hh Hwm Hhm') as (shown & renderer' & py & pu & pv & V1 & V2 & V3 & _).
  eexists _, _, (MediaAgentEvent.EncodedVideoFrame (annexb ns) (VideoFrame.timestamp_ms frame) CodecSpec.H264), _, la', porder, pframe, sa', a', dgs,
    b', evs, _, (DecoderEvent.AnnexBFrameReady CodecSpec.H264 (annexb ns)), shown, _, renderer', py, pu, pv.
  split; [| split; [| split]].
  - split; [reflexivity |]. split; [reflexivity |]. split; [| reflexivity]. cbn [encoder_turn]. rewrite Henc. reflexivity.
  - split; [exact Q1 |]. split; [exact Q2 |]. split; [exact Q3 |]. split; [exact Q4 | exact Q5].
  - split; [reflexivity |]. split; [| split; [reflexivity |]; split; [reflexivity |]; split; [exact V2 | exact V3]].
    cbn [decoder_turn decode_frame]. rewrite Hdec. unfold FRAME_FORMAT. rewrite V1. reflexivity.
  - split; try assumption. auto.
Qed.
End picture.

(** A codec for which every picture is the same *)
Module Still.
Definition access : list bytes := [demo_sps; demo_slice].
#[global] Instance codec : OpenH264 unit unit unit := {
  with_api_config _ _ _ := Some ();
  from_rgb_source _ _ _ := Ok ();
  encode_yuv e _ := (e, Ok (annexb access));
  force_intra_frame e := e;
  decoder_new := Some ();
  decode_annexb d _ := (d, Ok (Some demo_picture)) }.
Definition frame : VideoFrame.t := VideoFrame.mk 1 1 7 FrameFormat.Rgb (VideoFrameData.Rgb [1; 2; 3]).
End Still.
Lemma video_carried : carries CodecSpec.H264 demo_media demo_media demo_session sender_session receiver_session demo_handle
  (CodecDescriptor.h264_dynamic 96) {[96]} 96 65535.
Proof. split; try reflexivity; [exact demo_linked | unfold u32; cbn; lia | lia]. Qed.
Lemma picture_delivered_witness :
  exists dgs b' evs ev' dorder shown renderer' py pu pv,
    deliver toy_keystream toy_hmac receiver_session dgs (fun _ => sample_readings) 0 = Some (b', evs) /\
    (reassemble {[96]} (MediaTransport.payload_map demo_media) H264Depacketizer.new
       (mjoin (ingress id demo_draws sample_readings demo_loop demo_media <$> evs))).2 = [ev'] /\
    MediaAgent.handle_media_agent_event (MediaAgent.new Config.empty) ev'
      = (MediaAgent.new Config.empty, [MediaAgent.ToDecoder dorder]) /\
    decoder_turn (Some ()) dorder 8 = Ok (Some (), [MediaAgentEvent.DecodedVideoFrame shown]) /\
    GpuYuvRenderer.update_frame GpuYuvRenderer.new shown = (renderer', [py; pu; pv]) /\ shows demo_picture 3 3 py pu pv.
Proof.
  destruct (picture_delivered toy_keystream toy_hmac id (fun _ => []) demo_media demo_media demo_loop demo_loop
    demo_session sender_session receiver_session demo_handle (CodecDescriptor.h264_dynamic 96) {[96]} 96 65535 true demo_draws
    sample_readings sample_readings (fun _ => sample_readings) (MediaAgent.new Config.empty) (MediaAgent.new Config.empty) Still.frame
    (encoder_start Config.empty) (encoder_start Config.empty) () () Still.access demo_picture 3 3 8 GpuYuvRenderer.new
    toy_keystream_length toy_hmac_length video_carried)
    as (local' & order & ev & m & la' & porder & pframe & sa' & a' & dgs & b' & evs & ev' & dorder & shown & remote' & renderer' & py & pu & pv
        & _ & (_ & _ & _ & Hd & Hr) & (Hv & Hdec & _ & _ & Hu & Hsh) & _); try (unfold u32; cbn; lia).
  - vm_compute. discriminate.
  - discriminate.
  - reflexivity.
  - split; [apply (bool_decide_unpack _); vm_compute; exact I .. | discriminate | reflexivity].
  - reflexivity.
  - exact demo_picture_ok.
  - exists dgs, b', evs, ev', dorder, shown, renderer', py, pu, pv. rewrite Hr. auto 10.
Defined.

(** ** The camera and the encoder *)
Section pipeline.
Context {Enc Dec Yuv : Type} `{OpenH264 Enc Dec Yuv}.
Local Abbreviation encoder_t := (H264Encoder Enc).

(** The specification: one instruction after the other, in one thread *)
Fixpoint encode_all (s : encoder_t) (l : list EncoderInstruction.t) : outcome Empty_set (encoder_t * list MediaAgentEvent.t) :=
  match l with
  | [] => Ok (s, [])
  | i :: l => '(s, es) ← encoder_turn s i; '(s, es') ← encode_all s l; Ok (s, es ++ es')
  end.

(** The agent, the encoder thread, the channels between them, and what the transport has been given *)
Record pipeline : Type := Pipeline {
  agent : MediaAgent.t; encoder : encoder_t; orders : list EncoderInstruction.t; events : list MediaAgentEvent.t;
  sent : list MediaTransportEvent.t }.
Definition to_encoder (os : list MediaAgent.output) : list EncoderInstruction.t :=
  omap (fun o => match o with MediaAgent.ToEncoder i => Some i | _ => None end) os.
Definition to_transport (os : list MediaAgent.output) : list MediaTransportEvent.t :=
  omap (fun o => match o with MediaAgent.ToTransport e => Some e | _ => None end) os.
(** Events of other threads: the depacketizer, the transport, the decoder *)
Definition foreign (ev : MediaAgentEvent.t) : bool := match ev with MediaAgentEvent.EncodedVideoFrame _ _ _ => false | _ => true end.

(** The threads in any order: [fs] are the frames of the camera that the step takes. *)
Inductive pstep (p : pipeline) : list VideoFrame.t -> pipeline -> Prop :=
| Listen fs audio ev rest g os : match ev with Some ev => events p = ev :: rest | None => events p = rest end ->
    MediaAgent.turn (agent p) (MediaAgent.Arrivals fs audio ev) = (g, os) ->
    pstep p fs (Pipeline g (encoder p) (orders p ++ to_encoder os) rest (sent p ++ to_transport os))
| Work i rest e es : orders p = i :: rest -> encoder_turn (encoder p) i = Ok (e, es) ->
    pstep p [] (Pipeline (agent p) e rest (events p ++ es) (sent p))
| Post ev : foreign ev = true -> pstep p [] (Pipeline (agent p) (encoder p) (orders p) (events p ++ [ev]) (sent p)).
Inductive preach (p0 : pipeline) : list VideoFrame.t -> pipeline -> Prop :=
| preach_refl : preach p0 [] p0
| preach_step seen p fs p' : preach p0 seen p -> pstep p fs p' -> preach p0 (seen ++ fs) p'.

(** The frames among instructions, the video among what is sent, and the video among events *)
Definition frames_in (l : list EncoderInstruction.t) : list (VideoFrame.t * bool) :=
  omap (fun i => match i with EncoderInstruction.Encode f k => Some (f, k) | _ => None end) l.
Definition video_sent (l : list MediaTransportEvent.t) : list MediaTransportEvent.t :=
  omap (fun e => match e with MediaTransportEvent.SendEncodedFrame _ _ _ => Some e | _ => None end) l.
Definition video_of (l : list MediaAgentEvent.t) : list MediaTransportEvent.t :=
  omap (fun e => match e with MediaAgentEvent.EncodedVideoFrame b t c => Some (MediaTransportEvent.SendEncodedFrame b t c) | _ => None end) l.
(** The first frame is to be a key frame, if none has been sent yet. *)
Definition forced (sent : bool) (fs : list VideoFrame.t) : list (VideoFrame.t * bool) :=
  match fs with [] => [] | f :: fs => (f, negb sent) :: ((fun f => (f, false)) <$> fs) end.

Lemma encode_all_app s l1 l2 : encode_all s (l1 ++ l2) = '(s, es) ← encode_all s l1; '(s, es') ← encode_all s l2; Ok (s, es ++ es').
Proof.
  revert s. induction l1 as [| i l1 IH]; intros s; cbn [app encode_all mbind outcome_bind].
  - destruct (encode_all s l2) as [[] | |]; reflexivity.
  - destruct (encoder_turn s i) as [[s1 es1] | |]; cbn [mbind outcome_bind]; [| reflexivity ..]. rewrite IH.
    destruct (encode_all s1 l1) as [[s2 es2] | |]; cbn [mbind outcome_bind]; [| reflexivity ..].
    destruct (encode_all s2 l2) as [[s3 es3] | |]; cbn [mbind outcome_bind]; [| reflexivity ..]. rewrite (assoc_L (++)). reflexivity.
Qed.
Lemma forced_app b l1 l2 : forced b (l1 ++ l2) = forced b l1 ++ forced (b || negb (bool_decide (l1 = []))) l2.
Proof.
  destruct l1 as [| f l1]; cbn [app forced]; [rewrite bool_decide_eq_true_2 by reflexivity; rewrite orb_false_r; reflexivity |].
  rewrite bool_decide_eq_false_2 by discriminate. rewrite orb_true_r. cbn [negb]. rewrite fmap_app. destruct l2; reflexivity.
Qed.

Lemma drained s fs : let r := MediaAgent.drain_camera_frames s fs in
  frames_in (to_encoder r.2) = forced (MediaAgent.sent_any_frame s) fs /\ to_transport r.2 = [] /\
  MediaAgent.sent_any_frame r.1 = MediaAgent.sent_any_frame s || negb (bool_decide (fs = [])) /\
  MediaAgent.local_frame r.1 = match last fs with Some f => Some f | None => MediaAgent.local_frame s end.
Proof.
  revert s. induction fs as [| f fs IH]; intros s; cbn [MediaAgent.drain_camera_frames].
  - rewrite bool_decide_eq_true_2, orb_false_r by reflexivity. auto.
  - unfold MediaAgent.handle_local_frame. set (s1 := MediaAgent.set_frames _ _ _ _). destruct (IH s1) as (H1 & H2 & H3 & H4).
    destruct (MediaAgent.drain_camera_frames s1 fs) as [s2 os]. cbn [fst snd] in *. rewrite bool_decide_eq_false_2, orb_true_r by discriminate.
    split_and!.
    + cbn. fold (to_encoder os). fold (frames_in (to_encoder os)). rewrite H1. destruct fs; reflexivity.
    + exact H2.
    + rewrite H3. reflexivity.
    + rewrite H4. destruct fs as [| f' fs]; [reflexivity |]. cbn [last]. destruct (last (f' :: fs)) eqn:E; [reflexivity |].
      apply last_None in E. discriminate E.
Qed.

Lemma audio_routed es : to_encoder (MediaAgent.drain_audio_frames es) = [] /\ video_sent (to_transport (MediaAgent.drain_audio_frames es)) = [].
Proof.
  unfold MediaAgent.drain_audio_frames. induction es as [| e es [IH1 IH2]]; [split; reflexivity |].
  destruct e; cbn [fmap list_fmap mjoin list_join]; split; assumption.
Qed.
Lemma event_routed s ev : let r := MediaAgent.handle_media_agent_event s ev in
  frames_in (to_encoder r.2) = [] /\ video_sent (to_transport r.2) = video_of [ev] /\
  MediaAgent.sent_any_frame r.1 = MediaAgent.sent_any_frame s /\ MediaAgent.local_frame r.1 = MediaAgent.local_frame s.
Proof. destruct ev; split_and!; reflexivity. Qed.

Lemma turn_routed s fs audio ev g os : MediaAgent.turn s (MediaAgent.Arrivals fs audio ev) = (g, os) ->
  frames_in (to_encoder os) = forced (MediaAgent.sent_any_frame s) fs /\
  video_sent (to_transport os) = video_of (match ev with Some ev => [ev] | None => [] end) /\
  MediaAgent.sent_any_frame g = MediaAgent.sent_any_frame s || negb (bool_decide (fs = [])) /\
  MediaAgent.local_frame g = match last fs with Some f => Some f | None => MediaAgent.local_frame s end.
Proof.
  unfold MediaAgent.turn. cbn [MediaAgent.frames MediaAgent.audio_events MediaAgent.event].
  destruct (drained s fs) as (H1 & H2 & H3 & H4). destruct (MediaAgent.drain_camera_frames s fs) as [s1 os1]. cbn [fst snd] in *.
  destruct (audio_routed audio) as [A1 A2].
  assert (He : exists s2 os2, (match ev with Some ev => MediaAgent.handle_media_agent_event s1 ev | None => (s1, []) end) = (s2, os2) /\
    frames_in (to_encoder os2) = [] /\ video_sent (to_transport os2) = video_of (match ev with Some ev => [ev] | None => [] end) /\
    MediaAgent.sent_any_frame s2 = MediaAgent.sent_any_frame s1 /\ MediaAgent.local_frame s2 = MediaAgent.local_frame s1).
  { destruct ev as [ev |]; [| do 2 eexists; split_and!; reflexivity]. destruct (event_routed s1 ev) as (E1 & E2 & E3 & E4).
    destruct (MediaAgent.handle_media_agent_event s1 ev). eauto 10. }
  destruct He as (s2 & os2 & -> & E1 & E2 & E3 & E4). intros [= <- <-].
  unfold to_encoder, to_transport, frames_in, video_sent in *. rewrite !omap_app. rewrite A1, A2, E1, E2, H1, H2, E3, E4, H3, H4, app_nil_r.
  auto.
Qed.

(** What the steps keep: the encoder has done a prefix of what it was given, and its results are sent or
    wait to be. *)
Record pipelined (e0 : encoder_t) (seen : list VideoFrame.t) (p : pipeline) : Prop := {
  pl_run : exists done evs, encode_all e0 done = Ok (encoder p, evs) /\ frames_in (done ++ orders p) = forced false seen /\
             video_sent (sent p) ++ video_of (events p) = video_of evs;
  pl_first : MediaAgent.sent_any_frame (agent p) = negb (bool_decide (seen = []));
  pl_shown : MediaAgent.local_frame (agent p) = last seen }.
Lemma pstep_pipelined e0 seen p fs p' : pipelined e0 seen p -> pstep p fs p' -> pipelined e0 (seen ++ fs) p'.
Proof.
  intros [(done & evs & H1 & H2 & H3) H4 H5] Hs. destruct Hs as [fs audio ev rest g os He Ht | i rest e es Ho Hi | ev Hf].
  - apply turn_routed in Ht as (T1 & T2 & T3 & T4). split; cbn [agent encoder orders events sent].
    + exists done, evs. split; [exact H1 |]. unfold frames_in, video_sent in *. rewrite (assoc_L (++)), !omap_app, forced_app, T2.
      rewrite omap_app in H2. rewrite H2, T1, H4. cbn [orb]. split; [reflexivity |]. rewrite <- H3, <- (assoc_L (++)). f_equal.
      unfold video_of. rewrite <- omap_app. destruct ev; rewrite He; reflexivity.
    + rewrite T3, H4. destruct seen, fs; reflexivity.
    + rewrite T4, H5, last_app. destruct (last fs); reflexivity.
  - rewrite app_nil_r. split; cbn [agent encoder orders events sent]; [| assumption ..].
    exists (done ++ [i]), (evs ++ es). split; [| split].
    + rewrite encode_all_app, H1. cbn [encode_all mbind outcome_bind]. rewrite Hi. cbn [mbind outcome_bind]. rewrite app_nil_r. reflexivity.
    + rewrite <- (assoc_L (++)). rewrite Ho in H2. exact H2.
    + unfold video_of in *. rewrite !omap_app, (assoc_L (++)), H3. reflexivity.
  - rewrite app_nil_r. split; cbn [agent encoder orders events sent]; [| assumption ..].
    exists done, evs. split; [exact H1 |]. split; [exact H2 |]. unfold video_of in *. rewrite omap_app, <- H3.
    destruct ev; try discriminate Hf; cbn; rewrite !app_nil_r; reflexivity.
Qed.

(** C24 The camera's pictures leave in order. Whatever the interleaving of the listener, the encoder thread
    and the events of others, what the agent has handed to the transport, with what still waits to be
    handed over, is what one thread would make by giving the encoder the pictures of the camera
    in the order in which they came, with a key frame asked for at the first and at no other; the
    picture shown locally is the last one. *)
Theorem camera_pipeline config cfg p seen :
  preach (Pipeline (MediaAgent.new config) (encoder_start cfg) [] [] []) seen p ->
  MediaAgent.local_frame (agent p) = last seen /\
  exists done evs, encode_all (encoder_start cfg) done = Ok (encoder p, evs) /\ frames_in (done ++ orders p) = forced false seen /\
    video_sent (sent p) ++ video_of (events p) = video_of evs.
Proof.
  intros Hr. assert (H' : pipelined (encoder_start cfg) seen p); [| destruct H'; auto].
  induction Hr as [| seen p fs p' _ IH Hs]; [| eapply pstep_pipelined; eassumption].
  split; [exists [], []; auto | reflexivity ..].
Qed.
End pipeline.

(** An encoder that copies the pixels after an octet that counts the frames since a key frame *)
Module Toy.
#[global] Instance codec : OpenH264 Z unit bytes := {
  with_api_config _ _ _ := Some 0;
  from_rgb_source rgb _ _ := Ok rgb;
  encode_yuv n rgb := (n + 1, Ok (n :: rgb));
  force_intra_frame _ := 0;
  decoder_new := Some ();
  decode_annexb d _ := (d, Ok None) }.
Definition picture (t : Z) : VideoFrame.t := VideoFrame.mk 1 1 t FrameFormat.Rgb (VideoFrameData.Rgb [t; t; t]).
Definition start : pipeline := Pipeline (MediaAgent.new Config.empty) (encoder_start Config.empty) [] [] [].
End Toy.

Lemma camera_pipeline_witness :
  exists p, preach Toy.start [Toy.picture 7; Toy.picture 8] p /\
    video_sent (sent p) = [MediaTransportEvent.SendEncodedFrame [0; 7; 7; 7] 7 CodecSpec.H264] /\
    MediaAgent.local_frame (agent p) = Some (Toy.picture 8).
Proof.
  assert (Hr : exists p, preach Toy.start [Toy.picture 7; Toy.picture 8] p /\
    video_sent (sent p) = [MediaTransportEvent.SendEncodedFrame [0; 7; 7; 7] 7 CodecSpec.H264]).
  { eexists. split.
    - change [Toy.picture 7; Toy.picture 8] with ((([] ++ [Toy.picture 7]) ++ []) ++ [Toy.picture 8]).
      eapply preach_step; [eapply preach_step; [eapply preach_step; [apply preach_refl |] |] |].
      + eapply (Listen _ _ [] None); reflexivity.
      + eapply Work; reflexivity.
      + eapply (Listen _ _ [] (Some _)); reflexivity.
    - reflexivity. }
  destruct Hr as (p & Hp & Hv). exists p. split; [exact Hp |]. split; [exact Hv |].
  apply (camera_pipeline Config.empty Config.empty p [Toy.picture 7; Toy.picture 8] Hp).
Defined.

(** ** Configuration *)

(** The encoder reads its key frame interval under a name that the configuration files do not use; the
    first change of the bit rate then makes a new encoder with the configured interval. *)
Lemma interval_ignored_at_start {Enc Dec Yuv} `{OpenH264 Enc Dec Yuv} config v :
  Config.get config (lit "Media") (lit "keyint") = None -> Config.get config (lit "Media") (lit "keyframe_interval") = Some (dec v) ->
  u32 v -> forall s b, MediaAgent.config s = config ->
  keyint (encoder_start config) = KEYINT /\
  MediaAgent.handle_media_agent_event s (MediaAgentEvent.UpdateBitrate b)
    = (s, [MediaAgent.ToEncoder (EncoderInstruction.SetConfig (setting config (lit "fps") TARGET_FPS) b v)]).
Proof.
  intros H1 H2 Hv s b Hs. split.
  - change (keyint (encoder_start config)) with (setting config (lit "keyint") KEYINT). unfold setting. rewrite H1. reflexivity.
  - cbn [MediaAgent.handle_media_agent_event]. rewrite Hs. unfold setting at 2. rewrite H2. unfold MediaTransport.u32_option.
    rewrite parse_dec by (unfold u32 in Hv; ulia || lia). reflexivity.
Qed.
