(* ===== verification/Camera.v ===== *)
(** * Camera (src/camera_manager; src/media_agent: camera_worker.rs, utils.rs; src/app:
    debug_yuv_to_rgb.rs)

    The camera thread, its pacing and its test pattern, the packing of a picture, and the conversions of
    colours. OpenCV is an argument: a matrix is a record of what the program reads of it. Colours are
    computed in binary32. *)

From stdpp Require Import prelude strings.
From Stdlib Require Import ZArith Lia SpecFloat.
From S2P Require Import Prelude Utf8 Text G711 MediaTransport Video Audio.
Local Open Scope Z_scope.

Module CameraError.
Inductive t : Type :=
| InitializationFailed (msg : bytes) | OpenFailed (id : Z) | CaptureFailed (msg : bytes) | OpenCvError (e : bytes)
| NotFrame | CameraOff | InvalidDeviceId (id : Z).
(** [{}] of an [i32] *)
Definition signed (v : Z) : bytes := if v <? 0 then lit "-" ++ dec (- v) else dec v.
Definition to_string (e : t) : bytes :=
  match e with
  | InitializationFailed msg => lit "Camera initialization failed: " ++ msg
  | OpenFailed id => lit "Failed to open camera with device_id: " ++ signed id
  | CaptureFailed msg => lit "Failed to capture frame: " ++ msg
  | OpenCvError e => lit "OpenCV error: " ++ e
  | NotFrame => lit "No valid frame available"
  | CameraOff => lit "Camera not initialized"
  | InvalidDeviceId id => lit "Invalid Device ID: " ++ signed id
  end.
End CameraError.

(** ** Matrices *)
Module Mat.
(** [step1] is the step of a row in elements of one channel, [elem_size] the octets of an element
    with all its channels. *)
Record t : Type := mk {
  is_8uc3 : bool; empty : bool; channels : Z; data : bytes; step1 : Z; elem_size : Z; cols : Z; rows : Z }.
End Mat.

Section opencv.
(** [convert_to] of a type; [clone] is [try_clone] of a continuous matrix and [clone] of another *)
Context (convert_to : Mat.t -> outcome bytes Mat.t) (clone : Mat.t -> outcome bytes Mat.t).
Context (cvt_color : Mat.t -> outcome bytes Mat.t).

Fixpoint pack_rows (data out : bytes) (step_bytes row_bytes row n : nat) : outcome bytes bytes :=
  match n with
  | O => Ok out
  | S n =>
      src ← slice data (row * step_bytes) (row * step_bytes + row_bytes);
      pack_rows data (take (row * row_bytes) out ++ src ++ drop (S row * row_bytes) out) step_bytes row_bytes (S row) n
  end.
(** [tight_rgb_bytes]; a matrix of another type is converted and packed by the same function, so that
    the number of conversions is bounded by the fuel: [None] when it runs out. *)
Fixpoint tight_rgb_bytes (fuel : nat) (mat : Mat.t) (width height : Z) : option (outcome bytes bytes) :=
  if negb (Mat.is_8uc3 mat) then
    match fuel with
    | O => None
    | S fuel =>
        match convert_to mat with
        | Ok fixed => tight_rgb_bytes fuel fixed width height
        | Err e => Some (Err e)
        | Panic => Some Panic
        end
    end
  else Some (
    m ← clone mat;
    let ch := Mat.channels m in
    let data := Mat.data m in
    if Z.of_nat (length data) =? width * height * ch then Ok data
    else
      let step_bytes := Mat.step1 m * Mat.elem_size m in
      let row_bytes := Mat.cols m * ch in
      pack_rows data (replicate (count (Mat.rows m * row_bytes)) 0) (count step_bytes) (count row_bytes) 0 (count (Mat.rows m))).

Definition convert_to_videoframe (fuel : nat) (mat : Mat.t) (w h now : Z) : option (outcome MediaAgentError.t VideoFrame.t) :=
  match cvt_color mat with
  | Err e => Some (Err (MediaAgentError.Io (lit "cvtColor: " ++ e)))
  | Panic => Some Panic
  | Ok rgb_mat =>
      (fun r => data ← map_err (fun e => MediaAgentError.Io (lit "pack RGB: " ++ e)) r;
                Ok (VideoFrame.mk w h now FrameFormat.Rgb (VideoFrameData.Rgb data)))
      <$> tight_rgb_bytes fuel rgb_mat w h
  end.

(** ** The camera *)

(** A picture of the device: what [read] answers, with the matrix it filled *)
Definition get_frame (opened : bool) (read : outcome bytes bool) (frame : Mat.t) : outcome CameraError.t Mat.t :=
  if opened then
    if (match read with Ok b => b | _ => false end) && negb (Mat.empty frame) then Ok frame else Err CameraError.NotFrame
  else Err CameraError.CameraOff.

(** [clamp(1.0, 8192.0)] then [round() as u32], of a binary64: halves away from zero *)
Definition f64_of_Z (v : Z) : spec_float := binary_normalize 53 1024 v 0 false.
Definition clamp64 (lo hi v : spec_float) : spec_float :=
  let v := if SFltb v lo then lo else v in if SFltb hi v then hi else v.
Definition round_u32 (f : spec_float) : Z :=
  match f with
  | S754_finite false m e =>
      let v := if e <? 0 then (2 * Zpos m + Z.shiftl 1 (- e)) / Z.shiftl 1 (- e + 1) else Z.shiftl (Zpos m) e in
      Z.min 4294967295 v
  | S754_infinity false => 4294967295
  | _ => 0
  end.
Definition dimension (f : spec_float) : Z := round_u32 (clamp64 (f64_of_Z 1) (f64_of_Z 8192) f).
(** [CameraManager::new]: what opening the device and its two properties answer. The result is the size
    of its pictures. *)
Definition camera_new (device_id : Z) (cam : outcome bytes unit) (opened : outcome bytes bool)
    (width height : outcome bytes spec_float) : outcome CameraError.t (Z * Z) :=
  _ ← map_err CameraError.InitializationFailed cam;
  if negb (match opened with Ok b => b | _ => false end) then Err (CameraError.OpenFailed device_id)
  else
    w ← map_err CameraError.InitializationFailed width;
    h ← map_err CameraError.InitializationFailed height;
    Ok (dimension w, dimension h).

(** [discover_camera_id]: the first of sixteen that opens *)
Definition discover_camera_id (opens : Z -> bool) : option Z := head (filter (fun idx => opens idx = true) (seqZ 0 16)).

(** ** The thread *)
Definition clamp_fps (target_fps : Z) : Z := Z.max 1 (Z.min 120 target_fps).
Definition period_ms (target_fps : Z) : Z := 1000 / clamp_fps target_fps.
(** The pacing at the end of a turn: how long to sleep, and the next deadline *)
Definition pace (next_deadline period now : Z) : Z * Z :=
  if now <? next_deadline then (next_deadline - now, next_deadline + period) else (0, now + period).
Inductive next : Type := Continue (next_deadline : Z) | Stop (r : outcome MediaAgentError.t unit).
(** A turn of [camera_loop]: the frame that it sends, its sleep, and whether it goes on. [listened]: the
    receiver is there. *)
Definition camera_turn (fuel : nat) (frame : outcome CameraError.t Mat.t) (size : Z * Z) (stamp : Z) (listened : bool)
    (next_deadline period now : Z) : option (list VideoFrame.t * Z * next) :=
  let go fs := let '(sleep, d) := pace next_deadline period now in (fs, sleep, Continue d) in
  match frame with
  | Ok mat =>
      (fun r => match r with
                | Ok vf => if listened then go [vf] else ([], 0, Stop (Ok ()))
                | Err e => ([], 0, Stop (Err e))
                | Panic => ([], 0, Stop Panic)
                end) <$> convert_to_videoframe fuel mat size.1 size.2 stamp
  | _ => Some (go [])
  end.
(** [synthetic_loop]: the phase advances with each frame. *)
Definition synthetic_turn (phase now : Z) (listened : bool) : Z * list VideoFrame.t * bool :=
  (wrap8 (phase + 1), (if listened then [synthetic_rgb 320 240 phase now] else []), listened).
(** The status that [spawn_camera_worker] reports *)
Definition camera_status (camera : outcome CameraError.t (Z * Z)) : bytes :=
  match camera with
  | Ok (w, h) => lit "Using camera source with resolution " ++ dec w ++ lit "x" ++ dec h
  | Err e => lit "Camera error: " ++ CameraError.to_string e ++ lit ". Using test pattern."
  | Panic => []
  end.
End opencv.

(** ** Colours *)
Local Abbreviation add32 := (SFadd 24 128).
Local Abbreviation sub32 := (SFsub 24 128).
Local Abbreviation mul32 := (SFmul 24 128).
(** A decimal literal [n / d]: both are exact, so that the quotient is rounded once. *)
Definition f32_lit (n d : Z) : spec_float := SFdiv 24 128 (f32_of_Z n) (f32_of_Z d).
(** [v.clamp(0.0, 255.0) as u8] *)
Definition clamp (v : spec_float) : Z :=
  let v := if SFltb v (f32_of_Z 0) then f32_of_Z 0 else v in
  let v := if SFltb (f32_of_Z 255) v then f32_of_Z 255 else v in
  Z.max 0 (Z.min 255 (f32_as_i32 v)).
Record Rgb : Type := RGB { r : Z; g : Z; b : Z }.
(** The matrix of a standard, on a luminance and two differences of colour *)
Definition matrix (cr cgu cgv cb : spec_float) (yf uf vf : spec_float) : Rgb :=
  RGB (clamp (add32 yf (mul32 cr vf))) (clamp (sub32 (sub32 yf (mul32 cgu uf)) (mul32 cgv vf))) (clamp (add32 yf (mul32 cb uf))).
Definition bt601 : spec_float -> spec_float -> spec_float -> Rgb :=
  matrix (f32_lit 1402 1000) (f32_lit 344136 1000000) (f32_lit 714136 1000000) (f32_lit 1772 1000).
Definition bt709 : spec_float -> spec_float -> spec_float -> Rgb :=
  matrix (f32_lit 157480 100000) (f32_lit 18733 100000) (f32_lit 46813 100000) (f32_lit 185563 100000).
Definition centred (c : Z) : spec_float := sub32 (f32_of_Z c) (f32_of_Z 128).
(** [x.max(0.0)] *)
Definition max0 (v : spec_float) : spec_float := if SFltb v (f32_of_Z 0) then f32_of_Z 0 else v.
Definition limited_y (c : Z) : spec_float := max0 (mul32 (sub32 (f32_of_Z c) (f32_of_Z 16)) (f32_lit 255 219)).
Definition limited_c (c : Z) : spec_float := mul32 (centred c) (f32_lit 255 224).
Definition convert_bt601_full (y u v : Z) : Rgb := bt601 (f32_of_Z y) (centred u) (centred v).
Definition convert_bt601_limited (y u v : Z) : Rgb := bt601 (limited_y y) (limited_c u) (limited_c v).
Definition convert_bt709_full (y u v : Z) : Rgb := bt709 (f32_of_Z y) (centred u) (centred v).
Definition convert_bt709_limited (y u v : Z) : Rgb := bt709 (limited_y y) (limited_c u) (limited_c v).

(** [i420_to_rgb]: each pixel is written once, in order. The offset of the last pixel, in octets, must
    fit 32 bits. *)
Fixpoint pixels (f : Z -> Z -> outcome Empty_set Rgb) (l : list (Z * Z)) : outcome Empty_set bytes :=
  match l with
  | [] => Ok []
  | (j, i) :: l => p ← f j i; rest ← pixels f l; Ok (r p :: g p :: b p :: rest)
  end.
Definition i420_to_rgb (yuv_bytes : bytes) (width height : Z) : outcome Empty_set bytes :=
  if 4294967296 <=? (width * height - 1) * 3 then Panic
  else
    let frame_size := width * height in
    let chroma_size := frame_size / 4 in
    y_plane ← slice yuv_bytes 0 (count frame_size);
    u_plane ← slice yuv_bytes (count frame_size) (count (frame_size + chroma_size));
    v_plane ← slice_from yuv_bytes (count (frame_size + chroma_size));
    pixels (fun j i =>
      y ← get_idx y_plane (count (j * width + i));
      u ← get_idx u_plane (count (j / 2 * (width / 2) + i / 2));
      v ← get_idx v_plane (count (j / 2 * (width / 2) + i / 2));
      Ok (convert_bt601_full y u v))
      (j ← seqZ 0 height; (fun i => (j, i)) <$> seqZ 0 width).

(** ** Packing *)
Lemma pack_rows_panics data sb rb n : forall out row, (length data < (row + n) * sb + rb)%nat -> pack_rows data out sb rb row (S n) = Panic.
Proof.
  induction n as [| n IH]; intros out row Hl; cbn [pack_rows].
  - unfold slice. rewrite Nat.add_0_r in Hl. destruct (Nat.leb_spec (row * sb + rb) (length data)); [lia | rewrite andb_false_r; reflexivity].
  - destruct (slice data (row * sb) (row * sb + rb)) as [src | |] eqn:E; cbn [mbind outcome_bind]; [| unfold slice in E; case_match; discriminate | reflexivity].
    apply IH. replace (S row + n)%nat with (row + S n)%nat by lia. exact Hl.
Qed.
(** What OpenCV documents of a copy of a matrix of three octets per pixel: its rows follow each other,
    a step is counted in single octets, and an element has three of them. *)
Record tight (m : Mat.t) : Prop := {
  t_channels : Mat.channels m = 3; t_step : Mat.step1 m = 3 * Mat.cols m; t_elem : Mat.elem_size m = 3;
  t_data : Z.of_nat (length (Mat.data m)) = 3 * Mat.cols m * Mat.rows m; t_cols : 0 < Mat.cols m; t_rows : 0 < Mat.rows m }.
(** A picture of the announced size is packed as it is; one of another size ends the thread, because the
    step is multiplied by three once more. *)
Lemma packing convert_to clone fuel mat m w h : Mat.is_8uc3 mat = true -> clone mat = Ok m -> tight m -> 1 < Mat.rows m ->
  tight_rgb_bytes convert_to clone fuel mat w h = Some (if Mat.cols m * Mat.rows m =? w * h then Ok (Mat.data m) else Panic).
Proof.
  intros Ht Hc [H1 H2 H3 H4 H5 H6] Hr. destruct fuel; cbn [tight_rgb_bytes]; rewrite Ht; cbn [negb];
    rewrite Hc; cbn [mbind outcome_bind]; rewrite H1, H2, H3;
    (destruct (Z.eqb_spec (Mat.cols m * Mat.rows m) (w * h)) as [E | E];
     [rewrite (proj2 (Z.eqb_eq _ _)) by lia; reflexivity |]; rewrite (proj2 (Z.eqb_neq _ _)) by lia;
     destruct (count (Mat.rows m)) as [| n] eqn:En; [unfold count in En; lia |];
     f_equal; apply pack_rows_panics; unfold count in *; nia).
Qed.
(** Converting keeps the number of channels, so that a picture of another number of channels is
    converted for ever. *)
Lemma grey_never_packs convert_to clone fuel w h : (forall m, exists m', convert_to m = Ok m' /\ Mat.is_8uc3 m' = Mat.is_8uc3 m) ->
  forall mat, Mat.is_8uc3 mat = false -> tight_rgb_bytes convert_to clone fuel mat w h = None.
Proof.
  intros Hk. induction fuel as [| fuel IH]; intros mat Hm; cbn [tight_rgb_bytes]; rewrite Hm; [reflexivity |]. cbn [negb].
  destruct (Hk mat) as (m' & -> & Hm'). apply IH. congruence.
Qed.

(** ** Pacing *)

(** A turn that ends in time sleeps until the deadline, and deadlines are a period apart; a turn that is
    late does not make the next ones early. *)
Lemma paced deadline period now sleep d : pace deadline period now = (sleep, d) -> 0 <= period ->
  0 <= sleep /\ now + sleep = Z.max deadline now /\ d = Z.max deadline now + period.
Proof. unfold pace. intros H Hp. destruct (Z.ltb_spec now deadline); simplify_eq; lia. Qed.
Lemma period_bounds fps : 8 <= period_ms fps <= 1000.
Proof. unfold period_ms, clamp_fps. assert (H : 1 <= Z.max 1 (Z.min 120 fps) <= 120) by lia. generalize dependent (Z.max 1 (Z.min 120 fps)). intros f Hf. split; [apply Z.div_le_lower_bound; lia | apply Z.div_le_upper_bound; lia]. Qed.

(** ** Greys *)
Lemma greys_exact y : u8 y ->
  convert_bt601_full y 128 128 = RGB y y y /\ convert_bt709_full y 128 128 = RGB y y y /\
  convert_bt601_limited y 128 128 = convert_bt709_limited y 128 128.
Proof.
  intros Hy. assert (H : bool_decide (r (convert_bt601_full y 128 128) = y /\ g (convert_bt601_full y 128 128) = y /\ b (convert_bt601_full y 128 128) = y /\
    r (convert_bt709_full y 128 128) = y /\ g (convert_bt709_full y 128 128) = y /\ b (convert_bt709_full y 128 128) = y /\
    r (convert_bt601_limited y 128 128) = r (convert_bt709_limited y 128 128) /\
    g (convert_bt601_limited y 128 128) = g (convert_bt709_limited y 128 128) /\
    b (convert_bt601_limited y 128 128) = b (convert_bt709_limited y 128 128)) = true) by (by_range 256%nat y).
  apply bool_decide_eq_true in H as (A1 & A2 & A3 & B1 & B2 & B3 & C1 & C2 & C3).
  destruct (convert_bt601_full y 128 128), (convert_bt709_full y 128 128), (convert_bt601_limited y 128 128), (convert_bt709_limited y 128 128).
  cbn in *. subst. auto.
Qed.
