(* ===== verification/AppState.v ===== *)
(** * State of the application (src/app: rtc_app.rs, conn_state.rs, gui_error.rs)

    The data of [RtcApp] and an update for each of its fields. The two flags of file transfers are
    those of the engine, with which the application shares them. *)

From stdpp Require Import prelude strings.
From Stdlib Require Import ZArith SpecFloat.
From S2P Require Import Prelude Utf8 RtpSession SigProtocol Config ConnManager Sctp Engine Video.
Local Open Scope Z_scope.

Module SignalingScreen.
Inductive t : Type := Connect | Login | Home.
#[global] Instance t_eq_dec : EqDecision t.
Proof. solve_decision. Defined.
End SignalingScreen.

Module CallFlow.
Inductive t : Type :=
| Idle
| Dialing (peer : bytes) (txn_id : Z)
| Incoming (from : bytes) (txn_id : Z) (sdp : bytes)
| Active (peer : bytes).
#[global] Instance t_eq_dec : EqDecision t.
Proof. solve_decision. Defined.
End CallFlow.

(** Progress is a binary32 percentage. *)
Module FileTransferState.
Inductive t : Type :=
| Idle
| RemoteOffered (props : SctpFileProperties.t)
| Sending (id : Z) (filename : bytes) (progress : spec_float)
| Receiving (id : Z) (filename : bytes) (total_size : Z) (progress : spec_float)
| Finished (msg : bytes).
End FileTransferState.

Module ConnState.
Inductive t : Type := Idle | Connecting | Running | Stopped.
#[global] Instance t_eq_dec : EqDecision t.
Proof. solve_decision. Defined.
End ConnState.

Module GuiError.
Inductive t : Type := Connection (e : ConnectionError.t) | Render.
End GuiError.

Module RtcApp.
(** [signaling_client]: whether its network thread still takes commands *)
Record t : Type := mk {
  remote_sdp_text : bytes;
  local_sdp_text : bytes;
  pending_remote_sdp : option bytes;
  status_line : bytes;
  engine : Engine.t;
  has_remote_description : bool;
  has_local_description : bool;
  is_local_offerer : bool;
  conn_state : ConnState.t;
  ui_logs : list bytes;
  bg_dropped : Z;
  rtp_pkts : Z;
  rtp_bytes : Z;
  signaling_client : option bool;
  signaling_screen : SignalingScreen.t;
  server_addr_input : bytes;
  login_username : bytes;
  login_password : bytes;
  register_username : bytes;
  register_password : bytes;
  peers_online : list (bytes * PeerStatus);
  current_username : option bytes;
  signaling_error : option bytes;
  call_flow : CallFlow.t;
  next_txn_id : Z;
  config : Config.t;
  last_metrics : option NetworkMetrics.t;
  current_bitrate : option Z;
  file_transfer_state : FileTransferState.t;
  file_path_input : bytes;
  is_muted : bool;
  local_camera_texture : Texture.t;
  remote_camera_texture : Texture.t;
  local_yuv_renderer : option GpuYuvRenderer.t;
  remote_yuv_renderer : option GpuYuvRenderer.t }.

Definition set_remote_sdp_text (s : t) (v : bytes) : t :=
  mk v (local_sdp_text s) (pending_remote_sdp s) (status_line s) (engine s) (has_remote_description s)
    (has_local_description s) (is_local_offerer s) (conn_state s) (ui_logs s) (bg_dropped s) (rtp_pkts s) (rtp_bytes
    s) (signaling_client s) (signaling_screen s) (server_addr_input s) (login_username s) (login_password s)
    (register_username s) (register_password s) (peers_online s) (current_username s) (signaling_error s) (call_flow
    s) (next_txn_id s) (config s) (last_metrics s) (current_bitrate s) (file_transfer_state s) (file_path_input s)
    (is_muted s) (local_camera_texture s) (remote_camera_texture s) (local_yuv_renderer s) (remote_yuv_renderer s).
Definition set_local_sdp_text (s : t) (v : bytes) : t :=
  mk (remote_sdp_text s) v (pending_remote_sdp s) (status_line s) (engine s) (has_remote_description s)
    (has_local_description s) (is_local_offerer s) (conn_state s) (ui_logs s) (bg_dropped s) (rtp_pkts s) (rtp_bytes
    s) (signaling_client s) (signaling_screen s) (server_addr_input s) (login_username s) (login_password s)
    (register_username s) (register_password s) (peers_online s) (current_username s) (signaling_error s) (call_flow
    s) (next_txn_id s) (config s) (last_metrics s) (current_bitrate s) (file_transfer_state s) (file_path_input s)
    (is_muted s) (local_camera_texture s) (remote_camera_texture s) (local_yuv_renderer s) (remote_yuv_renderer s).
Definition set_pending_remote_sdp (s : t) (v : option bytes) : t :=
  mk (remote_sdp_text s) (local_sdp_text s) v (status_line s) (engine s) (has_remote_description s)
    (has_local_description s) (is_local_offerer s) (conn_state s) (ui_logs s) (bg_dropped s) (rtp_pkts s) (rtp_bytes
    s) (signaling_client s) (signaling_screen s) (server_addr_input s) (login_username s) (login_password s)
    (register_username s) (register_password s) (peers_online s) (current_username s) (signaling_error s) (call_flow
    s) (next_txn_id s) (config s) (last_metrics s) (current_bitrate s) (file_transfer_state s) (file_path_input s)
    (is_muted s) (local_camera_texture s) (remote_camera_texture s) (local_yuv_renderer s) (remote_yuv_renderer s).
Definition set_status_line (s : t) (v : bytes) : t :=
  mk (remote_sdp_text s) (local_sdp_text s) (pending_remote_sdp s) v (engine s) (has_remote_description s)
    (has_local_description s) (is_local_offerer s) (conn_state s) (ui_logs s) (bg_dropped s) (rtp_pkts s) (rtp_bytes
    s) (signaling_client s) (signaling_screen s) (server_addr_input s) (login_username s) (login_password s)
    (register_username s) (register_password s) (peers_online s) (current_username s) (signaling_error s) (call_flow
    s) (next_txn_id s) (config s) (last_metrics s) (current_bitrate s) (file_transfer_state s) (file_path_input s)
    (is_muted s) (local_camera_texture s) (remote_camera_texture s) (local_yuv_renderer s) (remote_yuv_renderer s).
Definition set_engine (s : t) (v : Engine.t) : t :=
  mk (remote_sdp_text s) (local_sdp_text s) (pending_remote_sdp s) (status_line s) v (has_remote_description s)
    (has_local_description s) (is_local_offerer s) (conn_state s) (ui_logs s) (bg_dropped s) (rtp_pkts s) (rtp_bytes
    s) (signaling_client s) (signaling_screen s) (server_addr_input s) (login_username s) (login_password s)
    (register_username s) (register_password s) (peers_online s) (current_username s) (signaling_error s) (call_flow
    s) (next_txn_id s) (config s) (last_metrics s) (current_bitrate s) (file_transfer_state s) (file_path_input s)
    (is_muted s) (local_camera_texture s) (remote_camera_texture s) (local_yuv_renderer s) (remote_yuv_renderer s).
Definition set_has_remote_description (s : t) (v : bool) : t :=
  mk (remote_sdp_text s) (local_sdp_text s) (pending_remote_sdp s) (status_line s) (engine s) v
    (has_local_description s) (is_local_offerer s) (conn_state s) (ui_logs s) (bg_dropped s) (rtp_pkts s) (rtp_bytes
    s) (signaling_client s) (signaling_screen s) (server_addr_input s) (login_username s) (login_password s)
    (register_username s) (register_password s) (peers_online s) (current_username s) (signaling_error s) (call_flow
    s) (next_txn_id s) (config s) (last_metrics s) (current_bitrate s) (file_transfer_state s) (file_path_input s)
    (is_muted s) (local_camera_texture s) (remote_camera_texture s) (local_yuv_renderer s) (remote_yuv_renderer s).
Definition set_has_local_description (s : t) (v : bool) : t :=
  mk (remote_sdp_text s) (local_sdp_text s) (pending_remote_sdp s) (status_line s) (engine s)
    (has_remote_description s) v (is_local_offerer s) (conn_state s) (ui_logs s) (bg_dropped s) (rtp_pkts s)
    (rtp_bytes s) (signaling_client s) (signaling_screen s) (server_addr_input s) (login_username s) (login_password
    s) (register_username s) (register_password s) (peers_online s) (current_username s) (signaling_error s)
    (call_flow s) (next_txn_id s) (config s) (last_metrics s) (current_bitrate s) (file_transfer_state s)
    (file_path_input s) (is_muted s) (local_camera_texture s) (remote_camera_texture s) (local_yuv_renderer s)
    (remote_yuv_renderer s).
Definition set_is_local_offerer (s : t) (v : bool) : t :=
  mk (remote_sdp_text s) (local_sdp_text s) (pending_remote_sdp s) (status_line s) (engine s)
    (has_remote_description s) (has_local_description s) v (conn_state s) (ui_logs s) (bg_dropped s) (rtp_pkts s)
    (rtp_bytes s) (signaling_client s) (signaling_screen s) (server_addr_input s) (login_username s) (login_password
    s) (register_username s) (register_password s) (peers_online s) (current_username s) (signaling_error s)
    (call_flow s) (next_txn_id s) (config s) (last_metrics s) (current_bitrate s) (file_transfer_state s)
    (file_path_input s) (is_muted s) (local_camera_texture s) (remote_camera_texture s) (local_yuv_renderer s)
    (remote_yuv_renderer s).
Definition set_conn_state (s : t) (v : ConnState.t) : t :=
  mk (remote_sdp_text s) (local_sdp_text s) (pending_remote_sdp s) (status_line s) (engine s)
    (has_remote_description s) (has_local_description s) (is_local_offerer s) v (ui_logs s) (bg_dropped s) (rtp_pkts
    s) (rtp_bytes s) (signaling_client s) (signaling_screen s) (server_addr_input s) (login_username s)
    (login_password s) (register_username s) (register_password s) (peers_online s) (current_username s)
    (signaling_error s) (call_flow s) (next_txn_id s) (config s) (last_metrics s) (current_bitrate s)
    (file_transfer_state s) (file_path_input s) (is_muted s) (local_camera_texture s) (remote_camera_texture s)
    (local_yuv_renderer s) (remote_yuv_renderer s).
Definition set_ui_logs (s : t) (v : list bytes) : t :=
  mk (remote_sdp_text s) (local_sdp_text s) (pending_remote_sdp s) (status_line s) (engine s)
    (has_remote_description s) (has_local_description s) (is_local_offerer s) (conn_state s) v (bg_dropped s)
    (rtp_pkts s) (rtp_bytes s) (signaling_client s) (signaling_screen s) (server_addr_input s) (login_username s)
    (login_password s) (register_username s) (register_password s) (peers_online s) (current_username s)
    (signaling_error s) (call_flow s) (next_txn_id s) (config s) (last_metrics s) (current_bitrate s)
    (file_transfer_state s) (file_path_input s) (is_muted s) (local_camera_texture s) (remote_camera_texture s)
    (local_yuv_renderer s) (remote_yuv_renderer s).
Definition set_bg_dropped (s : t) (v : Z) : t :=
  mk (remote_sdp_text s) (local_sdp_text s) (pending_remote_sdp s) (status_line s) (engine s)
    (has_remote_description s) (has_local_description s) (is_local_offerer s) (conn_state s) (ui_logs s) v (rtp_pkts
    s) (rtp_bytes s) (signaling_client s) (signaling_screen s) (server_addr_input s) (login_username s)
    (login_password s) (register_username s) (register_password s) (peers_online s) (current_username s)
    (signaling_error s) (call_flow s) (next_txn_id s) (config s) (last_metrics s) (current_bitrate s)
    (file_transfer_state s) (file_path_input s) (is_muted s) (local_camera_texture s) (remote_camera_texture s)
    (local_yuv_renderer s) (remote_yuv_renderer s).
Definition set_rtp_pkts (s : t) (v : Z) : t :=
  mk (remote_sdp_text s) (local_sdp_text s) (pending_remote_sdp s) (status_line s) (engine s)
    (has_remote_description s) (has_local_description s) (is_local_offerer s) (conn_state s) (ui_logs s) (bg_dropped
    s) v (rtp_bytes s) (signaling_client s) (signaling_screen s) (server_addr_input s) (login_username s)
    (login_password s) (register_username s) (register_password s) (peers_online s) (current_username s)
    (signaling_error s) (call_flow s) (next_txn_id s) (config s) (last_metrics s) (current_bitrate s)
    (file_transfer_state s) (file_path_input s) (is_muted s) (local_camera_texture s) (remote_camera_texture s)
    (local_yuv_renderer s) (remote_yuv_renderer s).
Definition set_rtp_bytes (s : t) (v : Z) : t :=
  mk (remote_sdp_text s) (local_sdp_text s) (pending_remote_sdp s) (status_line s) (engine s)
    (has_remote_description s) (has_local_description s) (is_local_offerer s) (conn_state s) (ui_logs s) (bg_dropped
    s) (rtp_pkts s) v (signaling_client s) (signaling_screen s) (server_addr_input s) (login_username s)
    (login_password s) (register_username s) (register_password s) (peers_online s) (current_username s)
    (signaling_error s) (call_flow s) (next_txn_id s) (config s) (last_metrics s) (current_bitrate s)
    (file_transfer_state s) (file_path_input s) (is_muted s) (local_camera_texture s) (remote_camera_texture s)
    (local_yuv_renderer s) (remote_yuv_renderer s).
Definition set_signaling_client (s : t) (v : option bool) : t :=
  mk (remote_sdp_text s) (local_sdp_text s) (pending_remote_sdp s) (status_line s) (engine s)
    (has_remote_description s) (has_local_description s) (is_local_offerer s) (conn_state s) (ui_logs s) (bg_dropped
    s) (rtp_pkts s) (rtp_bytes s) v (signaling_screen s) (server_addr_input s) (login_username s) (login_password s)
    (register_username s) (register_password s) (peers_online s) (current_username s) (signaling_error s) (call_flow
    s) (next_txn_id s) (config s) (last_metrics s) (current_bitrate s) (file_transfer_state s) (file_path_input s)
    (is_muted s) (local_camera_texture s) (remote_camera_texture s) (local_yuv_renderer s) (remote_yuv_renderer s).
Definition set_signaling_screen (s : t) (v : SignalingScreen.t) : t :=
  mk (remote_sdp_text s) (local_sdp_text s) (pending_remote_sdp s) (status_line s) (engine s)
    (has_remote_description s) (has_local_description s) (is_local_offerer s) (conn_state s) (ui_logs s) (bg_dropped
    s) (rtp_pkts s) (rtp_bytes s) (signaling_client s) v (server_addr_input s) (login_username s) (login_password s)
    (register_username s) (register_password s) (peers_online s) (current_username s) (signaling_error s) (call_flow
    s) (next_txn_id s) (config s) (last_metrics s) (current_bitrate s) (file_transfer_state s) (file_path_input s)
    (is_muted s) (local_camera_texture s) (remote_camera_texture s) (local_yuv_renderer s) (remote_yuv_renderer s).
Definition set_server_addr_input (s : t) (v : bytes) : t :=
  mk (remote_sdp_text s) (local_sdp_text s) (pending_remote_sdp s) (status_line s) (engine s)
    (has_remote_description s) (has_local_description s) (is_local_offerer s) (conn_state s) (ui_logs s) (bg_dropped
    s) (rtp_pkts s) (rtp_bytes s) (signaling_client s) (signaling_screen s) v (login_username s) (login_password s)
    (register_username s) (register_password s) (peers_online s) (current_username s) (signaling_error s) (call_flow
    s) (next_txn_id s) (config s) (last_metrics s) (current_bitrate s) (file_transfer_state s) (file_path_input s)
    (is_muted s) (local_camera_texture s) (remote_camera_texture s) (local_yuv_renderer s) (remote_yuv_renderer s).
Definition set_login_username (s : t) (v : bytes) : t :=
  mk (remote_sdp_text s) (local_sdp_text s) (pending_remote_sdp s) (status_line s) (engine s)
    (has_remote_description s) (has_local_description s) (is_local_offerer s) (conn_state s) (ui_logs s) (bg_dropped
    s) (rtp_pkts s) (rtp_bytes s) (signaling_client s) (signaling_screen s) (server_addr_input s) v (login_password
    s) (register_username s) (register_password s) (peers_online s) (current_username s) (signaling_error s)
    (call_flow s) (next_txn_id s) (config s) (last_metrics s) (current_bitrate s) (file_transfer_state s)
    (file_path_input s) (is_muted s) (local_camera_texture s) (remote_camera_texture s) (local_yuv_renderer s)
    (remote_yuv_renderer s).
Definition set_login_password (s : t) (v : bytes) : t :=
  mk (remote_sdp_text s) (local_sdp_text s) (pending_remote_sdp s) (status_line s) (engine s)
    (has_remote_description s) (has_local_description s) (is_local_offerer s) (conn_state s) (ui_logs s) (bg_dropped
    s) (rtp_pkts s) (rtp_bytes s) (signaling_client s) (signaling_screen s) (server_addr_input s) (login_username s)
    v (register_username s) (register_password s) (peers_online s) (current_username s) (signaling_error s)
    (call_flow s) (next_txn_id s) (config s) (last_metrics s) (current_bitrate s) (file_transfer_state s)
    (file_path_input s) (is_muted s) (local_camera_texture s) (remote_camera_texture s) (local_yuv_renderer s)
    (remote_yuv_renderer s).
Definition set_register_username (s : t) (v : bytes) : t :=
  mk (remote_sdp_text s) (local_sdp_text s) (pending_remote_sdp s) (status_line s) (engine s)
    (has_remote_description s) (has_local_description s) (is_local_offerer s) (conn_state s) (ui_logs s) (bg_dropped
    s) (rtp_pkts s) (rtp_bytes s) (signaling_client s) (signaling_screen s) (server_addr_input s) (login_username s)
    (login_password s) v (register_password s) (peers_online s) (current_username s) (signaling_error s) (call_flow
    s) (next_txn_id s) (config s) (last_metrics s) (current_bitrate s) (file_transfer_state s) (file_path_input s)
    (is_muted s) (local_camera_texture s) (remote_camera_texture s) (local_yuv_renderer s) (remote_yuv_renderer s).
Definition set_register_password (s : t) (v : bytes) : t :=
  mk (remote_sdp_text s) (local_sdp_text s) (pending_remote_sdp s) (status_line s) (engine s)
    (has_remote_description s) (has_local_description s) (is_local_offerer s) (conn_state s) (ui_logs s) (bg_dropped
    s) (rtp_pkts s) (rtp_bytes s) (signaling_client s) (signaling_screen s) (server_addr_input s) (login_username s)
    (login_password s) (register_username s) v (peers_online s) (current_username s) (signaling_error s) (call_flow
    s) (next_txn_id s) (config s) (last_metrics s) (current_bitrate s) (file_transfer_state s) (file_path_input s)
    (is_muted s) (local_camera_texture s) (remote_camera_texture s) (local_yuv_renderer s) (remote_yuv_renderer s).
Definition set_peers_online (s : t) (v : list (bytes * PeerStatus)) : t :=
  mk (remote_sdp_text s) (local_sdp_text s) (pending_remote_sdp s) (status_line s) (engine s)
    (has_remote_description s) (has_local_description s) (is_local_offerer s) (conn_state s) (ui_logs s) (bg_dropped
    s) (rtp_pkts s) (rtp_bytes s) (signaling_client s) (signaling_screen s) (server_addr_input s) (login_username s)
    (login_password s) (register_username s) (register_password s) v (current_username s) (signaling_error s)
    (call_flow s) (next_txn_id s) (config s) (last_metrics s) (current_bitrate s) (file_transfer_state s)
    (file_path_input s) (is_muted s) (local_camera_texture s) (remote_camera_texture s) (local_yuv_renderer s)
    (remote_yuv_renderer s).
Definition set_current_username (s : t) (v : option bytes) : t :=
  mk (remote_sdp_text s) (local_sdp_text s) (pending_remote_sdp s) (status_line s) (engine s)
    (has_remote_description s) (has_local_description s) (is_local_offerer s) (conn_state s) (ui_logs s) (bg_dropped
    s) (rtp_pkts s) (rtp_bytes s) (signaling_client s) (signaling_screen s) (server_addr_input s) (login_username s)
    (login_password s) (register_username s) (register_password s) (peers_online s) v (signaling_error s) (call_flow
    s) (next_txn_id s) (config s) (last_metrics s) (current_bitrate s) (file_transfer_state s) (file_path_input s)
    (is_muted s) (local_camera_texture s) (remote_camera_texture s) (local_yuv_renderer s) (remote_yuv_renderer s).
Definition set_signaling_error (s : t) (v : option bytes) : t :=
  mk (remote_sdp_text s) (local_sdp_text s) (pending_remote_sdp s) (status_line s) (engine s)
    (has_remote_description s) (has_local_description s) (is_local_offerer s) (conn_state s) (ui_logs s) (bg_dropped
    s) (rtp_pkts s) (rtp_bytes s) (signaling_client s) (signaling_screen s) (server_addr_input s) (login_username s)
    (login_password s) (register_username s) (register_password s) (peers_online s) (current_username s) v
    (call_flow s) (next_txn_id s) (config s) (last_metrics s) (current_bitrate s) (file_transfer_state s)
    (file_path_input s) (is_muted s) (local_camera_texture s) (remote_camera_texture s) (local_yuv_renderer s)
    (remote_yuv_renderer s).
Definition set_call_flow (s : t) (v : CallFlow.t) : t :=
  mk (remote_sdp_text s) (local_sdp_text s) (pending_remote_sdp s) (status_line s) (engine s)
    (has_remote_description s) (has_local_description s) (is_local_offerer s) (conn_state s) (ui_logs s) (bg_dropped
    s) (rtp_pkts s) (rtp_bytes s) (signaling_client s) (signaling_screen s) (server_addr_input s) (login_username s)
    (login_password s) (register_username s) (register_password s) (peers_online s) (current_username s)
    (signaling_error s) v (next_txn_id s) (config s) (last_metrics s) (current_bitrate s) (file_transfer_state s)
    (file_path_input s) (is_muted s) (local_camera_texture s) (remote_camera_texture s) (local_yuv_renderer s)
    (remote_yuv_renderer s).
Definition set_next_txn_id (s : t) (v : Z) : t :=
  mk (remote_sdp_text s) (local_sdp_text s) (pending_remote_sdp s) (status_line s) (engine s)
    (has_remote_description s) (has_local_description s) (is_local_offerer s) (conn_state s) (ui_logs s) (bg_dropped
    s) (rtp_pkts s) (rtp_bytes s) (signaling_client s) (signaling_screen s) (server_addr_input s) (login_username s)
    (login_password s) (register_username s) (register_password s) (peers_online s) (current_username s)
    (signaling_error s) (call_flow s) v (config s) (last_metrics s) (current_bitrate s) (file_transfer_state s)
    (file_path_input s) (is_muted s) (local_camera_texture s) (remote_camera_texture s) (local_yuv_renderer s)
    (remote_yuv_renderer s).
Definition set_config (s : t) (v : Config.t) : t :=
  mk (remote_sdp_text s) (local_sdp_text s) (pending_remote_sdp s) (status_line s) (engine s)
    (has_remote_description s) (has_local_description s) (is_local_offerer s) (conn_state s) (ui_logs s) (bg_dropped
    s) (rtp_pkts s) (rtp_bytes s) (signaling_client s) (signaling_screen s) (server_addr_input s) (login_username s)
    (login_password s) (register_username s) (register_password s) (peers_online s) (current_username s)
    (signaling_error s) (call_flow s) (next_txn_id s) v (last_metrics s) (current_bitrate s) (file_transfer_state s)
    (file_path_input s) (is_muted s) (local_camera_texture s) (remote_camera_texture s) (local_yuv_renderer s)
    (remote_yuv_renderer s).
Definition set_last_metrics (s : t) (v : option NetworkMetrics.t) : t :=
  mk (remote_sdp_text s) (local_sdp_text s) (pending_remote_sdp s) (status_line s) (engine s)
    (has_remote_description s) (has_local_description s) (is_local_offerer s) (conn_state s) (ui_logs s) (bg_dropped
    s) (rtp_pkts s) (rtp_bytes s) (signaling_client s) (signaling_screen s) (server_addr_input s) (login_username s)
    (login_password s) (register_username s) (register_password s) (peers_online s) (current_username s)
    (signaling_error s) (call_flow s) (next_txn_id s) (config s) v (current_bitrate s) (file_transfer_state s)
    (file_path_input s) (is_muted s) (local_camera_texture s) (remote_camera_texture s) (local_yuv_renderer s)
    (remote_yuv_renderer s).
Definition set_current_bitrate (s : t) (v : option Z) : t :=
  mk (remote_sdp_text s) (local_sdp_text s) (pending_remote_sdp s) (status_line s) (engine s)
    (has_remote_description s) (has_local_description s) (is_local_offerer s) (conn_state s) (ui_logs s) (bg_dropped
    s) (rtp_pkts s) (rtp_bytes s) (signaling_client s) (signaling_screen s) (server_addr_input s) (login_username s)
    (login_password s) (register_username s) (register_password s) (peers_online s) (current_username s)
    (signaling_error s) (call_flow s) (next_txn_id s) (config s) (last_metrics s) v (file_transfer_state s)
    (file_path_input s) (is_muted s) (local_camera_texture s) (remote_camera_texture s) (local_yuv_renderer s)
    (remote_yuv_renderer s).
Definition set_file_transfer_state (s : t) (v : FileTransferState.t) : t :=
  mk (remote_sdp_text s) (local_sdp_text s) (pending_remote_sdp s) (status_line s) (engine s)
    (has_remote_description s) (has_local_description s) (is_local_offerer s) (conn_state s) (ui_logs s) (bg_dropped
    s) (rtp_pkts s) (rtp_bytes s) (signaling_client s) (signaling_screen s) (server_addr_input s) (login_username s)
    (login_password s) (register_username s) (register_password s) (peers_online s) (current_username s)
    (signaling_error s) (call_flow s) (next_txn_id s) (config s) (last_metrics s) (current_bitrate s) v
    (file_path_input s) (is_muted s) (local_camera_texture s) (remote_camera_texture s) (local_yuv_renderer s)
    (remote_yuv_renderer s).
Definition set_file_path_input (s : t) (v : bytes) : t :=
  mk (remote_sdp_text s) (local_sdp_text s) (pending_remote_sdp s) (status_line s) (engine s)
    (has_remote_description s) (has_local_description s) (is_local_offerer s) (conn_state s) (ui_logs s) (bg_dropped
    s) (rtp_pkts s) (rtp_bytes s) (signaling_client s) (signaling_screen s) (server_addr_input s) (login_username s)
    (login_password s) (register_username s) (register_password s) (peers_online s) (current_username s)
    (signaling_error s) (call_flow s) (next_txn_id s) (config s) (last_metrics s) (current_bitrate s)
    (file_transfer_state s) v (is_muted s) (local_camera_texture s) (remote_camera_texture s) (local_yuv_renderer s)
    (remote_yuv_renderer s).
Definition set_is_muted (s : t) (v : bool) : t :=
  mk (remote_sdp_text s) (local_sdp_text s) (pending_remote_sdp s) (status_line s) (engine s)
    (has_remote_description s) (has_local_description s) (is_local_offerer s) (conn_state s) (ui_logs s) (bg_dropped
    s) (rtp_pkts s) (rtp_bytes s) (signaling_client s) (signaling_screen s) (server_addr_input s) (login_username s)
    (login_password s) (register_username s) (register_password s) (peers_online s) (current_username s)
    (signaling_error s) (call_flow s) (next_txn_id s) (config s) (last_metrics s) (current_bitrate s)
    (file_transfer_state s) (file_path_input s) v (local_camera_texture s) (remote_camera_texture s)
    (local_yuv_renderer s) (remote_yuv_renderer s).
Definition set_local_camera_texture (s : t) (v : Texture.t) : t :=
  mk (remote_sdp_text s) (local_sdp_text s) (pending_remote_sdp s) (status_line s) (engine s)
    (has_remote_description s) (has_local_description s) (is_local_offerer s) (conn_state s) (ui_logs s) (bg_dropped
    s) (rtp_pkts s) (rtp_bytes s) (signaling_client s) (signaling_screen s) (server_addr_input s) (login_username s)
    (login_password s) (register_username s) (register_password s) (peers_online s) (current_username s)
    (signaling_error s) (call_flow s) (next_txn_id s) (config s) (last_metrics s) (current_bitrate s)
    (file_transfer_state s) (file_path_input s) (is_muted s) v (remote_camera_texture s) (local_yuv_renderer s)
    (remote_yuv_renderer s).
Definition set_remote_camera_texture (s : t) (v : Texture.t) : t :=
  mk (remote_sdp_text s) (local_sdp_text s) (pending_remote_sdp s) (status_line s) (engine s)
    (has_remote_description s) (has_local_description s) (is_local_offerer s) (conn_state s) (ui_logs s) (bg_dropped
    s) (rtp_pkts s) (rtp_bytes s) (signaling_client s) (signaling_screen s) (server_addr_input s) (login_username s)
    (login_password s) (register_username s) (register_password s) (peers_online s) (current_username s)
    (signaling_error s) (call_flow s) (next_txn_id s) (config s) (last_metrics s) (current_bitrate s)
    (file_transfer_state s) (file_path_input s) (is_muted s) (local_camera_texture s) v (local_yuv_renderer s)
    (remote_yuv_renderer s).
Definition set_local_yuv_renderer (s : t) (v : option GpuYuvRenderer.t) : t :=
  mk (remote_sdp_text s) (local_sdp_text s) (pending_remote_sdp s) (status_line s) (engine s)
    (has_remote_description s) (has_local_description s) (is_local_offerer s) (conn_state s) (ui_logs s) (bg_dropped
    s) (rtp_pkts s) (rtp_bytes s) (signaling_client s) (signaling_screen s) (server_addr_input s) (login_username s)
    (login_password s) (register_username s) (register_password s) (peers_online s) (current_username s)
    (signaling_error s) (call_flow s) (next_txn_id s) (config s) (last_metrics s) (current_bitrate s)
    (file_transfer_state s) (file_path_input s) (is_muted s) (local_camera_texture s) (remote_camera_texture s) v
    (remote_yuv_renderer s).
Definition set_remote_yuv_renderer (s : t) (v : option GpuYuvRenderer.t) : t :=
  mk (remote_sdp_text s) (local_sdp_text s) (pending_remote_sdp s) (status_line s) (engine s)
    (has_remote_description s) (has_local_description s) (is_local_offerer s) (conn_state s) (ui_logs s) (bg_dropped
    s) (rtp_pkts s) (rtp_bytes s) (signaling_client s) (signaling_screen s) (server_addr_input s) (login_username s)
    (login_password s) (register_username s) (register_password s) (peers_online s) (current_username s)
    (signaling_error s) (call_flow s) (next_txn_id s) (config s) (last_metrics s) (current_bitrate s)
    (file_transfer_state s) (file_path_input s) (is_muted s) (local_camera_texture s) (remote_camera_texture s)
    (local_yuv_renderer s) v.
End RtcApp.
