(* ===== verification/App.v ===== *)
(** * The application (src/app/rtc_app.rs)

    What the client does with the events of the signaling client and of the engine and with the
    buttons of its interface. A step passes the state along, collects the messages it sends, and can
    panic where the engine does. Of drawing only the conditions under which a button is there are here;
    [View] has what is shown. *)

From stdpp Require Import prelude strings.
From Stdlib Require Import ZArith Lia SpecFloat.
From S2P Require Import Prelude Utf8 Text RecvStream RtpSession Congestion SigProtocol Config ConnManager MediaTransport Sctp FileTransfer SigTransport Logger G711 Video Engine AppState.
Local Open Scope Z_scope.
Import RtcApp.

(** ** Effects *)
Inductive output : Type :=
| Signal (msg : SignalingMsg)                (* queued for the signaling server *)
| HangUp                                     (* SignalingClient::disconnect *)
| OfEngine (o : Engine.output)
| Background (level : LogLevel.t) (text : bytes).   (* the log file *)

Definition M (A : Type) : Type := t -> outcome Empty_set (t * list output * A).
#[export] Instance M_ret : MRet M := fun A a s => Ok (s, [], a).
#[export] Instance M_bind : MBind M := fun A B k m s =>
  match m s with
  | Ok (s, os, a) =>
      match k a s with
      | Ok (s, os', b) => Ok (s, os ++ os', b)
      | Err e => Err e
      | Panic => Panic
      end
  | Err e => Err e
  | Panic => Panic
  end.
Definition get : M t := fun s => Ok (s, [], s).
Definition modify (f : t -> t) : M unit := fun s => Ok (f s, [], ()).
Definition emit (os : list output) : M unit := fun s => Ok (s, os, ()).
(** An operation of the engine *)
Definition on_engine {A} (f : Engine.t -> outcome Empty_set (Engine.t * list Engine.output * A)) : M A := fun s =>
  match f (engine s) with
  | Ok (e, os, a) => Ok (set_engine s e, OfEngine <$> os, a)
  | Err e => Err e
  | Panic => Panic
  end.
Definition engine_tells (f : Engine.t -> list Engine.output) : M unit := on_engine (fun e => Ok (e, f e, ())).
Definition engine_does (f : Engine.t -> Engine.t * list Engine.output) : M unit :=
  on_engine (fun e => let '(e, os) := f e in Ok (e, os, ())).
Fixpoint each {A} (l : list A) (f : A -> M unit) : M unit :=
  match l with [] => mret () | a :: l => f a ≫= fun _ => each l f end.

(** The shared flags *)
Definition store_files (sending receiving : option bool) (s : t) : t :=
  let e := engine s in
  set_engine s (Engine.with_files e (Engine.file_handler e) (default (Engine.sending_files e) sending)
                  (default (Engine.receiving_files e) receiving)).

(** ** Logs and status *)
Definition push_ui_log (line : bytes) : M unit := modify (fun s =>
  set_ui_logs s ((if (length (ui_logs s) =? 256)%nat then drop 1 (ui_logs s) else ui_logs s) ++ [line])).
Definition background_log (level : LogLevel.t) (text : bytes) : M unit := emit [Background level text].
(** [background_log] when the queue of the log file is full *)
Definition background_dropped : M unit :=
  modify (fun s => set_bg_dropped s (bg_dropped s + 1));;
  s ← get;
  if Logger.is_multiple_of (bg_dropped s) 100
  then push_ui_log (lit "(logger) dropped " ++ dec (bg_dropped s) ++ lit " background log lines") else mret ().
Definition drain_ui_log_tap (lines : list bytes) : M unit := each lines push_ui_log.
Definition status (text : bytes) : M unit := modify (fun s => set_status_line s text).
Definition fail_with (text : bytes) : M unit :=
  modify (fun s => set_signaling_error s (Some text));; push_ui_log text.

(** What the environment answers: to the connection manager, to a new engine (fingerprint of the
    certificate, random draws and clock), to [connect_tls], to a poll, and to the start of the media and of the
    session *)
Record env : Type := Env {
  cm_env : ConnectionManager.env;
  fingerprint : option bytes;
  draws : nat -> nat;
  now : Z;
  connected : outcome bytes unit;
  connect : Engine.connect_env;
  queue : list EngineEvent.t;
  clock : nat -> Z;
  random_video : Z;
  random_audio : Z;
  agent_tx : bool;
  token : Z;
  random_ssrc : Z;
  reads : readings }.

Section app.
Context (default_hash : bytes -> Z) (keystream : bytes -> bytes -> nat -> bytes) (display_rtp : RtpSessionError -> bytes).
(** Texts of values that the program prints *)
Context (display_connection : ConnectionError.t -> bytes) (debug_gui : GuiError.t -> bytes)
        (debug_reason : option bytes -> bytes) (debug_msg : SignalingMsg -> bytes) (utf8_error : bytes -> bytes)
        (show_addr : Net.SocketAddr.t -> bytes).

(** ** Signaling *)
Definition send_signaling (msg : SignalingMsg) : M bool :=
  s ← get;
  match signaling_client s with
  | Some true => emit [Signal msg];; mret true
  | Some false =>
      fail_with (lit "Failed to send signaling message: " ++ SignalingClientError.to_string SignalingClientError.Disconnected);;
      mret false
  | None => fail_with (lit "Not connected to signaling server.");; mret false
  end.
Definition me (s : t) : bytes := default [] (current_username s).

Definition connect_to_signaling (e : env) : M unit :=
  s ← get;
  let addr := trim (server_addr_input s) in
  match addr with
  | [] => fail_with (lit "Please enter a signaling server address (host:port)")
  | _ =>
      match connected e with
      | Ok _ =>
          modify (fun s => set_signaling_error (set_signaling_screen (set_signaling_client s (Some true)) SignalingScreen.Login) None);;
          status (lit "Connecting to " ++ addr ++ lit "…")
      | Err err => fail_with (lit "Failed to connect to signaling server: " ++ err)
      | Panic => mret ()
      end
  end.
Definition clear_signaling_state (s : t) : t :=
  set_call_flow (set_peers_online (set_current_username (set_signaling_screen (set_signaling_client s None)
    SignalingScreen.Connect) None) []) CallFlow.Idle.
Definition disconnect_from_signaling : M unit :=
  s ← get;
  emit (if is_some (signaling_client s) then [HangUp] else []);;
  modify clear_signaling_state;;
  status (lit "Disconnected from signaling server.").

Definition request_peer_list : M unit := send_signaling ListPeers;; mret ().

Definition send_local_candidates (peer : bytes) : M unit :=
  s ← get;
  match current_username s with
  | None => modify (fun s => set_signaling_error s (Some (lit "Please login before sending candidates.")))
  | Some user =>
      each (Engine.local_candidates_as_sdp_lines (engine s))
        (fun cand_line => send_signaling (Candidate user peer (lit "0") 0 cand_line);; mret ())
  end.
Definition send_bye (peer : bytes) (reason : option bytes) : M unit :=
  s ← get;
  match current_username s with
  | None => mret ()
  | Some user => send_signaling (Bye user peer reason);; mret ()
  end.

(** ** Calls *)
Definition current_peer (s : t) : option bytes :=
  match call_flow s with
  | CallFlow.Dialing peer _ | CallFlow.Active peer | CallFlow.Incoming peer _ _ => Some peer
  | CallFlow.Idle => None
  end.

Definition teardown_call (e : env) (reason : option bytes) (bye : bool) : M unit :=
  s ← get;
  match (if bye then current_peer s else None) with Some peer => send_bye peer reason | None => mret () end;;
  engine_does Engine.stop;;
  modify (fun s => store_files (Some false) (Some false) (set_file_path_input (set_file_transfer_state s FileTransferState.Idle) []));;
  s ← get;
  on_engine (fun old =>
    match Engine.new (config s) (Engine.sending_files old) (Engine.receiving_files old) (fingerprint e) (draws e) (now e) with
    | Ok (x, os) => Ok (x, os, ())
    | Err e => Err e
    | Panic => Panic
    end);;
  modify (fun s => set_remote_sdp_text (set_local_sdp_text (set_has_remote_description (set_has_local_description
    (set_pending_remote_sdp (set_conn_state (set_call_flow s CallFlow.Idle) ConnState.Idle) None) false) false) []) []);;
  modify (fun s => set_remote_camera_texture (set_local_camera_texture s None) None);;
  status (match reason with Some r => lit "Call ended: " ++ r | None => lit "Call ended." end).
Definition decline_incoming_call (e : env) : M unit := teardown_call e (Some (lit "declined")) true.

Definition gui_error (prefix : bytes) (e : ConnectionError.t) : GuiError.t :=
  GuiError.Connection (ConnectionError.Negotiation (prefix ++ display_connection e)).
Definition create_or_renegotiate_local_sdp (e : env) : M (outcome GuiError.t unit) :=
  r ← on_engine (fun x => let '(x, ds, r) := Engine.negotiate default_hash x (cm_env e) in Ok (x, Engine.Datagram <$> ds, r));
  match r with
  | Ok (Some sdp) =>
      modify (fun s => set_is_local_offerer (set_has_local_description (set_local_sdp_text s sdp) true) true);;
      status (lit "Local OFFER created. Share it with the peer.");; mret (Ok ())
  | Ok None => status (lit "Negotiation already in progress (have-local-offer).");; mret (Ok ())
  | Err err => mret (Err (gui_error (lit "negotiate: ") err))
  | Panic => fun _ => Panic
  end.
Definition set_remote_sdp (e : env) (sdp_str : bytes) : M (outcome GuiError.t unit) :=
  r ← on_engine (fun x => let '(x, ds, r) := Engine.apply_remote_sdp default_hash x (cm_env e) sdp_str in Ok (x, Engine.Datagram <$> ds, r));
  match r with
  | Ok answer =>
      match answer with
      | Some answer =>
          modify (fun s => set_is_local_offerer (set_has_local_description (set_local_sdp_text s answer) true) false);;
          status (lit "Remote OFFER set → Local ANSWER created. Share it back.")
      | None => status (lit "Remote ANSWER set.")
      end;;
      modify (fun s => set_has_remote_description s true);; mret (Ok ())
  | Err err => mret (Err (gui_error (lit "apply_remote_sdp: ") err))
  | Panic => fun _ => Panic
  end.

Definition start_outgoing_call (e : env) (peer : bytes) : M unit :=
  s ← get;
  if negb (bool_decide (call_flow s = CallFlow.Idle)) then status (lit "Finish or cancel the current call first.")
  else if negb (is_some (current_username s)) then
    modify (fun s => set_signaling_error s (Some (lit "Please login before calling.")))
  else
    r ← create_or_renegotiate_local_sdp e;
    match r with
    | Err err => status (lit "Failed to create local SDP: " ++ debug_gui err)
    | _ =>
        s ← get;
        if bool_decide (trim (local_sdp_text s) = []) then status (lit "Local SDP is empty.")
        else
          let txn_id := next_txn_id s in
          modify (fun s => set_next_txn_id s (txn_id + 1));;
          sent ← send_signaling (Offer txn_id (me s) peer (local_sdp_text s));
          if (sent : bool) then
            modify (fun s => set_call_flow s (CallFlow.Dialing peer txn_id));;
            status (lit "Sent offer to " ++ peer);;
            send_local_candidates peer
          else mret ()
    end.
Definition accept_incoming_call (e : env) : M unit :=
  s ← get;
  match call_flow s with
  | CallFlow.Incoming from txn_id sdp =>
      r ← set_remote_sdp e sdp;
      match r with
      | Err err => status (lit "Failed to accept call: " ++ debug_gui err)
      | _ =>
          s ← get;
          if bool_decide (trim (local_sdp_text s) = []) then status (lit "Answer not generated.")
          else
            sent ← send_signaling (Answer txn_id (me s) from (local_sdp_text s));
            if (sent : bool) then
              modify (fun s => set_call_flow s (CallFlow.Active from));;
              status (lit "Sent answer to " ++ from);;
              send_local_candidates from
            else mret ()
      end
  | _ => mret ()
  end.

(** ** Messages of the server *)
Definition handle_signaling_server_msg (e : env) (msg : SignalingMsg) : M unit :=
  match msg with
  | LoginOk username =>
      modify (fun s => set_signaling_screen (set_current_username s (Some username)) SignalingScreen.Home);;
      status (lit "Logged in as " ++ username);;
      modify (fun s => set_login_password s []);;
      request_peer_list
  | LoginErr code => fail_with (lit "Login failed with code " ++ dec code)
  | RegisterOk username =>
      status (lit "Registered " ++ username ++ lit ". You can now log in.");;
      modify (fun s => set_login_username s username)
  | RegisterErr code => fail_with (lit "Registration failed with code " ++ dec code)
  | PeersOnline peers => modify (fun s => set_peers_online s peers)
  | Offer txn_id from _ sdp =>
      s ← get;
      if negb (bool_decide (call_flow s = CallFlow.Idle)) then
        background_log LogLevel.Info (lit "Auto-rejecting call from " ++ from ++ lit " (busy)");;
        send_signaling (Bye (me s) from (Some (lit "User is busy")));; mret ()
      else if utf8_valid sdp then
        modify (fun s => set_call_flow (set_remote_sdp_text s sdp) (CallFlow.Incoming from txn_id sdp));;
        status (lit "Incoming call from " ++ from);;
        send_signaling (Ack (me s) from txn_id);; mret ()
      else push_ui_log (lit "Invalid SDP from " ++ from ++ lit ": " ++ utf8_error sdp)
  | Answer txn_id from _ sdp =>
      if utf8_valid sdp then
        modify (fun s => set_call_flow (set_pending_remote_sdp (set_remote_sdp_text s sdp) (Some sdp)) (CallFlow.Active from));;
        status (lit "Received answer from " ++ from);;
        s ← get;
        send_signaling (Ack (me s) from txn_id);; mret ()
      else push_ui_log (lit "Invalid answer from " ++ from ++ lit ": " ++ utf8_error sdp)
  | Candidate from _ _ _ cand =>
      if utf8_valid cand then
        r ← on_engine (fun x => let '(x, ds, r) := Engine.apply_remote_candidate x cand in Ok (x, Engine.Datagram <$> ds, r));
        match r with
        | Ok _ => push_ui_log (lit "Applied ICE candidate from " ++ from)
        | Err err => fail_with (lit "Failed to apply ICE candidate from " ++ from ++ lit ": " ++ display_connection err)
        | Panic => fun _ => Panic
        end
      else push_ui_log (lit "Invalid ICE candidate from " ++ from ++ lit ": " ++ utf8_error cand)
  | Ping nonce => send_signaling (Pong nonce);; mret ()
  | Bye from _ reason =>
      push_ui_log (lit "Peer " ++ from ++ lit " ended call: " ++ debug_reason reason);;
      teardown_call e reason false
  | Ack from _ txn_id => push_ui_log (lit "Received ACK from " ++ from ++ lit " for txn_id=" ++ dec txn_id)
  | other => background_log LogLevel.Debug (lit "Unhandled signaling message: " ++ debug_msg other)
  end.
Definition handle_signaling_event (e : env) (event : SignalingEvent.t) : M unit :=
  match event with
  | SignalingEvent.Connected => status (lit "Connected to signaling server.")
  | SignalingEvent.Disconnected => push_ui_log (lit "Signaling server disconnected.");; modify clear_signaling_state
  | SignalingEvent.Error err =>
      modify (fun s => set_signaling_error s (Some err));; push_ui_log (lit "Signaling error: " ++ err)
  | SignalingEvent.ServerMsg msg => handle_signaling_server_msg e msg
  end.
Definition poll_signaling_events (e : env) (events : list SignalingEvent.t) : M unit :=
  s ← get;
  if is_some (signaling_client s) then each events (handle_signaling_event e) else mret ().

(** ** Events of the engine *)

(** [str::contains] *)
Fixpoint contains (p s : bytes) : bool :=
  starts_with p s || match s with [] => false | _ :: r => contains p r end.
(** [(current as f32 / total as f32) * 100.0] *)
Definition percent (current total : Z) : spec_float :=
  SFmul 24 128 (SFdiv 24 128 (f32_of_Z current) (f32_of_Z total)) (f32_of_Z 100).

Definition handle_engine_event (e : env) (ev : EngineEvent.t) : M unit :=
  match ev with
  | EngineEvent.Log m =>
      background_log (LogMsg.level m) (LogMsg.target m ++ lit " | " ++ LogMsg.text m);;
      if Logger.urgent (LogMsg.level m)
      then push_ui_log (lit "[" ++ Logger.level_name (LogMsg.level m) ++ lit "] " ++ LogMsg.target m ++ lit " — " ++ LogMsg.text m)
      else mret ()
  | EngineEvent.Status text =>
      background_log LogLevel.Info text;;
      push_ui_log text;;
      if contains (lit "File download complete") text then
        modify (fun s => store_files None (Some false) (set_file_transfer_state s (FileTransferState.Finished text)))
      else mret ()
  | EngineEvent.Established =>
      modify (fun s => set_conn_state s ConnState.Running);;
      status (lit "Established.");;
      on_engine (fun x =>
        '(x, _, os) ← Engine.start_media_transport x (random_video e) (random_audio e) (agent_tx e); Ok (x, os, ()))
  | EngineEvent.Closing _ =>
      modify (fun s => set_call_flow (set_conn_state s ConnState.Stopped) CallFlow.Idle)
  | EngineEvent.Closed =>
      modify (fun s => set_conn_state s ConnState.Stopped);;
      status (lit "Closed.");;
      on_engine (fun x => x ← Engine.close_session x (draws e); Ok (x, [], ()));;
      modify (fun s => set_call_flow s CallFlow.Idle)
  | EngineEvent.RtpIn r =>
      let len := Z.of_nat (length (RtpIn.payload r)) in
      modify (fun s => set_rtp_bytes (set_rtp_pkts s (rtp_pkts s + 1)) (rtp_bytes s + len));;
      background_log LogLevel.Debug (lit "[RTP] " ++ dec len ++ lit " bytes PT=" ++ dec (RtpIn.pt r))
  | EngineEvent.Error err =>
      status (lit "Error: " ++ err);; background_log LogLevel.Error err;; push_ui_log err
  | EngineEvent.IceNominated local remote =>
      status (lit "ICE nominated. Press Start.");;
      background_log LogLevel.Info (lit "[ICE] nominated local=" ++ show_addr local ++ lit " remote=" ++ show_addr remote)
  | EngineEvent.NetworkMetrics m => modify (fun s => set_last_metrics s (Some m))
  | EngineEvent.UpdateBitrate bps => modify (fun s => set_current_bitrate s (Some bps))
  | EngineEvent.ReceivedFileOffer p =>
      status (lit "File offer: " ++ SctpFileProperties.file_name p ++ lit " (" ++ dec (SctpFileProperties.file_size p) ++ lit ")");;
      modify (fun s => set_file_transfer_state s (FileTransferState.RemoteOffered p))
  | EngineEvent.ReceivedFileAccept id => status (lit "Peer accepted file (id: " ++ dec id ++ lit "). Sending...")
  | EngineEvent.ReceivedFileReject id =>
      status (lit "Peer rejected file (id: " ++ dec id ++ lit ").");;
      modify (fun s => store_files (Some false) None (set_file_transfer_state s FileTransferState.Idle))
  | EngineEvent.ReceivedFileCancel id =>
      status (lit "File transfer cancelled (id: " ++ dec id ++ lit ").");;
      modify (fun s => store_files (Some false) (Some false) (set_file_transfer_state s FileTransferState.Idle))
  | EngineEvent.SendFileOffer p =>
      modify (fun s => set_file_transfer_state s
        (FileTransferState.Sending (SctpFileProperties.transaction_id p) (SctpFileProperties.file_name p) (f32_of_Z 0)))
  | EngineEvent.SendFileChunk _ _ | EngineEvent.SendFileAccept _ | EngineEvent.SendFileReject _
  | EngineEvent.SendFileCancel _ | EngineEvent.ReceivedFileChunk _ _ _ => mret ()
  | EngineEvent.SendFileEnd _ =>
      status (lit "File transfer finished (sent).");;
      modify (fun s => store_files (Some false) None (set_file_transfer_state s FileTransferState.Idle))
  | EngineEvent.ReceivedFileEnd _ =>
      status (lit "File transfer finished (received).");;
      modify (fun s => store_files None (Some false) (set_file_transfer_state s FileTransferState.Idle))
  | EngineEvent.UploadProgress id current total => modify (fun s =>
      match file_transfer_state s with
      | FileTransferState.Sending current_id filename progress =>
          if current_id =? id then set_file_transfer_state s (FileTransferState.Sending current_id filename (percent current total)) else s
      | _ => s
      end)
  | EngineEvent.DownloadProgress id current => modify (fun s =>
      match file_transfer_state s with
      | FileTransferState.Receiving current_id filename total_size progress =>
          if (current_id =? id) && (0 <? total_size)
          then set_file_transfer_state s (FileTransferState.Receiving current_id filename total_size (percent current total_size)) else s
      | _ => s
      end)
  | EngineEvent.ToggleAudio muted => modify (fun s => set_is_muted s muted)
  end.
(** The events that the queue of the engine still holds stay in it. *)
Definition poll_engine_events (e : env) : M (list EngineEvent.t) :=
  '(evs, rest) ← on_engine (fun x =>
     '(x, evs, os, rest) ← Engine.poll x (connect e) (queue e) (now e) (clock e); Ok (x, os, (evs, rest)));
  each evs (handle_engine_event e);; mret rest.

(** ** The interface *)
Inductive action : Type :=
| Connect | Login_ | Register_ | Disconnect | Refresh
| Call (peer : bytes) | CancelCall | Accept | Decline | HangUpCall | HangUpWindow
| StartConnection | EndCall | ToggleMute
| SendFile (id : Z) | CancelFile | AcceptFile | RejectFile | Dismiss
| EditServer (text : bytes) | EditLogin (user password : bytes) | EditRegister (user password : bytes) | EditPath (text : bytes).

Definition on_screen (s : t) (x : SignalingScreen.t) : bool := bool_decide (signaling_screen s = x).
Definition can_start (s : t) : bool :=
  has_remote_description s && has_local_description s
  && (bool_decide (conn_state s = ConnState.Idle) || bool_decide (conn_state s = ConnState.Stopped)).
Definition busy (s : t) : bool := negb (bool_decide (call_flow s = CallFlow.Idle)).
Definition running (s : t) : bool := bool_decide (conn_state s = ConnState.Running).
Definition transferring (s : t) : bool := Engine.sending_files (engine s) || Engine.receiving_files (engine s).

(** The window with the cameras is shown while the connection runs or there is a texture. *)
Definition have_any_texture (s : t) : bool := is_some (local_camera_texture s) || is_some (remote_camera_texture s).
Definition camera_window (s : t) : bool := running s || have_any_texture s.

(** Whether the button is there and enabled *)
Definition available (s : t) (a : action) : bool :=
  match a with
  | Connect | EditServer _ => on_screen s SignalingScreen.Connect
  | Login_ | Register_ | EditLogin _ _ | EditRegister _ _ => on_screen s SignalingScreen.Login
  | Disconnect => on_screen s SignalingScreen.Login || on_screen s SignalingScreen.Home
  | Refresh | ToggleMute => on_screen s SignalingScreen.Home
  | Call peer =>
      on_screen s SignalingScreen.Home && negb (busy s) && existsb (fun p => bool_decide (p = (peer, Available))) (peers_online s)
  | CancelCall => on_screen s SignalingScreen.Home && match call_flow s with CallFlow.Dialing _ _ => true | _ => false end
  | Accept | Decline => on_screen s SignalingScreen.Home && match call_flow s with CallFlow.Incoming _ _ _ => true | _ => false end
  | HangUpCall => on_screen s SignalingScreen.Home && match call_flow s with CallFlow.Active _ => true | _ => false end
  | HangUpWindow => camera_window s
  | StartConnection => on_screen s SignalingScreen.Home && can_start s
  | EndCall => on_screen s SignalingScreen.Home && running s
  | SendFile _ | EditPath _ =>
      on_screen s SignalingScreen.Home && match file_transfer_state s with FileTransferState.Idle => running s && negb (transferring s) | _ => false end
  | CancelFile =>
      on_screen s SignalingScreen.Home &&
      match file_transfer_state s with
      | FileTransferState.Idle => negb (running s && negb (transferring s)) && transferring s
      | FileTransferState.Sending _ _ _ | FileTransferState.Receiving _ _ _ _ => true
      | _ => false
      end
  | AcceptFile | RejectFile =>
      on_screen s SignalingScreen.Home && match file_transfer_state s with FileTransferState.RemoteOffered _ => true | _ => false end
  | Dismiss => on_screen s SignalingScreen.Home && match file_transfer_state s with FileTransferState.Finished _ => true | _ => false end
  end.

Definition cancel_transfer : M unit :=
  s ← get;
  match file_transfer_state s with
  | FileTransferState.Idle =>
      engine_tells (fun x => Engine.cancel_file x 0);; modify (store_files (Some false) (Some false))
  | FileTransferState.Sending id _ _ =>
      engine_tells (fun x => Engine.cancel_file x id);;
      modify (fun s => set_file_transfer_state (store_files (Some false) None s) FileTransferState.Idle)
  | FileTransferState.Receiving id _ _ _ =>
      engine_tells (fun x => Engine.cancel_file x id);;
      modify (fun s => set_file_transfer_state (store_files None (Some false) s) FileTransferState.Idle)
  | _ => mret ()
  end.
Definition send_file (id : Z) : M unit :=
  s ← get;
  let path := trim (file_path_input s) in
  if bool_decide (path = []) then background_log LogLevel.Warn (lit "[UI] User clicked Send File but path is empty")
  else
    background_log LogLevel.Info (lit "[UI] User clicked Send File for path: " ++ path);;
    engine_does (fun x => Engine.send_file x path id);;
    status (lit "Preparing file...").

Definition perform (e : env) (a : action) : M unit :=
  s ← get;
  match a with
  | Connect => connect_to_signaling e
  | Login_ => send_signaling (Login (login_username s) (login_password s));; mret ()
  | Register_ => send_signaling (Register (register_username s) (register_password s));; mret ()
  | Disconnect => disconnect_from_signaling
  | Refresh => request_peer_list
  | Call peer => start_outgoing_call e peer
  | CancelCall => teardown_call e (Some (lit "cancelled")) true
  | Accept => accept_incoming_call e
  | Decline => decline_incoming_call e
  | HangUpCall | HangUpWindow => teardown_call e (Some (lit "hangup")) true
  | StartConnection =>
      r ← on_engine (fun x =>
        match Engine.start keystream display_rtp x (token e) (random_ssrc e) (reads e) with
        | (_, _, Panic) => Panic
        | (x, os, r) => Ok (x, os, r)
        end);
      match r with Err err => status (lit "Failed to start: " ++ err) | _ => mret () end
  | EndCall => teardown_call e (Some (lit "stopped")) true
  | ToggleMute =>
      modify (fun s => set_is_muted s (negb (is_muted s)));;
      engine_tells (fun _ => Engine.set_audio_mute (negb (is_muted s)))
  | SendFile id => send_file id
  | CancelFile => cancel_transfer
  | AcceptFile =>
      match file_transfer_state s with
      | FileTransferState.RemoteOffered p =>
          engine_does (fun x => Engine.accept_file x (SctpFileProperties.transaction_id p) (SctpFileProperties.file_name p));;
          modify (fun s => set_file_transfer_state s (FileTransferState.Receiving (SctpFileProperties.transaction_id p)
            (SctpFileProperties.file_name p) (SctpFileProperties.file_size p) (f32_of_Z 0)))
      | _ => mret ()
      end
  | RejectFile =>
      match file_transfer_state s with
      | FileTransferState.RemoteOffered p =>
          engine_tells (fun x => Engine.reject_file x (SctpFileProperties.transaction_id p));;
          modify (fun s => set_file_transfer_state s FileTransferState.Idle)
      | _ => mret ()
      end
  | Dismiss => modify (fun s => set_file_transfer_state s FileTransferState.Idle)
  | EditServer text => modify (fun s => set_server_addr_input s text)
  | EditLogin user password => modify (fun s => set_login_password (set_login_username s user) password)
  | EditRegister user password => modify (fun s => set_register_password (set_register_username s user) password)
  | EditPath text => modify (fun s => set_file_path_input s text)
  end.

(** ** One frame *)

(** The repaint interval: [1 / ui_fps] in 64 bits *)
Definition repaint_time (config : Config.t) : outcome Empty_set Z :=
  let ui_fps := match Config.get config (lit "UI") (lit "fps") with
                | Some text => match from_str_radix 10 u64_max text with Ok v => v | _ => 60 end
                | None => 60
                end in
  if ui_fps =? 0 then Panic else Ok (1 / ui_fps).
(** [update] up to the drawing: the description that waits, the events of the engine and of the
    server, the log lines. The result is what the queue of the engine still holds. *)
Definition update (e : env) (events : list SignalingEvent.t) (lines : list bytes) : M (list EngineEvent.t) :=
  s ← get;
  (fun s => _ ← repaint_time (config s); Ok (s, [], ()));;
  match pending_remote_sdp s with
  | Some sdp =>
      modify (fun s => set_pending_remote_sdp s None);;
      r ← set_remote_sdp e sdp;
      match r with
      | Err err => status (lit "Failed to set remote SDP: " ++ debug_gui err)
      | _ => status (lit "Remote SDP processed.")
      end
  | None => mret ()
  end;;
  rest ← poll_engine_events e;
  poll_signaling_events e events;;
  drain_ui_log_tap lines;;
  mret rest.

(** The frames that [update] draws, from those that the media agent has *)
Definition frames_shown (s : t) (snapshot : option VideoFrame.t * option VideoFrame.t) : option VideoFrame.t * option VideoFrame.t :=
  match call_flow s with CallFlow.Idle => (None, None) | _ => snapshot end.

Definition SERVER_ADDR : bytes := lit "127.0.0.1:5005".
(** [RtcApp::new]; [gpu]: there is a graphics card to render with *)
Definition new (cfg : Config.t) (e : env) (gpu : bool) : outcome Empty_set (t * list output) :=
  let renderer := if gpu then Some GpuYuvRenderer.new else None in
  match Engine.new cfg false false (fingerprint e) (draws e) (now e) with
  | Ok (x, os) =>
      Ok (mk [] [] None (lit "Ready.") x false false false ConnState.Idle [] 0 0 0 None SignalingScreen.Connect
            (Config.get_non_empty_or_default cfg (lit "Signaling") (lit "server_address") SERVER_ADDR)
            [] [] [] [] [] None None CallFlow.Idle 1 cfg None None FileTransferState.Idle [] false None None renderer renderer,
          OfEngine <$> os)
  | Err e => Err e
  | Panic => Panic
  end.
End app.
