(* ===== verification/View.v ===== *)
(** * What the application shows (src/app: rtc_app.rs, utils.rs)

    The second half of [update]: the checks of the frames, the textures made for them, the window with
    the cameras and the panels, with what they say of the network. Widgets are values; how the library
    of the interface draws them is left out, and so is the printing of numbers with decimals. *)

From stdpp Require Import prelude strings.
From Stdlib Require Import ZArith Lia SpecFloat.
From S2P Require Import Prelude Utf8 Text AppSession RecvStream RtpSession MediaTransport FileTransfer Logger G711 Video AppState App.
Import RtcApp.
Local Open Scope Z_scope.

Local Abbreviation mul32 := (SFmul 24 128).
Local Abbreviation div32 := (SFdiv 24 128).

(** ** Pictures *)
Inductive picture : Type := Image (texture_id : Z) (x y : spec_float) | NoCamera (x y : spec_float).

Definition f32_min (a b : spec_float) : spec_float := if SFltb b a then b else a.
Definition show_camera_in_ui (texture : Texture.t) (max_w max_h : spec_float) : picture :=
  match texture with
  | Some (texture_id, (w, h)) =>
      let tex_x := f32_of_Z w in
      let tex_y := f32_of_Z h in
      let '(x, y) := if SFltb max_w tex_x then (max_w, div32 (mul32 max_w tex_y) tex_x) else (tex_x, tex_y) in
      let '(x, y) := if SFltb max_h y then (div32 (mul32 max_h x) y, max_h) else (x, y) in
      Image texture_id x y
  | None => NoCamera (f32_min max_w (f32_of_Z 128)) (f32_min max_h (f32_of_Z 128))
  end.

Definition CAMERAS_WINDOW_WIDTH : Z := 800.
Definition CAMERAS_WINDOW_HEIGHT : Z := 400.
Definition LOCAL_CAMERA_SIZE : Z := 400.
Definition REMOTE_CAMERA_SIZE : Z := 400.

(** The pictures in the window with the cameras; [None]: there is no window *)
Definition render_camera_view (s : t) : option (list picture) :=
  if camera_window s then
    let only_remote := negb (is_some (local_camera_texture s)) && is_some (remote_camera_texture s) in
    Some (if only_remote
          then [show_camera_in_ui (remote_camera_texture s) (f32_of_Z (CAMERAS_WINDOW_WIDTH - 16)) (f32_of_Z (CAMERAS_WINDOW_HEIGHT - 16))]
          else [show_camera_in_ui (local_camera_texture s) (f32_of_Z LOCAL_CAMERA_SIZE) (f32_of_Z LOCAL_CAMERA_SIZE);
                show_camera_in_ui (remote_camera_texture s) (f32_of_Z REMOTE_CAMERA_SIZE) (f32_of_Z REMOTE_CAMERA_SIZE)])
  else None.

(** ** The state of the network *)
Inductive colour : Type := GREEN | YELLOW | RED.
#[export] Instance colour_eq_dec : EqDecision colour.
Proof. solve_decision. Defined.
Inductive row : Type :=
| EncoderBitrate (mbps : option spec_float)
| RoundTripTime (c : colour) (ms : Z)
| PacketLoss (c : colour) (pct : spec_float) (packets : Z)
| HighestSeq (n : Z)
| Waiting
| RtpTotal (pkts megabytes : Z).

Definition rtt_colour (rtt_ms : Z) : colour := if rtt_ms <? 100 then GREEN else if rtt_ms <? 200 then YELLOW else RED.
Definition loss_pct (fraction_lost : Z) : spec_float := mul32 (div32 (f32_of_Z fraction_lost) (f32_of_Z 255)) (f32_of_Z 100).
Definition loss_colour (pct : spec_float) : colour :=
  if SFltb pct (f32_of_Z 2) then GREEN else if SFltb pct (f32_of_Z 5) then YELLOW else RED.
Definition render_network_stats (s : t) : list row :=
  [EncoderBitrate ((fun bps => div32 (f32_of_Z bps) (f32_of_Z 1000000)) <$> current_bitrate s)]
  ++ match last_metrics s with
     | Some m =>
         [RoundTripTime (rtt_colour (NetworkMetrics.round_trip_time m)) (NetworkMetrics.round_trip_time m);
          PacketLoss (loss_colour (loss_pct (NetworkMetrics.fraction_lost m))) (loss_pct (NetworkMetrics.fraction_lost m)) (NetworkMetrics.packets_lost m);
          HighestSeq (NetworkMetrics.highest_sequence_number m)]
     | None => [Waiting]
     end
  ++ [RtpTotal (rtp_pkts s) (rtp_bytes s / 1000000)].

(** ** Checks of the frames *)

(** A computation that leaves the state alone *)
Definition pure {A} (o : outcome Empty_set A) : M A := fun s => v ← o; Ok (s, [], v).
Definition usize_mul (a b : Z) : outcome Empty_set Z := if a * b <? 2 ^ 64 then Ok (a * b) else Panic.
Definition hex (v : Z) : bytes := drop_while_eq 48 (hex_fixed 16 v).
(** [lp] and [rp] are the addresses of the buffers. *)
Definition debug_frame_alias_and_size (local remote : option VideoFrame.t) (lp rp : Z) : M unit :=
  match local, remote with
  | Some l, Some r =>
      match VideoFrame.data l, VideoFrame.data r with
      | VideoFrameData.Rgb l_buf, VideoFrameData.Rgb r_buf =>
          let need f := n ← usize_mul (VideoFrame.width f) (VideoFrame.height f); usize_mul n 3 in
          let size buf := Z.of_nat (length buf) in
          (if negb (bool_decide (l_buf = [])) && (lp =? rp)
           then background_log LogLevel.Error (lit "⚠️ Local & Remote share the SAME pixel buffer (0x" ++ hex lp ++ lit ").")
           else mret ());;
          l_need ← pure (need l);
          r_need ← pure (need r);
          (if negb (size l_buf =? l_need)
           then background_log LogLevel.Error (lit "⚠️ Local bad len: " ++ dec (size l_buf) ++ lit " vs " ++ dec l_need)
           else mret ());;
          (if negb (size r_buf =? r_need)
           then background_log LogLevel.Error (lit "⚠️ Remote bad len: " ++ dec (size r_buf) ++ lit " vs " ++ dec r_need)
           else mret ())
      | _, _ => mret ()
      end
  | _, _ => mret ()
  end.

(** ** The panels *)
Inductive panel : Type :=
| Header | SignalingPanel | ConnectHint | VideoSummary (local remote : bytes) | FileTransferPanel | NetworkStats (rows : list row)
| ConnectionControls | StatusLine (text : bytes) | LogSection (lines : list bytes).
Definition panels (s : t) (local remote : option VideoFrame.t) : list panel :=
  [Header; SignalingPanel]
  ++ (if on_screen s SignalingScreen.Home
      then [VideoSummary (summarize_frame local) (summarize_frame remote); FileTransferPanel; NetworkStats (render_network_stats s); ConnectionControls]
      else [ConnectHint])
  ++ [StatusLine (status_line s); LogSection (ui_logs s)].

(** ** The frame *)

Section paint.
Context (from_rgb : Z * Z -> bytes -> outcome Empty_set unit).
(** One texture for a frame, if there is one *)
Definition texture_for (frame : option VideoFrame.t) (texture : Texture.t) (renderer : option GpuYuvRenderer.t) (fresh : Z)
  : outcome Empty_set (Texture.t * option GpuYuvRenderer.t) :=
  match frame with
  | None => Ok (texture, renderer)
  | Some f => '(texture, renderer, _, _) ← Texture.update_texture_from_frame from_rgb f texture renderer true fresh; Ok (texture, renderer)
  end.
Definition textures_for (local remote : option VideoFrame.t) (l r : Z) : M unit :=
  s ← get;
  '(lt, lr) ← pure (texture_for local (local_camera_texture s) (local_yuv_renderer s) l);
  modify (fun s => set_local_yuv_renderer (set_local_camera_texture s lt) lr);;
  '(rt, rr) ← pure (texture_for remote (remote_camera_texture s) (remote_yuv_renderer s) r);
  modify (fun s => set_remote_yuv_renderer (set_remote_camera_texture s rt) rr).
(** [update] after the events: the checks, then the textures ([render_state]: whether there is a graphics
    card; [l] and [r]: the identifiers that new textures get), the window and the panels *)
Definition paint (snapshot : option VideoFrame.t * option VideoFrame.t) (lp rp : Z) (render_state : bool) (l r : Z)
  : M (option (list picture) * list panel) :=
  s ← get;
  let '(local, remote) := frames_shown s snapshot in
  debug_frame_alias_and_size local remote lp rp;;
  (if render_state then textures_for local remote l r else mret ());;
  s ← get;
  mret (render_camera_view s, panels s local remote).
End paint.

(** ** What is shown *)

(** Between calls nothing of the cameras is shown: whatever frames the agent still holds, painting changes
    nothing, and when the connection does not run and no texture is left there is no window. *)
Lemma idle_is_dark from_rgb snapshot lp rp render_state l r s : call_flow s = CallFlow.Idle ->
  paint from_rgb snapshot lp rp render_state l r s = Ok (s, [], (render_camera_view s, panels s None None)).
Proof.
  intros H. unfold paint. unfold mbind at 1, M_bind, get. unfold frames_shown. rewrite H.
  destruct render_state; [| reflexivity]. destruct s. reflexivity.
Qed.

Lemma SFltb_irrefl x : SFltb x x = false.
Proof.
  unfold SFltb, SFcompare. destruct x as [[] | [] | | [] m e]; try reflexivity; rewrite Z.compare_refl, ?Pos.compare_cont_refl; reflexivity.
Qed.
(** A picture is not higher than its box, and not wider unless rounding made it so when it was made to fit
    the height. *)
Lemma image_fits id w h max_w max_h i x y : show_camera_in_ui (Some (id, (w, h))) max_w max_h = Image i x y ->
  i = id /\ SFltb max_h y = false /\ (y = max_h \/ SFltb max_w x = false).
Proof.
  unfold show_camera_in_ui. set (p := if SFltb max_w (f32_of_Z w) then _ else _).
  assert (Hp : SFltb max_w p.1 = false).
  { unfold p. destruct (SFltb max_w (f32_of_Z w)) eqn:E; [apply SFltb_irrefl | exact E]. }
  destruct p as [px py]. destruct (SFltb max_h py) eqn:E; intros [= <- <- <-]; split; auto using SFltb_irrefl.
Qed.
Example camera_size : show_camera_in_ui (Some (1, (1280, 720))) (f32_of_Z 400) (f32_of_Z 400) = Image 1 (f32_of_Z 400) (f32_of_Z 225).
Proof. vm_compute. reflexivity. Qed.

(** Up to five lost packets of 256 are green, up to twelve yellow. *)
Lemma loss_colours f : 0 <= f < 256 -> loss_colour (loss_pct f) = if f <=? 5 then GREEN else if f <=? 12 then YELLOW else RED.
Proof.
  intros Hf. assert (H : Forall (fun f => loss_colour (loss_pct f) = if f <=? 5 then GREEN else if f <=? 12 then YELLOW else RED) (seqZ 0 256)).
  { apply (bool_decide_unpack _). vm_compute. exact I. }
  rewrite Forall_forall in H. apply H, elem_of_seqZ. lia.
Qed.

(** Frames whose buffers have three octets per pixel and differ are not reported. *)
Lemma good_frames_silent l r l_buf r_buf lp rp s :
  VideoFrame.data l = VideoFrameData.Rgb l_buf -> VideoFrame.data r = VideoFrameData.Rgb r_buf -> lp <> rp ->
  0 <= VideoFrame.width l * VideoFrame.height l -> 0 <= VideoFrame.width r * VideoFrame.height r ->
  Z.of_nat (length l_buf) = VideoFrame.width l * VideoFrame.height l * 3 -> Z.of_nat (length l_buf) < 2 ^ 64 ->
  Z.of_nat (length r_buf) = VideoFrame.width r * VideoFrame.height r * 3 -> Z.of_nat (length r_buf) < 2 ^ 64 ->
  debug_frame_alias_and_size (Some l) (Some r) lp rp s = Ok (s, [], ()).
Proof.
  intros Hl Hr Hp Hl0 Hr0 Hll Hlm Hrl Hrm. unfold debug_frame_alias_and_size. rewrite Hl, Hr, (proj2 (Z.eqb_neq lp rp) Hp), andb_false_r.
  unfold usize_mul, pure, mbind, M_bind, outcome_bind, mret, M_ret.
  rewrite !(proj2 (Z.ltb_lt _ _)) by lia.
  rewrite Hll, Hrl, !Z.eqb_refl. reflexivity.
Qed.
