(* ===== verification/AppTheory.v ===== *)
(** * The application: calls

    Two applications that exchange an offer and an answer end up in a call with each other, with
    connection managers that agree. *)

From stdpp Require Import prelude gmap strings.
From Stdlib Require Import ZArith Lia.
From S2P Require Import Prelude Utf8 Text SigProtocol Config Sdp Congestion Ice ConnManager ConnCodec ConnTheory ConnSafety DescText MediaTransport MediaAgent FileTransfer SigTransport Engine EngineTheory AppState App View.
Local Open Scope Z_scope.
Import RtcApp.

(** ** Stepping *)
Definition prepend {A} (os : list output) (r : outcome Empty_set (t * list output * A)) : outcome Empty_set (t * list output * A) :=
  match r with Ok (s, os', a) => Ok (s, os ++ os', a) | Err e => Err e | Panic => Panic end.
Lemma bind_run {A B} (m : M A) (k : A -> M B) s s1 os a : m s = Ok (s1, os, a) -> (m ≫= k) s = prepend os (k a s1).
Proof. intros H. unfold mbind, M_bind. rewrite H. reflexivity. Qed.
Lemma prepend_nil {A} (r : outcome Empty_set (t * list output * A)) : prepend [] r = r.
Proof. destruct r as [[[]] | |]; reflexivity. Qed.
Lemma bind_get {A} (k : t -> M A) s : (get ≫= k) s = k s s.
Proof. rewrite (bind_run get k s s [] s eq_refl). apply prepend_nil. Qed.
Lemma bind_modify {A} f (k : unit -> M A) s : (modify f ≫= k) s = k () (f s).
Proof. rewrite (bind_run (modify f) k s (f s) [] () eq_refl). apply prepend_nil. Qed.
Lemma bind_status {A} text (k : unit -> M A) s : (status text ≫= k) s = k () (set_status_line s text).
Proof. apply bind_modify. Qed.
Lemma bind_quietly {A B} (m : M A) (k : A -> M B) s s1 a : m s = Ok (s1, [], a) -> (m ≫= k) s = k a s1.
Proof. intros H. rewrite (bind_run m k s s1 [] a H). apply prepend_nil. Qed.

(** An application with a live connection to the server *)
Definition online (s : t) : Prop := signaling_client s = Some true.
Lemma send_online msg s : online s -> send_signaling msg s = Ok (s, [Signal msg], true).
Proof. intros H. unfold send_signaling. rewrite bind_get, H. reflexivity. Qed.
Lemma each_sends {A} (f : A -> SignalingMsg) l s : online s ->
  each l (fun x => send_signaling (f x) ≫= fun _ => mret ()) s = Ok (s, (fun x => Signal (f x)) <$> l, ()).
Proof.
  intros H. induction l as [| x l IH]; [reflexivity |]. cbn [each].
  rewrite (bind_run _ _ s s [Signal (f x)] ()).
  - rewrite IH. reflexivity.
  - rewrite (bind_run _ _ s s [Signal (f x)] true) by apply send_online, H. reflexivity.
Qed.
Definition candidates_of (user peer : bytes) (x : Engine.t) : list output :=
  (fun line => Signal (Candidate user peer (lit "0") 0 line)) <$> Engine.local_candidates_as_sdp_lines x.
Lemma candidates_sent user peer s : online s -> current_username s = Some user ->
  send_local_candidates peer s = Ok (s, candidates_of user peer (engine s), ()).
Proof. intros Ho Hu. unfold send_local_candidates. rewrite bind_get, Hu. apply each_sends, Ho. Qed.

(** The connection manager with which the engine negotiates: its codecs are those of the media
    transport. *)
Definition prepared (x : Engine.t) : ConnectionManager.t :=
  ConnectionManager.set_local_rtp_codecs (Engine.cm x) (MediaTransport.codec_descriptors (Engine.media_transport x)).

(** Idle, logged in as [user], and ready to describe itself *)
Record idle (s : t) (user : bytes) : Prop := {
  i_online : online s; i_user : current_username s = Some user; i_flow : call_flow s = CallFlow.Idle;
  i_ready : ready (prepared (engine s)); i_fresh : fresh (prepared (engine s)) }.

(** ** A new engine *)

(** The random generator draws from the alphabet and the certificate has a printed fingerprint, if it
    can be read. *)
Record answers_ok (e : env) : Prop := {
  a_draws : forall k, (draws e k < 62)%nat;
  a_fingerprint : match fingerprint e with Some f => printable f = true | None => True end }.

Lemma token_printable n : forall d, (forall k, (d k < 62)%nat) ->
  exists u, IceAgent.gen_token n d = Ok u /\ length u = n /\ forallb (in_range 33 126) u = true.
Proof.
  induction n as [| n IH]; intros d Hd; [exists []; auto |]. cbn [IceAgent.gen_token].
  assert (H : forall i, (i < 62)%nat -> exists c, IceAgent.ALPHABET !! i = Some c /\ in_range 33 126 c = true).
  { intros i Hi. destruct (IceAgent.ALPHABET !! i) as [c |] eqn:E.
    - exists c. split; [reflexivity |]. assert (Hall : forallb (in_range 33 126) IceAgent.ALPHABET = true) by (vm_compute; reflexivity).
      rewrite forallb_forall in Hall. apply Hall, list_elem_of_In. eapply list_elem_of_lookup_2, E.
    - apply lookup_ge_None in E. change (length IceAgent.ALPHABET) with 62%nat in E. lia. }
  destruct (H (d 0%nat) (Hd _)) as (c & -> & Hc). destruct (IH (fun k => d (S k)) (fun k => Hd (S k))) as (u & -> & Hl & Hu).
  exists (c :: u). cbn [expect mbind outcome_bind length forallb]. rewrite Hc, Hu. auto.
Qed.
Lemma token_ne n u : (0 < n)%nat -> length u = n -> forallb (in_range 33 126) u = true -> printable u = true.
Proof. intros Hn Hl H. unfold printable. rewrite H, bool_decide_eq_false_2; [reflexivity |]. intros ->. cbn in Hl. lia. Qed.

Lemma media_codecs_ok cfg : Forall descriptor_ok (MediaTransport.codec_descriptors (MediaTransport.new cfg)).
Proof.
  unfold MediaTransport.codec_descriptors, MediaTransport.new. cbn [MediaTransport.payload_map].
  set (l := (map_to_list _).*2). vm_compute in l. subst l.
  repeat (constructor; [split; [split; cbn; [lia | unfold u32; lia | reflexivity | apply (bool_decide_unpack _); vm_compute; exact I] | first [exact I | reflexivity]] |]).
  constructor.
Qed.

Lemma engine_new e cfg sending receiving : answers_ok e ->
  exists x os, Engine.new cfg sending receiving (fingerprint e) (draws e) (now e) = Ok (x, os) /\
    ready (prepared x) /\ fresh (prepared x) /\ Engine.session x = None /\
    Engine.sending_files x = sending /\ Engine.receiving_files x = receiving /\ Engine.config x = cfg /\
    (forall o, o ∈ os -> exists ev, o = Engine.Emit ev).
Proof.
  intros [Hd Hf]. unfold Engine.new, ConnectionManager.new, IceAgent.with_logger, IceAgent.fresh_credentials.
  destruct (token_printable 8 (draws e) Hd) as (u & -> & Hlu & Hu).
  destruct (token_printable 24 (fun k => draws e (8 + k)%nat) (fun k => Hd _)) as (p & -> & Hlp & Hp).
  cbn [mbind outcome_bind]. destruct (CongestionController.new _ _ _ _) as [cc evs]. do 2 eexists. split; [reflexivity |].
  split; [| split; [split_and!; reflexivity |]].
  - split; [split |]; cbn.
    + apply media_codecs_ok.
    + apply (token_ne 8); [lia | assumption ..].
    + apply (token_ne 24); [lia | assumption ..].
    + destruct (fingerprint e); [exact Hf | reflexivity].
    + split; cbn; [constructor | constructor |]. unfold IceAgent.number_or.
      destruct (Config.get cfg _ _) as [text |]; [| vm_compute; discriminate].
      destruct (from_str_radix 10 u64_max text) as [v | |] eqn:E; [| vm_compute; discriminate ..].
      apply from_str_radix_range in E; [lia | vm_compute; discriminate | lia].
  - split_and!; try reflexivity. intros o Ho. apply list_elem_of_fmap in Ho as (ev & -> & _). eauto.
Qed.

(** ** The end of a call *)
Definition signals (os : list output) : list SignalingMsg := omap (fun o => match o with Signal m => Some m | _ => None end) os.
Lemma signals_app l1 l2 : signals (l1 ++ l2) = signals l1 ++ signals l2.
Proof. apply omap_app. Qed.
Lemma engine_signals os : signals (OfEngine <$> os) = [].
Proof. induction os as [| o os IH]; [reflexivity | exact IH]. Qed.

(** [s'] differs from [s] in the lines shown only. *)
Record same_but_lines (s s' : t) : Prop := {
  sl_client : signaling_client s' = signaling_client s; sl_user : current_username s' = current_username s;
  sl_screen : signaling_screen s' = signaling_screen s; sl_peers : peers_online s' = peers_online s;
  sl_engine : engine s' = engine s; sl_config : config s' = config s; sl_txn : next_txn_id s' = next_txn_id s;
  sl_muted : is_muted s' = is_muted s }.

Definition bye_msgs (s : t) (peer : bytes) (reason : option bytes) : list SignalingMsg :=
  match signaling_client s, current_username s with
  | Some true, Some user => [Bye user peer reason]
  | _, _ => []
  end.
Lemma bye_sent peer reason s : exists s' os, send_bye peer reason s = Ok (s', os, ()) /\
  signals os = bye_msgs s peer reason /\ same_but_lines s s'.
Proof.
  unfold send_bye, bye_msgs. rewrite bind_get.
  destruct (current_username s) as [user |]; [| destruct (signaling_client s) as [[] |]; (do 2 eexists; split_and!; [reflexivity .. | split; reflexivity])].
  destruct (signaling_client s) as [[] |] eqn:E.
  - rewrite (bind_run _ _ s s [Signal (Bye user peer reason)] true) by (apply send_online; exact E).
    do 2 eexists. split_and!; [reflexivity .. | split; reflexivity].
  - unfold send_signaling. do 2 eexists. unfold mbind at 1, M_bind. rewrite bind_get, E. split_and!; [reflexivity .. | split; reflexivity].
  - unfold send_signaling. do 2 eexists. unfold mbind at 1, M_bind. rewrite bind_get, E. split_and!; [reflexivity .. | split; reflexivity].
Qed.

Lemma torn_down e reason bye s : answers_ok e ->
  exists s' os, teardown_call e reason bye s = Ok (s', os, ()) /\
    signals os = (match (if (bye : bool) then current_peer s else None) with Some peer => bye_msgs s peer reason | None => [] end) /\
    (signaling_client s' = signaling_client s /\ current_username s' = current_username s /\
     signaling_screen s' = signaling_screen s /\ peers_online s' = peers_online s /\ next_txn_id s' = next_txn_id s /\
     is_muted s' = is_muted s) /\
    (call_flow s' = CallFlow.Idle /\ conn_state s' = ConnState.Idle /\ pending_remote_sdp s' = None /\
     file_transfer_state s' = FileTransferState.Idle /\ local_sdp_text s' = [] /\ remote_sdp_text s' = [] /\
     local_camera_texture s' = None /\ remote_camera_texture s' = None) /\
    Engine.session (engine s') = None /\ transferring s' = false /\
    ready (prepared (engine s')) /\ fresh (prepared (engine s')).
Proof.
  intros He. unfold teardown_call. rewrite bind_get.
  assert (H : exists s1 os1, match (if bye then current_peer s else None) with Some peer => send_bye peer reason | None => mret () end s
      = Ok (s1, os1, ()) /\
    signals os1 = (match (if bye then current_peer s else None) with Some peer => bye_msgs s peer reason | None => [] end) /\
    same_but_lines s s1).
  { destruct (if bye then current_peer s else None) as [peer |]; [apply bye_sent |]. exists s, []. split_and!; [reflexivity .. | split; reflexivity]. }
  destruct H as (s1 & os1 & Hb & <- & [H1 H2 H3 H4 H5 H6 H7 H8]). rewrite (bind_run _ _ s s1 os1 () Hb).
  destruct (Engine.stop (engine s1)) as [x2 os2] eqn:Es.
  rewrite (bind_run _ _ s1 (set_engine s1 x2) (OfEngine <$> os2) ()) by (unfold engine_does, on_engine; rewrite Es; reflexivity).
  rewrite bind_modify, bind_get.
  set (s2 := store_files _ _ _). destruct (engine_new e (config s2) false false He) as (x & os3 & Hx & Hr & Hf & Hs & Hsend & Hrecv & _ & _).
  rewrite (bind_run _ _ s2 (set_engine s2 x) (OfEngine <$> os3) ()) by (unfold on_engine; change (Engine.sending_files (engine s2)) with false; change (Engine.receiving_files (engine s2)) with false; rewrite Hx; reflexivity).
  rewrite !bind_modify. do 2 eexists. split; [reflexivity |]. rewrite !signals_app, !engine_signals, !app_nil_r.
  split; [reflexivity |]. split; [split_and!; assumption |]. split; [split_and!; reflexivity |].
  split; [exact Hs |]. split; [unfold transferring; cbn; rewrite Hsend, Hrecv; reflexivity |]. split; [exact Hr | exact Hf].
Qed.

(** C25 A call that has ended leaves nothing behind. Whoever ends it and in whatever state of the call and of
    the connection to the server, the application sends at most one goodbye, to its peer, under its own
    name and only when it is connected and logged in, and is idle: no session, no transfer, no
    description pending, no picture of the old call, which painting does not bring back, whatever frames
    the old media agent still has, and no window for it. Connection, screen and user are as before, and the
    new engine is ready, so that a user who is connected and logged in can make or take the next
    call. *)
Theorem ended_call_is_reset e reason bye s : answers_ok e ->
  exists s' os, teardown_call e reason bye s = Ok (s', os, ()) /\
    signals os = (match (if (bye : bool) then current_peer s else None), signaling_client s, current_username s with
                  | Some peer, Some true, Some user => [Bye user peer reason]
                  | _, _, _ => []
                  end) /\
    signaling_client s' = signaling_client s /\ current_username s' = current_username s /\ signaling_screen s' = signaling_screen s /\
    (forall user, online s -> current_username s = Some user -> idle s' user) /\
    call_flow s' = CallFlow.Idle /\ conn_state s' = ConnState.Idle /\ pending_remote_sdp s' = None /\
    file_transfer_state s' = FileTransferState.Idle /\ Engine.session (engine s') = None /\ transferring s' = false /\
    local_camera_texture s' = None /\ remote_camera_texture s' = None /\ available s' HangUpWindow = false /\
    (forall from_rgb snapshot lp rp render_state l r,
       paint from_rgb snapshot lp rp render_state l r s' = Ok (s', [], (None, panels s' None None))).
Proof.
  intros He. destruct (torn_down e reason bye s He)
    as (s' & os & Ht & Hs & (C1 & C2 & C3 & _) & (F1 & F2 & F3 & F4 & _ & _ & T1 & T2) & Hn & Hf & Hr & Hfr).
  assert (Hw : camera_window s' = false) by (unfold camera_window, have_any_texture, running; rewrite F2, T1, T2; reflexivity).
  exists s', os. split; [exact Ht |]. split.
  { rewrite Hs. unfold bye_msgs. destruct (if bye then _ else _), (signaling_client s) as [[] |], (current_username s); reflexivity. }
  do 3 (split; [assumption |]). split; [intros user Ho Hu; split; [unfold online; congruence | congruence | exact F1 | exact Hr | exact Hfr] |].
  do 9 (split; [assumption |]). intros. rewrite idle_is_dark by exact F1. unfold render_camera_view. rewrite Hw. reflexivity.
Qed.

(** ** Calls *)
Section app.
Context (default_hash : bytes -> Z) (keystream : bytes -> bytes -> nat -> bytes) (display_rtp : RtpSession.RtpSessionError -> bytes).
Context (display_connection : ConnectionError.t -> bytes) (debug_gui : GuiError.t -> bytes)
        (debug_reason : option bytes -> bytes) (debug_msg : SignalingMsg -> bytes) (utf8_error : bytes -> bytes)
        (show_addr : Net.SocketAddr.t -> bytes).
Local Abbreviation start_call := (start_outgoing_call default_hash display_connection debug_gui).
Local Abbreviation accept_call := (accept_incoming_call default_hash display_connection debug_gui).
Local Abbreviation on_msg := (handle_signaling_server_msg display_connection debug_reason debug_msg utf8_error).
Local Abbreviation set_remote := (set_remote_sdp default_hash display_connection).

Lemma negotiated e s c d :
  ConnectionManager.negotiate default_hash (cm_env e) (prepared (engine s)) = (c, [], Ok (OutboundSdp.Offer d)) ->
  create_or_renegotiate_local_sdp default_hash display_connection e s
    = Ok (set_status_line (set_is_local_offerer (set_has_local_description
            (set_local_sdp_text (set_engine s (Engine.with_cm (engine s) c)) (Sdp.encode d)) true) true)
            (lit "Local OFFER created. Share it with the peer."), [], Ok ()).
Proof.
  intros H. unfold create_or_renegotiate_local_sdp.
  rewrite (bind_quietly _ _ s (set_engine s (Engine.with_cm (engine s) c)) (Ok (Some (Sdp.encode d)))).
  - rewrite bind_modify, bind_status. reflexivity.
  - unfold on_engine, Engine.negotiate. fold (prepared (engine s)). rewrite H. reflexivity.
Qed.

(** Calling: the offer and the candidates leave, and the caller waits. *)
Lemma call_started e s user peer c d : idle s user ->
  ConnectionManager.negotiate default_hash (cm_env e) (prepared (engine s)) = (c, [], Ok (OutboundSdp.Offer d)) ->
  exists s', start_call e peer s = Ok (s', Signal (Offer (next_txn_id s) user peer (Sdp.encode d))
                                           :: candidates_of user peer (Engine.with_cm (engine s) c), ()) /\
    call_flow s' = CallFlow.Dialing peer (next_txn_id s) /\ engine s' = Engine.with_cm (engine s) c /\
    online s' /\ current_username s' = Some user /\ next_txn_id s' = next_txn_id s + 1.
Proof.
  intros [Ho Hu Hf _ _] H. unfold start_outgoing_call. rewrite bind_get, Hf, Hu. cbn [is_some negb].
  rewrite bool_decide_eq_true_2 by reflexivity. cbn [negb].
  rewrite (bind_quietly _ _ _ _ _ (negotiated e s c d H)), bind_get.
  rewrite bool_decide_eq_false_2 by apply encode_not_blank.
  rewrite bind_modify. set (s1 := set_next_txn_id _ _).
  rewrite (bind_run _ _ s1 s1 [Signal (Offer (next_txn_id s) user peer (Sdp.encode d))] true).
  2: { rewrite send_online by exact Ho. unfold me. cbn. rewrite Hu. reflexivity. }
  cbv beta iota. rewrite bind_modify, bind_status. rewrite (candidates_sent user) by (exact Ho || exact Hu).
  eexists. split; [reflexivity |]. split_and!; try reflexivity; assumption.
Qed.

(** Ringing *)
Lemma offer_received e s user from to txn sdp : idle s user -> utf8_valid sdp = true ->
  exists s', on_msg e (Offer txn from to sdp) s = Ok (s', [Signal (Ack user from txn)], ()) /\
    call_flow s' = CallFlow.Incoming from txn sdp /\ engine s' = engine s /\ online s' /\ current_username s' = Some user.
Proof.
  intros [Ho Hu Hf _ _] Ht. unfold handle_signaling_server_msg. rewrite bind_get, Hf, Ht.
  rewrite bool_decide_eq_true_2 by reflexivity. cbn [negb]. rewrite bind_modify, bind_status.
  set (s1 := set_status_line _ _). rewrite (bind_run _ _ s1 s1 [Signal (Ack user from txn)] true).
  - eexists. split; [reflexivity |]. split_and!; try reflexivity; assumption.
  - rewrite send_online by exact Ho. unfold me. rewrite Hu. reflexivity.
Qed.

Lemma remote_set e s c ds r sdp :
  ConnectionManager.apply_remote_sdp default_hash (cm_env e) sdp (prepared (engine s)) = (c, ds, Ok r) ->
  exists s', set_remote e sdp s = Ok (s', OfEngine <$> (Engine.Datagram <$> ds), Ok ()) /\
    engine s' = Engine.with_cm (engine s) c /\ call_flow s' = call_flow s /\ signaling_client s' = signaling_client s /\
    current_username s' = current_username s /\
    local_sdp_text s' = default (local_sdp_text s) (Engine.encode_out r) /\
    has_remote_description s' = true.
Proof.
  intros H. unfold set_remote_sdp.
  rewrite (bind_run _ _ s (set_engine s (Engine.with_cm (engine s) c)) (OfEngine <$> (Engine.Datagram <$> ds)) (Ok (Engine.encode_out r))).
  2: { unfold on_engine, Engine.apply_remote_sdp. fold (prepared (engine s)). rewrite H. reflexivity. }
  cbv beta iota. destruct (Engine.encode_out r) as [text |].
  - rewrite (bind_quietly _ _ _ (set_status_line (set_is_local_offerer (set_has_local_description (set_local_sdp_text
      (set_engine s (Engine.with_cm (engine s) c)) text) true) false) (lit "Remote OFFER set → Local ANSWER created. Share it back.")) ())
      by (rewrite bind_modify; reflexivity).
    rewrite bind_modify. eexists. cbn [prepend mret M_ret]. rewrite app_nil_r. split; [reflexivity |]. split_and!; reflexivity.
  - rewrite bind_status, bind_modify. eexists. cbn [prepend mret M_ret]. rewrite app_nil_r. split; [reflexivity |]. split_and!; reflexivity.
Qed.

(** Accepting: the answer and the candidates leave. *)
Lemma call_accepted e s user from txn sdp c ds d : online s -> current_username s = Some user ->
  call_flow s = CallFlow.Incoming from txn sdp ->
  ConnectionManager.apply_remote_sdp default_hash (cm_env e) sdp (prepared (engine s)) = (c, ds, Ok (OutboundSdp.Answer d)) ->
  exists s', accept_call e s = Ok (s', (OfEngine <$> (Engine.Datagram <$> ds)) ++
                 Signal (Answer txn user from (Sdp.encode d)) :: candidates_of user from (Engine.with_cm (engine s) c), ()) /\
    call_flow s' = CallFlow.Active from /\ engine s' = Engine.with_cm (engine s) c /\ online s' /\ current_username s' = Some user.
Proof.
  intros Ho Hu Hf H. unfold accept_incoming_call. rewrite bind_get, Hf.
  destruct (remote_set e s c ds _ sdp H) as (s1 & Hs & He & _ & Hc & Hn & Hl & _). cbn [Engine.encode_out default] in Hl.
  rewrite (bind_run _ _ s s1 _ _ Hs). cbv beta iota. rewrite bind_get, Hl.
  rewrite bool_decide_eq_false_2 by apply encode_not_blank.
  assert (Ho1 : online s1) by (unfold online; congruence). assert (Hu1 : current_username s1 = Some user) by congruence.
  rewrite (bind_run _ _ s1 s1 [Signal (Answer txn user from (Sdp.encode d))] true).
  2: { rewrite send_online by exact Ho1. unfold me. rewrite Hu1. reflexivity. }
  cbv beta iota. rewrite bind_modify, bind_status. rewrite (candidates_sent user) by (exact Ho1 || exact Hu1).
  eexists. split; [cbn [prepend app]; do 3 f_equal; unfold candidates_of; cbn; rewrite He; reflexivity |].
  split_and!; [reflexivity | exact He | exact Ho1 | exact Hu1].
Qed.

Lemma answer_received e s user from to txn sdp : online s -> current_username s = Some user -> utf8_valid sdp = true ->
  exists s', on_msg e (Answer txn from to sdp) s = Ok (s', [Signal (Ack user from txn)], ()) /\
    call_flow s' = CallFlow.Active from /\ pending_remote_sdp s' = Some sdp /\ engine s' = engine s /\
    online s' /\ current_username s' = Some user.
Proof.
  intros Ho Hu Ht. unfold handle_signaling_server_msg. rewrite Ht, bind_modify, bind_status, bind_get.
  set (s1 := set_status_line _ _). rewrite (bind_run _ _ s1 s1 [Signal (Ack user from txn)] true).
  - eexists. split; [reflexivity |]. split_and!; try reflexivity; assumption.
  - rewrite send_online by exact Ho. unfold me. replace (current_username s1) with (Some user) by (symmetry; exact Hu). reflexivity.
Qed.

Lemma ascii_valid s : ascii s -> utf8_valid s = true.
Proof. intros H. apply ascii_str_ok, H. Qed.

(** Once described, the codecs of the manager stay those of the media transport. *)
Lemma prepared_again e s user c r : idle s user -> env_ok (cm_env e) ->
  ConnectionManager.negotiate default_hash (cm_env e) (prepared (engine s)) = (c, [], r) ->
  prepared (Engine.with_cm (engine s) c) = c.
Proof.
  intros [_ _ _ _ [Hs _]] He H. destruct (negotiate_run default_hash (cm_env e) (prepared (engine s)) He Hs) as (n & _ & Hn).
  rewrite Hn in H. injection H as <- _. reflexivity.
Qed.

(** The managers of the two ends agree: stable, checking, in complementary roles, each knowing the
    candidates, credentials, fingerprint and codecs of the other, which were [a] and [b] before. *)
Definition agreed (ea eb : env) (a b a' b' : t) : Prop :=
  let ca := Engine.cm (engine a') in let cb := Engine.cm (engine b') in
  ConnectionManager.signaling ca = SignalingState.Stable /\ ConnectionManager.signaling cb = SignalingState.Stable /\
  ConnectionManager.ice_phase ca = IcePhase.Checking /\ ConnectionManager.ice_phase cb = IcePhase.Checking /\
  Engine.dtls_role (engine a') = Dtls.DtlsRole.Server /\ Engine.dtls_role (engine b') = Dtls.DtlsRole.Client /\
  knows ca (prepared (engine b)) (gathered default_hash (cm_env eb)) /\
  knows cb (prepared (engine a)) (gathered default_hash (cm_env ea)).
(** In a call with [peer], still logged in as [user] *)
Record in_call (s : t) (user peer : bytes) : Prop := {
  ic_online : online s; ic_user : current_username s = Some user; ic_flow : call_flow s = CallFlow.Active peer }.

(** The messages of a call: the click sends the offer, with which the other one rings and acknowledges;
    accepting sends the answer; the caller takes it and applies it. *)
Lemma call_run a b alice bob ea eb ea' :
  idle a alice -> idle b bob -> env_ok (cm_env ea) -> env_ok (cm_env eb) -> env_ok (cm_env ea') ->
  let txn := next_txn_id a in
  exists a1 os1 offer b1 b2 ds os2 answer a2 a3 ds',
    start_call ea bob a = Ok (a1, Signal (Offer txn alice bob offer) :: os1, ()) /\
    call_flow a1 = CallFlow.Dialing bob txn /\
    on_msg eb (Offer txn alice bob offer) b = Ok (b1, [Signal (Ack bob alice txn)], ()) /\
    call_flow b1 = CallFlow.Incoming alice txn offer /\
    accept_call eb b1 = Ok (b2, (OfEngine <$> (Engine.Datagram <$> ds)) ++ Signal (Answer txn bob alice answer) :: os2, ()) /\
    on_msg ea' (Answer txn bob alice answer) a1 = Ok (a2, [Signal (Ack alice bob txn)], ()) /\
    pending_remote_sdp a2 = Some answer /\
    set_remote ea' answer a2 = Ok (a3, OfEngine <$> (Engine.Datagram <$> ds'), Ok ()) /\
    in_call a3 alice bob /\ in_call b2 bob alice /\ agreed ea eb a b a3 b2.
Proof.
  intros Ia Ib Hea Heb Hea'. cbv zeta.
  destruct (agreement_run default_hash (prepared (engine a)) (prepared (engine b)) (cm_env ea) (cm_env eb) (cm_env ea'))
    as (c1 & offer & cb & ds & answer & c2 & ds' & H1 & H2 & H3 & S1 & S2 & P1 & P2 & R1 & R2 & _ & _ & _ & _ & K1 & K2
        & (sa & na & -> & Tsa & Hna) & (sb & nb & -> & Tsb & Hnb)); try assumption; try apply Ia; try apply Ib.
  destruct (gathered_parts default_hash (cm_env ea) Hea) as [Ga _]. destruct (gathered_parts default_hash (cm_env eb) Heb) as [Gb _].
  destruct (call_started ea a alice bob c1 _ Ia H1) as (a1 & Q1 & F1 & E1 & O1 & U1 & _).
  destruct (offer_received eb b bob alice bob (next_txn_id a) _ Ib (ascii_valid _ (description_ascii sa _ na Tsa Ga Hna)))
    as (b1 & Q2 & F2 & E2 & O2 & U2).
  destruct (call_accepted eb b1 bob alice (next_txn_id a) _ cb ds (description sb (gathered default_hash (cm_env eb)) nb) O2 U2 F2) as (b2 & Q3 & F3 & E3 & O3 & U3).
  { rewrite E2. exact H2. }
  destruct (answer_received ea' a1 alice bob alice (next_txn_id a) _ O1 U1 (ascii_valid _ (description_ascii sb _ nb Tsb Gb Hnb)))
    as (a2 & Q4 & F4 & D4 & E4 & O4 & U4).
  destruct (remote_set ea' a2 c2 ds' OutboundSdp.None (Sdp.encode (description sb (gathered default_hash (cm_env eb)) nb))) as (a3 & Q5 & E5 & F5 & C5 & U5 & _).
  { rewrite E4, E1. rewrite (prepared_again ea a alice c1 _ Ia Hea H1). exact H3. }
  do 11 eexists. split; [exact Q1 |]. split; [exact F1 |]. split; [exact Q2 |]. split; [exact F2 |]. split; [exact Q3 |].
  split; [exact Q4 |]. split; [exact D4 |]. split; [exact Q5 |]. split; [split; unfold online in *; congruence |]. split; [split; assumption |].
  unfold agreed, Engine.dtls_role. rewrite E5, E3. cbn [Engine.cm Engine.with_cm]. rewrite R1, R2. auto 10.
Qed.
End app.

(** ** Two applications *)
Module Demo.
Definition env_of (c : ConnectionManager.env) : env :=
  Env c None (fun k => (k mod 62)%nat) 0 (Ok ()) quiet_env [] (fun _ => 0) 1 2 true 9 3
    {| RtpSession.now := 0; RtpSession.clock := fun _ => 0; RtpSession.ntp := (0, 0) |}.
Definition caller_env : env := env_of Call.env_a.
Definition callee_env : env := env_of Call.env_b.
Definition engine_of (e : env) : Engine.t :=
  match Engine.new Config.empty false false (fingerprint e) (draws e) (now e) with Ok (x, _) => x | _ => idle_engine end.
(** Logged in as [user], in the state [flow] *)
Definition app (e : env) (user : bytes) (flow : CallFlow.t) : t :=
  mk [] [] None [] (engine_of e) false false false ConnState.Idle [] 0 0 0 (Some true) SignalingScreen.Home [] [] [] [] [] []
    (Some user) None flow 1 Config.empty None None FileTransferState.Idle [] false (Some (1, (640, 480))) None None None.
Definition text {A} (_ : A) : bytes := [].
End Demo.

Lemma demo_answers c : answers_ok (Demo.env_of c).
Proof. split; [| exact I]. intros k. cbn. apply Nat.mod_upper_bound. lia. Qed.
Lemma demo_idle c user : idle (Demo.app (Demo.env_of c) user CallFlow.Idle) user.
Proof.
  destruct (engine_new (Demo.env_of c) Config.empty false false (demo_answers c)) as (x & os & Hx & Hr & Hf & _).
  split; try reflexivity; cbn [engine Demo.app]; unfold Demo.engine_of; rewrite Hx; assumption.
Qed.

(** The picture of the own camera is shown when the user hangs up. *)
Lemma ended_call_is_reset_witness :
  let s := Demo.app Demo.caller_env (lit "alice") (CallFlow.Active (lit "bob")) in
  is_Some (local_camera_texture s) /\
  exists s' os, teardown_call Demo.caller_env (Some (lit "hangup")) true s = Ok (s', os, ()) /\
    signals os = [Bye (lit "alice") (lit "bob") (Some (lit "hangup"))] /\ idle s' (lit "alice") /\
    local_camera_texture s' = None.
Proof.
  split; [eexists; reflexivity |].
  destruct (ended_call_is_reset Demo.caller_env (Some (lit "hangup")) true
    (Demo.app Demo.caller_env (lit "alice") (CallFlow.Active (lit "bob"))) (demo_answers _))
    as (s' & os & H1 & H2 & _ & _ & _ & H3 & _ & _ & _ & _ & _ & _ & H4 & _).
  exists s', os. split; [exact H1 |]. split; [exact H2 |]. split; [apply H3; reflexivity | exact H4].
Defined.

(** ** What the application does not check *)

(** The button goes on saying that the user is muted after a call, but the media agent of the next one
    is not. *)
Lemma mute_forgotten e reason bye s : answers_ok e -> is_muted s = true ->
  exists s' os, teardown_call e reason bye s = Ok (s', os, ()) /\ is_muted s' = true /\
    MediaAgent.is_audio_muted (MediaAgent.new (Engine.config (engine s'))) = false.
Proof.
  intros He Hm. destruct (torn_down e reason bye s He) as (s' & os & H1 & _ & (_ & _ & _ & _ & _ & H2) & _).
  exists s', os. split; [exact H1 |]. split; [congruence | reflexivity].
Qed.
Section unchecked.
Context (default_hash : bytes -> Z) (display_connection : ConnectionError.t -> bytes) (debug_gui : GuiError.t -> bytes)
        (debug_reason : option bytes -> bytes) (debug_msg : SignalingMsg -> bytes) (utf8_error : bytes -> bytes).
Local Abbreviation on_msg := (handle_signaling_server_msg display_connection debug_reason debug_msg utf8_error).

(** An answer is taken from anyone, under any transaction and in any state: the call that was there is
    replaced by one with the sender. *)
Lemma answer_from_anyone e s user from to txn sdp : online s -> current_username s = Some user -> utf8_valid sdp = true ->
  exists s' os, on_msg e (Answer txn from to sdp) s = Ok (s', os, ()) /\
    call_flow s' = CallFlow.Active from /\ pending_remote_sdp s' = Some sdp.
Proof.
  intros Ho Hu Ht. destruct (answer_received display_connection debug_reason debug_msg utf8_error e s user from to txn sdp Ho Hu Ht)
    as (s' & H1 & H2 & H3 & _). eauto.
Qed.
(** A goodbye from anyone ends the call, whoever it is with. *)
Lemma bye_from_anyone e s from to reason : answers_ok e ->
  exists s' os, on_msg e (Bye from to reason) s = Ok (s', os, ()) /\ call_flow s' = CallFlow.Idle /\ signals os = [].
Proof.
  intros He. unfold handle_signaling_server_msg, push_ui_log. rewrite bind_modify.
  destruct (torn_down e reason false (set_ui_logs s ((if (length (ui_logs s) =? 256)%nat then drop 1 (ui_logs s) else ui_logs s)
    ++ [lit "Peer " ++ from ++ lit " ended call: " ++ debug_reason reason])) He) as (s' & os & H1 & H2 & _ & [H3 _] & _).
  exists s', os. split; [exact H1 |]. split; [exact H3 | exact H2].
Qed.
(** Two users who call each other at the same time both refuse, and the goodbye of each ends the
    call of the other. *)
Lemma crossed_calls_refused e s user peer txn txn' sdp : online s -> current_username s = Some user ->
  call_flow s = CallFlow.Dialing peer txn ->
  on_msg e (Offer txn' peer user sdp) s
    = Ok (s, [Background LogLevel.Info (lit "Auto-rejecting call from " ++ peer ++ lit " (busy)");
              Signal (Bye user peer (Some (lit "User is busy")))], ()).
Proof.
  intros Ho Hu Hf. unfold handle_signaling_server_msg. rewrite bind_get, Hf, bool_decide_eq_false_2 by discriminate. cbn [negb].
  rewrite (bind_run _ _ s s [Background LogLevel.Info (lit "Auto-rejecting call from " ++ peer ++ lit " (busy)")] ()) by reflexivity.
  rewrite (bind_run _ _ s s [Signal (Bye user peer (Some (lit "User is busy")))] true).
  - reflexivity.
  - unfold me. rewrite Hu. apply send_online, Ho.
Qed.
(** The button that cancels an upload names the transfer 0, which is not the one in progress. *)
Lemma cancel_names_zero s : file_transfer_state s = FileTransferState.Idle ->
  exists s', cancel_transfer s = Ok (s', OfEngine <$> Engine.cancel_file (engine s) 0, ()).
Proof.
  intros H. unfold cancel_transfer. rewrite bind_get, H. unfold engine_tells.
  rewrite (bind_run _ _ s (set_engine s (engine s)) (OfEngine <$> Engine.cancel_file (engine s) 0) ()) by reflexivity.
  eexists. unfold modify. cbn [prepend]. rewrite app_nil_r. reflexivity.
Qed.
(** The interval between two frames is one millisecond for one frame per second and none above, so the
    setting has no effect; with no frames per second the first frame panics. *)
Lemma repaint_interval cfg text fps : Config.get cfg (lit "UI") (lit "fps") = Some text ->
  from_str_radix 10 u64_max text = Ok fps ->
  repaint_time cfg = if fps =? 0 then Panic else Ok (if fps =? 1 then 1 else 0).
Proof.
  intros H Hf. unfold repaint_time. rewrite H, Hf. destruct (Z.eqb_spec fps 0); [reflexivity |]. f_equal.
  apply from_str_radix_range in Hf; [| vm_compute; discriminate | lia].
  destruct (Z.eqb_spec fps 1) as [-> |]; [reflexivity |]. apply Z.div_small. lia.
Qed.
End unchecked.
