(* ===== verification/CallTheory.v ===== *)
(** * A call, from the click to the end, through the server

    Two applications and the signaling server: what one application sends, the engine of the server
    forwards to the other under the authenticated name. *)

From stdpp Require Import prelude gmap strings.
From Stdlib Require Import ZArith Lia.
From S2P Require Import Prelude Utf8 SigProtocol SigState SigServer Config ConnManager ConnCodec ConnTheory ConnSafety MediaTransport FileTransfer Engine AppState App AppTheory.
Local Open Scope Z_scope.
Import RtcApp.

Section server.
Context {A : Type} `{AuthBackend A}.

(** The client [c] is logged in as [user]. *)
Record registered (s : ServerEngine.t (A := A)) (c : ClientId) (user : bytes) : Prop := {
  r_user : Presence.username_for (ServerEngine.presence s) c = Some user;
  r_client : Presence.client_id_for (ServerEngine.presence s) user = Some c }.
Definition is_busy (s : ServerEngine.t (A := A)) (user : bytes) : bool := Presence.is_busy (ServerEngine.presence s) user.

Lemma registered_ok (s : ServerEngine.t (A := A)) c user : Presence.ok (ServerEngine.presence s) ->
  Presence.username_for (ServerEngine.presence s) c = Some user -> registered s c user.
Proof. intros Hp Hu. split; [exact Hu | apply Hp, Hu]. Qed.

Lemma offer_forwarded rng s ca cb alice bob txn name sdp : registered s ca alice -> registered s cb bob ->
  ServerEngine.handle rng s ca (Offer txn name bob sdp) = Ok (s, [(cb, Offer txn alice bob sdp)]).
Proof.
  intros [Ha _] [_ Hb]. cbn [ServerEngine.handle]. unfold ServerEngine.forward_signaling, ServerEngine.require_logged_in, ServerEngine.forward.
  rewrite Ha, Hb. reflexivity.
Qed.
(** An answer and a goodbye also change who is busy, and everyone is told. *)
Definition with_busy (s : ServerEngine.t (A := A)) (u1 u2 : bytes) (busy : bool) : ServerEngine.t (A := A) :=
  ServerEngine.with_presence s (Presence.set_busy (Presence.set_busy (ServerEngine.presence s) u1 busy) u2 busy).
Lemma with_busy_registered s u1 u2 busy c user : registered s c user -> registered (with_busy s u1 u2 busy) c user.
Proof. intros [Hu Hc]. split; [exact Hu | exact Hc]. Qed.
Lemma with_busy_is s u1 u2 busy : is_busy (with_busy s u1 u2 busy) u1 = busy /\ is_busy (with_busy s u1 u2 busy) u2 = busy.
Proof.
  unfold is_busy, with_busy, Presence.is_busy. cbn [ServerEngine.presence ServerEngine.with_presence Presence.busy_users Presence.set_busy].
  destruct busy; split; [rewrite bool_decide_eq_true; set_solver .. | rewrite bool_decide_eq_false; set_solver |
    rewrite bool_decide_eq_false; set_solver].
Qed.
Lemma answer_forwarded rng s ca cb alice bob txn name sdp : registered s ca alice -> registered s cb bob ->
  ServerEngine.handle rng s cb (Answer txn name alice sdp)
    = Ok (with_busy s bob alice true, (ca, Answer txn bob alice sdp) :: ServerEngine.broadcast_peer_list_update (with_busy s bob alice true)).
Proof.
  intros [_ Ha] [Hb _]. cbn [ServerEngine.handle]. unfold ServerEngine.forward_signaling, ServerEngine.require_logged_in, ServerEngine.forward.
  rewrite Hb. cbn [ServerEngine.presence ServerEngine.with_presence]. unfold Presence.client_id_for in *.
  cbn [Presence.user_to_client Presence.set_busy]. rewrite Ha. reflexivity.
Qed.
Lemma bye_forwarded rng s ca cb alice bob name reason : registered s ca alice -> registered s cb bob ->
  ServerEngine.handle rng s ca (Bye name bob reason)
    = Ok (with_busy s alice bob false, (cb, Bye alice bob reason) :: ServerEngine.broadcast_peer_list_update (with_busy s alice bob false)).
Proof.
  intros [Ha _] [_ Hb]. cbn [ServerEngine.handle]. unfold ServerEngine.forward_signaling, ServerEngine.require_logged_in, ServerEngine.forward.
  rewrite Ha. cbn [ServerEngine.presence ServerEngine.with_presence]. unfold Presence.client_id_for in *.
  cbn [Presence.user_to_client Presence.set_busy]. rewrite Hb. reflexivity.
Qed.

Section call.
Context (default_hash : bytes -> Z).
Context (display_connection : ConnectionError.t -> bytes) (debug_gui : GuiError.t -> bytes)
        (debug_reason : option bytes -> bytes) (debug_msg : SignalingMsg -> bytes) (utf8_error : bytes -> bytes).
Local Abbreviation start_call := (start_outgoing_call default_hash display_connection debug_gui).
Local Abbreviation accept_call := (accept_incoming_call default_hash display_connection debug_gui).
Local Abbreviation on_msg := (handle_signaling_server_msg display_connection debug_reason debug_msg utf8_error).
Local Abbreviation set_remote := (set_remote_sdp default_hash display_connection).

(** The goodbye of the peer ends the call without an answer. *)
Lemma bye_received e s user from to reason : answers_ok e -> online s -> current_username s = Some user ->
  exists s' os, on_msg e (Bye from to reason) s = Ok (s', os, ()) /\ signals os = [] /\ idle s' user.
Proof.
  intros He Ho Hu. unfold handle_signaling_server_msg, push_ui_log. rewrite bind_modify. set (s1 := set_ui_logs _ _).
  destruct (torn_down e reason false s1 He) as (s' & os & H1 & H2 & (C1 & C2 & _) & (F1 & _) & _ & _ & Hr & Hf).
  exists s', os. split; [exact H1 |]. split; [exact H2 |].
  split; [unfold online; rewrite C1; exact Ho | rewrite C2; exact Hu | exact F1 | exact Hr | exact Hf].
Qed.
Lemma hung_up e s user peer reason : answers_ok e -> in_call s user peer ->
  exists s' os, teardown_call e reason true s = Ok (s', os, ()) /\ signals os = [Bye user peer reason] /\ idle s' user.
Proof.
  intros He [Ho Hu Hf]. destruct (torn_down e reason true s He)
    as (s' & os & H1 & H2 & (C1 & C2 & _) & (F1 & _) & _ & _ & Hr & Hfr).
  exists s', os. split; [exact H1 |]. split; [| split; [unfold online; congruence | congruence | exact F1 | exact Hr | exact Hfr]].
  rewrite H2. unfold current_peer, bye_msgs. rewrite Hf, Ho, Hu. reflexivity.
Qed.

(** C2 A call, from the click to the end. Let two users be logged in at the server, and their
    applications be idle. The click of the first sends an offer, which the server forwards; the second
    rings, and accepting sends an answer, which the server forwards, marking both users busy; the first
    applies it. Then each is in a call with the other, and their connection managers agree: stable,
    checking, in complementary roles, each knowing the other's candidates, credentials, fingerprint and
    codecs. When the first hangs up, the server forwards its goodbye and neither user is busy any
    more, and both applications are idle again, ready for the next call. *)
Theorem call_lifecycle (s0 : ServerEngine.t (A := A)) ca cb rng a b alice bob ea eb ea' eh eh' reason :
  registered s0 ca alice -> registered s0 cb bob -> idle a alice -> idle b bob ->
  env_ok (cm_env ea) -> env_ok (cm_env eb) -> env_ok (cm_env ea') -> answers_ok eh -> answers_ok eh' ->
  let txn := next_txn_id a in
  exists a1 os1 offer b1 b2 ds os2 answer s1 told a2 a3 ds' a4 os4 s2 told' b3 os5,
    (start_call ea bob a = Ok (a1, Signal (Offer txn alice bob offer) :: os1, ()) /\
     ServerEngine.handle rng s0 ca (Offer txn alice bob offer) = Ok (s0, [(cb, Offer txn alice bob offer)]) /\
     on_msg eb (Offer txn alice bob offer) b = Ok (b1, [Signal (Ack bob alice txn)], ()) /\
     call_flow b1 = CallFlow.Incoming alice txn offer) /\
    (accept_call eb b1 = Ok (b2, (OfEngine <$> (Engine.Datagram <$> ds)) ++ Signal (Answer txn bob alice answer) :: os2, ()) /\
     ServerEngine.handle rng s0 cb (Answer txn bob alice answer) = Ok (s1, (ca, Answer txn bob alice answer) :: told) /\
     is_busy s1 alice = true /\ is_busy s1 bob = true /\
     on_msg ea' (Answer txn bob alice answer) a1 = Ok (a2, [Signal (Ack alice bob txn)], ()) /\
     pending_remote_sdp a2 = Some answer /\ set_remote ea' answer a2 = Ok (a3, OfEngine <$> (Engine.Datagram <$> ds'), Ok ()) /\
     in_call a3 alice bob /\ in_call b2 bob alice /\ agreed default_hash ea eb a b a3 b2) /\
    (teardown_call eh reason true a3 = Ok (a4, os4, ()) /\ signals os4 = [Bye alice bob reason] /\
     ServerEngine.handle rng s1 ca (Bye alice bob reason) = Ok (s2, (cb, Bye alice bob reason) :: told') /\
     is_busy s2 alice = false /\ is_busy s2 bob = false /\
     on_msg eh' (Bye alice bob reason) b2 = Ok (b3, os5, ()) /\ signals os5 = [] /\ idle a4 alice /\ idle b3 bob).
Proof.
  intros Ra Rb Ia Ib Hea Heb Hea' Heh Heh'. cbv zeta.
  destruct (call_run default_hash display_connection debug_gui debug_reason debug_msg utf8_error a b alice bob ea eb ea' Ia Ib Hea Heb Hea')
    as (a1 & os1 & offer & b1 & b2 & ds & os2 & answer & a2 & a3 & ds' & Q1 & _ & Q2 & F2 & Q3 & Q4 & P4 & Q5 & Ca & Cb & Hag).
  destruct (hung_up eh a3 alice bob reason Heh Ca) as (a4 & os4 & T1 & T2 & T3).
  destruct Cb as [Ob Ub Fb]. destruct (bye_received eh' b2 bob alice bob reason Heh' Ob Ub) as (b3 & os5 & B1 & B2 & B3).
  destruct (with_busy_is s0 bob alice true) as [Y1 Y2]. destruct (with_busy_is (with_busy s0 bob alice true) alice bob false) as [N1 N2].
  do 19 eexists. split; [| split].
  - split; [exact Q1 |]. split; [apply offer_forwarded; assumption |]. split; [exact Q2 | exact F2].
  - split; [exact Q3 |]. split; [apply answer_forwarded; assumption |]. split; [exact Y2 |]. split; [exact Y1 |]. split; [exact Q4 |].
    split; [exact P4 |]. split; [exact Q5 |]. split; [exact Ca |]. split; [split; assumption | exact Hag].
  - split; [exact T1 |]. split; [exact T2 |].
    split; [apply bye_forwarded; apply with_busy_registered; assumption |]. split; [exact N1 |]. split; [exact N2 |].
    split; [exact B1 |]. split; [exact B2 |]. split; [exact T3 | exact B3].
Qed.
End call.
End server.

Module LoggedIn.
Definition alice : bytes := lit "alice".
Definition bob : bytes := lit "bob".
Definition server : ServerEngine.t (A := AllowAllAuthBackend) :=
  ServerEngine.with_presence (ServerEngine.with_auth tt) (Presence.login (Presence.login Presence.new 1 alice).1 2 bob).1.
End LoggedIn.

Lemma call_lifecycle_witness :
  let a := Demo.app Demo.caller_env LoggedIn.alice CallFlow.Idle in let b := Demo.app Demo.callee_env LoggedIn.bob CallFlow.Idle in
  exists offer b1 b2 os2 answer s1 told,
    ServerEngine.handle (fun _ => 0) LoggedIn.server 1 (Offer 1 LoggedIn.alice LoggedIn.bob offer)
      = Ok (LoggedIn.server, [(2, Offer 1 LoggedIn.alice LoggedIn.bob offer)]) /\
    accept_incoming_call Call.hash Demo.text Demo.text Demo.callee_env b1 = Ok (b2, os2, ()) /\
    in_call b2 LoggedIn.bob LoggedIn.alice /\
    ServerEngine.handle (fun _ => 0) LoggedIn.server 2 (Answer 1 LoggedIn.bob LoggedIn.alice answer)
      = Ok (s1, (1, Answer 1 LoggedIn.bob LoggedIn.alice answer) :: told) /\ is_busy s1 LoggedIn.bob = true.
Proof.
  cbv zeta.
  destruct (call_lifecycle Call.hash Demo.text Demo.text Demo.text Demo.text Demo.text LoggedIn.server 1 2 (fun _ => 0)
    (Demo.app Demo.caller_env LoggedIn.alice CallFlow.Idle) (Demo.app Demo.callee_env LoggedIn.bob CallFlow.Idle)
    LoggedIn.alice LoggedIn.bob Demo.caller_env Demo.callee_env Demo.caller_env Demo.caller_env Demo.callee_env (Some []))
    as (a1 & os1 & offer & b1 & b2 & ds & os2 & answer & s1 & told & a2 & a3 & ds' & a4 & os4 & s2 & told' & b3 & os5
        & (_ & O2 & _) & (A1 & A2 & _ & A4 & _ & _ & _ & _ & A9 & _) & _);
    [split; vm_compute; reflexivity | split; vm_compute; reflexivity | apply demo_idle | apply demo_idle
    | apply env_of_ok; unfold u8, u16; lia | apply env_of_ok; unfold u8, u16; lia | apply env_of_ok; unfold u8, u16; lia
    | apply demo_answers | apply demo_answers |].
  eexists offer, b1, b2, _, answer, s1, told. split; [exact O2 |]. split; [exact A1 |]. split; [exact A9 |]. split; [exact A2 | exact A4].
Defined.
