(* ===== verification/AppInv.v ===== *)
(** * The application: its screens

    In every state that the application reaches, the screen it shows, the connection to the server,
    the user logged in and the call are consistent. *)

From stdpp Require Import prelude gmap strings.
From Stdlib Require Import ZArith Lia.
From S2P Require Import Prelude Utf8 SigProtocol Config ConnManager ConnSafety FileTransfer SigTransport Engine EngineTheory MediaTransport AppState App View AppTheory.
Local Open Scope Z_scope.
Import RtcApp.

(** ** The invariant *)
Record inv (s : t) : Prop := {
  inv_client : signaling_client s = None <-> signaling_screen s = SignalingScreen.Connect;
  inv_user : is_Some (current_username s) <-> signaling_screen s = SignalingScreen.Home;
  inv_call : signaling_screen s = SignalingScreen.Connect -> call_flow s = CallFlow.Idle /\ peers_online s = [];
  inv_file : forall id name p, file_transfer_state s <> FileTransferState.Sending id name p }.
Definition connected_inv (s : t) : Prop := inv s /\ signaling_client s <> None.

(** What the invariant depends on *)
Definition core (s : t) : option bool * SignalingScreen.t * option bytes * CallFlow.t * list (bytes * PeerStatus) * FileTransferState.t :=
  (signaling_client s, signaling_screen s, current_username s, call_flow s, peers_online s, file_transfer_state s).
Lemma inv_core s s' : core s' = core s -> inv s -> inv s'.
Proof. unfold core. intros [= E1 E2 E3 E4 E5 E6] [H1 H2 H3 H4]. split; rewrite ?E1, ?E2, ?E3, ?E4, ?E5, ?E6; assumption. Qed.
Lemma connected_core s s' : core s' = core s -> connected_inv s -> connected_inv s'.
Proof. intros E [H Hc]. split; [eapply inv_core; eassumption |]. injection E as -> _ _ _ _ _. exact Hc. Qed.

(** ** Steps that keep a property *)
Definition keeps {A} (P Q : t -> Prop) (m : M A) : Prop :=
  forall s, P s -> match m s with Ok (s', _, _) => Q s' | _ => True end.
(** Steps that do not change what the invariant depends on *)
Definition framed {A} (m : M A) : Prop := forall s, match m s with Ok (s', _, _) => core s' = core s | _ => True end.

Lemma keeps_bind {A B} P Q R (m : M A) (k : A -> M B) : keeps P Q m -> (forall a, keeps Q R (k a)) -> keeps P R (m ≫= k).
Proof.
  intros Hm Hk s Hs. specialize (Hm s Hs). unfold mbind, M_bind. destruct (m s) as [[[s1 os] a] | |]; [| exact I ..].
  specialize (Hk a s1 Hm). destruct (k a s1) as [[[]] | |]; exact Hk || exact I.
Qed.
Lemma keeps_run {A} P Q (m : M A) s : keeps P Q m -> P s -> match m s with Ok (s', _, _) => Q s' | _ => True end.
Proof. intros H. apply H. Qed.
Lemma keeps_get {A} P Q (k : t -> M A) : (forall s, P s -> match k s s with Ok (s', _, _) => Q s' | _ => True end) -> keeps P Q (get ≫= k).
Proof. intros H s Hs. rewrite bind_get. apply H, Hs. Qed.
Lemma keeps_modify P Q f : (forall s, P s -> Q (f s)) -> keeps P Q (modify f).
Proof. intros H s Hs. apply H, Hs. Qed.
Lemma keeps_ret {A} P (a : A) : keeps P P (mret a).
Proof. intros s Hs. exact Hs. Qed.
Lemma keeps_framed {A} (m : M A) : framed m -> keeps inv inv m /\ keeps connected_inv connected_inv m.
Proof.
  intros H. split; intros s Hs; specialize (H s); destruct (m s) as [[[s' os] a] | |]; try exact I;
    [eapply inv_core | eapply connected_core]; eassumption.
Qed.

Lemma framed_bind {A B} (m : M A) (k : A -> M B) : framed m -> (forall a, framed (k a)) -> framed (m ≫= k).
Proof.
  intros Hm Hk s. specialize (Hm s). unfold mbind, M_bind. destruct (m s) as [[[s1 os] a] | |]; [| exact I ..].
  specialize (Hk a s1). destruct (k a s1) as [[[]] | |]; [congruence | exact I ..].
Qed.
Lemma framed_get : framed get.
Proof. intros s. reflexivity. Qed.
Lemma framed_ret {A} (a : A) : framed (mret a).
Proof. intros s. reflexivity. Qed.
Lemma framed_emit os : framed (emit os).
Proof. intros s. reflexivity. Qed.
Lemma framed_panic {A} : framed (fun _ : t => Panic (A := t * list output * A)).
Proof. intros s. exact I. Qed.
Lemma framed_modify f : (forall s, core (f s) = core s) -> framed (modify f).
Proof. intros H s. apply H. Qed.
Lemma framed_engine {A} (f : Engine.t -> outcome Empty_set (Engine.t * list Engine.output * A)) : framed (on_engine f).
Proof. intros s. unfold on_engine. destruct (f (engine s)) as [[[]] | |]; [reflexivity | exact I ..]. Qed.
Lemma framed_each {A} (l : list A) f : (forall a, framed (f a)) -> framed (each l f).
Proof. intros H. induction l as [| a l IH]; [apply framed_ret | apply framed_bind; [apply H | intros; exact IH]]. Qed.
Create HintDb app.
#[export] Hint Resolve framed_get framed_ret framed_emit framed_panic framed_engine : app.
Ltac framed :=
  repeat first [apply framed_bind; [| intros] | apply framed_modify; intros; reflexivity | apply framed_each; intros
               | solve [auto with app] | case_match ].

Lemma framed_log line : framed (push_ui_log line).
Proof. unfold push_ui_log. framed. Qed.
Lemma framed_background l text : framed (background_log l text).
Proof. unfold background_log. framed. Qed.
Lemma framed_status text : framed (status text).
Proof. unfold status. framed. Qed.
#[export] Hint Resolve framed_log framed_background framed_status : app.
Lemma framed_fail text : framed (fail_with text).
Proof. unfold fail_with. framed. Qed.
#[export] Hint Resolve framed_fail : app.
Lemma framed_send msg : framed (send_signaling msg).
Proof. unfold send_signaling. framed. Qed.
#[export] Hint Resolve framed_send : app.
Lemma framed_candidates peer : framed (send_local_candidates peer).
Proof. unfold send_local_candidates. framed. Qed.
Lemma framed_bye peer reason : framed (send_bye peer reason).
Proof. unfold send_bye. framed. Qed.
Lemma framed_does f : framed (engine_does f).
Proof. apply framed_engine. Qed.
Lemma framed_tells f : framed (engine_tells f).
Proof. apply framed_engine. Qed.
Lemma framed_store a b : framed (modify (store_files a b)).
Proof. framed. Qed.
#[export] Hint Resolve framed_candidates framed_bye framed_does framed_tells framed_store : app.

(** ** The operations *)
Definition not_sending (f : FileTransferState.t) : Prop := forall id name p, f <> FileTransferState.Sending id name p.
(** A property that the end of a call and of a transfer keep *)
Record good (P : t -> Prop) : Prop := {
  g_core : forall s s', core s' = core s -> P s -> P s';
  g_idle : forall s, P s -> P (set_call_flow s CallFlow.Idle);
  g_file : forall s f, P s -> not_sending f -> P (set_file_transfer_state s f) }.
Lemma inv_good : good inv.
Proof.
  split; [exact inv_core | |].
  - intros s [H1 H2 H3 H4]. split; try assumption. intros Hs. split; [reflexivity | apply H3, Hs].
  - intros s f [H1 H2 H3 H4] Hf. split; assumption.
Qed.
Lemma connected_good : good connected_inv.
Proof.
  split; [exact connected_core | |].
  - intros s [H Hc]. split; [apply (g_idle _ inv_good), H | exact Hc].
  - intros s f [H Hc] Hf. split; [apply (g_file _ inv_good); assumption | exact Hc].
Qed.

Section good.
Context (P : t -> Prop) (G : good P).
Lemma keeps_frame {A} (m : M A) : framed m -> keeps P P m.
Proof.
  intros H s Hs. specialize (H s). destruct (m s) as [[[s' os] a] | |]; [| exact I ..]. eapply (g_core _ G); eassumption.
Qed.
Lemma keeps_after {A B} (m : M A) (k : A -> M B) : framed m -> (forall a, keeps P P (k a)) -> keeps P P (m ≫= k).
Proof. intros Hm. apply keeps_bind, keeps_frame, Hm. Qed.
Lemma keeps_idle f : (forall s, core (f s) = core (set_call_flow s CallFlow.Idle)) -> keeps P P (modify f).
Proof. intros H. apply keeps_modify. intros s Hs. eapply (g_core _ G); [apply H | apply (g_idle _ G), Hs]. Qed.
Lemma keeps_file f v : (forall s, core (f s) = core (set_file_transfer_state s v)) -> not_sending v -> keeps P P (modify f).
Proof. intros H Hv. apply keeps_modify. intros s Hs. eapply (g_core _ G); [apply H | apply (g_file _ G); assumption]. Qed.

Lemma teardown_keeps e reason bye : keeps P P (teardown_call e reason bye).
Proof.
  unfold teardown_call. apply keeps_after; [framed |]. intros s0. apply keeps_after; [framed |]. intros _.
  apply keeps_after; [framed |]. intros _. apply keeps_bind with (Q := P); [apply (keeps_file _ FileTransferState.Idle); [reflexivity | discriminate] |].
  intros _. apply keeps_after; [framed |]. intros s1. apply keeps_after; [framed |]. intros _.
  apply keeps_bind with (Q := P); [apply keeps_idle; reflexivity |]. intros _. apply keeps_frame. framed.
Qed.
End good.

Section app.
Context (default_hash : bytes -> Z) (keystream : bytes -> bytes -> nat -> bytes) (display_rtp : RtpSession.RtpSessionError -> bytes).
Context (display_connection : ConnectionError.t -> bytes) (debug_gui : GuiError.t -> bytes)
        (debug_reason : option bytes -> bytes) (debug_msg : SignalingMsg -> bytes) (utf8_error : bytes -> bytes)
        (show_addr : Net.SocketAddr.t -> bytes).

Lemma framed_create e : framed (create_or_renegotiate_local_sdp default_hash display_connection e).
Proof. unfold create_or_renegotiate_local_sdp. framed. Qed.
Lemma framed_remote e sdp : framed (set_remote_sdp default_hash display_connection e sdp).
Proof. unfold set_remote_sdp. framed. Qed.
#[local] Hint Resolve framed_create framed_remote : app.

(** Only a live connection takes a message. *)
Lemma keeps_sent msg (k : bool -> M unit) : keeps connected_inv inv (k true) -> keeps inv inv (k false) ->
  keeps inv inv (send_signaling msg ≫= k).
Proof.
  intros Ht Hf s Hs. pose proof (framed_send msg s) as Hc. unfold mbind, M_bind.
  destruct (send_signaling msg s) as [[[s1 os] sent] | |] eqn:E; [| exact I ..].
  assert (H : match k sent s1 with Ok (s', _, _) => inv s' | _ => True end).
  { destruct sent; [apply Ht | apply Hf; eapply inv_core; eassumption]. split; [eapply inv_core; eassumption |].
    unfold send_signaling in E. rewrite bind_get in E. injection Hc as Hc _ _ _ _ _. rewrite Hc. intros Hn. rewrite Hn in E.
    discriminate E. }
  destruct (k sent s1) as [[[]] | |]; exact H || exact I.
Qed.
Lemma keeps_flow P f c : good P -> (forall s, P s -> signaling_client s <> None /\ inv s) ->
  (forall s, core (f s) = core (set_call_flow s c)) -> keeps P inv (modify f).
Proof.
  intros G HP Hf. apply keeps_modify. intros s Hs. destruct (HP s Hs) as [Hc [H1 H2 H3 H4]].
  eapply inv_core; [apply Hf |]. split; try assumption. intros E. apply H1 in E. contradiction.
Qed.
Lemma connected_flow f c : (forall s, core (f s) = core (set_call_flow s c)) -> keeps connected_inv connected_inv (modify f).
Proof.
  intros Hf s [H Hc]. split; [apply (keeps_flow connected_inv f c connected_good ltac:(intros ? []; auto) Hf); split; assumption |].
  pose proof (Hf s) as E. injection E as -> _ _ _ _ _. exact Hc.
Qed.

Lemma call_keeps e peer : keeps inv inv (start_outgoing_call default_hash display_connection debug_gui e peer).
Proof.
  unfold start_outgoing_call. apply keeps_after; [exact inv_good | framed |]. intros s.
  case_match; [apply keeps_frame; [exact inv_good | framed] |]. case_match; [apply keeps_frame; [exact inv_good | framed] |].
  apply keeps_after; [exact inv_good | framed |]. intros r.
  case_match; [| apply keeps_frame; [exact inv_good | framed] |].
  all: apply keeps_after; [exact inv_good | framed |]; intros s1; case_match; [apply keeps_frame; [exact inv_good | framed] |];
    apply keeps_after; [exact inv_good | framed |]; intros _; apply keeps_sent; [| apply keeps_ret];
    eapply keeps_bind; [apply (keeps_flow connected_inv _ (CallFlow.Dialing peer (next_txn_id s1)) connected_good); [intros ? []; auto | reflexivity] |];
    intros _; apply keeps_frame; [exact inv_good | framed].
Qed.
Lemma accept_keeps e : keeps inv inv (accept_incoming_call default_hash display_connection debug_gui e).
Proof.
  unfold accept_incoming_call. apply keeps_after; [exact inv_good | framed |]. intros s.
  destruct (call_flow s) as [| | from txn sdp |]; try apply keeps_ret. apply keeps_after; [exact inv_good | framed |]. intros r.
  case_match; [| apply keeps_frame; [exact inv_good | framed] |].
  all: apply keeps_after; [exact inv_good | framed |]; intros s1; case_match; [apply keeps_frame; [exact inv_good | framed] |];
    apply keeps_sent; [| apply keeps_ret];
    eapply keeps_bind; [apply (keeps_flow connected_inv _ (CallFlow.Active from) connected_good); [intros ? []; auto | reflexivity] |];
    intros _; apply keeps_frame; [exact inv_good | framed].
Qed.

(** Messages of the server keep the invariant while the connection is there. *)
Lemma server_msg_keeps e msg : keeps connected_inv connected_inv
  (handle_signaling_server_msg display_connection debug_reason debug_msg utf8_error e msg).
Proof.
  pose proof connected_good as G. unfold handle_signaling_server_msg. destruct msg; try (apply keeps_frame; [exact G | framed; fail]).
  - apply keeps_bind with (Q := connected_inv).
    + apply keeps_modify. intros s [[H1 H2 H3 H4] Hc]. split; [split; cbn |]; [| | intros E; discriminate E | exact H4 | exact Hc].
      * split; [intros E; contradiction | discriminate].
      * split; [reflexivity | intros _; eexists; reflexivity].
    + intros _. apply keeps_frame; [exact G |]. unfold request_peer_list. framed.
  - apply keeps_modify. intros s [[H1 H2 H3 H4] Hc]. split; [split; cbn |]; try assumption.
    intros E. apply H1 in E. contradiction.
  - apply keeps_after; [exact G | framed |]. intros s. case_match; [apply keeps_frame; [exact G | framed] |].
    case_match; [| apply keeps_frame; [exact G | framed]].
    eapply keeps_bind; [eapply connected_flow; reflexivity |]. intros _. apply keeps_frame; [exact G | framed].
  - case_match; [| apply keeps_frame; [exact G | framed]].
    eapply keeps_bind; [eapply connected_flow; reflexivity |]. intros _. apply keeps_frame; [exact G | framed].
  - apply keeps_after; [exact G | framed |]. intros _. apply teardown_keeps, G.
Qed.

Lemma cleared_inv s : inv s -> inv (clear_signaling_state s).
Proof.
  intros [H1 H2 H3 H4]. split; cbn; [split; reflexivity | | intros _; split; reflexivity | exact H4].
  split; [intros []; discriminate | discriminate].
Qed.

(** The events of one frame: the client reports its end last. *)
Definition batch_ok (events : list SignalingEvent.t) : Prop :=
  forall l r, events = l ++ SignalingEvent.Disconnected :: r -> r = [].
Lemma batch_keeps e events : batch_ok events ->
  keeps connected_inv inv (each events (handle_signaling_event display_connection debug_reason debug_msg utf8_error e)).
Proof.
  induction events as [| ev events IH]; intros Hb; [intros s [H _]; exact H |]. cbn [each].
  assert (Hb' : batch_ok events) by (intros l r ->; apply (Hb (ev :: l) r); reflexivity).
  destruct ev as [| | err | msg]; cbn [handle_signaling_event].
  - eapply keeps_bind; [apply keeps_frame; [exact connected_good | framed] |]. intros _. apply IH, Hb'.
  - rewrite (Hb [] events eq_refl). apply keeps_bind with (Q := inv); [| intros _; apply keeps_ret].
    apply keeps_bind with (Q := connected_inv); [apply keeps_frame; [exact connected_good | framed] |].
    intros _. apply keeps_modify. intros s [H _]. apply cleared_inv, H.
  - eapply keeps_bind; [apply keeps_frame; [exact connected_good | framed] |]. intros _. apply IH, Hb'.
  - eapply keeps_bind; [apply server_msg_keeps |]. intros _. apply IH, Hb'.
Qed.
Lemma poll_keeps e events : batch_ok events ->
  keeps inv inv (poll_signaling_events display_connection debug_reason debug_msg utf8_error e events).
Proof.
  intros Hb. unfold poll_signaling_events. apply keeps_get. intros s Hs. destruct (signaling_client s) eqn:E; cbn [is_some].
  - apply batch_keeps; [exact Hb |]. split; [exact Hs | congruence].
  - exact Hs.
Qed.

(** ** Events of the engine *)

(** Those that a poll hands to the application *)
Definition reported (ev : EngineEvent.t) : Prop := forall p, ev <> EngineEvent.SendFileOffer p.
Lemma event_loop_reported queue : forall x start clock k n x' out os rest,
  Engine.event_loop x queue start clock k n = Ok (x', out, os, rest) -> Forall reported out.
Proof.
  induction queue as [| ev queue IH]; intros x start clock k n x' out os rest; cbn [Engine.event_loop].
  - intros [= _ <- _ _]. constructor.
  - case_match; [intros [= _ <- _ _]; constructor |]. intros Hl. bind_inv Hl. destruct v as [[x1 o1] counted].
    bind_inv Hl. destruct v as [[[x2 out'] o2] q']. injection Hl as _ <- _ _. apply IH in Hv0.
    apply Forall_app. split; [| exact Hv0]. destruct counted eqn:Ec; [| constructor]. constructor; [| constructor].
    intros p ->. cbn [Engine.on_event] in Hv. discriminate Hv.
Qed.
Lemma poll_reported x ce queue start clock x' out os rest :
  Engine.poll x ce queue start clock = Ok (x', out, os, rest) -> Forall reported out.
Proof.
  unfold Engine.poll. destruct (ConnectionManager.drain_ice_events _) as [c ds]. destruct (Engine.connect_nominated _ _) as [x1 o1].
  intros H. bind_inv H. destruct v as [[[x2 out'] o2] q]. injection H as _ <- _ _. eapply event_loop_reported, Hv.
Qed.

Lemma engine_event_keeps e ev : reported ev -> keeps inv inv (handle_engine_event show_addr e ev).
Proof.
  intros Hr. pose proof inv_good as G. unfold handle_engine_event. destruct ev; try (apply keeps_frame; [exact G | framed; fail]).
  - apply keeps_after; [exact G | framed |]. intros _. apply keeps_after; [exact G | framed |]. intros _.
    case_match; [eapply (keeps_file inv G _ (FileTransferState.Finished s)); [reflexivity | discriminate] | apply keeps_ret].
  - apply keeps_idle; [exact G | reflexivity].
  - do 3 (apply keeps_after; [exact G | framed |]; intros _). apply keeps_idle; [exact G | reflexivity].
  - exfalso. eapply Hr. reflexivity.
  - apply keeps_after; [exact G | framed |]. intros _. apply (keeps_file inv G _ FileTransferState.Idle); [reflexivity | discriminate].
  - apply keeps_after; [exact G | framed |]. intros _. apply (keeps_file inv G _ (FileTransferState.RemoteOffered p)); [reflexivity | discriminate].
  - apply keeps_after; [exact G | framed |]. intros _. apply (keeps_file inv G _ FileTransferState.Idle); [reflexivity | discriminate].
  - apply keeps_after; [exact G | framed |]. intros _. apply (keeps_file inv G _ FileTransferState.Idle); [reflexivity | discriminate].
  - apply keeps_after; [exact G | framed |]. intros _. apply (keeps_file inv G _ FileTransferState.Idle); [reflexivity | discriminate].
  - apply keeps_modify. intros s H. destruct (file_transfer_state s) eqn:E; try exact H. exfalso. eapply (inv_file _ H), E.
  - apply keeps_modify. intros s H. destruct (file_transfer_state s) eqn:E; try exact H. case_match; [| exact H].
    apply (g_file _ G); [exact H | discriminate].
Qed.
Lemma events_keep e evs : Forall reported evs -> keeps inv inv (each evs (handle_engine_event show_addr e)).
Proof.
  induction 1 as [| ev evs Hev _ IH]; [apply keeps_ret |]. cbn [each].
  eapply keeps_bind; [apply engine_event_keeps, Hev | intros _; exact IH].
Qed.
Lemma poll_engine_keeps e : keeps inv inv (poll_engine_events show_addr e).
Proof.
  intros s Hs. unfold poll_engine_events, mbind at 1, M_bind. unfold on_engine.
  destruct (Engine.poll (engine s) (connect e) (queue e) (now e) (clock e)) as [[[[x evs] os] rest] | |] eqn:E; [| exact I ..].
  cbn [mbind outcome_bind]. apply poll_reported in E.
  pose proof (keeps_bind inv inv inv _ (fun _ => mret rest) (events_keep e evs E) (fun _ => keeps_ret inv rest) (set_engine s x)) as H.
  specialize (H ltac:(eapply inv_core; [| exact Hs]; reflexivity)).
  destruct ((each evs (handle_engine_event show_addr e) ≫= (fun _ => mret rest)) (set_engine s x)) as [[[]] | |]; exact H || exact I.
Qed.

(** ** Steps of the application *)

(** A button that is there, the events of a frame, its painting, and the end of the client's network
    thread, after which it takes no more messages *)
Inductive step (s : t) : t -> Prop :=
| step_click e a s' os : available s a = true ->
    perform default_hash keystream display_rtp display_connection debug_gui e a s = Ok (s', os, ()) -> step s s'
| step_frame e events lines s' os rest : batch_ok events ->
    update default_hash display_connection debug_gui debug_reason debug_msg utf8_error show_addr e events lines s = Ok (s', os, rest) ->
    step s s'
| step_paint from_rgb snapshot lp rp render_state l r s' os view :
    paint from_rgb snapshot lp rp render_state l r s = Ok (s', os, view) -> step s s'
| step_lost : signaling_client s = Some true -> step s (set_signaling_client s (Some false)).

Lemma connect_keeps e s : inv s -> on_screen s SignalingScreen.Connect = true ->
  match connect_to_signaling e s with Ok (s', _, _) => inv s' | _ => True end.
Proof.
  intros Hs Ho. apply bool_decide_eq_true in Ho. unfold connect_to_signaling. rewrite bind_get. destruct (Text.trim _) as [| c addr].
  - apply (proj1 (keeps_framed _ (framed_fail _)) s Hs).
  - destruct (connected e); [| apply (proj1 (keeps_framed _ (framed_fail _)) s Hs) | exact Hs].
    rewrite bind_modify. destruct Hs as [H1 H2 H3 H4]. split; cbn; [split; discriminate | | discriminate | exact H4].
    split; [| discriminate]. intros Hu. apply H2 in Hu. congruence.
Qed.
Lemma disconnect_keeps : keeps inv inv disconnect_from_signaling.
Proof.
  pose proof inv_good as G. unfold disconnect_from_signaling. apply (keeps_after inv G); [framed |]. intros s.
  apply (keeps_after inv G); [framed |]. intros _.
  eapply keeps_bind; [apply keeps_modify, cleared_inv | intros _; apply (keeps_frame inv G); framed].
Qed.
Lemma cancel_keeps : keeps inv inv cancel_transfer.
Proof.
  pose proof inv_good as G. unfold cancel_transfer. apply (keeps_after inv G); [framed |]. intros s.
  destruct (file_transfer_state s); try apply keeps_ret; (apply (keeps_after inv G); [framed | intros _]);
    first [apply (keeps_frame inv G); framed; fail
          | apply (keeps_file inv G _ FileTransferState.Idle); [reflexivity | intros ? ? ?; discriminate]].
Qed.
Lemma perform_keeps e a s : inv s -> available s a = true ->
  match perform default_hash keystream display_rtp display_connection debug_gui e a s with Ok (s', _, _) => inv s' | _ => True end.
Proof.
  intros Hs Ha. pose proof inv_good as G. unfold perform. rewrite bind_get.
  destruct a; try (apply (keeps_run inv inv); [| exact Hs]; apply (keeps_frame inv G); unfold send_file, request_peer_list; framed; fail).
  all: try (apply (keeps_run inv inv); [| exact Hs];
            lazymatch goal with
            | |- keeps _ _ disconnect_from_signaling => apply disconnect_keeps
            | |- keeps _ _ (start_outgoing_call _ _ _ _ _) => apply call_keeps
            | |- keeps _ _ (teardown_call _ _ _) => apply (teardown_keeps inv G)
            | |- keeps _ _ (accept_incoming_call _ _ _ _) => apply accept_keeps
            | |- keeps _ _ cancel_transfer => apply cancel_keeps
            end).
  - apply connect_keeps; assumption.
  - unfold decline_incoming_call. apply (keeps_run inv inv); [| exact Hs]. apply (teardown_keeps inv G).
  - apply (keeps_run inv inv); [| exact Hs]. destruct (file_transfer_state s) as [| p | | |]; [apply keeps_ret | | apply keeps_ret ..].
    apply (keeps_after inv G); [framed | intros _]. eapply (keeps_file inv G); [reflexivity | discriminate].
  - apply (keeps_run inv inv); [| exact Hs]. destruct (file_transfer_state s) as [| p | | |]; [apply keeps_ret | | apply keeps_ret ..].
    apply (keeps_after inv G); [framed | intros _]. eapply (keeps_file inv G); [reflexivity | discriminate].
  - apply (keeps_run inv inv); [| exact Hs]. eapply (keeps_file inv G); [reflexivity | discriminate].
Qed.
Lemma update_keeps e events lines s : inv s -> batch_ok events ->
  match update default_hash display_connection debug_gui debug_reason debug_msg utf8_error show_addr e events lines s with
  | Ok (s', _, _) => inv s' | _ => True end.
Proof.
  intros Hs Hb. pose proof inv_good as G. unfold update. rewrite bind_get.
  apply (keeps_after inv G); [| intros _ | exact Hs].
  - intros x. destruct (repaint_time (config x)) as [r | |]; [reflexivity | exact I ..].
  - apply (keeps_after inv G); [framed; apply framed_remote | intros _].
    eapply keeps_bind; [apply poll_engine_keeps |]. intros rest. eapply keeps_bind; [apply poll_keeps, Hb |]. intros _.
    apply (keeps_frame inv G). unfold drain_ui_log_tap. framed.
Qed.
Lemma paint_framed from_rgb snapshot lp rp render_state l r : framed (paint from_rgb snapshot lp rp render_state l r).
Proof.
  assert (Hp : forall A (o : outcome Empty_set A), framed (pure o)).
  { intros A o s. unfold pure. destruct o; [reflexivity | exact I ..]. }
  unfold paint. apply framed_bind; [apply framed_get |]. intros s. destruct (frames_shown s snapshot) as [local remote].
  apply framed_bind.
  - unfold debug_frame_alias_and_size. destruct local as [f |], remote as [g |]; try apply framed_ret.
    destruct (VideoFrame.data f), (VideoFrame.data g); try apply framed_ret.
    apply framed_bind; [destruct (_ && _); [apply framed_emit | apply framed_ret] | intros _].
    do 2 (apply framed_bind; [apply Hp | intros ?]).
    apply framed_bind; [| intros _]; destruct (negb _); first [apply framed_emit | apply framed_ret].
  - intros _. apply framed_bind; [| intros _; apply framed_bind; [apply framed_get | intros; apply framed_ret]].
    destruct render_state; [| apply framed_ret]. unfold textures_for. apply framed_bind; [apply framed_get | intros x].
    apply framed_bind; [apply Hp | intros [lt lr]]. apply framed_bind; [apply framed_modify; reflexivity | intros _].
    apply framed_bind; [apply Hp | intros [rt rr]]. apply framed_modify. reflexivity.
Qed.
Lemma step_keeps s s' : step s s' -> inv s -> inv s'.
Proof.
  intros [e a s1 os Ha H | e events lines s1 os rest Hb H | from_rgb snapshot lp rp render_state l r s1 os view H | Hc] Hs.
  - pose proof (perform_keeps e a s Hs Ha) as Hk. rewrite H in Hk. exact Hk.
  - pose proof (update_keeps e events lines s Hs Hb) as Hk. rewrite H in Hk. exact Hk.
  - pose proof (paint_framed from_rgb snapshot lp rp render_state l r s) as Hk. rewrite H in Hk. exact (inv_core _ _ Hk Hs).
  - destruct Hs as [H1 H2 H3 H4]. split; try assumption. cbn. rewrite <- H1, Hc. split; discriminate.
Qed.
Lemma new_inv cfg e gpu s os : new cfg e gpu = Ok (s, os) -> inv s.
Proof.
  unfold new. destruct (Engine.new _ _ _ _ _ _) as [[x o] | |]; try discriminate. intros [= <- _].
  split; cbn; [split; reflexivity | split; [intros []; discriminate | discriminate] | auto | discriminate].
Qed.

(** C18 The interface is consistent. From the start, whatever buttons are pressed, whatever the server
    and the engine report, whatever is painted and whatever the environment answers: the application shows the connection
    screen exactly when it has no connection to the server, and the home screen exactly when someone is
    logged in; without a connection there is no call and no list of peers; and it never shows a file as
    being sent, because the engine keeps the event that would tell it. *)
Theorem screens_consistent cfg e gpu s0 os s :
  new cfg e gpu = Ok (s0, os) -> rtc step s0 s ->
  (signaling_client s = None <-> signaling_screen s = SignalingScreen.Connect) /\
  (is_Some (current_username s) <-> signaling_screen s = SignalingScreen.Home) /\
  (signaling_screen s = SignalingScreen.Connect -> call_flow s = CallFlow.Idle /\ peers_online s = []) /\
  (forall id name p, file_transfer_state s <> FileTransferState.Sending id name p).
Proof.
  intros H0 Hr. apply new_inv in H0. assert (H : inv s); [| destruct H; auto].
  induction Hr as [| s1 s2 s3 Hs _ IH]; [exact H0 |]. eapply IH, step_keeps; eassumption.
Qed.
End app.

(** ** A login *)
Module Login.
Definition keystream (_ _ : bytes) (_ : nat) : bytes := [].
Definition env : App.env := Demo.caller_env.
Definition started : t :=
  match new Config.empty env true with Ok (s, _) => s | _ => Demo.app env [] CallFlow.Idle end.
Definition click (a : action) (s : t) : t :=
  match perform Call.hash keystream Demo.text Demo.text Demo.text env a s with Ok (s', _, _) => s' | _ => s end.
Definition frame (events : list SignalingEvent.t) (s : t) : t :=
  match update Call.hash Demo.text Demo.text Demo.text Demo.text Demo.text Demo.text env events [] s with Ok (s', _, _) => s' | _ => s end.
Definition final : t :=
  frame [SignalingEvent.Connected; SignalingEvent.ServerMsg (LoginOk (lit "alice"))] (click Connect started).
End Login.

Lemma screens_consistent_witness :
  signaling_screen Login.final = SignalingScreen.Home /\
  (signaling_client Login.final = None <-> signaling_screen Login.final = SignalingScreen.Connect).
Proof.
  split; [vm_compute; reflexivity |].
  assert (H0 : exists os, new Config.empty Login.env true = Ok (Login.started, os)) by (eexists; vm_compute; reflexivity).
  assert (H2 : exists os rest, update Call.hash Demo.text Demo.text Demo.text Demo.text Demo.text Demo.text Login.env
    [SignalingEvent.Connected; SignalingEvent.ServerMsg (LoginOk (lit "alice"))] [] (Login.click Connect Login.started)
      = Ok (Login.final, os, rest)) by (do 2 eexists; vm_compute; reflexivity).
  destruct H0 as [os H0]. destruct H2 as (os2 & rest & H2).
  apply (screens_consistent Call.hash Login.keystream Demo.text Demo.text Demo.text Demo.text Demo.text Demo.text Demo.text
           Config.empty Login.env true Login.started os Login.final H0).
  eapply rtc_l; [| eapply rtc_once, step_frame, H2].
  - eapply (step_click _ _ _ _ _ _ _ _ _ _ Login.env Connect (Login.click Connect Login.started)); vm_compute; reflexivity.
  - intros [| ? [| ? [| ? l]]] r; cbn; discriminate.
Defined.
